(** * glbrush.js: the Picture orchestrator (src/picture.js)

    A shallow embedding of [Picture], the document-level orchestrator of
    glbrush.js: the buffer stack, the merged-away buffers, the shared memory
    budget, undo / redo / remove by session identity, and the line oriented
    serialization.

    Conventions of the embedding.
    - JavaScript objects that are shared and mutated ([PictureBuffer]s) live
      in a store ([Picture.heap]) and are named by their address; the arrays
      [buffers] and [mergedBuffers] and the [mergedBuffer] field of a merge
      event hold addresses, as the JavaScript arrays hold references.
    - Identifiers, indices and session event ids are integers ([Z]); an index
      of -1 is the "not found" value of the source.
    - Quantities the source computes with fractions (undo state budgets,
      priorities, memory in bytes) are exact rationals kept in lowest terms,
      or NaN ([JS.number]).  Infinities and floating point rounding are
      outside the model.
    - The width and the height of a picture, which are printed and read
      back, are held as the decimals JavaScript prints for them
      ([JS.decimal]).
    - An uncaught JavaScript exception (reading a property of [undefined])
      aborts the call: [Throws].  A loop that repeats without changing the
      state is [Diverges].
    - Pixels are not modelled: the rasterizer is an external capability. *)

From Stdlib Require Import ZArith QArith Qround List String Ascii Bool Lia.
From Stdlib Require Import Decimal DecimalString DecimalPos DecimalZ Lqa.
From stdpp Require Import base list.
Import ListNotations.

Open Scope Z_scope.

(** ** JavaScript arrays and numbers *)

Module JS.

(** [arr[i]]: [undefined] ([None]) outside of the array, also for i < 0. *)
Definition index {A : Type} (arr : list A) (i : Z) : option A :=
  if i <? 0 then None else arr !! Z.to_nat i.

(** The start position [Array.prototype.splice] really uses: a negative
    start counts from the end, and the result is clamped to [0, length]. *)
Definition spliceStart {A : Type} (arr : list A) (start : Z) : nat :=
  let len := Z.of_nat (length arr) in
  Z.to_nat (if start <? 0 then Z.max (len + start) 0 else Z.min start len).

(** [arr.splice(start, 1)] *)
Definition spliceOut {A : Type} (arr : list A) (start : Z) : list A :=
  delete (spliceStart arr start) arr.

(** [arr.splice(start, 0, x)] *)
Definition spliceIn {A : Type} (arr : list A) (start : Z) (x : A) : list A :=
  take (spliceStart arr start) arr ++ x :: drop (spliceStart arr start) arr.

(** [arr.push(x)] *)
Definition push {A : Type} (arr : list A) (x : A) : list A := arr ++ [x].

(** Numbers: an exact rational or NaN.  Arithmetic with NaN gives NaN and
    every comparison with NaN is false, as in JavaScript. *)
Inductive number :=
| Num (q : Q)
| NaN.

Definition lift2 (f : Q -> Q -> Q) (a b : number) : number :=
  match a, b with
  | Num x, Num y => Num (Qred (f x y))
  | _, _ => NaN
  end.

Definition sub : number -> number -> number := lift2 Qminus.
Definition add : number -> number -> number := lift2 Qplus.
Definition mul : number -> number -> number := lift2 Qmult.

(** [a > b] and [a < b] *)
Definition gt (a b : number) : bool :=
  match a, b with
  | Num x, Num y => negb (Qle_bool x y)
  | _, _ => false
  end.
Definition lt (a b : number) : bool := gt b a.

(** [Math.floor] *)
Definition floor (a : number) : number :=
  match a with
  | Num x => Num (inject_Z (Qfloor x))
  | NaN => NaN
  end.

Definition ofZ (z : Z) : number := Num (inject_Z z).
Definition ofNat (n : nat) : number := Num (inject_Z (Z.of_nat n)).

(** A parsed integer, or NaN. *)
Definition ofParsed (z : option Z) : number :=
  match z with
  | Some n => ofZ n
  | None => NaN
  end.

(** Decimal fractions of the source: [tenths 15] is 1.5. *)
Definition tenths (n : Z) : number := Num (Qred (n # 10)).

(** Numbers that are printed and read back: the width and the height of a
    picture.  A finite number is held as the decimal that JavaScript prints
    for it, which is the shortest one that reads back as the same number:
    [Dec m e] is m * 10^e, so that 10.5 is [Dec 105 (-1)] and 1e21 is
    [Dec 1 21]; zero, whatever its sign, is [Dec 0 e].  [DecNaN] is NaN. *)
Inductive decimal :=
| Dec (significand exponent : Z)
| DecNaN.

(** An integer. *)
Definition whole (z : Z) : decimal := Dec z 0.

(** An integer, or NaN: the result of [parseInt]. *)
Definition parsed (z : option Z) : decimal :=
  match z with
  | Some n => whole n
  | None => DecNaN
  end.

(** The number, for arithmetic. *)
Definition ofDecimal (d : decimal) : number :=
  match d with
  | Dec m e => Num (Qred (inject_Z m * inject_Z 10 ^ e)%Q)
  | DecNaN => NaN
  end.

End JS.

(** ** Text: lines, words and numbers *)

Module Text.

Open Scope string_scope.

Definition newline : ascii := "010"%char.
Definition carriageReturn : ascii := "013"%char.
Definition space : ascii := " "%char.

(** [s.split(/\r?\n/)] *)
Fixpoint lines (s : string) : list string :=
  match s with
  | EmptyString => [EmptyString]
  | String c rest =>
    if Ascii.eqb c newline then EmptyString :: lines rest
    else
      match rest with
      | String c' rest' =>
        if Ascii.eqb c carriageReturn && Ascii.eqb c' newline
        then EmptyString :: lines rest'
        else
          match lines rest with
          | first :: others => String c first :: others
          | [] => [String c EmptyString]
          end
      | EmptyString => [String c EmptyString]
      end
  end.

(** [s.split(sep)] for a separator of one character *)
Fixpoint split (sep : ascii) (s : string) : list string :=
  match s with
  | EmptyString => [EmptyString]
  | String c rest =>
    if Ascii.eqb c sep then EmptyString :: split sep rest
    else
      match split sep rest with
      | first :: others => String c first :: others
      | [] => [String c EmptyString]
      end
  end.

(** [arr.join(sep)] *)
Definition join (sep : string) (arr : list string) : string := String.concat sep arr.

(** An integer in decimal, as string concatenation prints it. *)
Definition showZ (z : Z) : string := NilZero.string_of_int (Z.to_int z).

(** A whole word read as a decimal integer. *)
Definition readZ (s : string) : option Z :=
  match NilZero.int_of_string s with
  | Some d => Some (Z.of_int d)
  | None => None
  end.

Definition isDigit (c : ascii) : bool :=
  let n := nat_of_ascii c in (48 <=? n)%nat && (n <=? 57)%nat.

Fixpoint digitsPrefix (s : string) : string :=
  match s with
  | String c rest => if isDigit c then String c (digitsPrefix rest) else EmptyString
  | EmptyString => EmptyString
  end.

(** [parseInt(word)]: an optional sign and the longest run of digits that
    follows; NaN ([None]) when there is no digit, or when the word is
    [undefined].  Leading white space and the hexadecimal prefix are not
    modelled. *)
Definition parseInt (word : option string) : option Z :=
  match word with
  | None => None
  | Some s =>
    let '(negative, body) :=
      match s with
      | String "-" rest => (true, rest)
      | String "+" rest => (false, rest)
      | _ => (false, s)
      end in
    match digitsPrefix body with
    | EmptyString => None
    | ds =>
      match NilEmpty.uint_of_string ds with
      | Some u => Some (if negative : bool then - Z.of_uint u else Z.of_uint u)
      | None => None
      end
    end
  end.

(** A run of digits without the zeros at its end. *)
Fixpoint dropTrailingZeros (digits : string) : string :=
  match digits with
  | EmptyString => EmptyString
  | String c rest =>
    match dropTrailingZeros rest with
    | EmptyString => if Ascii.eqb c "0"%char then EmptyString else String c EmptyString
    | rest' => String c rest'
    end
  end.

Fixpoint zeros (n : nat) : string :=
  match n with
  | O => EmptyString
  | S n' => String "0"%char (zeros n')
  end.

(** ['' + x] for x = m * 10^e with m > 0 (Number::toString of ECMAScript).
    With s the digits of x without trailing zeros, k their number and n the
    position of the decimal point after the first digit of s: the digits
    alone, followed by zeros, up to 21 digits before the point; the digits
    with a point inside; the digits after "0." and up to five zeros; and
    the exponent form otherwise. *)
Definition showPositive (m e : Z) : string :=
  let all := showZ m in
  let s := dropTrailingZeros all in
  let k := Z.of_nat (String.length s) in
  let n := Z.of_nat (String.length all) + e in
  if (k <=? n)%Z && (n <=? 21)%Z then s ++ zeros (Z.to_nat (n - k))
  else if (0 <? n)%Z && (n <=? 21)%Z then
    substring 0 (Z.to_nat n) s ++ "." ++ substring (Z.to_nat n) (Z.to_nat (k - n)) s
  else if (-6 <? n)%Z && (n <=? 0)%Z then "0." ++ zeros (Z.to_nat (- n)) ++ s
  else
    let exponent := (if (n - 1 <? 0)%Z then "-" else "+") ++ showZ (Z.abs (n - 1)) in
    if (k =? 1)%Z then s ++ "e" ++ exponent
    else substring 0 1 s ++ "." ++ substring 1 (Z.to_nat (k - 1)) s ++ "e" ++ exponent.

(** ['' + x]: "NaN", "0" for a zero, and a minus sign before the digits of
    a negative number. *)
Definition showNumber (x : JS.decimal) : string :=
  match x with
  | JS.DecNaN => "NaN"
  | JS.Dec m e =>
    if (m =? 0)%Z then "0"
    else if (m <? 0)%Z then "-" ++ showPositive (- m) e
    else showPositive m e
  end.

End Text.

(** ** Events *)

Module PictureEvent.

Inductive EventType :=
| brush | scatter | gradient
| bufferAdd | bufferRemove | bufferMove | bufferMerge
| eventHide.

Definition EventType_eqb (a b : EventType) : bool :=
  match a, b with
  | brush, brush | scatter, scatter | gradient, gradient
  | bufferAdd, bufferAdd | bufferRemove, bufferRemove
  | bufferMove, bufferMove | bufferMerge, bufferMerge
  | eventHide, eventHide => true
  | _, _ => false
  end.

(** What the [mergedBuffer] field of a merge event can hold: a reference to
    a buffer object, the placeholder [{id: ..., isDummy: true}] a parsed
    event carries until it is pushed, or [undefined]. *)
Inductive BufferValue :=
| BufferObject (address : nat)
| DummyBuffer (dummyId : Z)
| undefined.

(** Kind-specific payload.  The drawing parameters of strokes and gradients
    (colour, flow, opacity, radius, softness, mode, coordinates) are opaque
    to the orchestrator and kept as a list of numbers. *)
Inductive Payload :=
| Brush (params : list Z)
| Scatter (params : list Z)
| Gradient (params : list Z)
| BufferAdd (bufferId : Z) (hasAlpha : bool) (clearColor : list Z) (opacity : Z)
| BufferRemove (bufferId : Z)
| BufferMove (movedId fromIndex toIndex : Z)
| BufferMerge (opacity : Z) (mergedBuffer : BufferValue)
| EventHide (hiddenSid hiddenSessionEventId : Z).

Record t := mk {
  sid : Z;
  sessionEventId : Z;
  undone : bool;
  insertionPoint : option Z;
  payload : Payload
}.

Definition eventType (e : t) : EventType :=
  match payload e with
  | Brush _ => brush
  | Scatter _ => scatter
  | Gradient _ => gradient
  | BufferAdd _ _ _ _ => bufferAdd
  | BufferRemove _ => bufferRemove
  | BufferMove _ _ _ => bufferMove
  | BufferMerge _ _ => bufferMerge
  | EventHide _ _ => eventHide
  end.

Definition isType (ty : EventType) (e : t) : bool := EventType_eqb (eventType e) ty.

Definition setUndone (u : bool) (e : t) : t :=
  mk (sid e) (sessionEventId e) u (insertionPoint e) (payload e).

Definition setInsertionPoint (ip : option Z) (e : t) : t :=
  mk (sid e) (sessionEventId e) (undone e) ip (payload e).

Definition setMergedBuffer (v : BufferValue) (e : t) : t :=
  match payload e with
  | BufferMerge o _ => mk (sid e) (sessionEventId e) (undone e) (insertionPoint e) (BufferMerge o v)
  | _ => e
  end.

(** [event.mergedBuffer] ([undefined] on events that are not merges). *)
Definition mergedBuffer (e : t) : BufferValue :=
  match payload e with
  | BufferMerge _ v => v
  | _ => undefined
  end.

(** Modelled from the spec: [PictureEvent.prototype.isBufferStackChange] of
    the missing picture_event.js; the layer-add/remove/move/merge kinds are
    the ones that change the stack topology. *)
Definition isBufferStackChange (e : t) : bool :=
  match eventType e with
  | bufferAdd | bufferRemove | bufferMove | bufferMerge => true
  | _ => false
  end.

(** Does the event carry the identity (sid, sessionEventId)? *)
Definition hasIdentity (s i : Z) (e : t) : bool :=
  (sid e =? s) && (sessionEventId e =? i).

(** *** The line of an event

    picture_event.js is not part of the sources at hand.  The specification
    fixes what a line holds: "each line self-describing its kind, session
    identity, undone flag, and kind-specific parameters".  The words of a
    line are, in this order: the kind, sid, sessionEventId, the undone flag
    (0 or 1), and the parameters of the kind. *)

Open Scope string_scope.
Open Scope list_scope.

Definition typeName (ty : EventType) : string :=
  match ty with
  | brush => "brush"
  | scatter => "scatter"
  | gradient => "gradient"
  | bufferAdd => "bufferAdd"
  | bufferRemove => "bufferRemove"
  | bufferMove => "bufferMove"
  | bufferMerge => "bufferMerge"
  | eventHide => "eventHide"
  end.

Definition showBool (b : bool) : string := if b then "1" else "0".

Definition readBool (s : string) : option bool :=
  if String.eqb s "1" then Some true
  else if String.eqb s "0" then Some false
  else None.

(** Modelled from the spec: the words of [PictureEvent.prototype.serialize]
    of the missing picture_event.js.  A merge event names the merged buffer
    by its id; [idOfBuffer] reads the id of a buffer object, and [None] is
    the TypeError of reading [id] of [undefined]. *)
Definition words (idOfBuffer : nat -> option Z) (e : t) : option (list string) :=
  let common :=
    [typeName (eventType e); Text.showZ (sid e); Text.showZ (sessionEventId e);
     showBool (undone e)] in
  match payload e with
  | Brush ps | Scatter ps | Gradient ps => Some (common ++ map Text.showZ ps)
  | BufferAdd bid alpha color op =>
    Some (common ++ [Text.showZ bid; showBool alpha;
                     Text.showNumber (JS.parsed (insertionPoint e)); Text.showZ op]
                 ++ map Text.showZ color)
  | BufferRemove bid => Some (common ++ [Text.showZ bid])
  | BufferMove moved from to =>
    Some (common ++ [Text.showZ moved; Text.showZ from; Text.showZ to])
  | BufferMerge op merged =>
    match
      match merged with
      | BufferObject r => idOfBuffer r
      | DummyBuffer i => Some i
      | undefined => None
      end
    with
    | Some mergedId => Some (common ++ [Text.showZ op; Text.showZ mergedId])
    | None => None
    end
  | EventHide hs hi => Some (common ++ [Text.showZ hs; Text.showZ hi])
  end.

(** Modelled from the spec: [PictureEvent.prototype.serialize] of the
    missing picture_event.js: the words of the event on one line. *)
Definition serialize (idOfBuffer : nat -> option Z) (e : t) : option string :=
  match words idOfBuffer e with
  | Some ws => Some (Text.join " " ws)
  | None => None
  end.

Definition readAll (ws : list string) : option (list Z) := mapM Text.readZ ws.

Definition parsePayload (kind : string) (rest : list string)
  : option (option Z * Payload) :=
  if String.eqb kind "brush" then ps ← readAll rest; Some (None, Brush ps)
  else if String.eqb kind "scatter" then ps ← readAll rest; Some (None, Scatter ps)
  else if String.eqb kind "gradient" then ps ← readAll rest; Some (None, Gradient ps)
  else if String.eqb kind "bufferAdd" then
    match rest with
    | bid :: alpha :: ip :: op :: color =>
      bid ← Text.readZ bid; alpha ← readBool alpha; ip ← Text.readZ ip;
      op ← Text.readZ op; color ← readAll color;
      Some (Some ip, BufferAdd bid alpha color op)
    | _ => None
    end
  else if String.eqb kind "bufferRemove" then
    match rest with
    | [bid] => bid ← Text.readZ bid; Some (None, BufferRemove bid)
    | _ => None
    end
  else if String.eqb kind "bufferMove" then
    match rest with
    | [moved; from; to] =>
      moved ← Text.readZ moved; from ← Text.readZ from; to ← Text.readZ to;
      Some (None, BufferMove moved from to)
    | _ => None
    end
  else if String.eqb kind "bufferMerge" then
    match rest with
    | [op; merged] =>
      op ← Text.readZ op; merged ← Text.readZ merged;
      Some (None, BufferMerge op (DummyBuffer merged))
    | _ => None
    end
  else if String.eqb kind "eventHide" then
    match rest with
    | [hs; hi] => hs ← Text.readZ hs; hi ← Text.readZ hi; Some (None, EventHide hs hi)
    | _ => None
    end
  else None.

(** Modelled from the spec: [PictureEvent.parse(arr, 0, version)] of the
    missing picture_event.js, on the words of one line.  A line that is not
    the line of a supported event gives [null] ([None]); a merge event comes
    back with the placeholder [{id: ..., isDummy: true}] for its buffer.
    Only the current format version is modelled. *)
Definition parse (arr : list string) : option t :=
  match arr with
  | kind :: s :: i :: u :: rest =>
    s ← Text.readZ s; i ← Text.readZ i; u ← readBool u;
    '(ip, pl) ← parsePayload kind rest;
    Some (mk s i u ip pl)
  | _ => None
  end.

End PictureEvent.

(** ** Buffers (layers)

    picture_buffer.js is not part of the sources at hand; [Picture] only
    calls into it.  The record below holds the fields [Picture] reads and
    writes, and the methods are modelled from the specification. *)

Module PictureBuffer.

(** A retained undo state (checkpoint): the log position it stands for and
    its regeneration cost. *)
Record UndoState := mkUndoState {
  index : Z;
  cost : Z
}.

Record t := mk {
  id : Z;
  events : list PictureEvent.t;
  hasAlpha : bool;
  undoStateBudget : JS.number;
  undoStates : list UndoState;
  undoStateInterval : Z;
  freed : bool;
  mergedTo : option nat;
  insertionPoint : option Z;
  stateMemoryBytes : JS.number
}.

Definition setEvents (evs : list PictureEvent.t) (b : t) : t :=
  mk (id b) evs (hasAlpha b) (undoStateBudget b) (undoStates b)
     (undoStateInterval b) (freed b) (mergedTo b) (insertionPoint b)
     (stateMemoryBytes b).

Definition setUndoStates (us : list UndoState) (b : t) : t :=
  mk (id b) (events b) (hasAlpha b) (undoStateBudget b) us
     (undoStateInterval b) (freed b) (mergedTo b) (insertionPoint b)
     (stateMemoryBytes b).

Definition setBudget (n : JS.number) (b : t) : t :=
  mk (id b) (events b) (hasAlpha b) n (undoStates b)
     (undoStateInterval b) (freed b) (mergedTo b) (insertionPoint b)
     (stateMemoryBytes b).

Definition setFreed (f : bool) (b : t) : t :=
  mk (id b) (events b) (hasAlpha b) (undoStateBudget b) (undoStates b)
     (undoStateInterval b) f (mergedTo b) (insertionPoint b)
     (stateMemoryBytes b).

Definition setMergedTo (m : option nat) (b : t) : t :=
  mk (id b) (events b) (hasAlpha b) (undoStateBudget b) (undoStates b)
     (undoStateInterval b) (freed b) m (insertionPoint b)
     (stateMemoryBytes b).

Definition setInsertionPoint (ip : option Z) (b : t) : t :=
  mk (id b) (events b) (hasAlpha b) (undoStateBudget b) (undoStates b)
     (undoStateInterval b) (freed b) (mergedTo b) ip
     (stateMemoryBytes b).

(** Modelled from the spec: [isRemoved] of the missing picture_buffer.js.
    "removed: derived from whether its LayerRemove-type event is active":
    the log holds a remove event that is not undone. *)
Definition isRemoved (b : t) : bool :=
  existsb (fun e => PictureEvent.isType PictureEvent.bufferRemove e
                    && negb (PictureEvent.undone e)) (events b).

(** Modelled from the spec: [getStateMemoryBytes] of the missing
    picture_buffer.js, the memory cost of one bitmap state of the buffer. *)
Definition getStateMemoryBytes (b : t) : JS.number := stateMemoryBytes b.

(** Modelled from the spec: [getMemoryNeededForReservingStates] of the missing
    picture_buffer.js: the live bitmap plus one state per unit of budget,
    which is what [Picture.createBuffer] reserves for a new buffer. *)
Definition getMemoryNeededForReservingStates (b : t) : JS.number :=
  JS.mul (stateMemoryBytes b) (JS.add (undoStateBudget b) (JS.ofZ 1)).

(** Eviction: the oldest retained states go first until the count fits. *)
Fixpoint evict (n : JS.number) (us : list UndoState) : list UndoState :=
  match us with
  | [] => []
  | u :: rest => if JS.gt (JS.ofNat (length us)) n then evict n rest else us
  end.

(** Modelled from the spec: [setUndoStateBudget] of the missing
    picture_buffer.js.  "adjusts the cap; if the current count exceeds n,
    evicts the lowest-priority checkpoints first". *)
Definition setUndoStateBudget (n : JS.number) (b : t) : t :=
  setUndoStates (evict n (undoStates b)) (setBudget n b).

(** Modelled from the spec: [free] of the missing picture_buffer.js.  The
    live bitmap and the undo states are released; the log stays. *)
Definition free (b : t) : t := setFreed true (setUndoStates [] b).

(** Modelled from the spec: [regenerate] of the missing picture_buffer.js:
    "freeing is reversible via regenerate(), which replays the entire log". *)
Definition regenerate (b : t) : t := setFreed false b.

Fixpoint indexFrom (s i : Z) (evs : list PictureEvent.t) (k : Z) : Z :=
  match evs with
  | [] => -1
  | e :: rest => if PictureEvent.hasIdentity s i e then k else indexFrom s i rest (k + 1)
  end.

(** Modelled from the spec: [eventIndexBySessionId] of the missing
    picture_buffer.js: "lookup by identity"; -1 when the log holds no event
    with that identity. *)
Definition eventIndexBySessionId (b : t) (s i : Z) : Z := indexFrom s i (events b) 0.

(** Is the event a candidate of [findLatest]? *)
Definition isCandidate (s : Z) (canBeUndone : bool) (e : PictureEvent.t) : bool :=
  (PictureEvent.sid e =? s) && (canBeUndone || negb (PictureEvent.undone e)).

Fixpoint latestFrom (s : Z) (canBeUndone : bool) (evs : list PictureEvent.t)
  (k : Z) (best : option (Z * Z)) : option (Z * Z) :=
  match evs with
  | [] => best
  | e :: rest =>
    let best' :=
      if isCandidate s canBeUndone e then
        match best with
        | None => Some (k, PictureEvent.sessionEventId e)
        | Some (_, bestId) =>
          if bestId <? PictureEvent.sessionEventId e
          then Some (k, PictureEvent.sessionEventId e) else best
        end
      else best in
    latestFrom s canBeUndone rest (k + 1) best'
  end.

(** Modelled from the spec: [findLatest] of the missing picture_buffer.js:
    "highest sessionEventId event belonging to a session"; the index of that
    event, or -1 when the session has no (eligible) event in this log. *)
Definition findLatest (b : t) (s : Z) (canBeUndone : bool) : Z :=
  match latestFrom s canBeUndone (events b) 0 None with
  | Some (k, _) => k
  | None => -1
  end.

(** Checkpoints positioned after a changed log position are dropped. *)
Definition invalidateAfter (i : Z) (us : list UndoState) : list UndoState :=
  filter (fun u => index u <=? i) us.

(** The log position of the newest retained checkpoint (0: the empty state). *)
Definition lastStateIndex (us : list UndoState) : Z :=
  match last us with
  | Some u => index u
  | None => 0
  end.

(** Modelled from the spec: [pushEvent] of the missing picture_buffer.js:
    "appends at the end of the log ... may trigger checkpoint creation if the
    distance since the last checkpoint exceeds a fixed interval". *)
Definition pushEvent (e : PictureEvent.t) (b : t) : t :=
  let evs := JS.push (events b) e in
  let len := Z.of_nat (length evs) in
  let dist := len - lastStateIndex (undoStates b) in
  let us :=
    if (undoStateInterval b <=? dist) && negb (freed b)
    then evict (undoStateBudget b) (JS.push (undoStates b) (mkUndoState len dist))
    else undoStates b in
  setUndoStates us (setEvents evs b).

(** Modelled from the spec: [undoEventIndex] of the missing picture_buffer.js:
    "marks the event at index as undone = true"; checkpoints after the
    position are invalidated.  The caller in picture.js passes
    [allowUndoMerge] and documents the result as "Undone event or null if
    couldn't undo": a merge event is refused when merges may not be undone.
    [None] stands for a position outside of the log. *)
Definition undoEventIndex (i : Z) (allowUndoMerge : bool) (b : t)
  : option (option PictureEvent.t * t) :=
  match JS.index (events b) i with
  | None => None
  | Some e =>
    if PictureEvent.isType PictureEvent.bufferMerge e && negb allowUndoMerge
    then Some (None, b)
    else
      let e' := PictureEvent.setUndone true e in
      Some (Some e',
            setUndoStates (invalidateAfter i (undoStates b))
              (setEvents (<[Z.to_nat i := e']> (events b)) b))
  end.

(** Modelled from the spec: [redoEventIndex] of the missing picture_buffer.js:
    "inverse of undo": the event is marked not undone. *)
Definition redoEventIndex (i : Z) (b : t) : option t :=
  match JS.index (events b) i with
  | None => None
  | Some e =>
    Some (setUndoStates (invalidateAfter i (undoStates b))
            (setEvents (<[Z.to_nat i := PictureEvent.setUndone false e]> (events b)) b))
  end.

(** Modelled from the spec: [removeEventIndex] of the missing
    picture_buffer.js: "permanently deletes an event from the log";
    "invalidates checkpoints at or after its position". *)
Definition removeEventIndex (i : Z) (b : t) : t :=
  setUndoStates (invalidateAfter (i - 1) (undoStates b))
    (setEvents (JS.spliceOut (events b) i) b).

End PictureBuffer.

(** ** The picture *)

Module Picture.

Record t := mk {
  (** the buffer objects, by address *)
  heap : list PictureBuffer.t;
  (** [this.buffers]: the active stack, bottom first *)
  buffers : list nat;
  (** [this.mergedBuffers] *)
  mergedBuffers : list nat;
  activeSid : Z;
  activeSessionEventId : Z;
  memoryBudget : JS.number;
  memoryUse : JS.number;
  (** [this.width()], [this.height()] *)
  width : JS.decimal;
  height : JS.decimal;
  bitmapScale : JS.number;
  (** [null] until [Picture.parse] sets it *)
  parsedVersion : option JS.number;
  (** [Picture.parse] shadows [moveBufferInternal] with [function() {}]
      while it runs *)
  moveBufferInternalShadowed : bool;
  (** the [undoStateInterval] the missing buffer constructor gives to a new
      buffer *)
  newUndoStateInterval : Z
}.

Definition setHeap (h : list PictureBuffer.t) (p : t) : t :=
  mk h (buffers p) (mergedBuffers p) (activeSid p) (activeSessionEventId p)
     (memoryBudget p) (memoryUse p) (width p) (height p) (bitmapScale p)
     (parsedVersion p) (moveBufferInternalShadowed p) (newUndoStateInterval p).

Definition setBuffers (bs : list nat) (p : t) : t :=
  mk (heap p) bs (mergedBuffers p) (activeSid p) (activeSessionEventId p)
     (memoryBudget p) (memoryUse p) (width p) (height p) (bitmapScale p)
     (parsedVersion p) (moveBufferInternalShadowed p) (newUndoStateInterval p).

Definition setMergedBuffers (ms : list nat) (p : t) : t :=
  mk (heap p) (buffers p) ms (activeSid p) (activeSessionEventId p)
     (memoryBudget p) (memoryUse p) (width p) (height p) (bitmapScale p)
     (parsedVersion p) (moveBufferInternalShadowed p) (newUndoStateInterval p).

Definition setSession (s i : Z) (p : t) : t :=
  mk (heap p) (buffers p) (mergedBuffers p) s i
     (memoryBudget p) (memoryUse p) (width p) (height p) (bitmapScale p)
     (parsedVersion p) (moveBufferInternalShadowed p) (newUndoStateInterval p).

Definition setMemoryUse (m : JS.number) (p : t) : t :=
  mk (heap p) (buffers p) (mergedBuffers p) (activeSid p) (activeSessionEventId p)
     (memoryBudget p) m (width p) (height p) (bitmapScale p)
     (parsedVersion p) (moveBufferInternalShadowed p) (newUndoStateInterval p).

Definition setParsedVersion (v : option JS.number) (p : t) : t :=
  mk (heap p) (buffers p) (mergedBuffers p) (activeSid p) (activeSessionEventId p)
     (memoryBudget p) (memoryUse p) (width p) (height p) (bitmapScale p)
     v (moveBufferInternalShadowed p) (newUndoStateInterval p).

Definition setShadowed (s : bool) (p : t) : t :=
  mk (heap p) (buffers p) (mergedBuffers p) (activeSid p) (activeSessionEventId p)
     (memoryBudget p) (memoryUse p) (width p) (height p) (bitmapScale p)
     (parsedVersion p) s (newUndoStateInterval p).

(** *** Methods as state transformers *)

Inductive outcome (A : Type) :=
| Returns (a : A) (p : t)
| Throws
| Diverges.

Arguments Returns {A} a p.
Arguments Throws {A}.
Arguments Diverges {A}.

Definition M (A : Type) : Type := t -> outcome A.

Definition ret {A : Type} (a : A) : M A := fun p => Returns a p.

Definition bind {A B : Type} (m : M A) (k : A -> M B) : M B :=
  fun p =>
    match m p with
    | Returns a p' => k a p'
    | Throws => Throws
    | Diverges => Diverges
    end.

Definition throw {A : Type} : M A := fun _ => Throws.
Definition get : M t := fun p => Returns p p.
Definition modify (f : t -> t) : M unit := fun p => Returns tt (f p).

Declare Scope picture_scope.
Delimit Scope picture_scope with picture.
Notation "'let*' x ':=' m 'in' k" := (bind m (fun x => k))
  (at level 10, x pattern, m at level 100, k at level 200) : picture_scope.
Notation "m ';;' k" := (bind m (fun _ => k))
  (at level 100, k at level 200, right associativity) : picture_scope.
Open Scope picture_scope.

(** Reading a field or calling a method of a value that may be [undefined]. *)
Definition defined {A : Type} (v : option A) : M A :=
  match v with
  | Some a => ret a
  | None => throw
  end.

(** The buffer object at an address. *)
Definition load (r : nat) : M PictureBuffer.t :=
  fun p => defined (heap p !! r) p.

(** In-place update of the buffer object at an address. *)
Definition update (r : nat) (f : PictureBuffer.t -> PictureBuffer.t) : M unit :=
  let* b := load r in
  modify (fun p => setHeap (<[r := f b]> (heap p)) p).

(** [new PictureBuffer(...)]: a fresh object. *)
Definition alloc (b : PictureBuffer.t) : M nat :=
  fun p => Returns (length (heap p)) (setHeap (heap p ++ [b]) p).

(** [arr[i]] where the result is used as an object. *)
Definition at_ (arr : list nat) (i : Z) : M nat := defined (JS.index arr i).

(** *** Finding buffers *)

Fixpoint findBufferIndexFrom (h : list PictureBuffer.t) (arr : list nat)
  (id : Z) (i : Z) : option Z :=
  match arr with
  | [] => Some (-1)
  | r :: rest =>
    match h !! r with
    | None => None
    | Some b =>
      if PictureBuffer.id b =? id then Some i
      else findBufferIndexFrom h rest id (i + 1)
    end
  end.

Definition findBufferIndex (arr : list nat) (id : Z) : M Z :=
  fun p => defined (findBufferIndexFrom (heap p) arr id 0) p.

Definition findBuffer (id : Z) : M (option nat) :=
  let* p := get in
  let* ind := findBufferIndex (buffers p) id in
  if negb (ind =? -1) then ret (JS.index (buffers p) ind)
  else
    let* ind := findBufferIndex (mergedBuffers p) id in
    if negb (ind =? -1) then ret (JS.index (mergedBuffers p) ind)
    else ret None.

(** *** Sessions and event creation *)

Record Latest := mkLatest {
  eventIndex : Z;
  bufferIndex : Z;
  sessionEventId : Z;
  inRemovedBuffer : bool
}.

(** The running variables of [findLatest]. *)
Record LatestAcc := mkLatestAcc {
  latestIdx : Z;
  latestBufferIndex : Z;
  latestId : Z;
  latestInRemovedBuffer : bool
}.

Fixpoint findLatestIn (h : list PictureBuffer.t) (arr : list nat) (merged : bool)
  (sid : Z) (canBeUndone : bool) (i : Z) (acc : LatestAcc) : option LatestAcc :=
  match arr with
  | [] => Some acc
  | r :: rest =>
    match h !! r with
    | None => None
    | Some b =>
      let candidateIndex := PictureBuffer.findLatest b sid canBeUndone in
      if 0 <=? candidateIndex then
        match JS.index (PictureBuffer.events b) candidateIndex with
        | None => None
        | Some e =>
          if latestId acc <? PictureEvent.sessionEventId e
          then findLatestIn h rest merged sid canBeUndone (i + 1)
                 (mkLatestAcc candidateIndex i (PictureEvent.sessionEventId e)
                    (merged || latestInRemovedBuffer acc))
          else findLatestIn h rest merged sid canBeUndone (i + 1) acc
        end
      else findLatestIn h rest merged sid canBeUndone (i + 1) acc
    end
  end.

Definition findLatest (sid : Z) (canBeUndone : bool) : M (option Latest) :=
  let* p := get in
  let* acc := defined (findLatestIn (heap p) (buffers p) false sid canBeUndone 0
                         (mkLatestAcc 0 0 (-1) false)) in
  let* acc := defined (findLatestIn (heap p) (mergedBuffers p) true sid canBeUndone 0 acc) in
  if 0 <=? latestId acc
  then ret (Some (mkLatest (latestIdx acc) (latestBufferIndex acc) (latestId acc)
                    (latestInRemovedBuffer acc)))
  else ret None.

Definition setActiveSession (sid : Z) : M unit :=
  modify (setSession sid 0);;
  let* latest := findLatest sid true in
  match latest with
  | Some l => modify (fun p => setSession (activeSid p) (sessionEventId l + 1) p)
  | None => ret tt
  end.

(** The common part of the [create...Event] methods: a not undone event with
    the active session's identity, and the session counter incremented. *)
Definition createEvent (ip : option Z) (payload : PictureEvent.Payload) : M PictureEvent.t :=
  let* p := get in
  let event := PictureEvent.mk (activeSid p) (activeSessionEventId p) false ip payload in
  modify (fun p => setSession (activeSid p) (activeSessionEventId p + 1) p);;
  ret event.

Definition createBrushEvent (params : list Z) : M PictureEvent.t :=
  createEvent None (PictureEvent.Brush params).

Definition createScatterEvent (params : list Z) : M PictureEvent.t :=
  createEvent None (PictureEvent.Scatter params).

Definition createGradientEvent (params : list Z) : M PictureEvent.t :=
  createEvent None (PictureEvent.Gradient params).

Definition createBufferAddEvent (id : Z) (hasAlpha : bool) (clearColor : list Z)
  : M PictureEvent.t :=
  createEvent (Some 0) (PictureEvent.BufferAdd id hasAlpha clearColor 1).

Definition createBufferRemoveEvent (id : Z) : M PictureEvent.t :=
  createEvent None (PictureEvent.BufferRemove id).

Definition createBufferMoveEvent (movedId toIndex : Z) : M PictureEvent.t :=
  let* p := get in
  let* fromIndex := findBufferIndex (buffers p) movedId in
  createEvent None (PictureEvent.BufferMove movedId fromIndex toIndex).

Definition createMergeEvent (mergedBufferIndex : Z) (opacity : Z) : M PictureEvent.t :=
  let* p := get in
  let merged :=
    match JS.index (buffers p) mergedBufferIndex with
    | Some r => PictureEvent.BufferObject r
    | None => PictureEvent.undefined
    end in
  createEvent None (PictureEvent.BufferMerge opacity merged).

Definition createEventHideEvent (hiddenSid hiddenSessionEventId : Z) : M PictureEvent.t :=
  createEvent None (PictureEvent.EventHide hiddenSid hiddenSessionEventId).

(** *** The memory budget *)

Definition bufferFreeingPriority (buffer : PictureBuffer.t) : JS.number :=
  let priority := PictureBuffer.undoStateBudget buffer in
  let priority :=
    if (PictureBuffer.isRemoved buffer || bool_decide (PictureBuffer.mergedTo buffer <> None))
       && JS.gt (PictureBuffer.undoStateBudget buffer) (JS.ofZ 1)
    then JS.add priority (JS.sub (PictureBuffer.undoStateBudget buffer) (JS.tenths 15))
    else priority in
  JS.sub priority
    (JS.mul (JS.ofNat (length (PictureBuffer.undoStates buffer))) (JS.tenths 1)).

(** The variables the two [for] loops of [stayWithinMemoryBudget] update. *)
Record Selection := mkSelection {
  freeingPossible : bool;
  selectedBuffer : option nat;
  selectedPriority : JS.number
}.

(** One candidate found: [freeingPossible = true], and the candidate is
    selected when its priority is higher than the selected one. *)
Definition consider (r : nat) (b : PictureBuffer.t) (sel : Selection) : Selection :=
  let priority := bufferFreeingPriority b in
  if JS.gt priority (selectedPriority sel)
  then mkSelection true (Some r) priority
  else mkSelection true (selectedBuffer sel) (selectedPriority sel).

(** The loop over [this.buffers]. *)
Fixpoint scanBuffers (h : list PictureBuffer.t) (arr : list nat) (sel : Selection)
  : option Selection :=
  match arr with
  | [] => Some sel
  | r :: rest =>
    match h !! r with
    | None => None
    | Some b =>
      if JS.gt (PictureBuffer.undoStateBudget b) (JS.ofZ 1) && negb (PictureBuffer.freed b)
      then scanBuffers h rest (consider r b sel)
      else scanBuffers h rest sel
    end
  end.

(** The loop over [this.mergedBuffers].  Its guard reads
    [this.mergedBuffers[i].undoStateBudget > 1 && !this.buffers[i].freed]:
    the second operand indexes the active stack [bufs], and is only
    evaluated when the first one holds.  [None] is the TypeError of reading
    [freed] of [undefined]. *)
Fixpoint scanMergedBuffers (h : list PictureBuffer.t) (bufs : list nat)
  (arr : list nat) (i : Z) (sel : Selection) : option Selection :=
  match arr with
  | [] => Some sel
  | r :: rest =>
    match h !! r with
    | None => None
    | Some b =>
      if JS.gt (PictureBuffer.undoStateBudget b) (JS.ofZ 1) then
        match JS.index bufs i with
        | None => None
        | Some a =>
          match h !! a with
          | None => None
          | Some other =>
            if negb (PictureBuffer.freed other)
            then scanMergedBuffers h bufs rest (i + 1) (consider r b sel)
            else scanMergedBuffers h bufs rest (i + 1) sel
          end
        end
      else scanMergedBuffers h bufs rest (i + 1) sel
    end
  end.

(** One pass of the two loops, starting from [freeingPossible = false],
    [selectedBuffer = null], [selectedPriority = 0]. *)
Definition select (p : t) : option Selection :=
  match scanBuffers (heap p) (buffers p) (mkSelection false None (JS.ofZ 0)) with
  | None => None
  | Some sel => scanMergedBuffers (heap p) (buffers p) (mergedBuffers p) 0 sel
  end.

(** The body of [if (selectedBuffer !== null)]. *)
Definition reduceBudget (r : nat) : M unit :=
  let* b := load r in
  let newBudget := JS.sub (PictureBuffer.undoStateBudget b) (JS.ofZ 1) in
  update r (PictureBuffer.setUndoStateBudget newBudget);;
  let* b := load r in
  modify (fun p => setMemoryUse (JS.sub (memoryUse p) (PictureBuffer.getStateMemoryBytes b)) p).

(** The [while (needToFree > 0 && freeingPossible)] loop.  [fuel] bounds the
    number of iterations; running out of it is [Diverges]. *)
Fixpoint stayWithinLoop (fuel : nat) (available : JS.number) (possible : bool) : M unit :=
  fun p =>
    let needToFree := JS.sub (memoryUse p) available in
    if JS.gt needToFree (JS.ofZ 0) && possible then
      match fuel with
      | O => Diverges
      | S fuel' =>
        match select p with
        | None => Throws
        | Some sel =>
          (match selectedBuffer sel with
           | Some r => reduceBudget r
           | None => ret tt
           end;;
           stayWithinLoop fuel' available (freeingPossible sel)) p
        end
      end
    else Returns tt p.

(** How many times a buffer's budget can be lowered by one while it is
    above one. *)
Definition stepsOf (b : PictureBuffer.t) : nat :=
  match PictureBuffer.undoStateBudget b with
  | JS.Num q => Z.to_nat (Qceiling (q - 1))
  | JS.NaN => 0%nat
  end.

(** Every iteration that selects a buffer lowers one budget, and an
    iteration that selects none leaves the state as it is, so that the loop
    then repeats forever: this many iterations are enough for every run that
    ends (see [stayWithinLoop_fuel]). *)
Definition iterationBound (p : t) : nat :=
  S (list_sum (map stepsOf (heap p))).

Definition stayWithinMemoryBudget (requestedFreeBytes : JS.number) : M unit :=
  fun p =>
    let available := JS.sub (memoryBudget p) requestedFreeBytes in
    stayWithinLoop (iterationBound p) available true p.

Definition averageUndoStateBudgetOfActiveBuffers : M JS.number :=
  let* p := get in
  let* active :=
    defined (mapM (fun r => heap p !! r) (buffers p)) in
  let counted := filter (fun b => negb (PictureBuffer.isRemoved b)) active in
  let n := length counted in
  let sum := fold_left (fun s b => JS.add s (PictureBuffer.undoStateBudget b)) counted (JS.ofZ 0) in
  if (0 <? n)%nat
  then ret (match sum with
            | JS.Num q => JS.Num (Qred (q / inject_Z (Z.of_nat n)))
            | JS.NaN => JS.NaN
            end)
  else ret (JS.ofZ 5).

Definition freeBuffer (buffer : nat) : M unit :=
  let* b := load buffer in
  if negb (PictureBuffer.freed b) then
    update buffer PictureBuffer.free;;
    let* b := load buffer in
    modify (fun p => setMemoryUse
      (JS.sub (memoryUse p) (PictureBuffer.getMemoryNeededForReservingStates b)) p)
  else ret tt.

Definition regenerateBuffer (buffer : nat) : M unit :=
  let* b := load buffer in
  if PictureBuffer.freed b then
    let memIncrease := PictureBuffer.getMemoryNeededForReservingStates b in
    stayWithinMemoryBudget memIncrease;;
    update buffer PictureBuffer.regenerate;;
    modify (fun p => setMemoryUse (JS.add (memoryUse p) memIncrease) p)
  else ret tt.

(** [Math.floor(this.bitmapWidth)] and height of the picture's bitmap. *)
Definition bitmapWidth (p : t) : JS.number :=
  JS.floor (JS.mul (JS.ofDecimal (width p)) (bitmapScale p)).
Definition bitmapHeight (p : t) : JS.number :=
  JS.floor (JS.mul (JS.ofDecimal (height p)) (bitmapScale p)).

(** Modelled from the spec: the constructor of the missing picture_buffer.js
    ([GLBuffer], [CanvasBuffer]).  "a Layer is created by applying a LayerAdd
    event": the log starts with the creation event, which gives the buffer
    its id and alpha channel; a buffer whose creation event is undone starts
    out freed.  One state costs four bytes per pixel of the bitmap. *)
Definition newPictureBuffer (createEvent : PictureEvent.t) (w h : JS.number)
  (interval : Z) : PictureBuffer.t :=
  let '(bid, alpha) :=
    match PictureEvent.payload createEvent with
    | PictureEvent.BufferAdd bid alpha _ _ => (bid, alpha)
    | _ => (-1, false)
    end in
  PictureBuffer.mk bid [createEvent] alpha (JS.ofZ 0) [] interval
    (PictureEvent.undone createEvent) None (PictureEvent.insertionPoint createEvent)
    (JS.mul (JS.mul w h) (JS.ofZ 4)).

(** [Math.floor((budget - use) / bytes)] clamped by
    [if (s < 0) s = 0; if (s > 5) s = 5].  A division by zero gives an
    infinity or NaN in JavaScript; the infinities are clamped at once. *)
Definition spaceLeftStates (budget use bytes : JS.number) : JS.number :=
  match JS.sub budget use, bytes with
  | JS.Num x, JS.Num y =>
    if Qeq_bool y 0 then
      if negb (Qle_bool x 0) then JS.ofZ 5
      else if negb (Qle_bool 0 x) then JS.ofZ 0
      else JS.NaN
    else
      let s := JS.floor (JS.Num (x / y)) in
      if JS.lt s (JS.ofZ 0) then JS.ofZ 0
      else if JS.gt s (JS.ofZ 5) then JS.ofZ 5
      else s
  | _, _ => JS.NaN
  end.

Definition createBuffer (createEvent : PictureEvent.t) (hasUndoStates : bool) : M nat :=
  let* p := get in
  let* buffer := alloc (newPictureBuffer createEvent (bitmapWidth p) (bitmapHeight p)
                          (newUndoStateInterval p)) in
  if hasUndoStates then
    if PictureEvent.undone createEvent then
      let* avgBudget := averageUndoStateBudgetOfActiveBuffers in
      update buffer (PictureBuffer.setUndoStateBudget avgBudget);;
      ret buffer
    else
      let* b := load buffer in
      let bytes := PictureBuffer.getStateMemoryBytes b in
      modify (fun p => setMemoryUse (JS.add (memoryUse p) bytes) p);;
      let* avgBudget := averageUndoStateBudgetOfActiveBuffers in
      let avgBudget := JS.floor avgBudget in
      stayWithinMemoryBudget (JS.mul bytes avgBudget);;
      let* p := get in
      let space := spaceLeftStates (memoryBudget p) (memoryUse p) bytes in
      update buffer (PictureBuffer.setUndoStateBudget space);;
      modify (fun p => setMemoryUse (JS.add (memoryUse p) (JS.mul space bytes)) p);;
      ret buffer
  else ret buffer.

Definition afterRemove (buffer : nat) : M unit :=
  let* b := load buffer in
  if (Z.of_nat (length (PictureBuffer.events b)) <? PictureBuffer.undoStateInterval b * 2)
     && PictureBuffer.isRemoved b
  then freeBuffer buffer
  else ret tt.

(** *** Calls into the buffers

    The methods of picture_buffer.js act on the buffer itself and, for a
    merge event, on the buffer the event refers to. *)

(** Modelled from the spec: what applying or reverting a merge event does to
    the merged buffer inside the missing picture_buffer.js ("mergedTargetId:
    set once a LayerMerge has consumed this layer").  Writing a property of
    [undefined] throws; the placeholder of a parsed event is no buffer. *)
Definition markMerged (target : option nat) (merged : PictureEvent.BufferValue) : M unit :=
  match merged with
  | PictureEvent.BufferObject r => update r (PictureBuffer.setMergedTo target)
  | PictureEvent.DummyBuffer _ => ret tt
  | PictureEvent.undefined => throw
  end.

(** [buffer.pushEvent(event, rasterizer)] *)
Definition bufferPushEvent (buffer : nat) (event : PictureEvent.t) : M unit :=
  update buffer (PictureBuffer.pushEvent event);;
  if PictureEvent.isType PictureEvent.bufferMerge event && negb (PictureEvent.undone event)
  then markMerged (Some buffer) (PictureEvent.mergedBuffer event)
  else ret tt.

(** [buffer.undoEventIndex(eventIndex, rasterizer, allowUndoMerge)] *)
Definition bufferUndoEventIndex (buffer : nat) (eventIndex : Z) (allowUndoMerge : bool)
  : M (option PictureEvent.t) :=
  let* b := load buffer in
  let* res := defined (PictureBuffer.undoEventIndex eventIndex allowUndoMerge b) in
  let '(undone, b') := res in
  update buffer (fun _ => b');;
  match undone with
  | Some e =>
    (if PictureEvent.isType PictureEvent.bufferMerge e
     then markMerged None (PictureEvent.mergedBuffer e)
     else ret tt);;
    ret (Some e)
  | None => ret None
  end.

(** [buffer.redoEventIndex(eventIndex, rasterizer)] *)
Definition bufferRedoEventIndex (buffer : nat) (eventIndex : Z) : M unit :=
  let* b := load buffer in
  let* e := defined (JS.index (PictureBuffer.events b) eventIndex) in
  let* b' := defined (PictureBuffer.redoEventIndex eventIndex b) in
  update buffer (fun _ => b');;
  if PictureEvent.isType PictureEvent.bufferMerge e
  then markMerged (Some buffer) (PictureEvent.mergedBuffer e)
  else ret tt.

(** [value.id] *)
Definition idOf (v : PictureEvent.BufferValue) : M Z :=
  match v with
  | PictureEvent.BufferObject r => let* b := load r in ret (PictureBuffer.id b)
  | PictureEvent.DummyBuffer i => ret i
  | PictureEvent.undefined => throw
  end.

(** A value stored into [this.buffers] or [this.mergedBuffers].  These
    arrays are modelled as holding buffer objects only: storing the
    placeholder of a parsed event or [undefined] is reported as [Throws]
    (in the source the next use of such an entry as a buffer throws). *)
Definition asBuffer (v : PictureEvent.BufferValue) : M nat :=
  match v with
  | PictureEvent.BufferObject r => ret r
  | _ => throw
  end.

(** *** Changing the stack *)

Definition moveBufferInternal (fromIndex toIndex : Z) : M unit :=
  let* p := get in
  if moveBufferInternalShadowed p then ret tt
  else
    let* buffer := at_ (buffers p) fromIndex in
    modify (fun p => setBuffers (JS.spliceOut (buffers p) fromIndex) p);;
    modify (fun p => setBuffers (JS.spliceIn (buffers p) toIndex buffer) p).

(** The merge branch shared by [pushEvent] and [insertEvent]: the buffer
    the event names is looked up in the active stack, the placeholder of a
    parsed event is replaced by the object found there, the event goes to
    the target, and unless it is undone the merged buffer moves from the
    active stack to the merged buffers. *)
Definition pushMergeEvent (targetBuffer : option nat) (event : PictureEvent.t) : M unit :=
  let* p := get in
  let* mergedId := idOf (PictureEvent.mergedBuffer event) in
  let* mergedBufferIndex := findBufferIndex (buffers p) mergedId in
  let event :=
    match PictureEvent.mergedBuffer event with
    | PictureEvent.DummyBuffer _ =>
      PictureEvent.setMergedBuffer
        (match JS.index (buffers p) mergedBufferIndex with
         | Some r => PictureEvent.BufferObject r
         | None => PictureEvent.undefined
         end) event
    | _ => event
    end in
  let* target := defined targetBuffer in
  bufferPushEvent target event;;
  if negb (PictureEvent.undone event) then
    let* merged := asBuffer (PictureEvent.mergedBuffer event) in
    modify (fun p => setBuffers (JS.spliceOut (buffers p) mergedBufferIndex) p);;
    modify (fun p => setMergedBuffers (JS.push (mergedBuffers p) merged) p)
  else ret tt.

(** [pushEvent(targetBufferId, event)].  [isDrawEvent] is the outcome of the
    object identity test [this.currentEventRasterizer.drawEvent === event]. *)
Definition pushEvent (targetBufferId : Z) (event : PictureEvent.t) (isDrawEvent : bool)
  : M unit :=
  let generic :=
    let* targetBuffer := findBuffer targetBufferId in
    if isDrawEvent then
      let* target := defined targetBuffer in
      bufferPushEvent target event
    else if PictureEvent.isType PictureEvent.bufferMerge event then
      pushMergeEvent targetBuffer event
    else
      let* target := defined targetBuffer in
      bufferPushEvent target event in
  if PictureEvent.isBufferStackChange event then
    match PictureEvent.payload event with
    | PictureEvent.BufferAdd _ _ _ _ =>
      let* buffer := createBuffer event true in
      modify (fun p => setBuffers (JS.push (buffers p) buffer) p)
    | PictureEvent.BufferRemove bufferId =>
      let* p := get in
      let* bufferIndex := findBufferIndex (buffers p) bufferId in
      let* buffer := at_ (buffers p) bufferIndex in
      bufferPushEvent buffer event;;
      afterRemove buffer
    | PictureEvent.BufferMove movedId _ toIndex =>
      let* p := get in
      let* fromIndex := findBufferIndex (buffers p) movedId in
      let* buffer := at_ (buffers p) fromIndex in
      bufferPushEvent buffer event;;
      if negb (PictureEvent.undone event)
      then moveBufferInternal fromIndex toIndex
      else ret tt
    | _ => generic
    end
  else generic.

(** *** Undo *)

Definition undoEventIndex (buffer : nat) (eventIndex : Z) (isBufferMerged : bool)
  : M (option PictureEvent.t) :=
  let allowUndoMerge := negb isBufferMerged in
  let* undone := bufferUndoEventIndex buffer eventIndex allowUndoMerge in
  match undone with
  | Some ev =>
    (if eventIndex =? 0 then freeBuffer buffer
     else if PictureEvent.isType PictureEvent.bufferRemove ev then
       let* b := load buffer in
       if negb (PictureBuffer.isRemoved b) then regenerateBuffer buffer else ret tt
     else if PictureEvent.isType PictureEvent.bufferMerge ev then
       let* p := get in
       let* b := load buffer in
       let* bufferIndex := findBufferIndex (buffers p) (PictureBuffer.id b) in
       let* merged := asBuffer (PictureEvent.mergedBuffer ev) in
       modify (fun p => setBuffers (JS.spliceIn (buffers p) (bufferIndex + 1) merged) p);;
       let* mergedId := idOf (PictureEvent.mergedBuffer ev) in
       let* p := get in
       let* bufferIndex := findBufferIndex (mergedBuffers p) mergedId in
       modify (fun p => setMergedBuffers (JS.spliceOut (mergedBuffers p) bufferIndex) p)
     else if PictureEvent.isType PictureEvent.bufferMove ev && negb isBufferMerged then
       let* p := get in
       let* b := load buffer in
       let* undoneIndex := findBufferIndex (buffers p) (PictureBuffer.id b) in
       let fromIndex :=
         match PictureEvent.payload ev with
         | PictureEvent.BufferMove _ fromIndex _ => fromIndex
         | _ => 0
         end in
       let toIndex := Z.min (Z.of_nat (length (buffers p)) - 1) fromIndex in
       moveBufferInternal undoneIndex toIndex
     else ret tt);;
    ret (Some ev)
  | None => ret None
  end.

Definition undoLatest (keepLastBuffer : option bool) : M (option PictureEvent.t) :=
  let* p := get in
  let* latest := findLatest (activeSid p) false in
  match latest with
  | None => ret None
  | Some latest =>
    if inRemovedBuffer latest then
      let* buffer := at_ (mergedBuffers p) (bufferIndex latest) in
      undoEventIndex buffer (eventIndex latest) (inRemovedBuffer latest)
    else
      let* buffer := at_ (buffers p) (bufferIndex latest) in
      let keepLastBuffer := match keepLastBuffer with Some k => k | None => true end in
      if keepLastBuffer && (eventIndex latest =? 0) then
        let* active := defined (mapM (fun r => heap p !! r) (buffers p)) in
        let buffersLeft :=
          length (filter (fun b => negb (PictureBuffer.isRemoved b)) active) in
        if (buffersLeft =? 1)%nat then ret None
        else undoEventIndex buffer (eventIndex latest) (inRemovedBuffer latest)
      else undoEventIndex buffer (eventIndex latest) (inRemovedBuffer latest)
  end.

(** Which of the two arrays a search runs over: the test
    [buffers === this.mergedBuffers] of the source. *)
Inductive Collection := Active | Merged.

Definition collection (c : Collection) (p : t) : list nat :=
  match c with
  | Active => buffers p
  | Merged => mergedBuffers p
  end.

Definition isMerged (c : Collection) : bool :=
  match c with
  | Active => false
  | Merged => true
  end.

(** The search loop shared by undo, redo and remove: [j] runs from the top
    of the array down, and the first buffer whose log holds the identity
    decides.  [rev_arr] is the array in the order of the visit. *)
Fixpoint searchFrom (h : list PictureBuffer.t) (rev_arr : list nat) (sid sessionEventId : Z)
  : option (option (nat * Z)) :=
  match rev_arr with
  | [] => Some None
  | r :: rest =>
    match h !! r with
    | None => None
    | Some b =>
      let i := PictureBuffer.eventIndexBySessionId b sid sessionEventId in
      if 0 <=? i then Some (Some (r, i))
      else searchFrom h rest sid sessionEventId
    end
  end.

Definition search (c : Collection) (sid sessionEventId : Z) : M (option (nat * Z)) :=
  fun p => defined (searchFrom (heap p) (rev (collection c p)) sid sessionEventId) p.

Definition eventAt (buffer : nat) (i : Z) : M PictureEvent.t :=
  let* b := load buffer in
  defined (JS.index (PictureBuffer.events b) i).

Definition undoEventFromBuffers (c : Collection) (sid sessionEventId : Z)
  : M (option PictureEvent.t) :=
  let* found := search c sid sessionEventId in
  match found with
  | Some (buffer, i) =>
    let* event := eventAt buffer i in
    if negb (PictureEvent.undone event)
    then undoEventIndex buffer i (isMerged c)
    else ret (Some event)
  | None => ret None
  end.

Definition undoEventSessionId (sid sessionEventId : Z) : M (option PictureEvent.t) :=
  let* undone := undoEventFromBuffers Active sid sessionEventId in
  match undone with
  | Some ev => ret (Some ev)
  | None => undoEventFromBuffers Merged sid sessionEventId
  end.

(** *** Redo *)

Definition redoEventFromBuffers (c : Collection) (sid sessionEventId : Z) : M bool :=
  let* found := search c sid sessionEventId in
  match found with
  | Some (buffer, i) =>
    let* event := eventAt buffer i in
    (if PictureEvent.undone event then
       if PictureEvent.isType PictureEvent.bufferMerge event then
         let* p := get in
         let* mergedId := idOf (PictureEvent.mergedBuffer event) in
         let* mergedBufferIndex := findBufferIndex (buffers p) mergedId in
         bufferRedoEventIndex buffer i;;
         let* merged := asBuffer (PictureEvent.mergedBuffer event) in
         modify (fun p => setBuffers (JS.spliceOut (buffers p) mergedBufferIndex) p);;
         modify (fun p => setMergedBuffers (JS.push (mergedBuffers p) merged) p)
       else if PictureEvent.isType PictureEvent.bufferRemove event then
         bufferRedoEventIndex buffer i;;
         afterRemove buffer
       else
         (if i =? 0 then regenerateBuffer buffer else ret tt);;
         bufferRedoEventIndex buffer i
     else ret tt);;
    ret true
  | None => ret false
  end.

Definition redoEventSessionId (sid sessionEventId : Z) : M bool :=
  let* found := redoEventFromBuffers Active sid sessionEventId in
  if found then ret true
  else redoEventFromBuffers Merged sid sessionEventId.

(** *** Remove *)

Definition removeEventFromBuffers (c : Collection) (sid sessionEventId : Z) : M bool :=
  let* found := search c sid sessionEventId in
  match found with
  | Some (buffer, i) =>
    let* event := eventAt buffer i in
    let* undone :=
      if negb (PictureEvent.undone event)
      then let* u := undoEventIndex buffer i (isMerged c) in
           ret (bool_decide (u <> None))
      else ret true in
    if undone then
      update buffer (PictureBuffer.removeEventIndex i);;
      ret true
    else ret false
  | None => ret false
  end.

Definition removeEventSessionId (sid sessionEventId : Z) : M bool :=
  let* found := removeEventFromBuffers Active sid sessionEventId in
  if found then ret true
  else removeEventFromBuffers Merged sid sessionEventId.

(** *** Construction *)

Inductive Mode := webgl | noTexdataWebgl | noFloatWebgl | canvas | otherMode.

(** What the browser provides: whether four texture units are supported,
    whether a WebGL context can be set up for a mode (context creation, the
    float texture extension, the sanity test of the rasterizer), and the
    checkpoint interval the buffer constructor uses. *)
Record Environment := mkEnvironment {
  supportsTextureUnits : bool;
  glWorks : Mode -> bool;
  undoStateInterval : Z
}.

(** [getMemoryBytes] of the rasterizer of a mode is its width times its
    height times this many bytes (src/rasterize.js). *)
Definition rasterizerBytesPerPixel (mode : Mode) : Z :=
  match mode with
  | webgl | noTexdataWebgl => 16
  | noFloatWebgl => 6
  | _ => 0
  end.

(** [new Picture(id, boundsRect, bitmapScale, mode)]; [None] stands for a
    picture whose [mode] is left [undefined].  The id of the picture and its
    canvas are not part of the model. *)
Definition new (env : Environment) (w h : JS.decimal) (scale : JS.number) (mode : Mode)
  : option t :=
  let p := mk [] [] [] 0 0 (JS.ofZ (256 * 1024 * 1024)) (JS.ofZ 0)
              w h scale None false (undoStateInterval env) in
  let pixels := JS.mul (bitmapWidth p) (bitmapHeight p) in
  let p := setMemoryUse (JS.mul pixels (JS.ofZ 4)) p in
  let rasterizer := JS.mul pixels (JS.ofZ (rasterizerBytesPerPixel mode)) in
  let withRasterizers :=
    setMemoryUse (JS.add (JS.add (memoryUse p) rasterizer) rasterizer) p in
  match mode with
  | webgl | noTexdataWebgl | noFloatWebgl =>
    if glWorks env mode then Some withRasterizers else None
  | canvas => Some withRasterizers
  | otherMode => None
  end.

Definition isCanvas (mode : Mode) : bool :=
  match mode with
  | canvas => true
  | _ => false
  end.

(** [Picture.create(id, width, height, bitmapScale, modesToTry)] *)
Fixpoint create (env : Environment) (w h : JS.decimal) (scale : JS.number)
  (modesToTry : list Mode) : option t :=
  match modesToTry with
  | [] => None
  | mode :: rest =>
    if supportsTextureUnits env || isCanvas mode then
      match new env w h scale mode with
      | Some pic => Some pic
      | None => create env w h scale rest
      end
    else create env w h scale rest
  end.

(** *** Serialization *)

Definition formatVersion : Z := 1.

(** [buffer.id] of the buffer object at an address, for the line of a merge
    event. *)
Definition idAt (h : list PictureBuffer.t) (r : nat) : option Z :=
  match h !! r with
  | Some b => Some (PictureBuffer.id b)
  | None => None
  end.

(** [for (j ...) serialization.push(buffer.events[j].serialize(scale))] *)
Fixpoint pushLines (h : list PictureBuffer.t) (evs : list PictureEvent.t)
  (serialization : list string) : option (list string) :=
  match evs with
  | [] => Some serialization
  | e :: rest =>
    match PictureEvent.serialize (idAt h) e with
    | Some line => pushLines h rest (JS.push serialization line)
    | None => None
    end
  end.

(** The body of the loops over the buffers: the insertion point of the
    buffer is written into its first event, then every event is pushed. *)
Definition serializeBuffer (buffer : nat) (serialization : list string)
  : M (list string) :=
  let* b := load buffer in
  let* first := defined (JS.index (PictureBuffer.events b) 0) in
  update buffer (PictureBuffer.setEvents
    (<[0%nat := PictureEvent.setInsertionPoint (PictureBuffer.insertionPoint b) first]>
       (PictureBuffer.events b)));;
  let* b := load buffer in
  let* p := get in
  defined (pushLines (heap p) (PictureBuffer.events b) serialization).

Fixpoint serializeBuffers (arr : list nat) (serialization : list string)
  : M (list string) :=
  match arr with
  | [] => ret serialization
  | buffer :: rest =>
    let* serialization := serializeBuffer buffer serialization in
    serializeBuffers rest serialization
  end.

Definition headerLine (p : t) : string :=
  ("picture version " ++ Text.showZ formatVersion ++ " "
     ++ Text.showNumber (width p) ++ " " ++ Text.showNumber (height p))%string.

(** The array [serialization] before it is joined. *)
Definition serializationLines : M (list string) :=
  let* p := get in
  let serialization := [headerLine p] in
  let* serialization := serializeBuffers (mergedBuffers p) serialization in
  serializeBuffers (buffers p) serialization.

Definition serialize : M string :=
  let* serialization := serializationLines in
  ret (Text.join (String Text.newline EmptyString) serialization).

(** *** Parsing *)

(** The header: version, width and height, each a number or NaN. *)
Definition parseHeader (line : string) : option Z * option Z * option Z :=
  let pictureParams := Text.split Text.space line in
  let param (i : nat) := Text.parseInt (pictureParams !! i) in
  match pictureParams !! 1%nat with
  | Some "version"%string => (param 2%nat, param 3%nat, param 4%nat)
  | _ => (Some 0, param 1%nat, param 2%nat)
  end.

(** The [while] loop over the lines after the header.  It returns the lines
    from the [metadata] marker on.  [null.scale(...)] is the TypeError of a
    line [PictureEvent.parse] rejects. *)
Fixpoint parseEvents (eventStrings : list string) (currentId : Z) : M (list string) :=
  match eventStrings with
  | [] => ret []
  | line :: rest =>
    if String.eqb line "metadata" then ret (line :: rest)
    else
      let arr := Text.split Text.space line in
      let* pictureEvent := defined (PictureEvent.parse arr) in
      pushEvent currentId pictureEvent false;;
      let* p := get in
      let* last := at_ (buffers p) (Z.of_nat (length (buffers p)) - 1) in
      let* b := load last in
      parseEvents rest (PictureBuffer.id b)
  end.

(** [buffer.insertionPoint = buffer.events[0].insertionPoint] for every
    buffer of an array *)
Fixpoint restoreInsertionPoints (arr : list nat) : M unit :=
  match arr with
  | [] => ret tt
  | buffer :: rest =>
    let* b := load buffer in
    let* first := defined (JS.index (PictureBuffer.events b) 0) in
    update buffer (PictureBuffer.setInsertionPoint (PictureEvent.insertionPoint first));;
    restoreInsertionPoints rest
  end.

(** [Picture.parse(id, serialization, bitmapScale, modesToTry)].  The
    result is the object [{picture: ..., metadata: ...}]: the picture is the
    state of the outcome and the metadata lines are its value.  The
    generation time is not modelled. *)
Definition parse (env : Environment) (serialization : string) (scale : JS.number)
  (modesToTry : list Mode) : outcome (list string) :=
  let eventStrings := Text.lines serialization in
  let '(version, w, h) := parseHeader (hd EmptyString eventStrings) in
  match create env (JS.parsed w) (JS.parsed h) scale modesToTry with
  | None => Throws
  | Some pic =>
    (modify (setParsedVersion (Some (JS.ofParsed version)));;
     modify (setShadowed true);;
     let* metadata := parseEvents (tl eventStrings) (-1) in
     let* p := get in
     restoreInsertionPoints (buffers p);;
     restoreInsertionPoints (mergedBuffers p);;
     modify (setShadowed false);;
     ret metadata) pic
  end.

(** *** Calls of the public interface, for building pictures *)

Definition addBuffer (id : Z) (clearColor : list Z) (hasAlpha : bool) : M unit :=
  let* addEvent := createBufferAddEvent id hasAlpha clearColor in
  pushEvent id addEvent false.

Definition removeBuffer (id : Z) : M unit :=
  let* removeEvent := createBufferRemoveEvent id in
  pushEvent id removeEvent false.

Definition moveBuffer (movedId toIndex : Z) : M unit :=
  let* moveEvent := createBufferMoveEvent movedId toIndex in
  pushEvent movedId moveEvent false.

(** *** Queries and transfers *)

(** [findBufferContainingEvent(event)]: the loop over [this.buffers]. *)
Fixpoint findBufferContainingEventFrom (h : list PictureBuffer.t) (arr : list nat)
  (event : PictureEvent.t) : option Z :=
  match arr with
  | [] => Some (-1)
  | r :: rest =>
    match h !! r with
    | None => None
    | Some b =>
      if 0 <=? PictureBuffer.eventIndexBySessionId b (PictureEvent.sid event)
                 (PictureEvent.sessionEventId event)
      then Some (PictureBuffer.id b)
      else findBufferContainingEventFrom h rest event
    end
  end.

Definition findBufferContainingEvent (event : PictureEvent.t) : M Z :=
  fun p => defined (findBufferContainingEventFrom (heap p) (buffers p) event) p.

(** [getEventCount()]: the loop over [this.buffers], with the running
    [count]. *)
Fixpoint getEventCountFrom (h : list PictureBuffer.t) (arr : list nat) (count : Z)
  : option Z :=
  match arr with
  | [] => Some count
  | r :: rest =>
    match h !! r with
    | None => None
    | Some b => getEventCountFrom h rest (count + Z.of_nat (length (PictureBuffer.events b)))
    end
  end.

Definition getEventCount : M Z :=
  fun p => defined (getEventCountFrom (heap p) (buffers p) 0) p.

(** [moveEvent(targetBufferId, sourceBufferId, event)].  [findBuffer] gives
    [null] for an unknown source, and the call of a method of [null]
    throws. *)
Definition moveEvent (targetBufferId sourceBufferId : Z) (event : PictureEvent.t)
  (isDrawEvent : bool) : M unit :=
  let* src := findBuffer sourceBufferId in
  let* src := defined src in
  let* b := load src in
  let eventIndex := PictureBuffer.eventIndexBySessionId b (PictureEvent.sid event)
                      (PictureEvent.sessionEventId event) in
  (if 0 <=? eventIndex
   then update src (PictureBuffer.removeEventIndex eventIndex)
   else ret tt);;
  pushEvent targetBufferId event isDrawEvent.

End Picture.

(** ** Vocabulary of the properties *)

Module Spec.

(** The buffers of a picture: the active stack, then the merged buffers. *)
Definition allBuffers (p : Picture.t) : list nat :=
  Picture.buffers p ++ Picture.mergedBuffers p.

(** Every entry of the two arrays is an allocated buffer object (which
    always holds in JavaScript, where the arrays hold the objects). *)
Definition validRefs (p : Picture.t) : bool :=
  forallb (fun r => bool_decide (is_Some (Picture.heap p !! r))) (allBuffers p).

(** The event log of the buffer at an address ([[]] when there is none). *)
Definition logOf (h : list PictureBuffer.t) (r : nat) : list PictureEvent.t :=
  match h !! r with
  | Some b => PictureBuffer.events b
  | None => []
  end.

(** All events of a picture, active or merged away. *)
Definition allEvents (p : Picture.t) : list PictureEvent.t :=
  concat (map (logOf (Picture.heap p)) (allBuffers p)).

(** Is the buffer removed or merged away? *)
Definition removedOrMerged (b : PictureBuffer.t) : bool :=
  PictureBuffer.isRemoved b || bool_decide (PictureBuffer.mergedTo b <> None).

(** The number of buffers of the active stack that are not removed. *)
Definition buffersLeft (p : Picture.t) : nat :=
  length (List.filter (fun r => match Picture.heap p !! r with
                           | Some b => negb (PictureBuffer.isRemoved b)
                           | None => false
                           end) (Picture.buffers p)).




(** The event that decides an undo, redo or removal by session identity:
    the logs are visited in the order given, and the first event with the
    identity in the first log that holds one is the event found. *)
Fixpoint foundIn (h : list PictureBuffer.t) (visit : list nat) (s i : Z)
  : option PictureEvent.t :=
  match visit with
  | [] => None
  | r :: rest =>
    match List.find (PictureEvent.hasIdentity s i) (logOf h r) with
    | Some e => Some e
    | None => foundIn h rest s i
    end
  end.

(** The buffers of the active stack are visited from the top down, and
    after them the merged buffers from the last one back. *)
Definition found (p : Picture.t) (s i : Z) : option PictureEvent.t :=
  match foundIn (Picture.heap p) (rev (Picture.buffers p)) s i with
  | Some e => Some e
  | None => foundIn (Picture.heap p) (rev (Picture.mergedBuffers p)) s i
  end.

(** Every character of a string passes a test. *)
Fixpoint allChars (ok : ascii -> bool) (s : string) : bool :=
  match s with
  | EmptyString => true
  | String c rest => ok c && allChars ok rest
  end.

(** A character that ends no line, and a string that holds no line end. *)
Definition notBreak (c : ascii) : bool :=
  negb (Ascii.eqb c Text.newline || Ascii.eqb c Text.carriageReturn).
Definition oneLine (s : string) : bool := allChars notBreak s.

(** A character of a word: no space and no line end. *)
Definition wordChar (c : ascii) : bool := negb (Ascii.eqb c Text.space) && notBreak c.
Definition oneWord (s : string) : bool := allChars wordChar s.

(** The log of a buffer as [serialize] writes it: the insertion point of
    the buffer is stored in the first event. *)
Definition stampedLog (b : PictureBuffer.t) : list PictureEvent.t :=
  match PictureBuffer.events b with
  | first :: rest =>
    PictureEvent.setInsertionPoint (PictureBuffer.insertionPoint b) first :: rest
  | [] => []
  end.

(** The line of an event (the empty string when it has none). *)
Definition lineOf (h : list PictureBuffer.t) (e : PictureEvent.t) : string :=
  match PictureEvent.serialize (Picture.idAt h) e with
  | Some line => line
  | None => EmptyString
  end.

(** The lines of the events of a buffer, in log order. *)
Definition linesOfBuffer (h : list PictureBuffer.t) (r : nat) : list string :=
  match h !! r with
  | Some b => map (lineOf h) (stampedLog b)
  | None => []
  end.

(** The lines of all events: the merged buffers first, then the active
    stack, each buffer in log order. *)
Definition eventLines (p : Picture.t) : list string :=
  concat (map (linesOfBuffer (Picture.heap p))
              (Picture.mergedBuffers p ++ Picture.buffers p)).

(** Can the event be written: does a merge event name a buffer whose id
    can be read? *)
Definition writable (h : list PictureBuffer.t) (e : PictureEvent.t) : bool :=
  match PictureEvent.payload e with
  | PictureEvent.BufferMerge _ (PictureEvent.BufferObject r) =>
    bool_decide (is_Some (h !! r))
  | PictureEvent.BufferMerge _ PictureEvent.undefined => false
  | _ => true
  end.

(** Every buffer of the picture is allocated, its log starts with an event
    (the creation event), and every event of it can be written. *)
Definition serializable (p : Picture.t) : bool :=
  forallb (fun r => match Picture.heap p !! r with
                    | Some b =>
                      match PictureBuffer.events b with
                      | [] => false
                      | _ => forallb (writable (Picture.heap p)) (PictureBuffer.events b)
                      end
                    | None => false
                    end) (allBuffers p).

(** The event-creating operations, with their arguments. *)
Inductive CreateCall :=
| CreateBrushEvent (params : list Z)
| CreateScatterEvent (params : list Z)
| CreateGradientEvent (params : list Z)
| CreateBufferAddEvent (id : Z) (hasAlpha : bool) (clearColor : list Z)
| CreateBufferRemoveEvent (id : Z)
| CreateBufferMoveEvent (movedId toIndex : Z)
| CreateMergeEvent (mergedBufferIndex opacity : Z)
| CreateEventHideEvent (hiddenSid hiddenSessionEventId : Z).

Definition create (c : CreateCall) : Picture.M PictureEvent.t :=
  match c with
  | CreateBrushEvent ps => Picture.createBrushEvent ps
  | CreateScatterEvent ps => Picture.createScatterEvent ps
  | CreateGradientEvent ps => Picture.createGradientEvent ps
  | CreateBufferAddEvent id alpha color => Picture.createBufferAddEvent id alpha color
  | CreateBufferRemoveEvent id => Picture.createBufferRemoveEvent id
  | CreateBufferMoveEvent moved to => Picture.createBufferMoveEvent moved to
  | CreateMergeEvent index op => Picture.createMergeEvent index op
  | CreateEventHideEvent hs hi => Picture.createEventHideEvent hs hi
  end.





(** A buffer with its undo state budget and its retained undo states
    blanked, and a picture with these and its memory counter blanked: what
    is left is the ids, logs, flags and the stack. *)
Definition apartFromBudget (b : PictureBuffer.t) : PictureBuffer.t :=
  PictureBuffer.setUndoStates [] (PictureBuffer.setBudget JS.NaN b).

Definition apartFromMemory (p : Picture.t) : Picture.t :=
  Picture.setMemoryUse JS.NaN
    (Picture.setHeap (map apartFromBudget (Picture.heap p)) p).

(** The budget of the buffer is the whole number [n]. *)
Definition wholeBudget (n : Z) (b : PictureBuffer.t) : Prop :=
  exists q, PictureBuffer.undoStateBudget b = JS.Num q /\ (q == inject_Z n)%Q.

(** A buffer the first loop of [stayWithinMemoryBudget] takes as a
    candidate. *)
Definition canGiveUp (b : PictureBuffer.t) : bool :=
  JS.gt (PictureBuffer.undoStateBudget b) (JS.ofZ 1) && negb (PictureBuffer.freed b).

(** Can a picture be created in the mode?  [Picture.create] asks for four
    texture units unless the mode is the canvas mode, and the constructor
    leaves the mode undefined when the WebGL set-up of the mode fails or
    the mode is unknown. *)
Definition usable (env : Picture.Environment) (mode : Picture.Mode) : bool :=
  (Picture.supportsTextureUnits env || Picture.isCanvas mode)
  && match mode with
     | Picture.canvas => true
     | Picture.otherMode => false
     | _ => Picture.glWorks env mode
     end.

(** The first event of the log of the buffer carries the insertion point
    of the buffer, as after [serialize]. *)
Definition stamped (h : list PictureBuffer.t) (r : nat) : Prop :=
  exists b, h !! r = Some b /\ stampedLog b = PictureBuffer.events b.

(** What the picture holds apart from bitmaps and memory: the ids and the
    event logs of all buffer objects, the active stack, the merged buffers
    and the session. *)
Definition shape (p : Picture.t)
  : list Z * list (list PictureEvent.t) * list nat * list nat * (Z * Z) :=
  (map PictureBuffer.id (Picture.heap p), map PictureBuffer.events (Picture.heap p),
   Picture.buffers p, Picture.mergedBuffers p,
   (Picture.activeSid p, Picture.activeSessionEventId p)).

(** An integer that JavaScript prints with all its digits, which it does
    up to 21 digits, or NaN. *)
Definition printedInFull (z : option Z) : bool :=
  match z with
  | Some n => (String.length (Text.showZ (Z.abs n)) <=? 21)%nat
  | None => true
  end.

(** The buffer retains no more undo states than its budget allows (which
    is what [setUndoStateBudget] and [pushEvent] of a buffer see to). *)
Definition withinBudget (b : PictureBuffer.t) : bool :=
  match PictureBuffer.undoStateBudget b with
  | JS.Num q =>
    (length (PictureBuffer.undoStates b) =? 0)%nat
    || Qle_bool (inject_Z (Z.of_nat (length (PictureBuffer.undoStates b)))) q
  | JS.NaN => true
  end.

End Spec.

(** ** Example states *)

Module Examples.

Import Picture.

(** A browser without WebGL: pictures are created in the canvas mode. *)
Definition canvasOnly : Environment := mkEnvironment false (fun _ => false) 16.

Definition addEvent (sid seid id : Z) (undone : bool) : PictureEvent.t :=
  PictureEvent.mk sid seid undone (Some 0)
    (PictureEvent.BufferAdd id true [0; 0; 0; 0] 1).

Definition removeEvent (sid seid id : Z) (undone : bool) : PictureEvent.t :=
  PictureEvent.mk sid seid undone None (PictureEvent.BufferRemove id).

(** A buffer with the given id, log and budget, no retained undo states. *)
Definition bufferWith (id : Z) (log : list PictureEvent.t) (budget : JS.number)
  : PictureBuffer.t :=
  PictureBuffer.mk id log true budget [] 16 false None (Some 0) (JS.ofZ 400).

(** Two buffers with a budget of one and a half: the first one is removed,
    the second one is not. *)
Definition removedHalf : PictureBuffer.t :=
  bufferWith 0 [addEvent 1 0 0 false; removeEvent 1 1 0 false] (JS.tenths 15).
Definition keptHalf : PictureBuffer.t :=
  bufferWith 1 [addEvent 1 2 1 false] (JS.tenths 15).

(** A picture of 2048 by 2048 pixels: one bitmap state takes 16 MB of the
    256 MB budget. *)
Definition big : t :=
  match create canvasOnly (JS.whole 2048) (JS.whole 2048) (JS.ofZ 1) [canvas] with
  | Some p => p
  | None => mk [] [] [] 0 0 JS.NaN JS.NaN JS.DecNaN JS.DecNaN JS.NaN None false 0
  end.

Definition megabytes (n : Z) : JS.number := JS.ofZ (n * 1024 * 1024).

(** The state a program leaves behind ([big] when it does not return). *)
Definition stateAfter {A : Type} (m : M A) (p : t) : t :=
  match m p with
  | Returns _ p' => p'
  | _ => p
  end.

(** Merge the buffer at [index] of the stack into the buffer with id
    [target]. *)
Definition merge (index target : Z) : M unit :=
  let* event := createMergeEvent index 1 in
  pushEvent target event false.

(** Three buffers; the top one is merged into the middle one, which is then
    merged into the bottom one. *)
Definition mergeTwice : M unit :=
  setActiveSession 1;;
  addBuffer 0 [255; 255; 255; 255] false;;
  addBuffer 1 [0; 0; 0; 0] true;;
  addBuffer 2 [0; 0; 0; 0] true;;
  merge 2 1;;
  merge 1 0.

Definition twiceMerged : t := stateAfter mergeTwice big.

(** Two buffers; the top one is merged into the bottom one, which is then
    removed (and freed, its log being short). *)
Definition mergeAndRemove : M unit :=
  setActiveSession 1;;
  addBuffer 0 [255; 255; 255; 255] false;;
  addBuffer 1 [0; 0; 0; 0] true;;
  merge 1 0;;
  removeBuffer 0.

Definition mergedAndRemoved : t := stateAfter mergeAndRemove big.

(** Four buffers, then a fifth one whose creation event arrives undone
    (as from another session or from a parsed file) and is redone, then two
    more buffers. *)
Definition fiveBuffers : M unit :=
  setActiveSession 1;;
  addBuffer 0 [255; 255; 255; 255] false;;
  addBuffer 1 [0; 0; 0; 0] true;;
  addBuffer 2 [0; 0; 0; 0] true;;
  addBuffer 3 [0; 0; 0; 0] true;;
  pushEvent 4 (addEvent 2 0 4 true) false;;
  redoEventSessionId 2 0;;
  addBuffer 5 [0; 0; 0; 0] true;;
  addBuffer 6 [0; 0; 0; 0] true.

Definition crowded : t := stateAfter fiveBuffers big.

(** Three buffers by session 1, which merges the middle one into the
    bottom one; session 2 then moves the top buffer to the bottom of the
    stack. *)
Definition threeBuffers : M unit :=
  setActiveSession 1;;
  addBuffer 0 [255; 255; 255; 255] false;;
  addBuffer 1 [0; 0; 0; 0] true;;
  addBuffer 2 [0; 0; 0; 0] true.

Definition mergeThenMove : M unit :=
  threeBuffers;;
  merge 1 0;;
  setActiveSession 2;;
  moveBuffer 2 0;;
  setActiveSession 1.

Definition beforeMerge : t := stateAfter threeBuffers big.

(** Session 1 merges the top buffer of the three into the bottom one and
    undoes the merge at once. *)
Definition mergeAcrossThenUndo : M (option PictureEvent.t) :=
  threeBuffers;;
  merge 2 0;;
  undoLatest None.

Definition mergedAcrossAndUndone : t := stateAfter mergeAcrossThenUndo big.

Definition mergedThenMoved : t := stateAfter mergeThenMove big.

(** Session 1 makes three buffers and merges the top one into the middle
    one; session 2 then merges the middle one into the bottom one. *)
Definition mergeInMerged : M unit :=
  threeBuffers;;
  merge 2 1;;
  setActiveSession 2;;
  merge 1 0;;
  setActiveSession 1.

Definition mergedInMerged : t := stateAfter mergeInMerged big.






(** Three buffers; the creation event of the top one is removed from its
    log, which is then empty. *)
Definition removeCreation : M bool :=
  threeBuffers;;
  removeEventSessionId 1 2.

Definition emptiedLog : t := stateAfter removeCreation big.

(** Lines joined by line feeds. *)
Definition text (ls : list string) : string :=
  Text.join (String Text.newline EmptyString) ls.

(** A file whose first line does not start with the word [picture], and a
    header without a height and with a version that is no number. *)
Definition bogusHeader : string :=
  text ["bogus 10 20"; "bufferAdd 1 0 0 0 0 0 1 255 255 255 255"]%string.
Definition shortHeader : string := "picture version x 10"%string.

(** A file whose third line names no kind of event. *)
Definition badEventLine : string :=
  text ["picture version 1 10 20"; "bufferAdd 1 0 0 0 0 0 1 255 255 255 255";
        "brsh 1 1 0 3"]%string.

(** A picture of 10 by 20 pixels with two buffers and a stroke; the top
    buffer is merged into the bottom one, and the merge is undone. *)
Definition small : t :=
  match create canvasOnly (JS.whole 10) (JS.whole 20) (JS.ofZ 1) [canvas] with
  | Some p => p
  | None => big
  end.

Definition undoneMerge : M (option PictureEvent.t) :=
  setActiveSession 1;;
  addBuffer 0 [255; 255; 255; 255] false;;
  addBuffer 1 [0; 0; 0; 0] true;;
  (let* stroke := createBrushEvent [1; 2; 3] in pushEvent 1 stroke false);;
  merge 1 0;;
  undoLatest None.

Definition undoneMergeDocument : t := stateAfter undoneMerge small.

Definition undoneMergeText : string :=
  match serialize undoneMergeDocument with
  | Returns s _ => s
  | _ => EmptyString
  end.

Definition undoneMergeParsed : t :=
  match parse canvasOnly undoneMergeText (JS.ofZ 1) [canvas] with
  | Returns _ p => p
  | _ => small
  end.

(** The kind, identity, undone flag and parameters of the events of the
    buffers of a picture, buffer by buffer, with the buffer a merge event
    names given by its id. *)
Definition describe (h : list PictureBuffer.t) (e : PictureEvent.t)
  : option (list string) := PictureEvent.words (idAt h) e.

Definition described (p : t) : list (list (option (list string))) :=
  map (fun r => map (describe (heap p)) (Spec.logOf (heap p) r)) (Spec.allBuffers p).

(** What matters of a picture for the memory budget. *)
Definition budgets (p : t) : list JS.number :=
  map PictureBuffer.undoStateBudget (heap p).

End Examples.

(** * Properties *)

(** ** Running the methods *)

Section Monad.

Import Picture.

Lemma bind_Returns {A B : Type} (m : M A) (k : A -> M B) (p p2 : t) (b : B) :
  bind m k p = Returns b p2 <->
  exists a p1, m p = Returns a p1 /\ k a p1 = Returns b p2.
Proof.
  unfold bind. split.
  - destruct (m p) as [a p1| |]; intros H; try discriminate. eauto.
  - intros (a & p1 & -> & H). exact H.
Qed.

Lemma bind_eq {A B : Type} (m : M A) (k : A -> M B) (p p1 : t) (a : A) :
  m p = Returns a p1 -> bind m k p = k a p1.
Proof. unfold bind. intros ->. reflexivity. Qed.

Lemma defined_Returns {A : Type} (v : option A) (p p1 : t) (a : A) :
  defined v p = Returns a p1 <-> v = Some a /\ p1 = p.
Proof.
  unfold defined, ret, throw. destruct v; split; intros H.
  - inversion H. auto.
  - destruct H as [[= ->] ->]. reflexivity.
  - discriminate.
  - destruct H. discriminate.
Qed.

Lemma load_Returns (r : nat) (p p1 : t) (b : PictureBuffer.t) :
  load r p = Returns b p1 <-> heap p !! r = Some b /\ p1 = p.
Proof. unfold load. apply defined_Returns. Qed.

Lemma update_Returns (r : nat) (f : PictureBuffer.t -> PictureBuffer.t) (p p1 : t) :
  update r f p = Returns tt p1 <->
  exists b, heap p !! r = Some b /\ p1 = setHeap (<[r := f b]> (heap p)) p.
Proof.
  unfold update. rewrite bind_Returns. split.
  - intros (b & p' & Hl & Hm). apply load_Returns in Hl as [Hb ->].
    unfold modify in Hm. inversion Hm. eauto.
  - intros (b & Hb & ->). exists b, p. split; [apply load_Returns; auto|reflexivity].
Qed.

End Monad.

(** Splitting an equation [bind m k p = Returns b p'] in the hypotheses. *)
Ltac bind_inv H :=
  let a := fresh "a" in
  let p1 := fresh "p" in
  let H1 := fresh H in
  apply bind_Returns in H as (a & p1 & H1 & H).

Ltac load_inv H :=
  let Hb := fresh "Hload" in
  apply load_Returns in H as [Hb ->].


(** ** Numbers *)

Lemma gt_Num (x y : Q) : JS.gt (JS.Num x) (JS.Num y) = true <-> (y < x)%Q.
Proof.
  unfold JS.gt. rewrite negb_true_iff. split.
  - intros H. apply Qnot_le_lt. intros Hle. apply Qle_bool_iff in Hle. congruence.
  - intros H. destruct (Qle_bool x y) eqn:E; [|reflexivity].
    apply Qle_bool_iff in E. exfalso. apply (Qlt_not_le _ _ H E).
Qed.

Lemma gt_Num_false (x y : Q) : JS.gt (JS.Num x) (JS.Num y) = false <-> (x <= y)%Q.
Proof.
  unfold JS.gt. rewrite negb_false_iff. apply Qle_bool_iff.
Qed.

(** ** The freeing priority *)

(** The priority as a formula: the budget, plus the budget minus 1.5 when
    the buffer is removed or merged away and its budget exceeds 1, minus a
    tenth per retained undo state. *)
Lemma priority_formula (b : PictureBuffer.t) (q : Q) :
  PictureBuffer.undoStateBudget b = JS.Num q ->
  exists v, Picture.bufferFreeingPriority b = JS.Num v /\
    (v == q + (if Spec.removedOrMerged b && JS.gt (JS.Num q) (JS.ofZ 1)
               then q - (3 # 2) else 0)
         - (1 # 10) * inject_Z (Z.of_nat (length (PictureBuffer.undoStates b))))%Q.
Proof.
  intros Hq. unfold Picture.bufferFreeingPriority, Spec.removedOrMerged. rewrite Hq.
  destruct (_ && _); cbn [JS.add JS.sub JS.mul JS.lift2 JS.tenths JS.ofNat];
    eexists; (split; [reflexivity|]); rewrite !Qred_correct; lra.
Qed.

(** C7, as stated, fails: with a budget of 1.5 (which is greater than 1)
    the removed buffer and the buffer that is not removed get the same
    priority.  The added term is the budget minus 1.5, which is not
    positive up to a budget of 1.5. *)
Lemma C7_counterexample :
  PictureBuffer.undoStateBudget Examples.removedHalf = JS.Num (3 # 2)
  /\ PictureBuffer.undoStateBudget Examples.keptHalf = JS.Num (3 # 2)
  /\ JS.gt (JS.Num (3 # 2)) (JS.ofZ 1) = true
  /\ length (PictureBuffer.undoStates Examples.removedHalf)
     = length (PictureBuffer.undoStates Examples.keptHalf)
  /\ Spec.removedOrMerged Examples.removedHalf = true
  /\ Spec.removedOrMerged Examples.keptHalf = false
  /\ JS.gt (Picture.bufferFreeingPriority Examples.removedHalf)
           (Picture.bufferFreeingPriority Examples.keptHalf) = false.
Proof. repeat apply conj; vm_compute; reflexivity. Qed.

(** C7 (amended): the priority is the budget, minus a tenth per retained
    undo state, plus the budget minus 1.5 exactly when the buffer is removed
    or merged away and its budget exceeds 1; and of two buffers with the
    same budget above 1.5 (every integer budget above 1 is) and the same
    number of retained undo states, the removed or merged one has the
    strictly higher priority. *)
Theorem C7_bufferFreeingPriority (b1 b2 : PictureBuffer.t) (q : Q)
  (Hb1 : PictureBuffer.undoStateBudget b1 = JS.Num q)
  (Hb2 : PictureBuffer.undoStateBudget b2 = JS.Num q)
  (Hlen : length (PictureBuffer.undoStates b1) = length (PictureBuffer.undoStates b2))
  (Hrm1 : Spec.removedOrMerged b1 = true)
  (Hrm2 : Spec.removedOrMerged b2 = false) :
  (exists v1 v2,
      Picture.bufferFreeingPriority b1 = JS.Num v1
      /\ Picture.bufferFreeingPriority b2 = JS.Num v2
      /\ (v2 == q - (1 # 10) * inject_Z (Z.of_nat (length (PictureBuffer.undoStates b2))))%Q
      /\ (v1 == v2 + (if JS.gt (JS.Num q) (JS.ofZ 1) then q - (3 # 2) else 0))%Q)
  /\ ((3 # 2 < q)%Q ->
      JS.gt (Picture.bufferFreeingPriority b1) (Picture.bufferFreeingPriority b2) = true).
Proof.
  destruct (priority_formula b1 q Hb1) as (v1 & E1 & F1).
  destruct (priority_formula b2 q Hb2) as (v2 & E2 & F2).
  rewrite Hrm1 in F1. rewrite Hrm2 in F2. cbn [andb] in F1, F2. rewrite Hlen in F1.
  split.
  - exists v1, v2. repeat split; try assumption.
    + rewrite F2. lra.
    + rewrite F1, F2. destruct (JS.gt _ _); lra.
  - intros Hq. rewrite E1, E2. apply gt_Num.
    assert (Hgt : JS.gt (JS.Num q) (JS.ofZ 1) = true).
    { apply gt_Num. unfold inject_Z. lra. }
    rewrite Hgt in F1. rewrite F1, F2. lra.
Qed.

Lemma C7_witness :
  PictureBuffer.undoStateBudget (Examples.bufferWith 0
      [Examples.addEvent 1 0 0 false; Examples.removeEvent 1 1 0 false] (JS.ofZ 2))
    = JS.Num 2
  /\ JS.gt (Picture.bufferFreeingPriority (Examples.bufferWith 0
        [Examples.addEvent 1 0 0 false; Examples.removeEvent 1 1 0 false] (JS.ofZ 2)))
      (Picture.bufferFreeingPriority (Examples.bufferWith 1
        [Examples.addEvent 1 2 1 false] (JS.ofZ 2))) = true.
Proof.
  split; [reflexivity|].
  apply (C7_bufferFreeingPriority _ _ 2); try reflexivity.
Defined.

(** ** Staying within the memory budget *)

Section MemoryBudget.

Import Picture.

(** The event logs of all buffer objects. *)
Definition logs (p : t) : list (list PictureEvent.t) :=
  map PictureBuffer.events (heap p).

Lemma logs_insert (h : list PictureBuffer.t) (r : nat) (b b' : PictureBuffer.t) :
  h !! r = Some b -> PictureBuffer.events b' = PictureBuffer.events b ->
  map PictureBuffer.events (<[r := b']> h) = map PictureBuffer.events h.
Proof.
  intros Hb He. rewrite list_fmap_insert. rewrite He.
  apply list_insert_id. rewrite list_lookup_fmap, Hb. reflexivity.
Qed.

(** Lowering the budget of the selected buffer: its budget goes down by
    exactly one, the memory in use by the size of one state, and nothing
    else changes. *)
Lemma reduceBudget_spec (r : nat) (p : t) (b : PictureBuffer.t) :
  heap p !! r = Some b ->
  reduceBudget r p =
  Returns tt
    (setMemoryUse (JS.sub (memoryUse p) (PictureBuffer.getStateMemoryBytes b))
       (setHeap (<[r := PictureBuffer.setUndoStateBudget
                          (JS.sub (PictureBuffer.undoStateBudget b) (JS.ofZ 1)) b]> (heap p)) p)).
Proof.
  intros Hb. unfold reduceBudget, update, load, bind, defined, modify, ret.
  rewrite !Hb. cbn.
  rewrite list_lookup_insert_eq by (eapply lookup_lt_Some; eauto).
  reflexivity.
Qed.

Lemma reduceBudget_budget (r : nat) (p p' : t) (b : PictureBuffer.t) :
  heap p !! r = Some b -> reduceBudget r p = Returns tt p' ->
  exists b', heap p' !! r = Some b'
    /\ PictureBuffer.undoStateBudget b'
       = JS.sub (PictureBuffer.undoStateBudget b) (JS.ofZ 1)
    /\ PictureBuffer.events b' = PictureBuffer.events b
    /\ (forall r', r' <> r -> heap p' !! r' = heap p !! r')
    /\ buffers p' = buffers p /\ mergedBuffers p' = mergedBuffers p.
Proof.
  intros Hb H. rewrite (reduceBudget_spec r p b Hb) in H. inversion H; subst; clear H.
  cbn. eexists. split; [apply list_lookup_insert_eq; eapply lookup_lt_Some; eauto|].
  repeat split; auto. intros r' Hne. apply list_lookup_insert_ne. auto.
Qed.

(** A buffer selected by the two loops is an allocated buffer object. *)
Lemma consider_selected (r r0 : nat) (b : PictureBuffer.t) (sel : Selection) :
  selectedBuffer (consider r b sel) = Some r0 ->
  r0 = r \/ selectedBuffer sel = Some r0.
Proof.
  unfold consider. destruct (JS.gt _ _); cbn; intros H; [left; congruence|right; auto].
Qed.

Lemma scanBuffers_selected (h : list PictureBuffer.t) (arr : list nat) (sel sel' : Selection) (r : nat) :
  scanBuffers h arr sel = Some sel' -> selectedBuffer sel' = Some r ->
  selectedBuffer sel = Some r \/ is_Some (h !! r).
Proof.
  revert sel. induction arr as [|a arr IH]; intros sel H Hr; cbn in H.
  - inversion H; subst. auto.
  - destruct (h !! a) as [b|] eqn:Hb; [|discriminate].
    destruct (_ && _).
    + destruct (IH _ H Hr) as [Hs|Hs]; [|auto].
      apply consider_selected in Hs as [->|Hs]; [right; eauto|auto].
    + eauto.
Qed.

Lemma scanMergedBuffers_selected (h : list PictureBuffer.t) (bufs arr : list nat) (i : Z)
  (sel sel' : Selection) (r : nat) :
  scanMergedBuffers h bufs arr i sel = Some sel' -> selectedBuffer sel' = Some r ->
  selectedBuffer sel = Some r \/ is_Some (h !! r).
Proof.
  revert i sel. induction arr as [|a arr IH]; intros i sel H Hr; cbn in H.
  - inversion H; subst. auto.
  - destruct (h !! a) as [b|] eqn:Hb; [|discriminate].
    destruct (JS.gt _ _); [|eauto].
    destruct (JS.index bufs i) as [o|]; [|discriminate].
    destruct (h !! o) as [other|]; [|discriminate].
    destruct (negb _).
    + destruct (IH _ _ H Hr) as [Hs|Hs]; [|auto].
      apply consider_selected in Hs as [->|Hs]; [right; eauto|auto].
    + eauto.
Qed.

Lemma select_selected (p : t) (sel : Selection) (r : nat) :
  select p = Some sel -> selectedBuffer sel = Some r -> is_Some (heap p !! r).
Proof.
  unfold select. destruct (scanBuffers _ _ _) as [sel0|] eqn:H0; [|discriminate].
  intros H Hr.
  destruct (scanMergedBuffers_selected _ _ _ _ _ _ _ H Hr) as [Hs|Hs]; [|auto].
  destruct (scanBuffers_selected _ _ _ _ _ H0 Hs) as [Hs'|Hs']; [discriminate|auto].
Qed.

(** The event logs are never touched: committed events stay. *)
Lemma stayWithinLoop_logs (fuel : nat) (available : JS.number) (possible : bool) (p p' : t) :
  stayWithinLoop fuel available possible p = Returns tt p' ->
  logs p' = logs p /\ buffers p' = buffers p /\ mergedBuffers p' = mergedBuffers p.
Proof.
  revert possible p. induction fuel as [|fuel IH]; intros possible p H; cbn in H.
  - destruct (_ && _); [discriminate|]. inversion H; subst. auto.
  - destruct (_ && _); [|inversion H; subst; auto].
    destruct (select p) as [sel|] eqn:Hsel; [|discriminate].
    bind_inv H. destruct a. apply IH in H as (Hl & Hb & Hm).
    destruct (selectedBuffer sel) as [r|] eqn:Hr.
    + destruct (select_selected _ _ _ Hsel Hr) as [b Hb0].
      destruct (reduceBudget_budget _ _ _ _ Hb0 H0) as (b' & Hb' & _ & He & Hother & Hbs & Hms).
      rewrite Hl, Hb, Hm, Hbs, Hms. repeat split; auto.
      rewrite (reduceBudget_spec r p b Hb0) in H0. inversion H0; subst. unfold logs. cbn.
      apply (logs_insert _ _ b); auto.
    + inversion H0; subst. auto.
Qed.

Lemma stayWithinMemoryBudget_logs (requested : JS.number) (p p' : t) :
  stayWithinMemoryBudget requested p = Returns tt p' ->
  logs p' = logs p /\ buffers p' = buffers p /\ mergedBuffers p' = mergedBuffers p.
Proof. apply stayWithinLoop_logs. Qed.

(** *** The loop ends, or repeats without change *)

Lemma Qceiling_pred (x : Q) : Qceiling (x - 1) = Qceiling x - 1.
Proof.
  apply Z.le_antisymm.
  - rewrite <- (Qceiling_Z (Qceiling x - 1)). apply Qceiling_resp_le.
    pose proof (Qle_ceiling x) as H. unfold Z.sub.
    rewrite inject_Z_plus, inject_Z_opp. change (inject_Z 1) with 1%Q. lra.
  - assert (H : Qceiling x <= Qceiling (x - 1) + 1); [|lia].
    rewrite <- (Qceiling_Z (Qceiling (x - 1) + 1)). apply Qceiling_resp_le.
    pose proof (Qle_ceiling (x - 1)) as H. rewrite inject_Z_plus.
    change (inject_Z 1) with 1%Q. lra.
Qed.

Lemma Qceiling_pos (q : Q) : (1 < q)%Q -> 1 <= Qceiling (q - 1).
Proof.
  intros Hlt. pose proof (Qle_ceiling (q - 1)) as H2.
  assert (H3 : (inject_Z 0 < inject_Z (Qceiling (q - 1)))%Q).
  { change (inject_Z 0) with 0%Q. lra. }
  rewrite <- Zlt_Qlt in H3. lia.
Qed.

(** A candidate of the two loops has a budget above one. *)
Definition overOne (h : list PictureBuffer.t) (r : nat) : Prop :=
  exists b q, h !! r = Some b /\ PictureBuffer.undoStateBudget b = JS.Num q /\ (1 < q)%Q.

Lemma gt_one (n : JS.number) :
  JS.gt n (JS.ofZ 1) = true -> exists q, n = JS.Num q /\ (1 < q)%Q.
Proof.
  destruct n as [q|]; [|discriminate]. intros H. apply gt_Num in H. eauto.
Qed.

Lemma scanBuffers_overOne (h : list PictureBuffer.t) (arr : list nat) (sel sel' : Selection) (r : nat) :
  scanBuffers h arr sel = Some sel' -> selectedBuffer sel' = Some r ->
  selectedBuffer sel = Some r \/ overOne h r.
Proof.
  revert sel. induction arr as [|a arr IH]; intros sel H Hr; cbn in H.
  - inversion H; subst. auto.
  - destruct (h !! a) as [b|] eqn:Hb; [|discriminate].
    destruct (JS.gt _ _) eqn:Hgt; cbn [andb] in H; [|eauto].
    destruct (negb _); [|eauto].
    destruct (IH _ H Hr) as [Hs|Hs]; [|auto].
    apply consider_selected in Hs as [->|Hs]; [|auto].
    right. apply gt_one in Hgt as (q & Hq & Hlt). exists b, q. auto.
Qed.

Lemma scanMergedBuffers_overOne (h : list PictureBuffer.t) (bufs arr : list nat) (i : Z)
  (sel sel' : Selection) (r : nat) :
  scanMergedBuffers h bufs arr i sel = Some sel' -> selectedBuffer sel' = Some r ->
  selectedBuffer sel = Some r \/ overOne h r.
Proof.
  revert i sel. induction arr as [|a arr IH]; intros i sel H Hr; cbn in H.
  - inversion H; subst. auto.
  - destruct (h !! a) as [b|] eqn:Hb; [|discriminate].
    destruct (JS.gt _ _) eqn:Hgt; [|eauto].
    destruct (JS.index bufs i) as [o|]; [|discriminate].
    destruct (h !! o) as [other|]; [|discriminate].
    destruct (negb _); [|eauto].
    destruct (IH _ _ H Hr) as [Hs|Hs]; [|auto].
    apply consider_selected in Hs as [->|Hs]; [|auto].
    right. apply gt_one in Hgt as (q & Hq & Hlt). exists b, q. auto.
Qed.

Lemma select_overOne (p : t) (sel : Selection) (r : nat) :
  select p = Some sel -> selectedBuffer sel = Some r -> overOne (heap p) r.
Proof.
  unfold select. destruct (scanBuffers _ _ _) as [sel0|] eqn:H0; [|discriminate].
  intros H Hr.
  destruct (scanMergedBuffers_overOne _ _ _ _ _ _ _ H Hr) as [Hs|Hs]; [|auto].
  destruct (scanBuffers_overOne _ _ _ _ _ H0 Hs) as [Hs'|Hs']; [discriminate|auto].
Qed.

(** The sum of the remaining steps over the store. *)
Definition steps (p : t) : nat := list_sum (map stepsOf (heap p)).

Lemma list_sum_insert (h : list PictureBuffer.t) (r : nat) (b b' : PictureBuffer.t) :
  h !! r = Some b -> S (stepsOf b') = stepsOf b ->
  S (list_sum (map stepsOf (<[r := b']> h))) = list_sum (map stepsOf h).
Proof.
  revert r. induction h as [|x h IH]; intros r Hb Hs; [discriminate|].
  destruct r as [|r].
  - inversion Hb; subst.
    change (S (stepsOf b' + list_sum (map stepsOf h)) = stepsOf b + list_sum (map stepsOf h))%nat.
    lia.
  - change (S (stepsOf x + list_sum (map stepsOf (<[r := b']> h)))
            = stepsOf x + list_sum (map stepsOf h))%nat.
    specialize (IH r Hb Hs). lia.
Qed.

Lemma stepsOf_lowered (b : PictureBuffer.t) (q : Q) :
  PictureBuffer.undoStateBudget b = JS.Num q -> (1 < q)%Q ->
  S (stepsOf (PictureBuffer.setUndoStateBudget
                (JS.sub (PictureBuffer.undoStateBudget b) (JS.ofZ 1)) b)) = stepsOf b.
Proof.
  intros Hq Hlt. unfold stepsOf. rewrite Hq. cbn.
  rewrite (Qceiling_comp _ ((q - 1) - 1)%Q) by (rewrite Qred_correct; unfold inject_Z; lra).
  rewrite Qceiling_pred. pose proof (Qceiling_pos q Hlt). lia.
Qed.

Lemma reduceBudget_steps (r : nat) (p p' : t) :
  overOne (heap p) r -> reduceBudget r p = Returns tt p' -> S (steps p') = steps p.
Proof.
  intros (b & q & Hb & Hq & Hlt) H. rewrite (reduceBudget_spec r p b Hb) in H.
  inversion H; subst. unfold steps. cbn.
  apply (list_sum_insert _ _ b); auto. apply (stepsOf_lowered b q); auto.
Qed.

(** A pass that sees a candidate and selects none leaves the state as it
    is: the loop repeats forever. *)
Lemma stayWithinLoop_stuck (fuel : nat) (available : JS.number) (p : t) (sel : Selection) :
  JS.gt (JS.sub (memoryUse p) available) (JS.ofZ 0) = true ->
  select p = Some sel -> selectedBuffer sel = None -> freeingPossible sel = true ->
  stayWithinLoop fuel available true p = Diverges.
Proof.
  intros Hneed Hsel Hnone Hposs. induction fuel as [|fuel IH]; cbn.
  - rewrite Hneed. reflexivity.
  - rewrite Hneed. cbn. rewrite Hsel, Hnone. unfold bind, ret. rewrite Hposs. exact IH.
Qed.

(** The result does not depend on the fuel once the fuel exceeds the
    remaining steps: [iterationBound] is enough. *)
Lemma stayWithinLoop_fuel_steps (m : nat) :
  forall (f1 f2 : nat) (available : JS.number) (possible : bool) (p : t),
  (steps p <= m)%nat -> (m < f1)%nat -> (m < f2)%nat ->
  stayWithinLoop f1 available possible p = stayWithinLoop f2 available possible p.
Proof.
  induction m as [|m IH]; intros f1 f2 available possible p Hm H1 H2;
    (destruct f1 as [|f1]; [lia|]); (destruct f2 as [|f2]; [lia|]); cbn;
    (destruct (JS.gt _ _ && possible) eqn:Hc; [|reflexivity]);
    (destruct (select p) as [sel|] eqn:Hsel; [|reflexivity]);
    unfold bind; (destruct (selectedBuffer sel) as [r|] eqn:Hr).
  - pose proof (select_overOne _ _ _ Hsel Hr) as Ho.
    destruct (reduceBudget r p) as [[] p1| |] eqn:Hred; try reflexivity.
    pose proof (reduceBudget_steps _ _ _ Ho Hred). lia.
  - unfold ret. destruct (freeingPossible sel) eqn:Hp.
    + apply andb_true_iff in Hc as [Hneed _].
      rewrite !(stayWithinLoop_stuck _ _ _ _ Hneed Hsel Hr Hp). reflexivity.
    + destruct f1, f2; cbn; rewrite ?andb_false_r; reflexivity.
  - pose proof (select_overOne _ _ _ Hsel Hr) as Ho.
    destruct (reduceBudget r p) as [[] p1| |] eqn:Hred; try reflexivity.
    pose proof (reduceBudget_steps _ _ _ Ho Hred).
    apply IH; lia.
  - unfold ret. destruct (freeingPossible sel) eqn:Hp.
    + apply andb_true_iff in Hc as [Hneed _].
      rewrite !(stayWithinLoop_stuck _ _ _ _ Hneed Hsel Hr Hp). reflexivity.
    + destruct f1, f2; cbn; rewrite ?andb_false_r; reflexivity.
Qed.

Lemma stayWithinLoop_fuel (n : nat) (available : JS.number) (p : t) :
  stayWithinLoop (iterationBound p + n) available true p
  = stayWithinLoop (iterationBound p) available true p.
Proof.
  apply (stayWithinLoop_fuel_steps (steps p)); unfold iterationBound, steps; lia.
Qed.

(** When the loop ends, the request is met or the last pass of the two
    loops saw no candidate. *)
Lemma consider_possible (r : nat) (b : PictureBuffer.t) (sel : Selection) :
  freeingPossible (consider r b sel) = true.
Proof. unfold consider. destruct (JS.gt _ _); reflexivity. Qed.

Lemma scanBuffers_possible (h : list PictureBuffer.t) (arr : list nat) (sel sel' : Selection) :
  scanBuffers h arr sel = Some sel' -> freeingPossible sel' = false ->
  freeingPossible sel = false /\ selectedBuffer sel' = selectedBuffer sel.
Proof.
  revert sel. induction arr as [|a arr IH]; intros sel H Hp; cbn in H.
  - inversion H; subst. auto.
  - destruct (h !! a) as [b|] eqn:Hb; [|discriminate].
    destruct (_ && _); [|eauto].
    apply IH in H as [H _]; auto. rewrite consider_possible in H. discriminate.
Qed.

Lemma scanMergedBuffers_possible (h : list PictureBuffer.t) (bufs arr : list nat) (i : Z)
  (sel sel' : Selection) :
  scanMergedBuffers h bufs arr i sel = Some sel' -> freeingPossible sel' = false ->
  freeingPossible sel = false /\ selectedBuffer sel' = selectedBuffer sel.
Proof.
  revert i sel. induction arr as [|a arr IH]; intros i sel H Hp; cbn in H.
  - inversion H; subst. auto.
  - destruct (h !! a) as [b|] eqn:Hb; [|discriminate].
    destruct (JS.gt _ _) eqn:Hgt; [|eauto].
    destruct (JS.index bufs i) as [o|]; [|discriminate].
    destruct (h !! o) as [other|]; [|discriminate].
    destruct (negb _); [|eauto].
    apply IH in H as [H _]; auto. rewrite consider_possible in H. discriminate.
Qed.

Lemma select_impossible (p : t) (sel : Selection) :
  select p = Some sel -> freeingPossible sel = false -> selectedBuffer sel = None.
Proof.
  unfold select. destruct (scanBuffers _ _ _) as [sel0|] eqn:H0; [|discriminate].
  intros H Hp. apply scanMergedBuffers_possible in H as [H1 ->]; auto.
  apply scanBuffers_possible in H0 as [_ ->]; auto.
Qed.

Lemma stayWithinLoop_exit (fuel : nat) (available : JS.number) (possible : bool) (p p' : t) :
  stayWithinLoop fuel available possible p = Returns tt p' ->
  JS.gt (JS.sub (memoryUse p') available) (JS.ofZ 0) = false
  \/ (possible = false /\ p' = p)
  \/ (exists sel, select p' = Some sel /\ freeingPossible sel = false).
Proof.
  revert possible p. induction fuel as [|fuel IH]; intros possible p H; cbn in H.
  - destruct (JS.gt (JS.sub (memoryUse p) available) (JS.ofZ 0)) eqn:Hn;
      [|inversion H; subst; auto].
    destruct possible; [discriminate|]. inversion H; subst; auto.
  - destruct (JS.gt (JS.sub (memoryUse p) available) (JS.ofZ 0)) eqn:Hn;
      [|inversion H; subst; auto].
    destruct possible; cbn in H; [|inversion H; subst; auto].
    destruct (select p) as [sel|] eqn:Hsel; [|discriminate].
    bind_inv H. destruct a.
    destruct (IH _ _ H) as [Hd|[[Hp ->]|Hd]]; auto.
    right. right. exists sel. split; [|assumption].
    rewrite (select_impossible _ _ Hsel Hp) in H0. inversion H0; subst. assumption.
Qed.

End MemoryBudget.

(** Budgets are not always whole numbers: a buffer whose creation event is
    pushed undone gets the average budget of the active buffers, which
    [createBuffer] rounds down only on its other path.  The loop then takes
    such a budget below one. *)
Lemma stayWithinMemoryBudget_fractional_budget :
  Examples.fiveBuffers Examples.big = Picture.Returns tt Examples.crowded
  /\ Examples.budgets Examples.crowded !! 4%nat = Some (JS.Num (7 # 4))
  /\ exists p',
      Picture.stayWithinMemoryBudget (Examples.megabytes 16) Examples.crowded
      = Picture.Returns tt p'
      /\ Examples.budgets p' !! 4%nat = Some (JS.Num (3 # 4)).
Proof.
  split; [vm_compute; reflexivity|]. split; [vm_compute; reflexivity|].
  eexists. split; vm_compute; reflexivity.
Qed.

(** C1: the loop over the merged buffers tests [this.buffers[i].freed], the
    entry of the active stack at the index of the merged buffer.  With one
    active buffer and two merged buffers the call throws a TypeError instead
    of terminating; with a freed active buffer at the index of a merged
    buffer the call ends while that merged buffer, which is not freed and
    has a budget of 5, could still give up budget. *)
Theorem C1_stayWithinMemoryBudget_wrong_array :
  Examples.mergeTwice Examples.big = Picture.Returns tt Examples.twiceMerged
  /\ Picture.buffers Examples.twiceMerged = [0%nat]
  /\ Picture.mergedBuffers Examples.twiceMerged = [2%nat; 1%nat]
  /\ Examples.budgets Examples.twiceMerged = [JS.Num 3; JS.Num 4; JS.Num 5]
  /\ Picture.stayWithinMemoryBudget (Examples.megabytes 16) Examples.twiceMerged
     = Picture.Throws
  /\ Picture.addBuffer 3 [0; 0; 0; 0] true Examples.twiceMerged = Picture.Throws
  /\ Examples.mergeAndRemove Examples.big = Picture.Returns tt Examples.mergedAndRemoved
  /\ Picture.stayWithinMemoryBudget (Examples.megabytes 200) Examples.mergedAndRemoved
     = Picture.Returns tt Examples.mergedAndRemoved
  /\ JS.gt (Picture.memoryUse Examples.mergedAndRemoved)
           (JS.sub (Picture.memoryBudget Examples.mergedAndRemoved) (Examples.megabytes 200))
     = true
  /\ Picture.mergedBuffers Examples.mergedAndRemoved = [1%nat]
  /\ (PictureBuffer.undoStateBudget <$> Picture.heap Examples.mergedAndRemoved !! 1%nat)
     = Some (JS.Num 5)
  /\ (PictureBuffer.freed <$> Picture.heap Examples.mergedAndRemoved !! 1%nat)
     = Some false.
Proof. repeat apply conj; vm_compute; reflexivity. Qed.

(** ** Looking an event up by its session identity *)

Section Search.

Import Picture.

Lemma indexFrom_unmatched (s i : Z) (evs : list PictureEvent.t) (k : Z) :
  existsb (PictureEvent.hasIdentity s i) evs = false ->
  PictureBuffer.indexFrom s i evs k = -1.
Proof.
  revert k. induction evs as [|e evs IH]; intros k H; cbn in *; [reflexivity|].
  apply orb_false_iff in H as [He H]. rewrite He. auto.
Qed.

Lemma indexFrom_matched (s i : Z) (evs : list PictureEvent.t) (k : Z) :
  existsb (PictureEvent.hasIdentity s i) evs = true ->
  exists n e, PictureBuffer.indexFrom s i evs k = k + Z.of_nat n
    /\ evs !! n = Some e /\ PictureEvent.hasIdentity s i e = true.
Proof.
  revert k. induction evs as [|e evs IH]; intros k H; cbn in *; [discriminate|].
  destruct (PictureEvent.hasIdentity s i e) eqn:He.
  - exists 0%nat, e. repeat split; auto. lia.
  - cbn in H. destruct (IH (k + 1) H) as (n & e' & Hn & He' & Hid).
    exists (S n), e'. repeat split; auto. lia.
Qed.

Lemma index_of_nat {A : Type} (l : list A) (n : nat) :
  JS.index l (Z.of_nat n) = l !! n.
Proof.
  unfold JS.index. destruct (Z.ltb_spec (Z.of_nat n) 0); [lia|].
  rewrite Nat2Z.id. reflexivity.
Qed.

(** The buffers of an array are allocated and none of their logs holds
    the identity. *)
Definition unmatchedIn (h : list PictureBuffer.t) (arr : list nat) (s i : Z) : Prop :=
  Forall (fun r => exists b, h !! r = Some b
            /\ existsb (PictureEvent.hasIdentity s i) (PictureBuffer.events b) = false) arr.

Lemma searchFrom_unmatched (h : list PictureBuffer.t) (arr : list nat) (s i : Z) :
  unmatchedIn h arr s i -> searchFrom h arr s i = Some None.
Proof.
  induction 1 as [|r arr (b & Hb & Hn) _ IH]; cbn; [reflexivity|].
  rewrite Hb. unfold PictureBuffer.eventIndexBySessionId.
  rewrite (indexFrom_unmatched _ _ _ _ Hn). cbn. exact IH.
Qed.

(** What a successful search returns: an allocated buffer of the array and
    the position of an event with the identity in its log. *)
Lemma searchFrom_found (h : list PictureBuffer.t) (arr : list nat) (s i : Z) (r : nat) (k : Z) :
  searchFrom h arr s i = Some (Some (r, k)) ->
  exists b e, r ∈ arr /\ h !! r = Some b
    /\ JS.index (PictureBuffer.events b) k = Some e
    /\ PictureEvent.hasIdentity s i e = true.
Proof.
  induction arr as [|a arr IH]; cbn; [discriminate|].
  destruct (h !! a) as [b|] eqn:Hb; [|discriminate].
  destruct (Z.leb_spec 0 (PictureBuffer.eventIndexBySessionId b s i)) as [Hle|Hlt].
  - intros [= <- <-].
    destruct (existsb (PictureEvent.hasIdentity s i) (PictureBuffer.events b)) eqn:Hex.
    + destruct (indexFrom_matched s i _ 0 Hex) as (n & e & Hn & He & Hid).
      exists b, e. unfold PictureBuffer.eventIndexBySessionId. rewrite Hn.
      rewrite Z.add_0_l, index_of_nat. repeat split; auto. apply list_elem_of_here.
    + unfold PictureBuffer.eventIndexBySessionId in Hle.
      rewrite (indexFrom_unmatched _ _ _ _ Hex) in Hle. lia.
  - intros H. destruct (IH H) as (b' & e & Hin & Hb' & He & Hid).
    exists b', e. repeat split; auto. apply list_elem_of_further. exact Hin.
Qed.

(** A search over allocated buffers finds an event when some log holds the
    identity. *)
Lemma searchFrom_matched (h : list PictureBuffer.t) (arr : list nat) (s i : Z) :
  Forall (fun r => is_Some (h !! r)) arr ->
  existsb (fun r => existsb (PictureEvent.hasIdentity s i) (Spec.logOf h r)) arr = true ->
  exists r k, searchFrom h arr s i = Some (Some (r, k)).
Proof.
  induction 1 as [|a arr [b Hb] _ IH]; cbn; [discriminate|].
  rewrite Hb. unfold Spec.logOf at 1. rewrite Hb.
  destruct (existsb (PictureEvent.hasIdentity s i) (PictureBuffer.events b)) eqn:Hex.
  - intros _. destruct (indexFrom_matched s i _ 0 Hex) as (n & e & Hn & _).
    unfold PictureBuffer.eventIndexBySessionId. rewrite Hn.
    destruct (Z.leb_spec 0 (0 + Z.of_nat n)); [eauto|lia].
  - cbn. intros H. unfold PictureBuffer.eventIndexBySessionId.
    rewrite (indexFrom_unmatched _ _ _ _ Hex). cbn. auto.
Qed.

(** From the picture as a whole to one of its arrays. *)
Lemma validRefs_collection (p : t) (c : Collection) :
  Spec.validRefs p = true -> Forall (fun r => is_Some (heap p !! r)) (rev (collection c p)).
Proof.
  unfold Spec.validRefs, Spec.allBuffers. rewrite forallb_app, andb_true_iff.
  intros [Ha Hm]. apply Forall_rev.
  destruct c; cbn; apply Forall_forall; intros r Hr; apply list_elem_of_In in Hr;
    [rewrite forallb_forall in Ha; specialize (Ha r Hr)
    |rewrite forallb_forall in Hm; specialize (Hm r Hr)];
    eapply bool_decide_unpack; eauto.
Qed.

Lemma existsb_concat {A : Type} (f : A -> bool) (ls : list (list A)) :
  existsb f (concat ls) = existsb (existsb f) ls.
Proof.
  induction ls as [|l ls IH]; cbn; [reflexivity|]. rewrite existsb_app, IH. reflexivity.
Qed.

Lemma existsb_map_logs {A B : Type} (f : B -> bool) (g : A -> B) (l : list A) :
  existsb f (map g l) = existsb (fun x => f (g x)) l.
Proof. induction l as [|x l IH]; cbn; [reflexivity|]. rewrite IH. reflexivity. Qed.

Lemma allEvents_matched (p : t) (s i : Z) :
  existsb (PictureEvent.hasIdentity s i) (Spec.allEvents p)
  = existsb (fun r => existsb (PictureEvent.hasIdentity s i) (Spec.logOf (heap p) r))
      (buffers p)
    || existsb (fun r => existsb (PictureEvent.hasIdentity s i) (Spec.logOf (heap p) r))
      (mergedBuffers p).
Proof.
  unfold Spec.allEvents, Spec.allBuffers.
  rewrite existsb_concat, map_app, existsb_app, !existsb_map_logs. reflexivity.
Qed.

Lemma existsb_rev {A : Type} (f : A -> bool) (l : list A) :
  existsb f (rev l) = existsb f l.
Proof.
  induction l as [|x l IH]; cbn; [reflexivity|].
  rewrite existsb_app, IH. cbn. rewrite orb_false_r. apply orb_comm.
Qed.

Lemma unmatched_collection (p : t) (c : Collection) (s i : Z) :
  Spec.validRefs p = true ->
  existsb (fun r => existsb (PictureEvent.hasIdentity s i) (Spec.logOf (heap p) r))
    (collection c p) = false ->
  unmatchedIn (heap p) (rev (collection c p)) s i.
Proof.
  intros Hv Hn. pose proof (validRefs_collection p c Hv) as Hf.
  rewrite <- existsb_rev in Hn. revert Hn.
  induction Hf as [|r l [b Hb] _ IH]; cbn; intros Hn; constructor.
  - apply orb_false_iff in Hn as [Hn _]. exists b. split; [exact Hb|].
    unfold Spec.logOf in Hn. rewrite Hb in Hn. exact Hn.
  - apply IH. apply orb_false_iff in Hn as [_ Hn]. exact Hn.
Qed.

Lemma search_unmatched (p : t) (c : Collection) (s i : Z) :
  Spec.validRefs p = true ->
  existsb (fun r => existsb (PictureEvent.hasIdentity s i) (Spec.logOf (heap p) r))
    (collection c p) = false ->
  search c s i p = Returns None p.
Proof.
  intros Hv Hn. unfold search.
  rewrite (searchFrom_unmatched _ _ _ _ (unmatched_collection p c s i Hv Hn)).
  reflexivity.
Qed.

Lemma search_matched (p : t) (c : Collection) (s i : Z) :
  Spec.validRefs p = true ->
  existsb (fun r => existsb (PictureEvent.hasIdentity s i) (Spec.logOf (heap p) r))
    (collection c p) = true ->
  exists r k b e, search c s i p = Returns (Some (r, k)) p
    /\ r ∈ collection c p /\ heap p !! r = Some b
    /\ JS.index (PictureBuffer.events b) k = Some e
    /\ PictureEvent.hasIdentity s i e = true.
Proof.
  intros Hv Hm. rewrite <- existsb_rev in Hm.
  destruct (searchFrom_matched _ _ s i (validRefs_collection p c Hv) Hm) as (r & k & Hs).
  destruct (searchFrom_found _ _ _ _ _ _ Hs) as (b & e & Hin & Hb & He & Hid).
  exists r, k, b, e. unfold search. rewrite Hs. repeat split; auto.
  apply list_elem_of_In. apply list_elem_of_In in Hin. apply in_rev. exact Hin.
Qed.

End Search.

(** C5: for a session identity that no event of any active or merged-away
    buffer carries, [undoEventSessionId] returns null and
    [redoEventSessionId] and [removeEventSessionId] return false; none of
    them throws, and the picture (buffers, event logs, memory counters) is
    left exactly as it was. *)
Theorem C5_unmatched_identity (p : Picture.t) (sid sessionEventId : Z)
  (Hrefs : Spec.validRefs p = true)
  (Hnone : existsb (PictureEvent.hasIdentity sid sessionEventId) (Spec.allEvents p) = false) :
  Picture.undoEventSessionId sid sessionEventId p = Picture.Returns None p
  /\ Picture.redoEventSessionId sid sessionEventId p = Picture.Returns false p
  /\ Picture.removeEventSessionId sid sessionEventId p = Picture.Returns false p.
Proof.
  rewrite allEvents_matched in Hnone. apply orb_false_iff in Hnone as [Ha Hm].
  pose proof (search_unmatched p Picture.Active sid sessionEventId Hrefs Ha) as Sa.
  pose proof (search_unmatched p Picture.Merged sid sessionEventId Hrefs Hm) as Sm.
  unfold Picture.undoEventSessionId, Picture.redoEventSessionId,
    Picture.removeEventSessionId, Picture.undoEventFromBuffers,
    Picture.redoEventFromBuffers, Picture.removeEventFromBuffers.
  repeat split.
  - rewrite (bind_eq _ _ p p None) by (rewrite (bind_eq _ _ _ _ _ Sa); reflexivity).
    rewrite (bind_eq _ _ _ _ _ Sm). reflexivity.
  - rewrite (bind_eq _ _ p p false) by (rewrite (bind_eq _ _ _ _ _ Sa); reflexivity).
    rewrite (bind_eq _ _ _ _ _ Sm). reflexivity.
  - rewrite (bind_eq _ _ p p false) by (rewrite (bind_eq _ _ _ _ _ Sa); reflexivity).
    rewrite (bind_eq _ _ _ _ _ Sm). reflexivity.
Qed.

Lemma C5_witness :
  Picture.undoEventSessionId 7 0 Examples.twiceMerged
    = Picture.Returns None Examples.twiceMerged
  /\ Picture.redoEventSessionId 7 0 Examples.twiceMerged
    = Picture.Returns false Examples.twiceMerged
  /\ Picture.removeEventSessionId 7 0 Examples.twiceMerged
    = Picture.Returns false Examples.twiceMerged.
Proof.
  apply (C5_unmatched_identity Examples.twiceMerged 7 0); vm_compute; reflexivity.
Defined.

(** ** Redo by session identity *)

Section Redo.

Import Picture.



Lemma index_Some_nat {A : Type} (l : list A) (k : Z) (x : A) :
  JS.index l k = Some x -> l !! Z.to_nat k = Some x.
Proof. unfold JS.index. destruct (k <? 0); [discriminate|auto]. Qed.

Lemma allEvents_elem (p : t) (c : Collection) (r : nat) (b : PictureBuffer.t)
  (k : Z) (e : PictureEvent.t) :
  r ∈ collection c p -> heap p !! r = Some b ->
  JS.index (PictureBuffer.events b) k = Some e -> In e (Spec.allEvents p).
Proof.
  intros Hr Hb He. unfold Spec.allEvents. apply in_concat.
  exists (PictureBuffer.events b). split.
  - apply in_map_iff. exists r. split; [unfold Spec.logOf; rewrite Hb; reflexivity|].
    unfold Spec.allBuffers. apply in_or_app. apply list_elem_of_In in Hr.
    destruct c; [left|right]; exact Hr.
  - apply index_Some_nat in He. apply list_elem_of_In.
    eapply list_elem_of_lookup_2. exact He.
Qed.






End Redo.




(** ** The latest event of a session *)

Section Latest.

Import Picture.

Variables (s : Z) (canBeUndone : bool).

Let candidate := PictureBuffer.isCandidate s canBeUndone.

(** Every candidate of a log has a session event id of at most [m]. *)
Definition boundedBy (m : Z) (evs : list PictureEvent.t) : Prop :=
  Forall (fun e => candidate e = true -> PictureEvent.sessionEventId e <= m) evs.

Lemma boundedBy_le (m m' : Z) (evs : list PictureEvent.t) :
  m <= m' -> boundedBy m evs -> boundedBy m' evs.
Proof.
  intros Hle H. eapply Forall_impl; [exact H|]. cbn. intros e He Hc.
  specialize (He Hc). lia.
Qed.

(** The scan of one log: either the running best is kept, and it bounds
    the log, or a candidate of the log with a higher id took its place. *)
Lemma latestFrom_spec (evs : list PictureEvent.t) :
  forall (k : Z) (best : option (Z * Z)),
  match PictureBuffer.latestFrom s canBeUndone evs k best with
  | None => best = None /\ Forall (fun e => candidate e = false) evs
  | Some (ri, rid) =>
    boundedBy rid evs
    /\ ((best = Some (ri, rid))
        \/ (exists n e, ri = k + Z.of_nat n /\ evs !! n = Some e /\ candidate e = true
                        /\ PictureEvent.sessionEventId e = rid
                        /\ match best with Some (_, bid) => bid < rid | None => True end))
  end.
Proof.
  induction evs as [|e evs IH]; intros k best.
  - cbn. destruct best as [[bi bid]|]; [|split; [reflexivity|constructor]].
    split; [constructor|left; reflexivity].
  - cbn [PictureBuffer.latestFrom].
    set (best' := if PictureBuffer.isCandidate s canBeUndone e then _ else best).
    assert (Hstep :
      (candidate e = false /\ best' = best)
      \/ (candidate e = true /\ best' = Some (k, PictureEvent.sessionEventId e)
          /\ match best with
             | Some (_, bid) => bid < PictureEvent.sessionEventId e
             | None => True
             end)
      \/ (candidate e = true /\ best' = best
          /\ exists bi bid, best = Some (bi, bid) /\ PictureEvent.sessionEventId e <= bid)).
    { subst best'. unfold candidate. destruct (PictureBuffer.isCandidate s canBeUndone e).
      - right. destruct best as [[bi bid]|]; [|left; auto].
        destruct (Z.ltb_spec bid (PictureEvent.sessionEventId e)); [left; auto|].
        right. repeat split; auto. exists bi, bid. auto.
      - left. auto. }
    specialize (IH (k + 1) best'). clearbody best'.
    destruct (PictureBuffer.latestFrom s canBeUndone evs (k + 1) best') as [[ri rid]|].
    + destruct IH as [Hb Hcase].
      destruct Hstep as [[Hc ->]|[(Hc & -> & Hlt)|(Hc & -> & bi & bid & -> & Hle)]].
      * split; [constructor; [intros; congruence|exact Hb]|].
        destruct Hcase as [->|(n & e' & -> & He' & Hc' & Hid & Hlt')]; [left; reflexivity|].
        right. exists (S n), e'. repeat split; auto. lia.
      * destruct Hcase as [[= <- <-]|(n & e' & -> & He' & Hc' & Hid & Hlt')].
        -- split; [constructor; [intros; lia|exact Hb]|].
           right. exists 0%nat, e. repeat split; auto. lia.
        -- split; [constructor; [intros; lia|exact Hb]|].
           right. exists (S n), e'. repeat split; auto; [lia|].
           destruct best as [[bi bid]|]; [lia|exact I].
      * destruct Hcase as [[= <- <-]|(n & e' & -> & He' & Hc' & Hid & Hlt')].
        -- split; [constructor; [intros; lia|exact Hb]|]. left. reflexivity.
        -- split; [constructor; [intros; lia|exact Hb]|].
           right. exists (S n), e'. repeat split; auto. lia.
    + destruct IH as [-> Hf].
      destruct Hstep as [[Hc Hbest]|[(_ & Hbest & _)|(_ & Hbest' & bi & bid & Hbest & _)]];
        try discriminate; [|congruence].
      split; [congruence|]. constructor; auto.
Qed.

(** [PictureBuffer.findLatest]: -1 when the log has no candidate, and
    otherwise the position of a candidate whose id bounds the log. *)
Lemma buffer_findLatest_spec (b : PictureBuffer.t) :
  (PictureBuffer.findLatest b s canBeUndone = -1
   /\ Forall (fun e => candidate e = false) (PictureBuffer.events b))
  \/ (exists n e, PictureBuffer.findLatest b s canBeUndone = Z.of_nat n
        /\ PictureBuffer.events b !! n = Some e /\ candidate e = true
        /\ boundedBy (PictureEvent.sessionEventId e) (PictureBuffer.events b)).
Proof.
  unfold PictureBuffer.findLatest.
  pose proof (latestFrom_spec (PictureBuffer.events b) 0 None) as H.
  destruct (PictureBuffer.latestFrom _ _ _ _ _) as [[ri rid]|].
  - right. destruct H as [Hb [?|(n & e & -> & He & Hc & <- & _)]]; [discriminate|].
    exists n, e. repeat split; auto.
  - left. destruct H. auto.
Qed.

(** The buffers of an array are allocated and [m] bounds their logs. *)
Definition boundedIn (h : list PictureBuffer.t) (m : Z) (arr : list nat) : Prop :=
  Forall (fun r => exists b, h !! r = Some b /\ boundedBy m (PictureBuffer.events b)) arr.

Lemma boundedIn_le (h : list PictureBuffer.t) (m m' : Z) (arr : list nat) :
  m <= m' -> boundedIn h m arr -> boundedIn h m' arr.
Proof.
  intros Hle H. eapply Forall_impl; [exact H|]. cbn. intros r (b & Hb & Hbd).
  exists b. split; [exact Hb|]. eapply boundedBy_le; eauto.
Qed.

(** The loop of [findLatest] over one array. *)
Lemma findLatestIn_spec (h : list PictureBuffer.t) (merged : bool) (arr : list nat) :
  Forall (fun r => is_Some (h !! r)) arr ->
  forall (i : Z) (acc : LatestAcc), -1 <= latestId acc ->
  exists acc', findLatestIn h arr merged s canBeUndone i acc = Some acc'
    /\ latestId acc <= latestId acc'
    /\ boundedIn h (latestId acc') arr
    /\ (acc' = acc
        \/ (exists n r b e, arr !! n = Some r /\ h !! r = Some b
              /\ latestBufferIndex acc' = i + Z.of_nat n
              /\ JS.index (PictureBuffer.events b) (latestIdx acc') = Some e
              /\ candidate e = true
              /\ PictureEvent.sessionEventId e = latestId acc'
              /\ latestInRemovedBuffer acc' = (merged || latestInRemovedBuffer acc)
              /\ latestId acc < latestId acc')).
Proof.
  induction 1 as [|r arr [b Hb] _ IH]; intros i acc Hacc; cbn [findLatestIn].
  - exists acc. repeat split; auto; [lia|constructor].
  - rewrite Hb.
    destruct (buffer_findLatest_spec b) as [[Hnone Hf]|(n & e & Hn & He & Hc & Hbd)].
    + rewrite Hnone. cbn.
      destruct (IH (i + 1) acc Hacc) as (acc' & Hr & Hle & Hbd & Hcase).
      exists acc'. repeat split; auto.
      * constructor; [|exact Hbd]. exists b. split; [exact Hb|].
        eapply Forall_impl; [exact Hf|]. cbn. intros e He Hc. congruence.
      * destruct Hcase as [->|(n & r' & b' & e & Hn & Hb' & Hbi & He & Hc & Hid & Hrm & Hlt)];
          [left; reflexivity|].
        right. exists (S n), r', b', e. repeat split; auto. lia.
    + rewrite Hn. destruct (Z.leb_spec 0 (Z.of_nat n)); [|lia].
      rewrite index_of_nat, He.
      destruct (Z.ltb_spec (latestId acc) (PictureEvent.sessionEventId e)) as [Hlt|Hge].
      * destruct (IH (i + 1)
          (mkLatestAcc (Z.of_nat n) i (PictureEvent.sessionEventId e)
             (merged || latestInRemovedBuffer acc)))
          as (acc' & Hr & Hle & Hbd' & Hcase); [cbn; lia|].
        cbn in Hle. exists acc'. repeat split; auto; [lia| |].
        -- constructor; [|exact Hbd']. exists b. split; [exact Hb|].
           eapply boundedBy_le; eauto.
        -- right.
           destruct Hcase as [->|(n' & r' & b' & e' & Hn' & Hb' & Hbi & He' & Hc' & Hid & Hrm & Hlt')].
           ++ exists 0%nat, r, b, e. cbn. rewrite index_of_nat.
              repeat split; auto. lia.
           ++ cbn in Hrm, Hlt'. exists (S n'), r', b', e'. repeat split; auto; try lia.
              rewrite Hrm. destruct merged; reflexivity.
      * destruct (IH (i + 1) acc Hacc) as (acc' & Hr & Hle & Hbd' & Hcase).
        exists acc'. repeat split; auto.
        -- constructor; [|exact Hbd']. exists b. split; [exact Hb|].
           eapply boundedBy_le; [|exact Hbd]. lia.
        -- destruct Hcase as [->|(n' & r' & b' & e' & Hn' & Hb' & Hbi & He' & Hc' & Hid & Hrm & Hlt')];
             [left; reflexivity|].
           right. exists (S n'), r', b', e'. repeat split; auto. lia.
Qed.

End Latest.

Section FindLatest.

Import Picture.

Lemma validRefs_arrays (p : t) :
  Spec.validRefs p = true ->
  Forall (fun r => is_Some (heap p !! r)) (buffers p)
  /\ Forall (fun r => is_Some (heap p !! r)) (mergedBuffers p).
Proof.
  intros Hv.
  pose proof (validRefs_collection p Active Hv) as Ha.
  pose proof (validRefs_collection p Merged Hv) as Hm.
  apply Forall_rev in Ha, Hm. cbn in Ha, Hm. rewrite rev_involutive in Ha, Hm. auto.
Qed.

Lemma boundedIn_allEvents (s : Z) (canBeUndone : bool) (p : t) (m : Z) :
  boundedIn s canBeUndone (heap p) m (buffers p) ->
  boundedIn s canBeUndone (heap p) m (mergedBuffers p) ->
  forall e, In e (Spec.allEvents p) ->
    PictureBuffer.isCandidate s canBeUndone e = true -> PictureEvent.sessionEventId e <= m.
Proof.
  intros Ha Hm e He. unfold Spec.allEvents, Spec.allBuffers in He.
  apply in_concat in He as (l & Hl & He). apply in_map_iff in Hl as (r & <- & Hr).
  assert (Hb : exists b, heap p !! r = Some b
                /\ boundedBy s canBeUndone m (PictureBuffer.events b)).
  { apply in_app_or in Hr as [Hr|Hr]; apply list_elem_of_In in Hr.
    - exact (proj1 (Forall_forall _ _) Ha r Hr).
    - exact (proj1 (Forall_forall _ _) Hm r Hr). }
  destruct Hb as (b & Hb & Hbd). unfold Spec.logOf in He. rewrite Hb in He.
  apply list_elem_of_In in He. exact (proj1 (Forall_forall _ _) Hbd e He).
Qed.

(** What [findLatest] finds in a picture: nothing when no candidate of the
    session has a non-negative id, and otherwise the place of a candidate
    whose id is the highest among all candidates of all buffers. *)
Lemma findLatest_spec (s : Z) (canBeUndone : bool) (p : t) :
  Spec.validRefs p = true ->
  exists res, findLatest s canBeUndone p = Returns res p
    /\ match res with
       | None =>
         forall e, In e (Spec.allEvents p) ->
           PictureBuffer.isCandidate s canBeUndone e = true ->
           PictureEvent.sessionEventId e < 0
       | Some l =>
         0 <= sessionEventId l
         /\ (forall e, In e (Spec.allEvents p) ->
               PictureBuffer.isCandidate s canBeUndone e = true ->
               PictureEvent.sessionEventId e <= sessionEventId l)
         /\ exists r b e,
              JS.index (if inRemovedBuffer l then mergedBuffers p else buffers p)
                       (bufferIndex l) = Some r
              /\ heap p !! r = Some b
              /\ JS.index (PictureBuffer.events b) (eventIndex l) = Some e
              /\ PictureBuffer.isCandidate s canBeUndone e = true
              /\ PictureEvent.sessionEventId e = sessionEventId l
       end.
Proof.
  intros Hv. destruct (validRefs_arrays p Hv) as [Ha Hm].
  destruct (findLatestIn_spec s canBeUndone (heap p) false (buffers p) Ha 0
              (mkLatestAcc 0 0 (-1) false)) as (acc1 & H1 & Hle1 & Hbd1 & Hcase1);
    [cbn; lia|].
  destruct (findLatestIn_spec s canBeUndone (heap p) true (mergedBuffers p) Hm 0 acc1)
    as (acc2 & H2 & Hle2 & Hbd2 & Hcase2); [cbn in Hle1; lia|].
  cbn in Hle1.
  assert (Hbound : forall e, In e (Spec.allEvents p) ->
            PictureBuffer.isCandidate s canBeUndone e = true ->
            PictureEvent.sessionEventId e <= latestId acc2).
  { apply boundedIn_allEvents; [|exact Hbd2]. eapply boundedIn_le; eauto. }
  unfold findLatest, bind, get, defined, ret. rewrite H1, H2.
  destruct (Z.leb_spec 0 (latestId acc2)) as [Hpos|Hneg].
  - eexists. split; [reflexivity|]. cbn.
    split; [exact Hpos|]. split; [exact Hbound|].
    destruct Hcase2 as [->|(n & r & b & e & Hn & Hb & Hbi & He & Hc & Hid & Hrm & Hlt)].
    + destruct Hcase1 as [->|(n & r & b & e & Hn & Hb & Hbi & He & Hc & Hid & Hrm & Hlt)];
        [cbn in Hpos; lia|].
      exists r, b, e. cbn in Hrm. rewrite Hrm, Hbi, Z.add_0_l, index_of_nat.
      repeat split; auto.
    + exists r, b, e. cbn in Hrm. rewrite Hrm, Hbi, Z.add_0_l, index_of_nat.
      repeat split; auto.
  - eexists. split; [reflexivity|]. cbn. intros e He Hc.
    specialize (Hbound e He Hc). lia.
Qed.

End FindLatest.

(** ** What a method leaves unchanged *)

Section Preserves.

Import Picture.

Context {X : Type} (f : t -> X).

(** Whenever the method returns, the observation [f] of the picture is
    what it was. *)
Definition preserves {A : Type} (m : M A) : Prop :=
  forall p a p', m p = Returns a p' -> f p' = f p.

Lemma preserves_ret {A : Type} (a : A) : preserves (ret a).
Proof. intros p a' p' [= _ ->]. reflexivity. Qed.

Lemma preserves_throw {A : Type} : preserves (@throw A).
Proof. intros p a p' H. discriminate. Qed.

Lemma preserves_get : preserves get.
Proof. intros p a p' [= _ ->]. reflexivity. Qed.

Lemma preserves_bind {A B : Type} (m : M A) (k : A -> M B) :
  preserves m -> (forall a, preserves (k a)) -> preserves (bind m k).
Proof.
  intros Hm Hk p b p' H. bind_inv H. rewrite (Hk _ _ _ _ H). eapply Hm; eauto.
Qed.

Lemma preserves_defined {A : Type} (v : option A) : preserves (defined v).
Proof. intros p a p' H. apply defined_Returns in H as [_ ->]. reflexivity. Qed.

Lemma preserves_load (r : nat) : preserves (load r).
Proof. intros p a p' H. apply load_Returns in H as [_ ->]. reflexivity. Qed.

Lemma preserves_at (arr : list nat) (i : Z) : preserves (at_ arr i).
Proof. apply preserves_defined. Qed.

Lemma preserves_modify (g : t -> t) : (forall p, f (g p) = f p) -> preserves (modify g).
Proof. intros Hg p a p' [= _ <-]. apply Hg. Qed.

Lemma preserves_state {A : Type} (g : t -> option A) :
  preserves (fun p => defined (g p) p).
Proof. intros p a p' H. apply defined_Returns in H as [_ ->]. reflexivity. Qed.

End Preserves.

(** The active session: its id and the next session event id. *)
Definition session (p : Picture.t) : Z * Z :=
  (Picture.activeSid p, Picture.activeSessionEventId p).

Section Session.

Import Picture.

Lemma session_update (r : nat) (g : PictureBuffer.t -> PictureBuffer.t) :
  preserves session (update r g).
Proof.
  intros p a p' H. destruct a. apply update_Returns in H as (b & _ & ->). reflexivity.
Qed.

Lemma session_alloc (b : PictureBuffer.t) : preserves session (alloc b).
Proof. intros p a p' [= _ <-]. reflexivity. Qed.

End Session.

Create HintDb session.

#[export] Hint Resolve preserves_ret preserves_throw preserves_get preserves_defined
  preserves_load preserves_at preserves_state session_update session_alloc : session.

(** Goals [preserves session m] are solved along the structure of [m]. *)
Ltac session_step :=
  first
    [ solve [auto with session]
    | apply preserves_modify; intros; reflexivity
    | apply preserves_bind; [|intros]
    | match goal with
      | |- preserves _ (match ?x with _ => _ end) => destruct x
      | |- preserves _ (if ?x then _ else _) => destruct x
      end ].

Ltac session := repeat session_step.

Section SessionMethods.

Import Picture.

Lemma session_findBufferIndex (arr : list nat) (id : Z) :
  preserves session (findBufferIndex arr id).
Proof. unfold findBufferIndex. session. Qed.

Lemma session_findBuffer (id : Z) : preserves session (findBuffer id).
Proof. pose proof session_findBufferIndex. unfold findBuffer. session. Qed.

Lemma session_findLatest (s : Z) (canBeUndone : bool) :
  preserves session (findLatest s canBeUndone).
Proof. unfold findLatest. session. Qed.

Lemma session_reduceBudget (r : nat) : preserves session (reduceBudget r).
Proof. unfold reduceBudget. session. Qed.

Lemma session_stayWithinLoop (fuel : nat) (available : JS.number) (possible : bool) :
  preserves session (stayWithinLoop fuel available possible).
Proof.
  revert possible. induction fuel as [|fuel IH]; intros possible p a p' H; cbn in H.
  - destruct (_ && _); [discriminate|]. inversion H. reflexivity.
  - destruct (_ && _); [|inversion H; reflexivity].
    destruct (select p) as [sel|]; [|discriminate].
    bind_inv H. rewrite (IH _ _ _ _ H).
    destruct (selectedBuffer sel); [eapply session_reduceBudget; eauto|].
    inversion H0. reflexivity.
Qed.

Lemma session_stayWithinMemoryBudget (requested : JS.number) :
  preserves session (stayWithinMemoryBudget requested).
Proof. intros p a p' H. eapply session_stayWithinLoop. exact H. Qed.

Lemma session_average : preserves session averageUndoStateBudgetOfActiveBuffers.
Proof. unfold averageUndoStateBudgetOfActiveBuffers. session. Qed.

Lemma session_freeBuffer (r : nat) : preserves session (freeBuffer r).
Proof. unfold freeBuffer. session. Qed.

Lemma session_regenerateBuffer (r : nat) : preserves session (regenerateBuffer r).
Proof. pose proof session_stayWithinMemoryBudget. unfold regenerateBuffer. session. Qed.

Lemma session_createBuffer (e : PictureEvent.t) (u : bool) :
  preserves session (createBuffer e u).
Proof.
  pose proof session_stayWithinMemoryBudget. pose proof session_average.
  unfold createBuffer. session.
Qed.

Lemma session_afterRemove (r : nat) : preserves session (afterRemove r).
Proof. pose proof session_freeBuffer. unfold afterRemove. session. Qed.

Lemma session_markMerged (target : option nat) (v : PictureEvent.BufferValue) :
  preserves session (markMerged target v).
Proof. unfold markMerged. session. Qed.

Lemma session_bufferPushEvent (r : nat) (e : PictureEvent.t) :
  preserves session (bufferPushEvent r e).
Proof. pose proof session_markMerged. unfold bufferPushEvent. session. Qed.

Lemma session_bufferUndoEventIndex (r : nat) (i : Z) (allow : bool) :
  preserves session (bufferUndoEventIndex r i allow).
Proof. pose proof session_markMerged. unfold bufferUndoEventIndex. session. Qed.

Lemma session_bufferRedoEventIndex (r : nat) (i : Z) :
  preserves session (bufferRedoEventIndex r i).
Proof. pose proof session_markMerged. unfold bufferRedoEventIndex. session. Qed.

Lemma session_idOf (v : PictureEvent.BufferValue) : preserves session (idOf v).
Proof. unfold idOf. session. Qed.

Lemma session_asBuffer (v : PictureEvent.BufferValue) : preserves session (asBuffer v).
Proof. unfold asBuffer. session. Qed.

Lemma session_moveBufferInternal (a b : Z) : preserves session (moveBufferInternal a b).
Proof. unfold moveBufferInternal. session. Qed.

Lemma session_pushMergeEvent (target : option nat) (e : PictureEvent.t) :
  preserves session (pushMergeEvent target e).
Proof.
  pose proof session_idOf. pose proof session_findBufferIndex.
  pose proof session_bufferPushEvent. pose proof session_asBuffer.
  unfold pushMergeEvent. session.
Qed.

Lemma session_pushEvent (target : Z) (e : PictureEvent.t) (isDraw : bool) :
  preserves session (pushEvent target e isDraw).
Proof.
  pose proof session_findBuffer. pose proof session_findBufferIndex.
  pose proof session_bufferPushEvent. pose proof session_pushMergeEvent.
  pose proof session_createBuffer. pose proof session_afterRemove.
  pose proof session_moveBufferInternal.
  unfold pushEvent. session.
Qed.

Lemma session_undoEventIndex (r : nat) (i : Z) (merged : bool) :
  preserves session (undoEventIndex r i merged).
Proof.
  pose proof session_bufferUndoEventIndex. pose proof session_freeBuffer.
  pose proof session_regenerateBuffer. pose proof session_findBufferIndex.
  pose proof session_asBuffer. pose proof session_idOf.
  pose proof session_moveBufferInternal.
  unfold undoEventIndex. session.
Qed.

Lemma session_undoLatest (keep : option bool) : preserves session (undoLatest keep).
Proof.
  pose proof session_findLatest. pose proof session_undoEventIndex.
  unfold undoLatest. session.
Qed.

Lemma session_search (c : Collection) (s i : Z) : preserves session (search c s i).
Proof. unfold search. session. Qed.

Lemma session_eventAt (r : nat) (i : Z) : preserves session (eventAt r i).
Proof. unfold eventAt. session. Qed.

Lemma session_undoEventSessionId (s i : Z) : preserves session (undoEventSessionId s i).
Proof.
  pose proof session_search. pose proof session_eventAt. pose proof session_undoEventIndex.
  unfold undoEventSessionId, undoEventFromBuffers. session.
Qed.

Lemma session_redoEventSessionId (s i : Z) : preserves session (redoEventSessionId s i).
Proof.
  pose proof session_search. pose proof session_eventAt.
  pose proof session_idOf. pose proof session_findBufferIndex.
  pose proof session_bufferRedoEventIndex. pose proof session_asBuffer.
  pose proof session_afterRemove. pose proof session_regenerateBuffer.
  unfold redoEventSessionId, redoEventFromBuffers. session.
Qed.

Lemma session_removeEventSessionId (s i : Z) : preserves session (removeEventSessionId s i).
Proof.
  pose proof session_search. pose proof session_eventAt. pose proof session_undoEventIndex.
  unfold removeEventSessionId, removeEventFromBuffers. session.
Qed.

End SessionMethods.

(** ** Session event ids *)

Section SessionIds.

Import Picture.









End SessionIds.




(** ** Undoing a merge *)

Section UndoMerge.

Import Picture.

(** The ids of all buffer objects. *)
Definition ids (h : list PictureBuffer.t) : list Z := map PictureBuffer.id h.

Lemma ids_lookup (h h' : list PictureBuffer.t) (r : nat) :
  ids h' = ids h ->
  (PictureBuffer.id <$> h' !! r) = (PictureBuffer.id <$> h !! r).
Proof.
  intros H. unfold ids in H. rewrite <- !list_lookup_fmap.
  change (map PictureBuffer.id h' !! r = map PictureBuffer.id h !! r). rewrite H. reflexivity.
Qed.

(** [findBufferIndex] only reads the ids of the buffers. *)
Lemma findBufferIndexFrom_ids (h h' : list PictureBuffer.t) (arr : list nat) (id i : Z) :
  ids h' = ids h ->
  findBufferIndexFrom h' arr id i = findBufferIndexFrom h arr id i.
Proof.
  intros H. revert i. induction arr as [|r arr IH]; intros i; cbn; [reflexivity|].
  pose proof (ids_lookup h h' r H) as Hr.
  destruct (h' !! r) as [b'|], (h !! r) as [b|]; cbn in Hr; try discriminate.
  - injection Hr as ->. rewrite IH. reflexivity.
  - reflexivity.
Qed.

Lemma ids_insert (h : list PictureBuffer.t) (r : nat) (b b' : PictureBuffer.t) :
  h !! r = Some b -> PictureBuffer.id b' = PictureBuffer.id b ->
  ids (<[r := b']> h) = ids h.
Proof.
  intros Hb He. unfold ids. rewrite list_fmap_insert. rewrite He.
  apply list_insert_id. rewrite list_lookup_fmap, Hb. reflexivity.
Qed.

(** A found index lies inside the array. *)
Lemma findBufferIndexFrom_range (h : list PictureBuffer.t) (arr : list nat) (id i k : Z) :
  findBufferIndexFrom h arr id i = Some k ->
  k = -1 \/ (i <= k < i + Z.of_nat (length arr)).
Proof.
  revert i. induction arr as [|r arr IH]; intros i; cbn [findBufferIndexFrom].
  - intros [= <-]. auto.
  - destruct (h !! r) as [b|]; [|discriminate].
    destruct (_ =? _).
    + intros [= <-]. right. cbn [length]. lia.
    + intros H. destruct (IH _ H) as [->|Hr]; [auto|]. right. cbn [length]. lia.
Qed.

Lemma spliceStart_inside {A : Type} (arr : list A) (k : nat) :
  (k <= length arr)%nat -> JS.spliceStart arr (Z.of_nat k) = k.
Proof.
  intros H. unfold JS.spliceStart. destruct (Z.ltb_spec (Z.of_nat k) 0); [lia|].
  rewrite Z.min_l by lia. apply Nat2Z.id.
Qed.

(** The buffer-level undo of a merge event that may be undone: the event is
    marked undone in the log of its buffer, the merged buffer is no longer
    marked as merged, and no id changes. *)
Lemma bufferUndoEventIndex_merge (p : t) (holder merged : nat) (i : Z)
  (b mb : PictureBuffer.t) (e : PictureEvent.t) (op : Z) :
  heap p !! holder = Some b -> heap p !! merged = Some mb ->
  JS.index (PictureBuffer.events b) i = Some e ->
  PictureEvent.payload e = PictureEvent.BufferMerge op (PictureEvent.BufferObject merged) ->
  exists h,
    bufferUndoEventIndex holder i true p
    = Returns (Some (PictureEvent.setUndone true e)) (setHeap h p)
    /\ ids h = ids (heap p)
    /\ Spec.logOf h holder
       = <[Z.to_nat i := PictureEvent.setUndone true e]> (PictureBuffer.events b).
Proof.
  intros Hb Hmb He Hp.
  assert (Hty : PictureEvent.isType PictureEvent.bufferMerge e = true).
  { unfold PictureEvent.isType, PictureEvent.eventType. rewrite Hp. reflexivity. }
  set (e' := PictureEvent.setUndone true e).
  set (b' := PictureBuffer.setUndoStates
               (PictureBuffer.invalidateAfter i (PictureBuffer.undoStates b))
               (PictureBuffer.setEvents (<[Z.to_nat i := e']> (PictureBuffer.events b)) b)).
  set (h1 := <[holder := b']> (heap p)).
  assert (Hh1 : ids h1 = ids (heap p)) by (apply (ids_insert _ _ b); auto).
  assert (Hm1 : exists x, h1 !! merged = Some x
                 /\ PictureBuffer.events x
                    = (if decide (merged = holder) then PictureBuffer.events b'
                       else PictureBuffer.events mb)).
  { unfold h1. destruct (decide (merged = holder)) as [->|Hne].
    - exists b'. split; [|reflexivity]. apply list_lookup_insert_eq.
      eapply lookup_lt_Some; eauto.
    - exists mb. split; [|reflexivity]. rewrite list_lookup_insert_ne; auto. }
  destruct Hm1 as (x & Hx & Hxe).
  exists (<[merged := PictureBuffer.setMergedTo None x]> h1). split; [|split].
  - unfold bufferUndoEventIndex, bind, load, defined, PictureBuffer.undoEventIndex.
    rewrite Hb. cbn [ret]. rewrite He, Hty. cbn [negb andb ret].
    unfold update, bind, load, defined, modify. rewrite Hb. cbn [ret heap setHeap].
    fold e' b' h1.
    assert (Hty' : PictureEvent.isType PictureEvent.bufferMerge e' = true) by exact Hty.
    rewrite Hty'.
    assert (Hmg : PictureEvent.mergedBuffer e' = PictureEvent.BufferObject merged).
    { unfold PictureEvent.mergedBuffer, e'. cbn. rewrite Hp. reflexivity. }
    rewrite Hmg. unfold markMerged, update, bind, load, defined, modify.
    cbn [heap setHeap]. rewrite Hx. reflexivity.
  - rewrite (ids_insert _ _ x); auto.
  - unfold Spec.logOf. destruct (decide (merged = holder)) as [->|Hne].
    + rewrite list_lookup_insert_eq by (eapply lookup_lt_Some; eauto).
      cbn. rewrite Hxe. reflexivity.
    + rewrite list_lookup_insert_ne by auto. unfold h1.
      rewrite list_lookup_insert_eq by (eapply lookup_lt_Some; eauto). reflexivity.
Qed.

(** The merge event of an active buffer is undone: the event is marked,
    the merged buffer comes back above the holder and leaves the merged
    buffers. *)
Lemma undoEventIndex_merge (p : t) (holder merged k j : nat)
  (eventIndex op : Z) (b mb : PictureBuffer.t) (e : PictureEvent.t) :
  heap p !! holder = Some b -> heap p !! merged = Some mb ->
  JS.index (PictureBuffer.events b) eventIndex = Some e -> eventIndex <> 0 ->
  PictureEvent.payload e = PictureEvent.BufferMerge op (PictureEvent.BufferObject merged) ->
  findBufferIndexFrom (heap p) (buffers p) (PictureBuffer.id b) 0 = Some (Z.of_nat k) ->
  findBufferIndexFrom (heap p) (mergedBuffers p) (PictureBuffer.id mb) 0
  = Some (Z.of_nat j) ->
  exists p',
    undoEventIndex holder eventIndex false p
    = Returns (Some (PictureEvent.setUndone true e)) p'
    /\ buffers p' = take (S k) (buffers p) ++ merged :: drop (S k) (buffers p)
    /\ mergedBuffers p' = delete j (mergedBuffers p)
    /\ Spec.logOf (heap p') holder
       = <[Z.to_nat eventIndex := PictureEvent.setUndone true e]> (PictureBuffer.events b).
Proof.
  intros Hholder Hmerged Hevent Hpast Hmerge Hk Hj.
  destruct (bufferUndoEventIndex_merge p holder merged eventIndex b mb e op
              Hholder Hmerged Hevent Hmerge) as (h & Hundo & Hids & Hlog).
  assert (Hkr : (k < length (buffers p))%nat).
  { destruct (findBufferIndexFrom_range _ _ _ _ _ Hk); lia. }
  assert (Hjr : (j < length (mergedBuffers p))%nat).
  { destruct (findBufferIndexFrom_range _ _ _ _ _ Hj); lia. }
  assert (Hh : exists b2, h !! holder = Some b2 /\ PictureBuffer.id b2 = PictureBuffer.id b).
  { pose proof (ids_lookup _ _ holder Hids) as Hl. rewrite Hholder in Hl.
    destruct (h !! holder) as [b2|]; [|discriminate]. injection Hl as Hl. eauto. }
  destruct Hh as (b2 & Hb2 & Hid2).
  assert (Hm : exists m2, h !! merged = Some m2 /\ PictureBuffer.id m2 = PictureBuffer.id mb).
  { pose proof (ids_lookup _ _ merged Hids) as Hl. rewrite Hmerged in Hl.
    destruct (h !! merged) as [m2|]; [|discriminate]. injection Hl as Hl. eauto. }
  destruct Hm as (m2 & Hm2 & Hidm).
  assert (Hty : forall ty, PictureEvent.isType ty (PictureEvent.setUndone true e)
                           = PictureEvent.isType ty e) by reflexivity.
  assert (Hmg : PictureEvent.mergedBuffer (PictureEvent.setUndone true e)
                = PictureEvent.BufferObject merged).
  { unfold PictureEvent.mergedBuffer. cbn. rewrite Hmerge. reflexivity. }
  assert (Hkinds : PictureEvent.isType PictureEvent.bufferRemove e = false
                   /\ PictureEvent.isType PictureEvent.bufferMerge e = true).
  { unfold PictureEvent.isType, PictureEvent.eventType. rewrite Hmerge. auto. }
  destruct Hkinds as [Hnr Hym].
  eexists. split; [|split; [|split]].
  - unfold undoEventIndex. cbn [negb]. rewrite (bind_eq _ _ _ _ _ Hundo).
    destruct (Z.eqb_spec eventIndex 0) as [|_]; [contradiction|].
    rewrite !Hty, Hnr, Hym, Hmg.
    cbv [bind get load defined findBufferIndex asBuffer idOf modify ret
         heap setHeap buffers mergedBuffers setBuffers setMergedBuffers].
    fold (heap p) (buffers p) (mergedBuffers p).
    rewrite Hb2. rewrite Hid2, (findBufferIndexFrom_ids _ _ _ _ _ Hids), Hk.
    rewrite Hm2. rewrite Hidm, (findBufferIndexFrom_ids _ _ _ _ _ Hids), Hj.
    reflexivity.
  - cbn. unfold JS.spliceIn.
    replace (Z.of_nat k + 1) with (Z.of_nat (S k)) by lia.
    rewrite spliceStart_inside by lia. reflexivity.
  - cbn. unfold JS.spliceOut. rewrite spliceStart_inside by lia. reflexivity.
  - cbn. exact Hlog.
Qed.

End UndoMerge.


(** C3, as stated, fails: the merged buffer comes back right above the
    buffer that holds the merge event, wherever that buffer is by then, and
    not at the index it had before the merge.  Buffer 1 was at index 1 of
    the stack when it was merged into buffer 0; after another session has
    moved buffer 2 below buffer 0, undoing the merge puts buffer 1 at
    index 2.  And buffer 2, merged from index 2 into buffer 0 at the bottom
    of the stack, comes back at index 1 even when the merge is undone at
    once. *)
Lemma C3_counterexample :
  (Picture.buffers Examples.beforeMerge = [0%nat; 1%nat; 2%nat]
   /\ Examples.mergeThenMove Examples.big = Picture.Returns tt Examples.mergedThenMoved
   /\ Picture.buffers Examples.mergedThenMoved = [2%nat; 0%nat]
   /\ Picture.mergedBuffers Examples.mergedThenMoved = [1%nat]
   /\ exists p',
       Picture.undoLatest None Examples.mergedThenMoved
       = Picture.Returns
           (Some (PictureEvent.mk 1 3 true None
                    (PictureEvent.BufferMerge 1 (PictureEvent.BufferObject 1)))) p'
       /\ Picture.buffers p' = [2%nat; 0%nat; 1%nat]
       /\ Picture.mergedBuffers p' = []
       /\ Picture.buffers p' !! 1%nat <> Picture.buffers Examples.beforeMerge !! 1%nat)
  /\ (Examples.mergeAcrossThenUndo Examples.big
      = Picture.Returns
          (Some (PictureEvent.mk 1 3 true None
                   (PictureEvent.BufferMerge 1 (PictureEvent.BufferObject 2))))
          Examples.mergedAcrossAndUndone
      /\ Picture.buffers Examples.mergedAcrossAndUndone = [0%nat; 2%nat; 1%nat]
      /\ Picture.mergedBuffers Examples.mergedAcrossAndUndone = []).
Proof.
  split.
  - repeat apply conj; try (vm_compute; reflexivity).
    eexists. repeat apply conj; try (vm_compute; reflexivity).
    vm_compute. discriminate.
  - repeat apply conj; vm_compute; reflexivity.
Qed.

(** C3 (amended): when [undoEventIndex], through which every undo goes,
    undoes a merge event held by a buffer of the active stack (an event
    past the creation event of the log, naming a buffer found among the
    merged buffers), the merged buffer is spliced into the active stack
    immediately above the buffer holding the event, that is at the index
    after the one at which [findBufferIndex] finds the id of that buffer,
    whatever index the merged buffer had before the merge, and it is
    removed from the merged buffers at the index at which its id is found
    there.  The event is marked undone in the log and returned.  This is
    what [undoLatest] does when the event is the one it selects, what
    [undoEventSessionId] does when the event is the one it finds and is
    not undone, and what [removeEventSessionId] does to the stack and the
    merged buffers before it removes the event. *)
Theorem C3_undo_merge_splices_above_holder (p : Picture.t) (holder merged k j : nat)
  (eventIndex op : Z) (b mb : PictureBuffer.t) (e : PictureEvent.t)
  (Hholder : Picture.heap p !! holder = Some b)
  (Hmerged : Picture.heap p !! merged = Some mb)
  (Hevent : JS.index (PictureBuffer.events b) eventIndex = Some e)
  (Hpast : eventIndex <> 0)
  (Hmerge : PictureEvent.payload e
            = PictureEvent.BufferMerge op (PictureEvent.BufferObject merged))
  (Hk : Picture.findBufferIndexFrom (Picture.heap p) (Picture.buffers p)
          (PictureBuffer.id b) 0 = Some (Z.of_nat k))
  (Hj : Picture.findBufferIndexFrom (Picture.heap p) (Picture.mergedBuffers p)
          (PictureBuffer.id mb) 0 = Some (Z.of_nat j)) :
  exists p',
    Picture.undoEventIndex holder eventIndex false p
    = Picture.Returns (Some (PictureEvent.setUndone true e)) p'
    /\ Picture.buffers p'
       = take (S k) (Picture.buffers p) ++ merged :: drop (S k) (Picture.buffers p)
    /\ Picture.buffers p' !! S k = Some merged
    /\ Picture.mergedBuffers p' = delete j (Picture.mergedBuffers p)
    /\ Spec.logOf (Picture.heap p') holder
       = <[Z.to_nat eventIndex := PictureEvent.setUndone true e]> (PictureBuffer.events b)
    /\ (forall (keepLastBuffer : option bool) (latest : Picture.Latest),
          Picture.findLatest (Picture.activeSid p) false p
          = Picture.Returns (Some latest) p ->
          Picture.inRemovedBuffer latest = false ->
          JS.index (Picture.buffers p) (Picture.bufferIndex latest) = Some holder ->
          Picture.eventIndex latest = eventIndex ->
          Picture.undoLatest keepLastBuffer p
          = Picture.Returns (Some (PictureEvent.setUndone true e)) p')
    /\ (forall sid sessionEventId : Z,
          Picture.search Picture.Active sid sessionEventId p
          = Picture.Returns (Some (holder, eventIndex)) p ->
          PictureEvent.undone e = false ->
          Picture.undoEventSessionId sid sessionEventId p
          = Picture.Returns (Some (PictureEvent.setUndone true e)) p'
          /\ exists p'',
               Picture.removeEventSessionId sid sessionEventId p = Picture.Returns true p''
               /\ Picture.buffers p'' = Picture.buffers p'
               /\ Picture.mergedBuffers p'' = Picture.mergedBuffers p').
Proof.
  destruct (undoEventIndex_merge p holder merged k j eventIndex op b mb e
              Hholder Hmerged Hevent Hpast Hmerge Hk Hj)
    as (p' & Hundo & Hbuffers & Hmergedp & Hlog).
  assert (Hkr : (k < length (Picture.buffers p))%nat).
  { destruct (findBufferIndexFrom_range _ _ _ _ _ Hk); lia. }
  assert (Hat : Picture.eventAt holder eventIndex p = Picture.Returns e p).
  { unfold Picture.eventAt. rewrite (bind_eq _ _ p p b) by (apply load_Returns; auto).
    apply defined_Returns. auto. }
  assert (Hstill : exists b2, Picture.heap p' !! holder = Some b2).
  { unfold Spec.logOf in Hlog. destruct (Picture.heap p' !! holder) as [b2|]; [eauto|].
    apply index_Some_nat in Hevent. apply lookup_lt_Some in Hevent.
    apply (f_equal length) in Hlog. rewrite length_insert in Hlog. cbn in Hlog. lia. }
  destruct Hstill as (b2 & Hb2).
  exists p'. split; [exact Hundo|]. split; [exact Hbuffers|].
  split; [|split; [exact Hmergedp|split; [exact Hlog|split]]].
  - rewrite Hbuffers. rewrite lookup_app_r by (rewrite length_take; lia).
    rewrite length_take.
    replace (S k - S k `min` length (Picture.buffers p))%nat with 0%nat by lia.
    reflexivity.
  - intros keepLastBuffer latest Hlatest Hactive Hbuffer Hindex.
    unfold Picture.undoLatest. rewrite (bind_eq _ _ p p p) by reflexivity.
    rewrite (bind_eq _ _ _ _ _ Hlatest). rewrite Hactive.
    rewrite (bind_eq _ _ p p holder) by (apply defined_Returns; auto).
    rewrite Hindex. destruct (Z.eqb_spec eventIndex 0); [contradiction|].
    rewrite andb_false_r. exact Hundo.
  - intros sid sessionEventId Hsearch Hnotundone.
    assert (Hfrom : Picture.undoEventFromBuffers Picture.Active sid sessionEventId p
                    = Picture.Returns (Some (PictureEvent.setUndone true e)) p').
    { unfold Picture.undoEventFromBuffers. rewrite (bind_eq _ _ _ _ _ Hsearch).
      rewrite (bind_eq _ _ _ _ _ Hat). rewrite Hnotundone. exact Hundo. }
    split.
    + unfold Picture.undoEventSessionId. rewrite (bind_eq _ _ _ _ _ Hfrom). reflexivity.
    + assert (Hremove : Picture.removeEventFromBuffers Picture.Active sid sessionEventId p
                        = Picture.Returns true
                            (Picture.setHeap
                               (<[holder := PictureBuffer.removeEventIndex eventIndex b2]>
                                  (Picture.heap p')) p')).
      { unfold Picture.removeEventFromBuffers. rewrite (bind_eq _ _ _ _ _ Hsearch).
        rewrite (bind_eq _ _ _ _ _ Hat). rewrite Hnotundone. cbn [negb].
        rewrite (bind_eq _ _ p p' true).
        2:{ cbn [Picture.isMerged]. rewrite (bind_eq _ _ _ _ _ Hundo). reflexivity. }
        rewrite (bind_eq _ _ p' _ tt) by (apply update_Returns; eauto). reflexivity. }
      exists (Picture.setHeap
                (<[holder := PictureBuffer.removeEventIndex eventIndex b2]>
                   (Picture.heap p')) p').
      split; [|split; reflexivity].
      unfold Picture.removeEventSessionId. rewrite (bind_eq _ _ _ _ _ Hremove). reflexivity.
Qed.

Lemma C3_witness :
  exists p',
    Picture.undoEventIndex 0 1 false Examples.mergedThenMoved
    = Picture.Returns
        (Some (PictureEvent.mk 1 3 true None
                 (PictureEvent.BufferMerge 1 (PictureEvent.BufferObject 1)))) p'
    /\ Picture.buffers p' = [2%nat; 0%nat; 1%nat]
    /\ Picture.mergedBuffers p' = []
    /\ Spec.logOf (Picture.heap p') 0 !! 1%nat
       = Some (PictureEvent.mk 1 3 true None
                 (PictureEvent.BufferMerge 1 (PictureEvent.BufferObject 1)))
    /\ Picture.undoLatest None Examples.mergedThenMoved
       = Picture.Returns
           (Some (PictureEvent.mk 1 3 true None
                    (PictureEvent.BufferMerge 1 (PictureEvent.BufferObject 1)))) p'
    /\ Picture.undoEventSessionId 1 3 Examples.mergedThenMoved
       = Picture.Returns
           (Some (PictureEvent.mk 1 3 true None
                    (PictureEvent.BufferMerge 1 (PictureEvent.BufferObject 1)))) p'
    /\ exists p'',
         Picture.removeEventSessionId 1 3 Examples.mergedThenMoved
         = Picture.Returns true p''
         /\ Picture.buffers p'' = [2%nat; 0%nat; 1%nat]
         /\ Picture.mergedBuffers p'' = [].
Proof.
  destruct (Picture.heap Examples.mergedThenMoved !! 0%nat) as [b|] eqn:Hb;
    [|vm_compute in Hb; discriminate].
  destruct (Picture.heap Examples.mergedThenMoved !! 1%nat) as [mb|] eqn:Hmb;
    [|vm_compute in Hmb; discriminate].
  set (e := PictureEvent.mk 1 3 false None
              (PictureEvent.BufferMerge 1 (PictureEvent.BufferObject 1))).
  assert (Hlogb : PictureBuffer.events b
                  = [PictureEvent.mk 1 0 false (Some 0)
                       (PictureEvent.BufferAdd 0 false [255; 255; 255; 255] 1); e]).
  { vm_compute in Hb. injection Hb as <-. reflexivity. }
  destruct (C3_undo_merge_splices_above_holder Examples.mergedThenMoved 0 1 1 0 1 1 b mb e)
    as (p' & Hundo & Hbuffers & _ & Hmerged & Hlog & Hlatest & Hidentity);
    try assumption; try lia;
    try (rewrite Hlogb; reflexivity);
    try (vm_compute in Hb; vm_compute in Hmb;
         injection Hb as <-; injection Hmb as <-; vm_compute; reflexivity).
  destruct (Hidentity 1 3) as (HundoId & p'' & Hremove & Hbuffers'' & Hmerged'');
    [vm_compute; reflexivity|reflexivity|].
  exists p'. split; [exact Hundo|].
  split; [rewrite Hbuffers; vm_compute; reflexivity|].
  split; [rewrite Hmerged; vm_compute; reflexivity|].
  split; [rewrite Hlog, Hlogb; reflexivity|].
  split.
  - apply (Hlatest None (Picture.mkLatest 1 1 3 false)); vm_compute; reflexivity.
  - split; [exact HundoId|]. exists p''. split; [exact Hremove|].
    rewrite Hbuffers'', Hmerged'', Hbuffers, Hmerged. split; vm_compute; reflexivity.
Defined.

(** ** Undoing the latest event *)

Section Bookkeeping.

Import Picture.


Lemma logs_stayWithinMemoryBudget (requested : JS.number) :
  preserves logs (stayWithinMemoryBudget requested).
Proof.
  intros p a p' H. destruct a. apply stayWithinMemoryBudget_logs in H. tauto.
Qed.

End Bookkeeping.

Create HintDb logs.

#[export] Hint Resolve preserves_ret preserves_throw preserves_get preserves_defined
  preserves_load preserves_at preserves_state logs_stayWithinMemoryBudget : logs.



Section UndoLatest.

Import Picture.









Lemma setHeap_same (p : t) : setHeap (heap p) p = p.
Proof. destruct p. reflexivity. Qed.







End UndoLatest.

Section UndoLatestContract.

Import Picture.




End UndoLatestContract.




(** ** Parsing *)

Section Parse.

Import Picture.

(** The loop over the event lines never returns once a line that is no
    event line lies before the [metadata] marker. *)
Lemma parseEvents_rejects (pre : list string) (bad : string) (post : list string) :
  forallb (fun l => negb (String.eqb l "metadata")) pre = true ->
  String.eqb bad "metadata" = false ->
  PictureEvent.parse (Text.split Text.space bad) = None ->
  forall (currentId : Z) (p : t) (m : list string) (p' : t),
    parseEvents (pre ++ bad :: post) currentId p <> Returns m p'.
Proof.
  intros Hpre Hbad Hparse. induction pre as [|l pre IH]; intros currentId p m p' H.
  - cbn [app parseEvents] in H. rewrite Hbad, Hparse in H. discriminate.
  - cbn [forallb] in Hpre. apply andb_true_iff in Hpre as [Hl Hpre].
    apply negb_true_iff in Hl. cbn [app parseEvents] in H. rewrite Hl in H.
    bind_inv H. bind_inv H. bind_inv H. bind_inv H. bind_inv H.
    exact (IH Hpre _ _ _ _ H).
Qed.

End Parse.

(** C6, as stated, fails for the header: a first line that does not
    start with [picture] is read as a header, and so is one without a
    height and with a version that is no number (the picture then has NaN
    for its height and for its version); in both cases an object with a
    picture is returned. *)
Lemma C6_counterexample :
  (exists p,
      Picture.parse Examples.canvasOnly Examples.bogusHeader (JS.ofZ 1) [Picture.canvas]
      = Picture.Returns [] p
      /\ Picture.width p = JS.whole 10 /\ Picture.height p = JS.whole 20
      /\ length (Spec.allEvents p) = 1%nat)
  /\ (exists p,
      Picture.parse Examples.canvasOnly Examples.shortHeader (JS.ofZ 1) [Picture.canvas]
      = Picture.Returns [] p
      /\ Picture.width p = JS.whole 10 /\ Picture.height p = JS.DecNaN
      /\ Picture.parsedVersion p = Some JS.NaN).
Proof.
  split; eexists; repeat apply conj; vm_compute; reflexivity.
Qed.

(** C6 (amended): when a line after the first one and before any
    [metadata] marker is no line of a supported event ([PictureEvent.parse]
    gives null for it), [Picture.parse] returns nothing at all: no object,
    and so no picture holding the events of the lines before it. *)
Theorem C6_parse_rejects_bad_event_line (env : Picture.Environment) (serialization : string)
  (scale : JS.number) (modesToTry : list Picture.Mode)
  (pre : list string) (bad : string) (post : list string)
  (Hlines : tl (Text.lines serialization) = pre ++ bad :: post)
  (Hpre : forallb (fun l => negb (String.eqb l "metadata")) pre = true)
  (Hbad : String.eqb bad "metadata" = false)
  (Hparse : PictureEvent.parse (Text.split Text.space bad) = None) :
  forall (metadata : list string) (p : Picture.t),
    Picture.parse env serialization scale modesToTry <> Picture.Returns metadata p.
Proof.
  intros metadata p H. unfold Picture.parse in H.
  destruct (Picture.parseHeader _) as [[version w] h].
  destruct (Picture.create env (JS.parsed w) (JS.parsed h) scale modesToTry) as [pic|];
    [|discriminate].
  rewrite Hlines in H. bind_inv H. bind_inv H. bind_inv H.
  exact (parseEvents_rejects pre bad post Hpre Hbad Hparse _ _ _ _ H2).
Qed.

Lemma C6_witness :
  PictureEvent.parse (Text.split Text.space "brsh 1 1 0 3") = None
  /\ forall (metadata : list string) (p : Picture.t),
       Picture.parse Examples.canvasOnly Examples.badEventLine (JS.ofZ 1) [Picture.canvas]
       <> Picture.Returns metadata p.
Proof.
  split; [vm_compute; reflexivity|].
  apply (C6_parse_rejects_bad_event_line Examples.canvasOnly Examples.badEventLine
           (JS.ofZ 1) [Picture.canvas]
           ["bufferAdd 1 0 0 0 0 0 1 255 255 255 255"%string] "brsh 1 1 0 3"%string []);
    vm_compute; reflexivity.
Defined.

(** ** The round trip through the serialization *)

(** C2: a document with an undone merge does not survive the round trip.
    The log of the bottom buffer is serialized before the log of the buffer
    the undone merge event names, so that [Picture.parse] looks the merged
    buffer up in the stack before it exists and stores
    [this.buffers[-1]], which is [undefined], in the event.  The parsed log
    differs from the original in the parameters of the merge event,
    serializing the parsed picture throws, and so does redoing the merge,
    which the original document can do. *)
Theorem C2_round_trip_loses_merged_buffer :
  Examples.undoneMerge Examples.small
  = Picture.Returns
      (Some (PictureEvent.mk 1 3 true None
               (PictureEvent.BufferMerge 1 (PictureEvent.BufferObject 1))))
      Examples.undoneMergeDocument
  /\ Picture.serialize Examples.undoneMergeDocument
     = Picture.Returns Examples.undoneMergeText Examples.undoneMergeDocument
  /\ Picture.parse Examples.canvasOnly Examples.undoneMergeText (JS.ofZ 1) [Picture.canvas]
     = Picture.Returns [] Examples.undoneMergeParsed
  /\ Spec.logOf (Picture.heap Examples.undoneMergeDocument) 0 !! 1%nat
     = Some (PictureEvent.mk 1 3 true None
               (PictureEvent.BufferMerge 1 (PictureEvent.BufferObject 1)))
  /\ Spec.logOf (Picture.heap Examples.undoneMergeParsed) 0 !! 1%nat
     = Some (PictureEvent.mk 1 3 true None
               (PictureEvent.BufferMerge 1 PictureEvent.undefined))
  /\ Examples.described Examples.undoneMergeParsed
     <> Examples.described Examples.undoneMergeDocument
  /\ Picture.serialize Examples.undoneMergeParsed = Picture.Throws
  /\ Picture.redoEventSessionId 1 3 Examples.undoneMergeParsed = Picture.Throws
  /\ exists p', Picture.redoEventSessionId 1 3 Examples.undoneMergeDocument
                = Picture.Returns true p'
                /\ Picture.buffers p' = [0%nat]
                /\ Picture.mergedBuffers p' = [1%nat].
Proof.
  repeat apply conj; try (vm_compute; reflexivity).
  - vm_compute. discriminate.
  - eexists. repeat apply conj; vm_compute; reflexivity.
Qed.

(** ** Lines and words *)

Section TextFacts.

Open Scope string_scope.

Lemma allChars_app (ok : ascii -> bool) (s t : string) :
  Spec.allChars ok (s ++ t) = Spec.allChars ok s && Spec.allChars ok t.
Proof.
  induction s as [|c s IH]; cbn; [reflexivity|]. rewrite IH. apply andb_assoc.
Qed.

Lemma allChars_impl (ok ok' : ascii -> bool) (s : string) :
  (forall c, ok c = true -> ok' c = true) ->
  Spec.allChars ok s = true -> Spec.allChars ok' s = true.
Proof.
  intros Himpl. induction s as [|c s IH]; cbn; [reflexivity|].
  rewrite !andb_true_iff. intros [Hc Hs]. auto.
Qed.

Lemma oneWord_oneLine (s : string) : Spec.oneWord s = true -> Spec.oneLine s = true.
Proof.
  apply allChars_impl. intros c. unfold Spec.wordChar. rewrite andb_true_iff. tauto.
Qed.

(** A string without line ends is one line. *)
Lemma lines_oneLine (s : string) : Spec.oneLine s = true -> Text.lines s = [s].
Proof.
  induction s as [|c s IH]; [reflexivity|].
  unfold Spec.oneLine. cbn [Spec.allChars]. rewrite andb_true_iff. intros [Hc Hs].
  unfold Spec.notBreak in Hc. apply negb_true_iff, orb_false_iff in Hc as [Hn Hr].
  cbn [Text.lines]. rewrite Hn, Hr. cbn [andb].
  destruct s as [|c' s']; [reflexivity|]. rewrite (IH Hs). reflexivity.
Qed.

(** A line feed after a string without line ends splits there. *)
Lemma lines_app (s t : string) :
  Spec.oneLine s = true ->
  Text.lines (s ++ String Text.newline t) = s :: Text.lines t.
Proof.
  induction s as [|c s IH].
  - intros _. cbn [append Text.lines]. rewrite Ascii.eqb_refl. reflexivity.
  - unfold Spec.oneLine. cbn [Spec.allChars]. rewrite andb_true_iff. intros [Hc Hs].
    unfold Spec.notBreak in Hc. apply negb_true_iff, orb_false_iff in Hc as [Hn Hr].
    cbn [append Text.lines]. rewrite Hn, Hr. cbn [andb].
    destruct s as [|c' s'].
    + cbn [append]. cbn [append] in IH. rewrite (IH eq_refl). reflexivity.
    + cbn [append]. cbn [append] in IH. rewrite (IH Hs). reflexivity.
Qed.

(** Splitting the joined lines gives the lines back. *)
Lemma lines_join (first : string) (rest : list string) :
  forallb Spec.oneLine (first :: rest) = true ->
  Text.lines (Text.join (String Text.newline EmptyString) (first :: rest)) = first :: rest.
Proof.
  revert first. induction rest as [|l rest IH]; intros first H.
  - cbn in H. rewrite andb_true_r in H. cbn. apply lines_oneLine. exact H.
  - cbn [forallb] in H. apply andb_true_iff in H as [Hf H].
    change (Text.join (String Text.newline "") (first :: l :: rest))
      with (first ++ String Text.newline (Text.join (String Text.newline "") (l :: rest))).
    rewrite (lines_app _ _ Hf). f_equal. apply IH. exact H.
Qed.

(** The same for the words of a line. *)
Lemma split_oneWord (s : string) : Spec.oneWord s = true -> Text.split Text.space s = [s].
Proof.
  induction s as [|c s IH]; [reflexivity|].
  unfold Spec.oneWord. cbn [Spec.allChars]. rewrite andb_true_iff. intros [Hc Hs].
  unfold Spec.wordChar in Hc. apply andb_true_iff in Hc as [Hc _].
  apply negb_true_iff in Hc. cbn [Text.split]. rewrite Hc, (IH Hs). reflexivity.
Qed.

Lemma split_app (s t : string) :
  Spec.oneWord s = true ->
  Text.split Text.space (s ++ String Text.space t) = s :: Text.split Text.space t.
Proof.
  induction s as [|c s IH].
  - intros _. cbn [append Text.split]. rewrite Ascii.eqb_refl. reflexivity.
  - unfold Spec.oneWord. cbn [Spec.allChars]. rewrite andb_true_iff. intros [Hc Hs].
    unfold Spec.wordChar in Hc. apply andb_true_iff in Hc as [Hc _].
    apply negb_true_iff in Hc. cbn [append Text.split]. rewrite Hc, (IH Hs). reflexivity.
Qed.

Lemma split_join (first : string) (rest : list string) :
  forallb Spec.oneWord (first :: rest) = true ->
  Text.split Text.space (Text.join " " (first :: rest)) = first :: rest.
Proof.
  revert first. induction rest as [|l rest IH]; intros first H.
  - cbn in H. rewrite andb_true_r in H. cbn. apply split_oneWord. exact H.
  - cbn [forallb] in H. apply andb_true_iff in H as [Hf H].
    change (Text.join " " (first :: l :: rest))
      with (first ++ String Text.space (Text.join " " (l :: rest))).
    rewrite (split_app _ _ Hf). f_equal. apply IH. exact H.
Qed.

(** Joined words form one line. *)
Lemma oneLine_join (ws : list string) :
  forallb Spec.oneWord ws = true -> Spec.oneLine (Text.join " " ws) = true.
Proof.
  induction ws as [|w ws IH]; [reflexivity|].
  cbn [forallb]. rewrite andb_true_iff. intros [Hw Hws].
  unfold Text.join. cbn [String.concat]. destruct ws as [|w' ws'].
  - apply oneWord_oneLine. exact Hw.
  - change (Spec.oneLine (w ++ String Text.space (Text.join " " (w' :: ws'))) = true).
    unfold Spec.oneLine. rewrite allChars_app. apply andb_true_iff. split.
    + apply oneWord_oneLine. exact Hw.
    + exact (IH Hws).
Qed.

(** *** Numbers in decimal *)

Definition digitOrMinus (c : ascii) : bool := Text.isDigit c || Ascii.eqb c "-".

Lemma digits_uint (d : Decimal.uint) :
  Spec.allChars digitOrMinus (NilEmpty.string_of_uint d) = true.
Proof. induction d; cbn; auto. Qed.

Lemma digits_showZ (z : Z) : Spec.allChars digitOrMinus (Text.showZ z) = true.
Proof.
  unfold Text.showZ, NilZero.string_of_int, NilZero.string_of_uint.
  destruct (Z.to_int z) as [d|d]; destruct d; cbn [Spec.allChars];
    rewrite ?digits_uint; reflexivity.
Qed.

Lemma digitOrMinus_wordChar (c : ascii) : digitOrMinus c = true -> Spec.wordChar c = true.
Proof.
  destruct c as [[] [] [] [] [] [] [] []]; cbn; intros H; try reflexivity; discriminate.
Qed.

Lemma oneWord_showZ (z : Z) : Spec.oneWord (Text.showZ z) = true.
Proof.
  apply (allChars_impl digitOrMinus); [exact digitOrMinus_wordChar|apply digits_showZ].
Qed.

Lemma allChars_dropTrailingZeros (ok : ascii -> bool) (s : string) :
  Spec.allChars ok s = true -> Spec.allChars ok (Text.dropTrailingZeros s) = true.
Proof.
  induction s as [|c s IH]; [reflexivity|].
  cbn [Spec.allChars Text.dropTrailingZeros]. rewrite andb_true_iff. intros [Hc Hs].
  specialize (IH Hs). destruct (Text.dropTrailingZeros s) as [|c' s'].
  - destruct (Ascii.eqb c "0"); [reflexivity|]. cbn [Spec.allChars]. rewrite Hc. reflexivity.
  - cbn [Spec.allChars] in *. rewrite Hc. exact IH.
Qed.

Lemma allChars_substring (ok : ascii -> bool) (s : string) :
  Spec.allChars ok s = true ->
  forall n m : nat, Spec.allChars ok (substring n m s) = true.
Proof.
  induction s as [|c s IH]; intros H n m.
  - destruct n, m; reflexivity.
  - cbn [Spec.allChars] in H. apply andb_true_iff in H as [Hc Hs].
    destruct n as [|n]; [destruct m as [|m]|]; cbn [substring Spec.allChars];
      rewrite ?Hc; cbn [andb]; auto.
Qed.

Lemma oneWord_zeros (n : nat) : Spec.oneWord (Text.zeros n) = true.
Proof. induction n as [|n IH]; [reflexivity|exact IH]. Qed.

Lemma oneWord_app (s t : string) :
  Spec.oneWord s = true -> Spec.oneWord t = true -> Spec.oneWord (s ++ t) = true.
Proof. unfold Spec.oneWord. intros Hs Ht. rewrite allChars_app, Hs, Ht. reflexivity. Qed.

Lemma oneWord_showPositive (m e : Z) : Spec.oneWord (Text.showPositive m e) = true.
Proof.
  pose proof (allChars_dropTrailingZeros _ _ (oneWord_showZ m)) as Hs.
  pose proof (allChars_substring _ _ Hs) as Hsub.
  unfold Text.showPositive.
  repeat match goal with
         | |- context [if ?c then _ else _] => destruct c
         end;
    repeat (apply oneWord_app;
            try exact Hs; try apply Hsub; try apply oneWord_zeros;
            try apply oneWord_showZ; try reflexivity).
Qed.

Lemma oneWord_showNumber (x : JS.decimal) : Spec.oneWord (Text.showNumber x) = true.
Proof.
  destruct x as [m e|]; [|reflexivity]. unfold Text.showNumber.
  destruct (m =? 0)%Z; [reflexivity|].
  destruct (m <? 0)%Z; [|apply oneWord_showPositive].
  apply oneWord_app; [reflexivity|apply oneWord_showPositive].
Qed.

(** The forms of a printed number: all digits up to 21 of them, a decimal
    point inside the digits or after "0." and up to five zeros, and the
    exponent form beyond. *)
Example showNumber_forms :
  map Text.showNumber
    [JS.whole 2048; JS.whole (-7); JS.Dec 0 3; JS.DecNaN; JS.Dec 105 (-1);
     JS.Dec 12 2; JS.Dec (-5) (-1); JS.Dec 1 (-6); JS.Dec 1 (-7); JS.Dec 15 (-8);
     JS.Dec 1 20; JS.Dec 1 21; JS.Dec 12345 17]
  = ["2048"; "-7"; "0"; "NaN"; "10.5"; "1200"; "-0.5"; "0.000001"; "1e-7"; "1.5e-7";
     "100000000000000000000"; "1e+21"; "1.2345e+21"]%string.
Proof. reflexivity. Qed.

(** What [parseInt] reads: the digits up to the first character that is
    none, with their sign, and NaN when there is no digit. *)
Example parseInt_forms :
  map Text.parseInt
    [Some "20"; Some "-12abc"; Some "+7"; Some "10.5"; Some "1e+21"; Some "x";
     Some ""; None]%string
  = [Some 20; Some (-12); Some 7; Some 10; Some 1; None; None; None].
Proof. reflexivity. Qed.

Lemma dropTrailingZeros_zeros (s : string) :
  (String.length (Text.dropTrailingZeros s) <= String.length s)%nat
  /\ Text.dropTrailingZeros s
       ++ Text.zeros (String.length s - String.length (Text.dropTrailingZeros s))
     = s.
Proof.
  induction s as [|c s [IHlen IH]]; [split; reflexivity|].
  cbn [Text.dropTrailingZeros]. destruct (Text.dropTrailingZeros s) as [|c' s'] eqn:Hd.
  - cbn [String.length append] in IH, IHlen. rewrite Nat.sub_0_r in IH.
    destruct (Ascii.eqb_spec c "0"%char) as [->|_]; cbn [String.length append].
    + split; [lia|]. cbn [Nat.sub Text.zeros]. rewrite IH. reflexivity.
    + split; [lia|].
      replace (S (String.length s) - 1)%nat with (String.length s) by lia.
      rewrite IH. reflexivity.
  - cbn [String.length append] in *. split; [lia|].
    replace (S (String.length s) - S (S (String.length s')))%nat
      with (String.length s - S (String.length s'))%nat by lia.
    rewrite IH. reflexivity.
Qed.

(** An integer of at most 21 digits is printed with all its digits. *)
Lemma showNumber_whole (z : Z) :
  (String.length (Text.showZ (Z.abs z)) <= 21)%nat ->
  Text.showNumber (JS.whole z) = Text.showZ z.
Proof.
  assert (Hpos : forall q : positive,
            (String.length (Text.showZ (Z.pos q)) <= 21)%nat ->
            Text.showPositive (Z.pos q) 0 = Text.showZ (Z.pos q)).
  { intros q Hlen. unfold Text.showPositive.
    destruct (dropTrailingZeros_zeros (Text.showZ (Z.pos q))) as [Hle Heq].
    rewrite Z.add_0_r.
    destruct (Z.leb_spec (Z.of_nat (String.length (Text.dropTrailingZeros
                                                      (Text.showZ (Z.pos q)))))
                (Z.of_nat (String.length (Text.showZ (Z.pos q))))); [|lia].
    destruct (Z.leb_spec (Z.of_nat (String.length (Text.showZ (Z.pos q)))) 21); [|lia].
    cbn [andb]. rewrite <- Nat2Z.inj_sub, Nat2Z.id by exact Hle. exact Heq. }
  intros Hlen. destruct z as [|q|q]; [reflexivity|exact (Hpos q Hlen)|].
  change (Text.showNumber (JS.whole (Z.neg q)))
    with ("-" ++ Text.showPositive (Z.pos q) 0).
  rewrite (Hpos q Hlen). reflexivity.
Qed.

(** Reading what was printed gives the number back. *)
Lemma readZ_showZ (z : Z) : Text.readZ (Text.showZ z) = Some z.
Proof.
  unfold Text.readZ, Text.showZ.
  rewrite NilZero.isi.
  - rewrite DecimalZ.of_to. reflexivity.
  - destruct z as [|q|q]; cbn; try discriminate.
    intros [= H]. exact (DecimalPos.Unsigned.to_uint_nonnil q H).
  - destruct z as [|q|q]; cbn; try discriminate.
    intros [= H]. exact (DecimalPos.Unsigned.to_uint_nonnil q H).
Qed.

End TextFacts.

(** ** The serialization *)

Section Serialize.

Import Picture.

Lemma oneWord_map_showZ (zs : list Z) : forallb Spec.oneWord (map Text.showZ zs) = true.
Proof. induction zs as [|z zs IH]; cbn; [reflexivity|]. rewrite oneWord_showZ. exact IH. Qed.

Lemma oneWord_typeName (ty : PictureEvent.EventType) :
  Spec.oneWord (PictureEvent.typeName ty) = true.
Proof. destruct ty; reflexivity. Qed.

Lemma oneWord_showBool (b : bool) : Spec.oneWord (PictureEvent.showBool b) = true.
Proof. destruct b; reflexivity. Qed.

(** The words of an event hold no space and no line end. *)
Lemma words_oneWord (f : nat -> option Z) (e : PictureEvent.t) (ws : list string) :
  PictureEvent.words f e = Some ws -> forallb Spec.oneWord ws = true.
Proof.
  unfold PictureEvent.words.
  destruct (PictureEvent.payload e) as [ps|ps|ps|bid alpha color op|bid|moved from to|op merged|hs hi];
    try (intros [= <-]; rewrite ?forallb_app; cbn [forallb];
         rewrite ?oneWord_typeName, ?oneWord_showZ, ?oneWord_showBool,
           ?oneWord_showNumber, ?oneWord_map_showZ; reflexivity).
  destruct (match merged with
            | PictureEvent.BufferObject r => f r
            | PictureEvent.DummyBuffer i => Some i
            | PictureEvent.undefined => None
            end) as [mergedId|]; [|discriminate].
  intros [= <-]. rewrite ?forallb_app. cbn [forallb].
  rewrite ?oneWord_typeName, ?oneWord_showZ, ?oneWord_showBool. reflexivity.
Qed.

Lemma serialize_oneLine (f : nat -> option Z) (e : PictureEvent.t) (line : string) :
  PictureEvent.serialize f e = Some line -> Spec.oneLine line = true.
Proof.
  unfold PictureEvent.serialize. destruct (PictureEvent.words f e) as [ws|] eqn:Hw; [|discriminate].
  intros [= <-]. apply oneLine_join. eapply words_oneWord. exact Hw.
Qed.

Lemma lineOf_oneLine (h : list PictureBuffer.t) (e : PictureEvent.t) :
  Spec.oneLine (Spec.lineOf h e) = true.
Proof.
  unfold Spec.lineOf. destruct (PictureEvent.serialize _ e) eqn:Hs; [|reflexivity].
  eapply serialize_oneLine. exact Hs.
Qed.

Lemma headerLine_oneLine (p : t) : Spec.oneLine (headerLine p) = true.
Proof.
  unfold headerLine, Spec.oneLine. rewrite !allChars_app.
  fold (Spec.oneLine (Text.showZ formatVersion)).
  fold (Spec.oneLine (Text.showNumber (width p))).
  fold (Spec.oneLine (Text.showNumber (height p))).
  rewrite !(oneWord_oneLine _ (oneWord_showNumber _)).
  reflexivity.
Qed.

(** The words of an event only read the ids of the buffers. *)
Lemma words_ext (f g : nat -> option Z) (e : PictureEvent.t) :
  (forall r, f r = g r) -> PictureEvent.words f e = PictureEvent.words g e.
Proof.
  intros H. unfold PictureEvent.words.
  destruct (PictureEvent.payload e) as [| | | | | |op merged|]; try reflexivity.
  destruct merged; rewrite ?H; reflexivity.
Qed.

(** A store and the store [serialize] turns it into: the same buffers,
    some of them with the insertion point written into the first event. *)
Definition stamps (h h' : list PictureBuffer.t) : Prop :=
  length h' = length h
  /\ forall r b, h !! r = Some b ->
       exists b', h' !! r = Some b'
         /\ PictureBuffer.id b' = PictureBuffer.id b
         /\ PictureBuffer.insertionPoint b' = PictureBuffer.insertionPoint b
         /\ (PictureBuffer.events b' = PictureBuffer.events b
             \/ PictureBuffer.events b' = Spec.stampedLog b).

Lemma stamps_refl (h : list PictureBuffer.t) : stamps h h.
Proof. split; [reflexivity|]. intros r b Hb. exists b. auto. Qed.

Lemma stamps_idAt (h h' : list PictureBuffer.t) (r : nat) :
  stamps h h' -> idAt h' r = idAt h r.
Proof.
  intros [Hlen Hs]. unfold idAt. destruct (h !! r) as [b|] eqn:Hb.
  - destruct (Hs r b Hb) as (b' & -> & -> & _). reflexivity.
  - apply lookup_ge_None in Hb. rewrite <- Hlen in Hb.
    apply lookup_ge_None in Hb. rewrite Hb. reflexivity.
Qed.

Lemma stamps_lineOf (h h' : list PictureBuffer.t) (e : PictureEvent.t) :
  stamps h h' -> Spec.lineOf h' e = Spec.lineOf h e.
Proof.
  intros Hs. unfold Spec.lineOf, PictureEvent.serialize.
  rewrite (words_ext (idAt h') (idAt h)) by (intros r; apply stamps_idAt; exact Hs).
  reflexivity.
Qed.

Lemma writable_serialize (h : list PictureBuffer.t) (e : PictureEvent.t) :
  Spec.writable h e = true ->
  PictureEvent.serialize (idAt h) e = Some (Spec.lineOf h e).
Proof.
  unfold Spec.writable, Spec.lineOf, PictureEvent.serialize, PictureEvent.words.
  destruct (PictureEvent.payload e) as [| | | | | |op merged|]; try reflexivity.
  destruct merged as [r| |]; try reflexivity; [|discriminate].
  intros H. apply bool_decide_eq_true in H as [b Hb]. unfold idAt. rewrite Hb. reflexivity.
Qed.

Lemma pushLines_spec (h : list PictureBuffer.t) (evs : list PictureEvent.t) :
  forallb (Spec.writable h) evs = true ->
  forall acc, pushLines h evs acc = Some (acc ++ map (Spec.lineOf h) evs).
Proof.
  induction evs as [|e evs IH]; intros H acc; cbn [pushLines map].
  - rewrite app_nil_r. reflexivity.
  - cbn [forallb] in H. apply andb_true_iff in H as [He H].
    rewrite (writable_serialize h e He). rewrite (IH H). unfold JS.push.
    rewrite <- app_assoc. reflexivity.
Qed.

Lemma stamps_writable (h h' : list PictureBuffer.t) (e : PictureEvent.t) :
  stamps h h' -> Spec.writable h e = true -> Spec.writable h' e = true.
Proof.
  intros [Hlen Hs]. unfold Spec.writable.
  destruct (PictureEvent.payload e) as [| | | | | |op merged|]; auto.
  destruct merged as [r| |]; auto.
  intros H. apply bool_decide_eq_true in H as [b Hb]. apply bool_decide_eq_true.
  destruct (Hs r b Hb) as (b' & Hb' & _). eauto.
Qed.

Lemma stampedLog_writable (h : list PictureBuffer.t) (b : PictureBuffer.t) :
  forallb (Spec.writable h) (PictureBuffer.events b) = true ->
  forallb (Spec.writable h) (Spec.stampedLog b) = true.
Proof.
  unfold Spec.stampedLog. destruct (PictureBuffer.events b) as [|first rest]; auto.
Qed.

Lemma stampedLog_stamped (b b' : PictureBuffer.t) :
  PictureBuffer.insertionPoint b' = PictureBuffer.insertionPoint b ->
  PictureBuffer.events b' = PictureBuffer.events b
  \/ PictureBuffer.events b' = Spec.stampedLog b ->
  Spec.stampedLog b' = Spec.stampedLog b.
Proof.
  intros Hip [He|He]; unfold Spec.stampedLog in *; rewrite He, Hip; [reflexivity|].
  destruct (PictureBuffer.events b) as [|first rest]; reflexivity.
Qed.

(** Serializing one buffer appends the lines of its events, in log order,
    and stamps its first event. *)
Lemma serializeBuffer_spec (h : list PictureBuffer.t) (p : t) (r : nat)
  (b : PictureBuffer.t) (acc : list string) :
  stamps h (heap p) -> h !! r = Some b ->
  PictureBuffer.events b <> [] ->
  forallb (Spec.writable h) (PictureBuffer.events b) = true ->
  exists h', serializeBuffer r acc p
             = Returns (acc ++ Spec.linesOfBuffer h r) (setHeap h' p)
             /\ stamps h h'.
Proof.
  intros Hst Hb Hne Hw. destruct Hst as [Hlen Hs].
  destruct (Hs r b Hb) as (b' & Hb' & Hid & Hip & Hev).
  assert (Hlog : Spec.stampedLog b' = Spec.stampedLog b) by (apply stampedLog_stamped; auto).
  assert (Hfirst : exists first rest, PictureBuffer.events b' = first :: rest).
  { destruct Hev as [->| ->].
    - destruct (PictureBuffer.events b); [contradiction|eauto].
    - unfold Spec.stampedLog. destruct (PictureBuffer.events b); [contradiction|eauto]. }
  destruct Hfirst as (first & rest & Hfr).
  set (b2 := PictureBuffer.setEvents
               (<[0%nat := PictureEvent.setInsertionPoint (PictureBuffer.insertionPoint b') first]>
                  (PictureBuffer.events b')) b').
  assert (Hb2 : PictureBuffer.events b2 = Spec.stampedLog b).
  { rewrite <- Hlog. unfold b2, Spec.stampedLog. cbn. rewrite Hfr. reflexivity. }
  set (h' := <[r := b2]> (heap p)).
  assert (Hst' : stamps h h').
  { split; [unfold h'; rewrite length_insert; exact Hlen|].
    intros r0 b0 Hb0. unfold h'. destruct (decide (r0 = r)) as [->|Hne0].
    - rewrite Hb in Hb0. injection Hb0 as <-. exists b2.
      rewrite list_lookup_insert_eq by (eapply lookup_lt_Some; eauto).
      repeat split; auto.
    - rewrite list_lookup_insert_ne by auto. apply Hs. exact Hb0. }
  exists h'. split; [|exact Hst'].
  assert (Hl : h' !! r = Some b2).
  { unfold h'. apply list_lookup_insert_eq. eapply lookup_lt_Some; eauto. }
  assert (Hw' : forallb (Spec.writable h') (Spec.stampedLog b) = true).
  { apply forallb_forall. intros e He. apply (stamps_writable h h' e Hst').
    pose proof (stampedLog_writable h b Hw) as Hsw.
    rewrite forallb_forall in Hsw. auto. }
  unfold serializeBuffer.
  rewrite (bind_eq _ _ p p b') by (apply load_Returns; auto).
  rewrite (bind_eq _ _ p p first) by (apply defined_Returns; rewrite Hfr; auto).
  rewrite (bind_eq _ _ p (setHeap h' p) tt) by (apply update_Returns; eauto).
  rewrite (bind_eq _ _ (setHeap h' p) (setHeap h' p) b2)
    by (apply load_Returns; destruct p; auto).
  rewrite (bind_eq _ _ (setHeap h' p) (setHeap h' p) (setHeap h' p)) by reflexivity.
  replace (heap (setHeap h' p)) with h' by (destruct p; reflexivity).
  rewrite Hb2, (pushLines_spec h' _ Hw'). cbn [defined ret].
  unfold Spec.linesOfBuffer. rewrite Hb.
  rewrite (map_ext (Spec.lineOf h') (Spec.lineOf h)) by (intros e; apply stamps_lineOf; exact Hst').
  reflexivity.
Qed.

(** The buffers of an array can be serialized. *)
Definition serializableIn (h : list PictureBuffer.t) (arr : list nat) : Prop :=
  Forall (fun r => exists b, h !! r = Some b /\ PictureBuffer.events b <> []
            /\ forallb (Spec.writable h) (PictureBuffer.events b) = true) arr.

Lemma serializeBuffers_spec (h : list PictureBuffer.t) (arr : list nat) :
  serializableIn h arr ->
  forall (p : t) (acc : list string), stamps h (heap p) ->
  exists h', serializeBuffers arr acc p
             = Returns (acc ++ concat (map (Spec.linesOfBuffer h) arr)) (setHeap h' p)
             /\ stamps h h'.
Proof.
  induction 1 as [|r arr (b & Hb & Hne & Hw) _ IH]; intros p acc Hst; cbn [serializeBuffers map concat].
  - exists (heap p). rewrite app_nil_r, setHeap_same. split; [reflexivity|exact Hst].
  - destruct (serializeBuffer_spec h p r b acc Hst Hb Hne Hw) as (h1 & H1 & Hst1).
    rewrite (bind_eq _ _ _ _ _ H1).
    destruct (IH (setHeap h1 p) (acc ++ Spec.linesOfBuffer h r) Hst1) as (h2 & H2 & Hst2).
    rewrite H2. exists h2. rewrite <- app_assoc. split; [|exact Hst2].
    destruct p; reflexivity.
Qed.

Lemma serializable_arrays (p : t) :
  Spec.serializable p = true ->
  serializableIn (heap p) (mergedBuffers p) /\ serializableIn (heap p) (buffers p).
Proof.
  unfold Spec.serializable, Spec.allBuffers. rewrite forallb_app, andb_true_iff.
  assert (Hone : forall arr,
    forallb (fun r => match heap p !! r with
                      | Some b => match PictureBuffer.events b with
                                  | [] => false
                                  | _ => forallb (Spec.writable (heap p)) (PictureBuffer.events b)
                                  end
                      | None => false
                      end) arr = true -> serializableIn (heap p) arr).
  { intros arr H. apply Forall_forall. intros r Hr. apply list_elem_of_In in Hr.
    rewrite forallb_forall in H. specialize (H r Hr).
    destruct (heap p !! r) as [b|]; [|discriminate]. exists b.
    destruct (PictureBuffer.events b) eqn:He; [discriminate|].
    repeat split; auto. }
  intros [Ha Hm]. auto.
Qed.

Lemma length_linesOfBuffer (h : list PictureBuffer.t) (r : nat) :
  length (Spec.linesOfBuffer h r) = length (Spec.logOf h r).
Proof.
  unfold Spec.linesOfBuffer, Spec.logOf, Spec.stampedLog.
  destruct (h !! r) as [b|]; [|reflexivity]. rewrite length_map.
  destruct (PictureBuffer.events b); reflexivity.
Qed.

Lemma length_eventLines (p : t) : length (Spec.eventLines p) = length (Spec.allEvents p).
Proof.
  unfold Spec.eventLines, Spec.allEvents, Spec.allBuffers.
  rewrite !length_concat, !map_app, !list_sum_app, !map_map.
  rewrite Nat.add_comm. f_equal; apply f_equal, map_ext; intros r; apply length_linesOfBuffer.
Qed.

(** The words of the header line. *)
Lemma split_headerLine (p : t) :
  Text.split Text.space (headerLine p)
  = ["picture"; "version"; "1"; Text.showNumber (width p);
     Text.showNumber (height p)]%string.
Proof.
  unfold headerLine.
  change ("picture version " ++ Text.showZ formatVersion ++ " "
            ++ Text.showNumber (width p) ++ " "
            ++ Text.showNumber (height p))%string
    with (Text.join " " ["picture"; "version"; "1";
                         Text.showNumber (width p);
                         Text.showNumber (height p)]%string).
  apply split_join. cbn [forallb]. rewrite !oneWord_showNumber. reflexivity.
Qed.

(** *** Pictures that cannot be serialized *)

(** The test [Spec.serializable] makes of one buffer. *)
Definition writableBuffer (h : list PictureBuffer.t) (r : nat) : bool :=
  match h !! r with
  | Some b =>
    match PictureBuffer.events b with
    | [] => false
    | _ => forallb (Spec.writable h) (PictureBuffer.events b)
    end
  | None => false
  end.

Lemma writableBuffer_true (h : list PictureBuffer.t) (r : nat) :
  writableBuffer h r = true ->
  exists b, h !! r = Some b /\ PictureBuffer.events b <> []
            /\ forallb (Spec.writable h) (PictureBuffer.events b) = true.
Proof.
  unfold writableBuffer. destruct (h !! r) as [b|]; [|discriminate].
  intros H. exists b. destruct (PictureBuffer.events b) eqn:He; [discriminate|].
  repeat split; auto.
Qed.

Lemma unwritable_serialize (h : list PictureBuffer.t) (e : PictureEvent.t) :
  Spec.writable h e = false -> PictureEvent.serialize (idAt h) e = None.
Proof.
  unfold Spec.writable, PictureEvent.serialize, PictureEvent.words.
  destruct (PictureEvent.payload e) as [| | | | | |op merged|]; try discriminate.
  destruct merged as [r| |]; try discriminate; [|reflexivity].
  intros H. apply bool_decide_eq_false in H. unfold idAt.
  destruct (h !! r) as [b|]; [exfalso; apply H; eauto|reflexivity].
Qed.

Lemma pushLines_unwritable (h : list PictureBuffer.t) (evs : list PictureEvent.t) :
  forallb (Spec.writable h) evs = false ->
  forall acc, pushLines h evs acc = None.
Proof.
  induction evs as [|e evs IH]; intros H acc; [discriminate|].
  cbn [forallb] in H. cbn [pushLines].
  destruct (Spec.writable h e) eqn:He.
  - rewrite (writable_serialize h e He). apply IH. exact H.
  - rewrite (unwritable_serialize h e He). reflexivity.
Qed.

Lemma stamps_unwritable (h h' : list PictureBuffer.t) (e : PictureEvent.t) :
  stamps h h' -> Spec.writable h e = false -> Spec.writable h' e = false.
Proof.
  intros [Hlen Hs]. unfold Spec.writable.
  destruct (PictureEvent.payload e) as [| | | | | |op merged|]; auto.
  destruct merged as [r| |]; auto.
  intros H. apply bool_decide_eq_false in H. apply bool_decide_eq_false.
  intros Hsome. apply H. apply lookup_lt_is_Some. apply lookup_lt_is_Some in Hsome.
  rewrite <- Hlen. exact Hsome.
Qed.

Lemma forallb_false_impl {A : Type} (f g : A -> bool) (l : list A) :
  (forall x, f x = false -> g x = false) -> forallb f l = false -> forallb g l = false.
Proof.
  intros Himpl. induction l as [|x l IH]; [discriminate|]. cbn [forallb].
  destruct (f x) eqn:Hf; [|rewrite (Himpl x Hf); reflexivity].
  cbn [andb]. intros H. rewrite (IH H). apply andb_false_r.
Qed.

Lemma stampedLog_unwritable (h : list PictureBuffer.t) (b : PictureBuffer.t) :
  forallb (Spec.writable h) (PictureBuffer.events b) = false ->
  forallb (Spec.writable h) (Spec.stampedLog b) = false.
Proof.
  unfold Spec.stampedLog. destruct (PictureBuffer.events b) as [|first rest]; auto.
Qed.

(** [serialize] throws at a buffer that fails the test: at the read of
    its first event when its log is empty, and at the event that cannot be
    written otherwise. *)
Lemma serializeBuffer_throws (h : list PictureBuffer.t) (p : t) (r : nat)
  (acc : list string) :
  stamps h (heap p) -> writableBuffer h r = false -> serializeBuffer r acc p = Throws.
Proof.
  intros Hst Hbad. pose proof Hst as [Hlen Hs]. unfold writableBuffer in Hbad.
  destruct (h !! r) as [b|] eqn:Hb.
  - destruct (Hs r b Hb) as (b' & Hb' & Hid & Hip & Hev).
    assert (Hlog : Spec.stampedLog b' = Spec.stampedLog b) by (apply stampedLog_stamped; auto).
    unfold serializeBuffer.
    rewrite (bind_eq _ _ p p b') by (apply load_Returns; auto).
    destruct (PictureBuffer.events b) as [|e0 evs0] eqn:He.
    + assert (Hnil : PictureBuffer.events b' = []).
      { destruct Hev as [->| ->]; [reflexivity|]. unfold Spec.stampedLog. rewrite He.
        reflexivity. }
      rewrite Hnil. reflexivity.
    + assert (Hfirst : exists first rest, PictureBuffer.events b' = first :: rest).
      { destruct Hev as [->| ->]; [eauto|]. unfold Spec.stampedLog. rewrite He. eauto. }
      destruct Hfirst as (first & rest & Hfr).
      set (b2 := PictureBuffer.setEvents
                   (<[0%nat := PictureEvent.setInsertionPoint
                                 (PictureBuffer.insertionPoint b') first]>
                      (PictureBuffer.events b')) b').
      assert (Hb2 : PictureBuffer.events b2 = Spec.stampedLog b).
      { rewrite <- Hlog. unfold b2, Spec.stampedLog. cbn. rewrite Hfr. reflexivity. }
      set (h' := <[r := b2]> (heap p)).
      assert (Hst' : stamps h h').
      { split; [unfold h'; rewrite length_insert; exact Hlen|].
        intros r0 b0 Hb0. unfold h'. destruct (decide (r0 = r)) as [->|Hne0].
        - rewrite Hb in Hb0. injection Hb0 as <-. exists b2.
          rewrite list_lookup_insert_eq by (eapply lookup_lt_Some; eauto).
          repeat split; auto.
        - rewrite list_lookup_insert_ne by auto. apply Hs. exact Hb0. }
      assert (Hl : h' !! r = Some b2).
      { unfold h'. apply list_lookup_insert_eq. eapply lookup_lt_Some; eauto. }
      assert (Hw' : forallb (Spec.writable h') (Spec.stampedLog b) = false).
      { rewrite <- He in Hbad. apply stampedLog_unwritable in Hbad.
        revert Hbad. apply forallb_false_impl. intros e.
        apply (stamps_unwritable h h' e Hst'). }
      rewrite (bind_eq _ _ p p first) by (apply defined_Returns; rewrite Hfr; auto).
      rewrite (bind_eq _ _ p (setHeap h' p) tt) by (apply update_Returns; eauto).
      rewrite (bind_eq _ _ (setHeap h' p) (setHeap h' p) b2)
        by (apply load_Returns; destruct p; auto).
      rewrite (bind_eq _ _ (setHeap h' p) (setHeap h' p) (setHeap h' p)) by reflexivity.
      replace (heap (setHeap h' p)) with h' by (destruct p; reflexivity).
      rewrite Hb2, (pushLines_unwritable h' _ Hw'). reflexivity.
  - assert (Hnone : heap p !! r = None).
    { apply lookup_ge_None. rewrite Hlen. apply lookup_ge_None. exact Hb. }
    unfold serializeBuffer, bind, load. rewrite Hnone. reflexivity.
Qed.

Lemma serializeBuffers_throws (h : list PictureBuffer.t) (arr : list nat) :
  forallb (writableBuffer h) arr = false ->
  forall (p : t) (acc : list string), stamps h (heap p) ->
  serializeBuffers arr acc p = Throws.
Proof.
  induction arr as [|r arr IH]; intros Hbad p acc Hst; [discriminate|].
  cbn [forallb] in Hbad. cbn [serializeBuffers].
  destruct (writableBuffer h r) eqn:Hr.
  - destruct (writableBuffer_true h r Hr) as (b & Hb & Hne & Hw).
    destruct (serializeBuffer_spec h p r b acc Hst Hb Hne Hw) as (h1 & H1 & Hst1).
    rewrite (bind_eq _ _ _ _ _ H1). apply IH; [exact Hbad|].
    destruct p; exact Hst1.
  - unfold bind. rewrite (serializeBuffer_throws h p r acc Hst Hr). reflexivity.
Qed.

Lemma serializableIn_forallb (h : list PictureBuffer.t) (arr : list nat) :
  forallb (writableBuffer h) arr = true -> serializableIn h arr.
Proof.
  intros H. apply Forall_forall. intros r Hr. apply list_elem_of_In in Hr.
  rewrite forallb_forall in H. apply writableBuffer_true. auto.
Qed.

(** [serialize] throws on a picture that is not serializable. *)
Lemma serialize_throws (p : t) : Spec.serializable p = false -> serialize p = Throws.
Proof.
  change (Spec.serializable p) with (forallb (writableBuffer (heap p)) (Spec.allBuffers p)).
  unfold Spec.allBuffers. rewrite forallb_app. intros Hbad.
  unfold serialize, serializationLines.
  unfold bind at 1. unfold bind at 1. unfold get. unfold bind at 1.
  destruct (forallb (writableBuffer (heap p)) (mergedBuffers p)) eqn:Hm.
  - rewrite andb_true_r in Hbad.
    destruct (serializeBuffers_spec _ _ (serializableIn_forallb _ _ Hm) p [headerLine p]
                (stamps_refl _)) as (h1 & H1 & Hst1).
    rewrite H1.
    rewrite (serializeBuffers_throws (heap p) (buffers p) Hbad); [reflexivity|].
    destruct p; exact Hst1.
  - rewrite (serializeBuffers_throws (heap p) (mergedBuffers p) Hm p _ (stamps_refl _)).
    reflexivity.
Qed.

End Serialize.

(** C8, as stated, fails: [serialize] does not give a text for every
    picture.  When the creation event of a buffer is removed from a log
    that holds nothing else, the log is empty, and [serialize] throws at
    the first event of that buffer.  And the picture [Picture.parse] makes
    of the serialization of a document with an undone merge holds a merge
    event that names no buffer, and [serialize] throws at that event.  In
    both cases there is no first line. *)
Lemma C8_counterexample :
  (Examples.removeCreation Examples.big = Picture.Returns true Examples.emptiedLog
   /\ Picture.buffers Examples.emptiedLog = [0%nat; 1%nat; 2%nat]
   /\ Spec.logOf (Picture.heap Examples.emptiedLog) 2 = []
   /\ Spec.serializable Examples.emptiedLog = false
   /\ Picture.serialize Examples.emptiedLog = Picture.Throws)
  /\ (Picture.parse Examples.canvasOnly Examples.undoneMergeText (JS.ofZ 1) [Picture.canvas]
      = Picture.Returns [] Examples.undoneMergeParsed
      /\ Spec.logOf (Picture.heap Examples.undoneMergeParsed) 0 !! 1%nat
         = Some (PictureEvent.mk 1 3 true None
                   (PictureEvent.BufferMerge 1 PictureEvent.undefined))
      /\ Spec.serializable Examples.undoneMergeParsed = false
      /\ Picture.serialize Examples.undoneMergeParsed = Picture.Throws).
Proof. repeat apply conj; vm_compute; reflexivity. Qed.

(** C8 (amended): [serialize] returns a text exactly for the pictures
    whose buffers, merged and active, all hold at least one event (their
    creation event) and whose merge events name a buffer; on every other
    picture it throws.  The lines of the text are: first the line
    "picture version 1 <width> <height>", five words with the width and
    the height as JavaScript prints numbers (all digits of an integer of
    at most 21 digits), then exactly one line per event, the events of
    the merged buffers before those of the active stack, each buffer in
    the order of its log. *)
Theorem C8_serialize_lines (p : Picture.t) :
  (Spec.serializable p = true ->
   exists text p',
     Picture.serialize p = Picture.Returns text p'
     /\ Picture.buffers p' = Picture.buffers p
     /\ Picture.mergedBuffers p' = Picture.mergedBuffers p
     /\ Text.lines text
        = ("picture version 1 " ++ Text.showNumber (Picture.width p) ++ " "
             ++ Text.showNumber (Picture.height p))%string
          :: concat (map (Spec.linesOfBuffer (Picture.heap p)) (Picture.mergedBuffers p))
          ++ concat (map (Spec.linesOfBuffer (Picture.heap p)) (Picture.buffers p))
     /\ Text.split Text.space
          ("picture version 1 " ++ Text.showNumber (Picture.width p) ++ " "
             ++ Text.showNumber (Picture.height p))%string
        = ["picture"; "version"; "1"; Text.showNumber (Picture.width p);
           Text.showNumber (Picture.height p)]%string
     /\ (forall w h : Z,
           Picture.width p = JS.whole w -> Picture.height p = JS.whole h ->
           Spec.printedInFull (Some w) = true -> Spec.printedInFull (Some h) = true ->
           hd_error (Text.lines text)
           = Some ("picture version 1 " ++ Text.showZ w ++ " " ++ Text.showZ h)%string)
     /\ (forall r, length (Spec.linesOfBuffer (Picture.heap p) r)
                   = length (Spec.logOf (Picture.heap p) r))
     /\ length (Text.lines text) = S (length (Spec.allEvents p)))
  /\ (Spec.serializable p = false -> Picture.serialize p = Picture.Throws).
Proof.
  split; [|apply serialize_throws]. intros Hser.
  change ("picture version 1 " ++ Text.showNumber (Picture.width p) ++ " "
            ++ Text.showNumber (Picture.height p))%string
    with (Picture.headerLine p).
  destruct (serializable_arrays p Hser) as [Hm Ha].
  destruct (serializeBuffers_spec _ _ Hm p [Picture.headerLine p] (stamps_refl _))
    as (h1 & H1 & Hst1).
  destruct (serializeBuffers_spec _ _ Ha (Picture.setHeap h1 p)
              ([Picture.headerLine p]
                 ++ concat (map (Spec.linesOfBuffer (Picture.heap p)) (Picture.mergedBuffers p)))
              Hst1) as (h2 & H2 & Hst2).
  assert (Hlines : Text.lines (Text.join (String Text.newline EmptyString)
             (Picture.headerLine p :: Spec.eventLines p))
           = Picture.headerLine p :: Spec.eventLines p).
  { apply lines_join. cbn [forallb]. rewrite headerLine_oneLine. cbn [andb].
    apply forallb_forall. intros l Hl. unfold Spec.eventLines in Hl.
    apply in_concat in Hl as (ls & Hls & Hl). apply in_map_iff in Hls as (r & <- & _).
    unfold Spec.linesOfBuffer in Hl. destruct (Picture.heap p !! r); [|destruct Hl].
    apply in_map_iff in Hl as (e & <- & _). apply lineOf_oneLine. }
  assert (Hev : Spec.eventLines p
            = concat (map (Spec.linesOfBuffer (Picture.heap p)) (Picture.mergedBuffers p))
              ++ concat (map (Spec.linesOfBuffer (Picture.heap p)) (Picture.buffers p))).
  { unfold Spec.eventLines. rewrite map_app, concat_app. reflexivity. }
  exists (Text.join (String Text.newline EmptyString)
            (Picture.headerLine p :: Spec.eventLines p)),
    (Picture.setHeap h2 (Picture.setHeap h1 p)).
  split; [|split; [reflexivity|split; [reflexivity|split; [|split; [|split; [|split]]]]]].
  - unfold Picture.serialize, Picture.serializationLines, Picture.bind, Picture.get.
    rewrite H1. cbn [Picture.buffers Picture.setHeap].
    change (Picture.buffers (Picture.setHeap h1 p)) with (Picture.buffers p) in H2.
    rewrite H2. rewrite Hev. reflexivity.
  - rewrite Hlines, Hev. reflexivity.
  - apply split_headerLine.
  - intros w h Hw Hh Hwd Hhd. rewrite Hlines. cbn [hd_error].
    unfold Picture.headerLine. rewrite Hw, Hh.
    cbn [Spec.printedInFull] in Hwd, Hhd. apply Nat.leb_le in Hwd, Hhd.
    rewrite (showNumber_whole w Hwd), (showNumber_whole h Hhd). reflexivity.
  - intros r. apply length_linesOfBuffer.
  - rewrite Hlines. cbn [length]. rewrite length_eventLines. reflexivity.
Qed.

Lemma C8_witness :
  (exists text p',
     Picture.serialize Examples.twiceMerged = Picture.Returns text p'
     /\ Picture.buffers p' = Picture.buffers Examples.twiceMerged
     /\ Picture.mergedBuffers p' = Picture.mergedBuffers Examples.twiceMerged
     /\ Text.lines text
        = "picture version 1 2048 2048"%string
          :: concat (map (Spec.linesOfBuffer (Picture.heap Examples.twiceMerged))
                         (Picture.mergedBuffers Examples.twiceMerged))
          ++ concat (map (Spec.linesOfBuffer (Picture.heap Examples.twiceMerged))
                         (Picture.buffers Examples.twiceMerged))
     /\ hd_error (Text.lines text) = Some "picture version 1 2048 2048"%string
     /\ length (Text.lines text) = S (length (Spec.allEvents Examples.twiceMerged)))
  /\ Picture.serialize Examples.undoneMergeParsed = Picture.Throws.
Proof.
  split.
  - destruct (C8_serialize_lines Examples.twiceMerged) as [Hreturns _].
    destruct Hreturns as (text & p' & Hs & Hb & Hm & Hlines & _ & Hwhole & _ & Hlen);
      [vm_compute; reflexivity|].
    exists text, p'. repeat split; try assumption.
    apply (Hwhole 2048 2048); vm_compute; reflexivity.
  - apply (C8_serialize_lines Examples.undoneMergeParsed). vm_compute. reflexivity.
Defined.

(** ** Finding buffers and events *)

Section Find.

Import Picture.

Lemma findBufferIndexFrom_first (h : list PictureBuffer.t) (arr : list nat) (id i : Z) :
  Forall (fun r => is_Some (h !! r)) arr ->
  (findBufferIndexFrom h arr id i = Some (-1)
   /\ Forall (fun r => idAt h r <> Some id) arr)
  \/ (exists (n : nat) (r : nat),
        findBufferIndexFrom h arr id i = Some (i + Z.of_nat n)
        /\ arr !! n = Some r /\ idAt h r = Some id
        /\ Forall (fun r' => idAt h r' <> Some id) (take n arr)).
Proof.
  intros Harr. revert i. induction Harr as [|r arr [b Hb] _ IH]; intros i; cbn [findBufferIndexFrom].
  - left. auto.
  - rewrite Hb. destruct (Z.eqb_spec (PictureBuffer.id b) id) as [Heq|Hne].
    + right. exists 0%nat, r. rewrite Z.add_0_r.
      split; [reflexivity|]. split; [reflexivity|]. split; [|constructor].
      unfold idAt. rewrite Hb, Heq. reflexivity.
    + assert (Hr : idAt h r <> Some id).
      { unfold idAt. rewrite Hb. congruence. }
      destruct (IH (i + 1)) as [[H1 H2]|(n & r' & H1 & H2 & H3 & H4)].
      * left. auto.
      * right. exists (S n), r'. rewrite H1.
        split; [f_equal; lia|]. split; [exact H2|]. split; [exact H3|].
        cbn [take]. constructor; assumption.
Qed.

Lemma findBufferIndex_Returns (arr : list nat) (id : Z) (p : t) (k : Z) :
  findBufferIndexFrom (heap p) arr id 0 = Some k ->
  findBufferIndex arr id p = Returns k p.
Proof. unfold findBufferIndex. intros ->. reflexivity. Qed.

Lemma index_of_nat_lookup {A : Type} (arr : list A) (n : nat) :
  JS.index arr (Z.of_nat n) = arr !! n.
Proof.
  unfold JS.index. destruct (Z.ltb_spec (Z.of_nat n) 0); [lia|]. rewrite Nat2Z.id. reflexivity.
Qed.

Lemma findBufferContainingEventFrom_spec (h : list PictureBuffer.t) (arr : list nat)
  (event : PictureEvent.t) :
  Forall (fun r => is_Some (h !! r)) arr ->
  (findBufferContainingEventFrom h arr event = Some (-1)
   /\ existsb (PictureEvent.hasIdentity (PictureEvent.sid event)
                 (PictureEvent.sessionEventId event))
        (concat (map (Spec.logOf h) arr)) = false)
  \/ (exists (n : nat) (r : nat) (b : PictureBuffer.t),
        findBufferContainingEventFrom h arr event = Some (PictureBuffer.id b)
        /\ arr !! n = Some r /\ h !! r = Some b
        /\ existsb (PictureEvent.hasIdentity (PictureEvent.sid event)
                      (PictureEvent.sessionEventId event)) (PictureBuffer.events b) = true
        /\ existsb (PictureEvent.hasIdentity (PictureEvent.sid event)
                      (PictureEvent.sessionEventId event))
             (concat (map (Spec.logOf h) (take n arr))) = false).
Proof.
  induction 1 as [|r arr [b Hb] _ IH]; cbn [findBufferContainingEventFrom].
  - left. auto.
  - rewrite Hb. unfold PictureBuffer.eventIndexBySessionId.
    destruct (existsb (PictureEvent.hasIdentity (PictureEvent.sid event)
                (PictureEvent.sessionEventId event)) (PictureBuffer.events b)) eqn:Hex.
    + destruct (indexFrom_matched _ _ _ 0 Hex) as (n & e & -> & _).
      destruct (Z.leb_spec 0 (0 + Z.of_nat n)); [|lia].
      right. exists 0%nat, r, b. auto.
    + rewrite (indexFrom_unmatched _ _ _ 0 Hex). cbn [Z.leb Z.compare].
      assert (Hlog : Spec.logOf h r = PictureBuffer.events b).
      { unfold Spec.logOf. rewrite Hb. reflexivity. }
      destruct IH as [[H1 H2]|(n & r' & b' & H1 & H2 & H3 & H4 & H5)].
      * left. split; [exact H1|]. cbn [map concat]. rewrite existsb_app, Hlog, Hex, H2.
        reflexivity.
      * right. exists (S n), r', b'. repeat split; auto.
        cbn [take map concat]. rewrite existsb_app, Hlog, Hex, H5. reflexivity.
Qed.

End Find.

(** X1: over an array of buffer objects, [findBufferIndex] never throws
    and leaves the picture as it is; it returns -1 exactly when no buffer
    of the array has the id, and otherwise the index of the first buffer
    of the array with that id. *)
Theorem findBufferIndex_first_match (p : Picture.t) (arr : list nat) (id : Z)
  (Harr : Forall (fun r => is_Some (Picture.heap p !! r)) arr) :
  (Picture.findBufferIndex arr id p = Picture.Returns (-1) p
   /\ Forall (fun r => Picture.idAt (Picture.heap p) r <> Some id) arr)
  \/ (exists (n : nat) (r : nat),
        Picture.findBufferIndex arr id p = Picture.Returns (Z.of_nat n) p
        /\ arr !! n = Some r
        /\ Picture.idAt (Picture.heap p) r = Some id
        /\ Forall (fun r' => Picture.idAt (Picture.heap p) r' <> Some id) (take n arr)).
Proof.
  destruct (findBufferIndexFrom_first (Picture.heap p) arr id 0 Harr)
    as [[H1 H2]|(n & r & H1 & H2 & H3 & H4)].
  - left. split; [apply findBufferIndex_Returns; exact H1|exact H2].
  - right. exists n, r. repeat split; auto. apply findBufferIndex_Returns. exact H1.
Qed.

Lemma findBufferIndex_first_match_witness :
  (Picture.findBufferIndex (Picture.mergedBuffers Examples.twiceMerged) 1 Examples.twiceMerged
   = Picture.Returns (-1) Examples.twiceMerged
   /\ Forall (fun r => Picture.idAt (Picture.heap Examples.twiceMerged) r <> Some 1)
        (Picture.mergedBuffers Examples.twiceMerged))
  \/ (exists (n : nat) (r : nat),
        Picture.findBufferIndex (Picture.mergedBuffers Examples.twiceMerged) 1
          Examples.twiceMerged
        = Picture.Returns (Z.of_nat n) Examples.twiceMerged
        /\ Picture.mergedBuffers Examples.twiceMerged !! n = Some r
        /\ Picture.idAt (Picture.heap Examples.twiceMerged) r = Some 1
        /\ Forall (fun r' => Picture.idAt (Picture.heap Examples.twiceMerged) r' <> Some 1)
             (take n (Picture.mergedBuffers Examples.twiceMerged))).
Proof.
  apply (findBufferIndex_first_match Examples.twiceMerged
           (Picture.mergedBuffers Examples.twiceMerged) 1).
  apply Forall_forall. intros r Hr. vm_compute in Hr.
  repeat (apply elem_of_cons in Hr as [->|Hr]; [vm_compute; eauto|]).
  inversion Hr.
Defined.

(** X2: [findBuffer] never throws on a picture whose arrays hold buffer
    objects, and leaves it as it is.  It returns null exactly when neither
    the active stack nor the merged buffers hold a buffer with the id; a
    buffer of the active stack is preferred to a merged buffer with the
    same id, and in each array the first buffer with the id is the one
    returned. *)
Theorem findBuffer_prefers_active (p : Picture.t) (id : Z)
  (Hrefs : Spec.validRefs p = true) :
  exists res, Picture.findBuffer id p = Picture.Returns res p
    /\ match res with
       | None =>
         Forall (fun r => Picture.idAt (Picture.heap p) r <> Some id) (Spec.allBuffers p)
       | Some r =>
         Picture.idAt (Picture.heap p) r = Some id
         /\ ((exists n : nat, Picture.buffers p !! n = Some r
                /\ Forall (fun r' => Picture.idAt (Picture.heap p) r' <> Some id)
                     (take n (Picture.buffers p)))
             \/ (Forall (fun r' => Picture.idAt (Picture.heap p) r' <> Some id)
                   (Picture.buffers p)
                 /\ exists n : nat, Picture.mergedBuffers p !! n = Some r
                      /\ Forall (fun r' => Picture.idAt (Picture.heap p) r' <> Some id)
                           (take n (Picture.mergedBuffers p))))
       end.
Proof.
  destruct (validRefs_arrays p Hrefs) as [Ha Hm].
  unfold Picture.findBuffer. rewrite (bind_eq _ _ p p p) by reflexivity.
  destruct (findBufferIndexFrom_first (Picture.heap p) (Picture.buffers p) id 0 Ha)
    as [[A1 A2]|(n & r & A1 & A2 & A3 & A4)].
  - rewrite (bind_eq _ _ _ _ _ (findBufferIndex_Returns _ _ _ _ A1)).
    change (negb (-1 =? -1)) with false. cbv iota.
    destruct (findBufferIndexFrom_first (Picture.heap p) (Picture.mergedBuffers p) id 0 Hm)
      as [[M1 M2]|(n & r & M1 & M2 & M3 & M4)].
    + rewrite (bind_eq _ _ _ _ _ (findBufferIndex_Returns _ _ _ _ M1)).
      change (negb (-1 =? -1)) with false. cbv iota. exists None. split; [reflexivity|].
      unfold Spec.allBuffers. apply Forall_app. auto.
    + rewrite (bind_eq _ _ _ _ _ (findBufferIndex_Returns _ _ _ _ M1)).
      destruct (Z.eqb_spec (0 + Z.of_nat n) (-1)); [lia|]. cbn [negb].
      exists (Some r). rewrite Z.add_0_l, index_of_nat_lookup, M2.
      split; [reflexivity|]. split; [exact M3|]. right. split; [exact A2|]. eauto.
  - rewrite (bind_eq _ _ _ _ _ (findBufferIndex_Returns _ _ _ _ A1)).
    destruct (Z.eqb_spec (0 + Z.of_nat n) (-1)); [lia|]. cbn [negb].
    exists (Some r). rewrite Z.add_0_l, index_of_nat_lookup, A2.
    split; [reflexivity|]. split; [exact A3|]. left. eauto.
Qed.

Lemma findBuffer_prefers_active_witness :
  exists res, Picture.findBuffer 2 Examples.twiceMerged
              = Picture.Returns res Examples.twiceMerged
    /\ match res with
       | None =>
         Forall (fun r => Picture.idAt (Picture.heap Examples.twiceMerged) r <> Some 2)
           (Spec.allBuffers Examples.twiceMerged)
       | Some r =>
         Picture.idAt (Picture.heap Examples.twiceMerged) r = Some 2
         /\ ((exists n : nat, Picture.buffers Examples.twiceMerged !! n = Some r
                /\ Forall (fun r' => Picture.idAt (Picture.heap Examples.twiceMerged) r'
                                     <> Some 2)
                     (take n (Picture.buffers Examples.twiceMerged)))
             \/ (Forall (fun r' => Picture.idAt (Picture.heap Examples.twiceMerged) r'
                                   <> Some 2)
                   (Picture.buffers Examples.twiceMerged)
                 /\ exists n : nat, Picture.mergedBuffers Examples.twiceMerged !! n = Some r
                      /\ Forall (fun r' => Picture.idAt (Picture.heap Examples.twiceMerged) r'
                                           <> Some 2)
                           (take n (Picture.mergedBuffers Examples.twiceMerged))))
       end.
Proof.
  apply (findBuffer_prefers_active Examples.twiceMerged 2). vm_compute. reflexivity.
Defined.

(** X3: [findBufferContainingEvent] looks through the active stack only.
    On a picture whose stack holds buffer objects it returns -1 when no log
    of the active stack holds an event with the session identity of the
    given event, whether or not a merged buffer holds one, and otherwise
    the id of the first buffer of the stack whose log holds one. *)
Theorem findBufferContainingEvent_active_only (p : Picture.t) (event : PictureEvent.t)
  (Harr : Forall (fun r => is_Some (Picture.heap p !! r)) (Picture.buffers p)) :
  (Picture.findBufferContainingEvent event p = Picture.Returns (-1) p
   /\ existsb (PictureEvent.hasIdentity (PictureEvent.sid event)
                 (PictureEvent.sessionEventId event))
        (concat (map (Spec.logOf (Picture.heap p)) (Picture.buffers p))) = false)
  \/ (exists (n : nat) (r : nat) (b : PictureBuffer.t),
        Picture.findBufferContainingEvent event p = Picture.Returns (PictureBuffer.id b) p
        /\ Picture.buffers p !! n = Some r /\ Picture.heap p !! r = Some b
        /\ existsb (PictureEvent.hasIdentity (PictureEvent.sid event)
                      (PictureEvent.sessionEventId event)) (PictureBuffer.events b) = true
        /\ existsb (PictureEvent.hasIdentity (PictureEvent.sid event)
                      (PictureEvent.sessionEventId event))
             (concat (map (Spec.logOf (Picture.heap p)) (take n (Picture.buffers p))))
           = false).
Proof.
  unfold Picture.findBufferContainingEvent.
  destruct (findBufferContainingEventFrom_spec (Picture.heap p) (Picture.buffers p) event Harr)
    as [[H1 H2]|(n & r & b & H1 & H2 & H3 & H4 & H5)]; rewrite H1.
  - left. auto.
  - right. exists n, r, b. auto.
Qed.

Lemma findBufferContainingEvent_active_only_witness :
  existsb (PictureEvent.hasIdentity 1 2) (Spec.allEvents Examples.twiceMerged) = true
  /\ ((Picture.findBufferContainingEvent (Examples.addEvent 1 2 2 false) Examples.twiceMerged
       = Picture.Returns (-1) Examples.twiceMerged
       /\ existsb (PictureEvent.hasIdentity 1 2)
            (concat (map (Spec.logOf (Picture.heap Examples.twiceMerged))
                         (Picture.buffers Examples.twiceMerged))) = false)
      \/ (exists (n : nat) (r : nat) (b : PictureBuffer.t),
            Picture.findBufferContainingEvent (Examples.addEvent 1 2 2 false)
              Examples.twiceMerged
            = Picture.Returns (PictureBuffer.id b) Examples.twiceMerged
            /\ Picture.buffers Examples.twiceMerged !! n = Some r
            /\ Picture.heap Examples.twiceMerged !! r = Some b
            /\ existsb (PictureEvent.hasIdentity 1 2) (PictureBuffer.events b) = true
            /\ existsb (PictureEvent.hasIdentity 1 2)
                 (concat (map (Spec.logOf (Picture.heap Examples.twiceMerged))
                              (take n (Picture.buffers Examples.twiceMerged)))) = false)).
Proof.
  split; [vm_compute; reflexivity|].
  apply (findBufferContainingEvent_active_only Examples.twiceMerged
           (Examples.addEvent 1 2 2 false)).
  apply Forall_forall. intros r Hr. vm_compute in Hr.
  repeat (apply elem_of_cons in Hr as [->|Hr]; [vm_compute; eauto|]).
  inversion Hr.
Defined.

(** ** What the memory budget loop changes *)

Section BudgetLoop.

Import Picture.

Lemma apartFromMemory_reduceBudget (r : nat) (p p' : t) :
  is_Some (heap p !! r) -> reduceBudget r p = Returns tt p' ->
  Spec.apartFromMemory p' = Spec.apartFromMemory p.
Proof.
  intros [b Hb] H. rewrite (reduceBudget_spec r p b Hb) in H. inversion H; subst; clear H.
  unfold Spec.apartFromMemory. cbn [heap setHeap setMemoryUse buffers mergedBuffers activeSid
    activeSessionEventId memoryBudget memoryUse width height bitmapScale parsedVersion
    moveBufferInternalShadowed newUndoStateInterval].
  rewrite list_fmap_insert.
  change (Spec.apartFromBudget (PictureBuffer.setUndoStateBudget _ b))
    with (Spec.apartFromBudget b).
  rewrite list_insert_id by (rewrite list_lookup_fmap, Hb; reflexivity).
  reflexivity.
Qed.

Lemma apartFromMemory_stayWithinLoop (fuel : nat) (available : JS.number) (possible : bool)
  (p p' : t) :
  stayWithinLoop fuel available possible p = Returns tt p' ->
  Spec.apartFromMemory p' = Spec.apartFromMemory p.
Proof.
  revert possible p. induction fuel as [|fuel IH]; intros possible p H; cbn in H.
  - destruct (_ && _); [discriminate|]. inversion H; subst. reflexivity.
  - destruct (_ && _); [|inversion H; subst; reflexivity].
    destruct (select p) as [sel|] eqn:Hsel; [|discriminate].
    bind_inv H. destruct a. apply IH in H. rewrite H.
    destruct (selectedBuffer sel) as [r|] eqn:Hr.
    + eapply apartFromMemory_reduceBudget; [|exact H0].
      eapply select_selected; eauto.
    + inversion H0; subst. reflexivity.
Qed.

(** A pass of the first loop that sees no candidate: no buffer of the
    stack can give up budget. *)
Lemma scanBuffers_none (h : list PictureBuffer.t) (arr : list nat) (sel sel' : Selection) :
  scanBuffers h arr sel = Some sel' -> freeingPossible sel' = false ->
  Forall (fun r => exists b, h !! r = Some b /\ Spec.canGiveUp b = false) arr.
Proof.
  revert sel. induction arr as [|a arr IH]; intros sel H Hp; cbn in H; [constructor|].
  destruct (h !! a) as [b|] eqn:Hb; [|discriminate].
  destruct (JS.gt _ _ && negb _) eqn:Hc.
  - apply scanBuffers_possible in H as [H _]; auto.
    rewrite consider_possible in H. discriminate.
  - constructor; eauto.
Qed.

Lemma select_none (p : t) (sel : Selection) :
  select p = Some sel -> freeingPossible sel = false ->
  Forall (fun r => exists b, heap p !! r = Some b /\ Spec.canGiveUp b = false) (buffers p).
Proof.
  unfold select. destruct (scanBuffers _ _ _) as [sel0|] eqn:H0; [|discriminate].
  intros H Hp. apply scanMergedBuffers_possible in H as [H1 _]; auto.
  eapply scanBuffers_none; eauto.
Qed.

Lemma wholeBudget_over_one (q : Q) (n : Z) : (q == inject_Z n)%Q -> (1 < q)%Q -> 2 <= n.
Proof.
  intros Hq Hlt. rewrite Hq in Hlt. change 1%Q with (inject_Z 1) in Hlt.
  rewrite <- Zlt_Qlt in Hlt. lia.
Qed.

(** Along the loop a whole budget stays whole, does not grow, and does not
    go below one when it was at least one. *)
Lemma stayWithinLoop_whole (fuel : nat) (available : JS.number) (possible : bool)
  (p p' : t) :
  stayWithinLoop fuel available possible p = Returns tt p' ->
  forall r b n, heap p !! r = Some b -> Spec.wholeBudget n b ->
    exists b' m, heap p' !! r = Some b' /\ Spec.wholeBudget m b'
      /\ m <= n /\ (1 <= n -> 1 <= m).
Proof.
  revert possible p. induction fuel as [|fuel IH]; intros possible p H r b n Hb Hw; cbn in H.
  - destruct (_ && _); [discriminate|]. inversion H; subst. exists b, n. repeat split; auto; lia.
  - destruct (_ && _); [|inversion H; subst; exists b, n; repeat split; auto; lia].
    destruct (select p) as [sel|] eqn:Hsel; [|discriminate].
    bind_inv H. destruct a.
    destruct (selectedBuffer sel) as [r0|] eqn:Hr0.
    + destruct (select_overOne _ _ _ Hsel Hr0) as (b0 & q0 & Hb0 & Hq0 & Hlt).
      rewrite (reduceBudget_spec r0 p b0 Hb0) in H0. inversion H0; subst p0; clear H0.
      destruct (decide (r = r0)) as [->|Hne].
      * rewrite Hb0 in Hb. injection Hb as ->.
        destruct Hw as (q & Hq & Hqn). rewrite Hq0 in Hq. injection Hq as ->.
        pose proof (wholeBudget_over_one _ _ Hqn Hlt) as Hn.
        destruct (IH _ _ H r0
                    (PictureBuffer.setUndoStateBudget
                       (JS.sub (PictureBuffer.undoStateBudget b) (JS.ofZ 1)) b) (n - 1))
          as (b' & m & Hb' & Hw' & Hle & Hone).
        { cbn [heap setHeap setMemoryUse].
          apply list_lookup_insert_eq. eapply lookup_lt_Some; eauto. }
        { rewrite Hq0. eexists. split; [reflexivity|].
          rewrite Qred_correct. unfold Z.sub. rewrite inject_Z_plus, inject_Z_opp, Hqn.
          reflexivity. }
        exists b', m. repeat split; auto; lia.
      * apply (IH _ _ H r b n); [|exact Hw].
        cbn [heap setHeap setMemoryUse]. rewrite list_lookup_insert_ne by auto. exact Hb.
    + inversion H0; subst. apply (IH _ _ H r b n); auto.
Qed.

End BudgetLoop.

(** X4: whenever [stayWithinMemoryBudget] returns, all it has changed is
    undo state budgets, retained undo states and the memory-use counter:
    the ids, event logs and freed flags of all buffers, the active stack,
    the merged buffers, the memory budget and the session are as before. *)
Theorem stayWithinMemoryBudget_changes_budgets_only (requested : JS.number)
  (p p' : Picture.t)
  (Hret : Picture.stayWithinMemoryBudget requested p = Picture.Returns tt p') :
  Spec.apartFromMemory p' = Spec.apartFromMemory p.
Proof. eapply apartFromMemory_stayWithinLoop. exact Hret. Qed.

Lemma stayWithinMemoryBudget_changes_budgets_only_witness :
  exists p',
    Picture.stayWithinMemoryBudget (Examples.megabytes 16) Examples.crowded
    = Picture.Returns tt p'
    /\ p' <> Examples.crowded
    /\ Spec.apartFromMemory p' = Spec.apartFromMemory Examples.crowded.
Proof.
  eexists. split; [vm_compute; reflexivity|]. split; [vm_compute; discriminate|].
  apply (stayWithinMemoryBudget_changes_budgets_only (Examples.megabytes 16)).
  vm_compute. reflexivity.
Defined.

(** X5: the loop of [stayWithinMemoryBudget] needs at most one iteration
    more than the number of times the budgets above one can be lowered by
    one: allowing it more iterations than that never changes the outcome
    of the call. *)
Theorem stayWithinMemoryBudget_iteration_bound (requested : JS.number) (p : Picture.t)
  (n : nat) :
  Picture.stayWithinLoop (Picture.iterationBound p + n)
    (JS.sub (Picture.memoryBudget p) requested) true p
  = Picture.stayWithinMemoryBudget requested p.
Proof. unfold Picture.stayWithinMemoryBudget. apply stayWithinLoop_fuel. Qed.

(** X6: whenever [stayWithinMemoryBudget] returns, the memory in use is
    not above the budget less the requested bytes, or no buffer of the
    active stack that is not freed has a budget above one. *)
Theorem stayWithinMemoryBudget_exit (requested : JS.number) (p p' : Picture.t)
  (Hret : Picture.stayWithinMemoryBudget requested p = Picture.Returns tt p') :
  JS.gt (Picture.memoryUse p') (JS.sub (Picture.memoryBudget p') requested) = false
  \/ Forall (fun r => exists b, Picture.heap p' !! r = Some b /\ Spec.canGiveUp b = false)
       (Picture.buffers p').
Proof.
  pose proof (apartFromMemory_stayWithinLoop _ _ _ _ _ Hret) as Hsame.
  assert (Hbudget : Picture.memoryBudget p' = Picture.memoryBudget p).
  { change (Picture.memoryBudget (Spec.apartFromMemory p')
            = Picture.memoryBudget (Spec.apartFromMemory p)). rewrite Hsame. reflexivity. }
  destruct (stayWithinLoop_exit _ _ _ _ _ Hret) as [Hd|[[Hd _]|(sel & Hsel & Hp)]].
  - left. rewrite Hbudget.
    destruct (Picture.memoryUse p') as [u|], (JS.sub (Picture.memoryBudget p) requested)
      as [a|] eqn:Ha; try reflexivity.
    apply gt_Num_false. apply gt_Num_false in Hd. rewrite Qred_correct in Hd.
    unfold inject_Z in Hd. lra.
  - discriminate.
  - right. eapply select_none; eauto.
Qed.

Lemma stayWithinMemoryBudget_exit_witness :
  exists p',
    Picture.stayWithinMemoryBudget (Examples.megabytes 250) Examples.beforeMerge
    = Picture.Returns tt p'
    /\ (JS.gt (Picture.memoryUse p')
              (JS.sub (Picture.memoryBudget p') (Examples.megabytes 250)) = false
        \/ Forall (fun r => exists b, Picture.heap p' !! r = Some b
                                      /\ Spec.canGiveUp b = false)
             (Picture.buffers p')).
Proof.
  eexists. split; [vm_compute; reflexivity|].
  apply (stayWithinMemoryBudget_exit (Examples.megabytes 250) Examples.beforeMerge).
  vm_compute. reflexivity.
Defined.

(** X7: [stayWithinMemoryBudget] never raises a budget, and never takes a
    budget that is a whole number of at least one below one: a buffer
    whose budget is the whole number n has, when the call returns, a whole
    budget m with m <= n, and 1 <= m when 1 <= n. *)
Theorem stayWithinMemoryBudget_whole_budget_floor (requested : JS.number)
  (p p' : Picture.t) (r : nat) (b : PictureBuffer.t) (n : Z)
  (Hret : Picture.stayWithinMemoryBudget requested p = Picture.Returns tt p')
  (Hb : Picture.heap p !! r = Some b)
  (Hwhole : Spec.wholeBudget n b) :
  exists b' m, Picture.heap p' !! r = Some b' /\ Spec.wholeBudget m b'
    /\ m <= n /\ (1 <= n -> 1 <= m).
Proof. eapply stayWithinLoop_whole; eauto. Qed.

Lemma stayWithinMemoryBudget_whole_budget_floor_witness :
  exists p' b,
    Picture.stayWithinMemoryBudget (Examples.megabytes 250) Examples.beforeMerge
    = Picture.Returns tt p'
    /\ Picture.heap Examples.beforeMerge !! 2%nat = Some b
    /\ Spec.wholeBudget 5 b
    /\ exists b' m, Picture.heap p' !! 2%nat = Some b' /\ Spec.wholeBudget m b'
         /\ m <= 5 /\ (1 <= 5 -> 1 <= m).
Proof.
  eexists. eexists.
  split; [vm_compute; reflexivity|]. split; [vm_compute; reflexivity|].
  assert (Hw : forall b, PictureBuffer.undoStateBudget b = JS.Num 5 -> Spec.wholeBudget 5 b).
  { intros b Hb. exists 5%Q. split; [exact Hb|reflexivity]. }
  split; [apply Hw; reflexivity|].
  eapply (stayWithinMemoryBudget_whole_budget_floor (Examples.megabytes 250)
            Examples.beforeMerge);
    [vm_compute; reflexivity|vm_compute; reflexivity|apply Hw; reflexivity].
Defined.

(** ** Undo and redo by session identity *)

Section UndoRedo.

Import Picture.

Lemma eventAt_Returns (p : t) (r : nat) (k : Z) (b : PictureBuffer.t) (e : PictureEvent.t) :
  heap p !! r = Some b -> JS.index (PictureBuffer.events b) k = Some e ->
  eventAt r k p = Returns e p.
Proof.
  intros Hb He. unfold eventAt. rewrite (bind_eq _ _ p p b) by (apply load_Returns; auto).
  apply defined_Returns. auto.
Qed.

(** The event found is undone already: it is returned as it is. *)
Lemma undoEventFromBuffers_undone (c : Collection) (s i : Z) (p : t) (r : nat)
  (k : Z) (b : PictureBuffer.t) (e : PictureEvent.t) :
  search c s i p = Returns (Some (r, k)) p -> heap p !! r = Some b ->
  JS.index (PictureBuffer.events b) k = Some e -> PictureEvent.undone e = true ->
  undoEventFromBuffers c s i p = Returns (Some e) p.
Proof.
  intros Hs Hb He Hu. unfold undoEventFromBuffers.
  rewrite (bind_eq _ _ _ _ _ Hs), (bind_eq _ _ _ _ _ (eventAt_Returns p r k b e Hb He)).
  rewrite Hu. reflexivity.
Qed.

Lemma undoEventFromBuffers_unmatched (c : Collection) (s i : Z) (p : t) :
  search c s i p = Returns None p -> undoEventFromBuffers c s i p = Returns None p.
Proof. intros Hs. unfold undoEventFromBuffers. rewrite (bind_eq _ _ _ _ _ Hs). reflexivity. Qed.

End UndoRedo.

(** X8: on a picture whose arrays hold buffer objects [findLatest] never
    throws and changes nothing.  It returns null when the session has no
    eligible event with a non-negative id in any active or merged buffer
    (eligible: of the session, and not undone unless undone events are
    asked for); otherwise it returns the place of an eligible event whose
    sessionEventId is the highest of all eligible events of all buffers,
    with that id. *)
Theorem findLatest_highest_of_session (s : Z) (canBeUndone : bool) (p : Picture.t)
  (Hrefs : Spec.validRefs p = true) :
  exists res, Picture.findLatest s canBeUndone p = Picture.Returns res p
    /\ match res with
       | None =>
         forall e, In e (Spec.allEvents p) ->
           PictureBuffer.isCandidate s canBeUndone e = true ->
           PictureEvent.sessionEventId e < 0
       | Some l =>
         0 <= Picture.sessionEventId l
         /\ (forall e, In e (Spec.allEvents p) ->
               PictureBuffer.isCandidate s canBeUndone e = true ->
               PictureEvent.sessionEventId e <= Picture.sessionEventId l)
         /\ exists r b e,
              JS.index (if Picture.inRemovedBuffer l then Picture.mergedBuffers p
                        else Picture.buffers p) (Picture.bufferIndex l) = Some r
              /\ Picture.heap p !! r = Some b
              /\ JS.index (PictureBuffer.events b) (Picture.eventIndex l) = Some e
              /\ PictureBuffer.isCandidate s canBeUndone e = true
              /\ PictureEvent.sessionEventId e = Picture.sessionEventId l
       end.
Proof. exact (findLatest_spec s canBeUndone p Hrefs). Qed.

Lemma findLatest_highest_of_session_witness :
  exists res, Picture.findLatest 1 false Examples.mergedInMerged
              = Picture.Returns res Examples.mergedInMerged
    /\ match res with
       | None =>
         forall e, In e (Spec.allEvents Examples.mergedInMerged) ->
           PictureBuffer.isCandidate 1 false e = true ->
           PictureEvent.sessionEventId e < 0
       | Some l =>
         0 <= Picture.sessionEventId l
         /\ (forall e, In e (Spec.allEvents Examples.mergedInMerged) ->
               PictureBuffer.isCandidate 1 false e = true ->
               PictureEvent.sessionEventId e <= Picture.sessionEventId l)
         /\ exists r b e,
              JS.index (if Picture.inRemovedBuffer l
                        then Picture.mergedBuffers Examples.mergedInMerged
                        else Picture.buffers Examples.mergedInMerged)
                       (Picture.bufferIndex l) = Some r
              /\ Picture.heap Examples.mergedInMerged !! r = Some b
              /\ JS.index (PictureBuffer.events b) (Picture.eventIndex l) = Some e
              /\ PictureBuffer.isCandidate 1 false e = true
              /\ PictureEvent.sessionEventId e = Picture.sessionEventId l
       end.
Proof.
  apply (findLatest_highest_of_session 1 false Examples.mergedInMerged).
  vm_compute. reflexivity.
Defined.

(** X9: undoing by session identity an event that is undone already is
    not an error and undoes nothing: when some event of an active or merged
    buffer carries the identity and every event carrying it is undone,
    [undoEventSessionId] returns such an event (not null) and leaves the
    picture exactly as it was. *)
Theorem undoEventSessionId_already_undone (p : Picture.t) (sid sessionEventId : Z)
  (Hrefs : Spec.validRefs p = true)
  (Hsome : existsb (PictureEvent.hasIdentity sid sessionEventId) (Spec.allEvents p) = true)
  (Hundone : forallb (fun e => negb (PictureEvent.hasIdentity sid sessionEventId e)
                               || PictureEvent.undone e) (Spec.allEvents p) = true) :
  exists e, Picture.undoEventSessionId sid sessionEventId p = Picture.Returns (Some e) p
    /\ In e (Spec.allEvents p)
    /\ PictureEvent.hasIdentity sid sessionEventId e = true
    /\ PictureEvent.undone e = true.
Proof.
  rewrite allEvents_matched in Hsome. rewrite forallb_forall in Hundone.
  assert (Hfound : forall c r k b e,
    Picture.search c sid sessionEventId p = Picture.Returns (Some (r, k)) p ->
    r ∈ Picture.collection c p -> Picture.heap p !! r = Some b ->
    JS.index (PictureBuffer.events b) k = Some e ->
    PictureEvent.hasIdentity sid sessionEventId e = true ->
    Picture.undoEventFromBuffers c sid sessionEventId p = Picture.Returns (Some e) p
    /\ In e (Spec.allEvents p) /\ PictureEvent.undone e = true).
  { intros c r k b e Hs Hr Hb He Hid.
    pose proof (allEvents_elem p c r b k e Hr Hb He) as Hin.
    pose proof (Hundone e Hin) as Hu. rewrite Hid in Hu. cbn in Hu.
    split; [|auto]. apply (undoEventFromBuffers_undone c _ _ p r k b e); auto. }
  unfold Picture.undoEventSessionId.
  destruct (existsb _ (Picture.buffers p)) eqn:Ha.
  - destruct (search_matched p Picture.Active sid sessionEventId Hrefs Ha)
      as (r & k & b & e & Hs & Hr & Hb & He & Hid).
    destruct (Hfound _ _ _ _ _ Hs Hr Hb He Hid) as (Hu & Hin & Hun).
    exists e. rewrite (bind_eq _ _ _ _ _ Hu). auto.
  - cbn in Hsome.
    pose proof (search_unmatched p Picture.Active sid sessionEventId Hrefs Ha) as Sa.
    rewrite (bind_eq _ _ _ _ _ (undoEventFromBuffers_unmatched _ _ _ _ Sa)).
    destruct (search_matched p Picture.Merged sid sessionEventId Hrefs Hsome)
      as (r & k & b & e & Hs & Hr & Hb & He & Hid).
    destruct (Hfound _ _ _ _ _ Hs Hr Hb He Hid) as (Hu & Hin & Hun).
    exists e. auto.
Qed.

Lemma undoEventSessionId_already_undone_witness :
  exists e, Picture.undoEventSessionId 1 3 Examples.undoneMergeDocument
            = Picture.Returns (Some e) Examples.undoneMergeDocument
    /\ In e (Spec.allEvents Examples.undoneMergeDocument)
    /\ PictureEvent.hasIdentity 1 3 e = true
    /\ PictureEvent.undone e = true.
Proof.
  apply (undoEventSessionId_already_undone Examples.undoneMergeDocument 1 3);
    vm_compute; reflexivity.
Defined.

(** ** Undo followed by redo *)

Section UndoThenRedo.

Import Picture.

Lemma indexFrom_insert (s i : Z) (evs : list PictureEvent.t) (n : nat)
  (e e' : PictureEvent.t) (k : Z) :
  evs !! n = Some e ->
  PictureEvent.hasIdentity s i e' = PictureEvent.hasIdentity s i e ->
  PictureBuffer.indexFrom s i (<[n := e']> evs) k = PictureBuffer.indexFrom s i evs k.
Proof.
  revert n k. induction evs as [|x evs IH]; intros n k Hn Hid; [discriminate|].
  destruct n as [|n].
  - injection Hn as ->. cbn [PictureBuffer.indexFrom]. 
    change (<[0%nat := e']> (e :: evs)) with (e' :: evs).
    cbn [PictureBuffer.indexFrom]. rewrite Hid. reflexivity.
  - change (<[S n := e']> (x :: evs)) with (x :: <[n := e']> evs).
    cbn [PictureBuffer.indexFrom]. rewrite (IH n (k + 1) Hn Hid). reflexivity.
Qed.

(** The search only reads, of every log, where the identity is found. *)
Lemma searchFrom_ext (h h' : list PictureBuffer.t) (arr : list nat) (s i : Z) :
  (forall r, ((fun b => PictureBuffer.eventIndexBySessionId b s i) <$> h' !! r)
             = ((fun b => PictureBuffer.eventIndexBySessionId b s i) <$> h !! r)) ->
  searchFrom h' arr s i = searchFrom h arr s i.
Proof.
  intros H. induction arr as [|r arr IH]; cbn; [reflexivity|].
  specialize (H r). destruct (h' !! r) as [b'|], (h !! r) as [b|]; cbn in H;
    try discriminate; [|reflexivity].
  injection H as ->. rewrite IH. reflexivity.
Qed.

Lemma search_insert (c : Collection) (s i : Z) (p : t) (r : nat) (b b' : PictureBuffer.t)
  (found : option (nat * Z)) :
  heap p !! r = Some b ->
  PictureBuffer.eventIndexBySessionId b' s i = PictureBuffer.eventIndexBySessionId b s i ->
  search c s i p = Returns found p ->
  search c s i (setHeap (<[r := b']> (heap p)) p)
  = Returns found (setHeap (<[r := b']> (heap p)) p).
Proof.
  intros Hb Hidx H. apply defined_Returns in H as [H _].
  unfold search. change (collection c (setHeap (<[r := b']> (heap p)) p))
    with (collection c p).
  cbn [heap setHeap].
  rewrite (searchFrom_ext (heap p) (<[r := b']> (heap p))), H; [reflexivity|].
  intros r0. destruct (decide (r0 = r)) as [->|Hne].
  - rewrite list_lookup_insert_eq by (eapply lookup_lt_Some; eauto).
    rewrite Hb. unfold fmap, option_fmap, option_map. rewrite Hidx. reflexivity.
  - rewrite list_lookup_insert_ne by auto. reflexivity.
Qed.

Lemma plain_kinds (e : PictureEvent.t) :
  PictureEvent.isBufferStackChange e = false ->
  PictureEvent.isType PictureEvent.bufferMerge e = false
  /\ PictureEvent.isType PictureEvent.bufferRemove e = false
  /\ PictureEvent.isType PictureEvent.bufferMove e = false.
Proof.
  unfold PictureEvent.isBufferStackChange, PictureEvent.isType.
  destruct (PictureEvent.eventType e); try discriminate; auto.
Qed.

(** The buffer after the event at [k] has been given the flag [u]. *)
Definition flagged (k : Z) (u : bool) (e : PictureEvent.t) (b : PictureBuffer.t)
  : PictureBuffer.t :=
  PictureBuffer.setUndoStates
    (PictureBuffer.invalidateAfter k (PictureBuffer.undoStates b))
    (PictureBuffer.setEvents
       (<[Z.to_nat k := PictureEvent.setUndone u e]> (PictureBuffer.events b)) b).

(** Undoing an event that does not change the stack and is not the first
    of its log only marks it in the log. *)
Lemma undoEventIndex_plain (p : t) (r : nat) (k : Z) (merged : bool)
  (b : PictureBuffer.t) (e : PictureEvent.t) :
  heap p !! r = Some b -> JS.index (PictureBuffer.events b) k = Some e ->
  PictureEvent.isBufferStackChange e = false -> k <> 0 ->
  undoEventIndex r k merged p
  = Returns (Some (PictureEvent.setUndone true e))
      (setHeap (<[r := flagged k true e b]> (heap p)) p).
Proof.
  intros Hb He Hsc Hk. destruct (plain_kinds e Hsc) as (Hm & Hr & Hv).
  assert (Hty : forall ty, PictureEvent.isType ty (PictureEvent.setUndone true e)
                           = PictureEvent.isType ty e) by reflexivity.
  unfold undoEventIndex, bufferUndoEventIndex, bind, load, defined,
    PictureBuffer.undoEventIndex.
  rewrite Hb. cbn [ret]. rewrite He, Hm. cbn [negb andb ret].
  unfold update, bind, load, defined, modify. rewrite Hb. cbn [ret].
  rewrite (Hty PictureEvent.bufferMerge), Hm. unfold ret. cbv beta iota.
  destruct (Z.eqb_spec k 0); [contradiction|].
  rewrite !Hty, Hr, Hm, Hv. reflexivity.
Qed.

(** Redoing such an event only clears the mark. *)
Lemma redoEventFromBuffers_plain (c : Collection) (s i : Z) (p : t) (r : nat) (k : Z)
  (b : PictureBuffer.t) (e : PictureEvent.t) :
  search c s i p = Returns (Some (r, k)) p ->
  heap p !! r = Some b -> JS.index (PictureBuffer.events b) k = Some e ->
  PictureEvent.undone e = true ->
  PictureEvent.isBufferStackChange e = false -> k <> 0 ->
  redoEventFromBuffers c s i p
  = Returns true (setHeap (<[r := flagged k false e b]> (heap p)) p).
Proof.
  intros Hs Hb He Hu Hsc Hk. destruct (plain_kinds e Hsc) as (Hm & Hr & Hv).
  unfold redoEventFromBuffers.
  rewrite (bind_eq _ _ _ _ _ Hs), (bind_eq _ _ _ _ _ (eventAt_Returns p r k b e Hb He)).
  rewrite Hu, Hm, Hr. destruct (Z.eqb_spec k 0); [contradiction|].
  unfold bufferRedoEventIndex, bind, ret, load, defined, PictureBuffer.redoEventIndex.
  rewrite Hb. cbn [ret]. rewrite He. cbn [ret].
  unfold update, bind, load, defined, modify. rewrite Hb. cbn [ret]. rewrite Hm.
  reflexivity.
Qed.

Lemma setUndone_back (e : PictureEvent.t) :
  PictureEvent.undone e = false ->
  PictureEvent.setUndone false (PictureEvent.setUndone true e) = e.
Proof. destruct e; cbn. intros ->. reflexivity. Qed.

Lemma hasIdentity_setUndone (s i : Z) (u : bool) (e : PictureEvent.t) :
  PictureEvent.hasIdentity s i (PictureEvent.setUndone u e) = PictureEvent.hasIdentity s i e.
Proof. reflexivity. Qed.

Lemma eventIndex_flagged (s i k : Z) (u : bool) (b : PictureBuffer.t) (e : PictureEvent.t) :
  JS.index (PictureBuffer.events b) k = Some e ->
  PictureBuffer.eventIndexBySessionId (flagged k u e b) s i
  = PictureBuffer.eventIndexBySessionId b s i.
Proof.
  intros He. apply index_Some_nat in He. unfold PictureBuffer.eventIndexBySessionId, flagged.
  cbn. apply (indexFrom_insert _ _ _ _ e); auto.
Qed.

(** Undo and then redo of one located event. *)
Lemma undo_then_redo_at (c : Collection) (s i : Z) (p : t) (r : nat) (k : Z)
  (b : PictureBuffer.t) (e : PictureEvent.t) :
  search c s i p = Returns (Some (r, k)) p ->
  heap p !! r = Some b -> JS.index (PictureBuffer.events b) k = Some e ->
  PictureEvent.undone e = false ->
  PictureEvent.isBufferStackChange e = false -> k <> 0 ->
  exists p1 p2,
    undoEventFromBuffers c s i p = Returns (Some (PictureEvent.setUndone true e)) p1
    /\ redoEventFromBuffers c s i p1 = Returns true p2
    /\ (forall c', search c' s i p1
                   = match search c' s i p with
                     | Returns found _ => Returns found p1
                     | Throws => Throws
                     | Diverges => Diverges
                     end)
    /\ Spec.logOf (heap p1) r
       = <[Z.to_nat k := PictureEvent.setUndone true e]> (Spec.logOf (heap p) r)
    /\ logs p2 = logs p
    /\ buffers p2 = buffers p /\ mergedBuffers p2 = mergedBuffers p
    /\ memoryUse p2 = memoryUse p.
Proof.
  intros Hs Hb He Hu Hsc Hk.
  set (b1 := flagged k true e b).
  set (p1 := setHeap (<[r := b1]> (heap p)) p).
  assert (Hlt : (r < length (heap p))%nat) by (eapply lookup_lt_Some; eauto).
  assert (Hb1 : heap p1 !! r = Some b1) by (apply list_lookup_insert_eq; exact Hlt).
  assert (He1 : JS.index (PictureBuffer.events b1) k = Some (PictureEvent.setUndone true e)).
  { pose proof (index_Some_nat _ _ _ He) as Hn. unfold JS.index in *.
    destruct (k <? 0); [discriminate|]. cbn.
    apply list_lookup_insert_eq. eapply lookup_lt_Some; eauto. }
  assert (Hsearch : forall c' found, search c' s i p = Returns found p ->
                      search c' s i p1 = Returns found p1).
  { intros c' found H. apply (search_insert c' s i p r b b1 found Hb); [|exact H].
    apply eventIndex_flagged. exact He. }
  exists p1, (setHeap (<[r := flagged k false (PictureEvent.setUndone true e) b1]> (heap p1)) p1).
  split; [|split; [|split; [|split; [|split]]]].
  - unfold undoEventFromBuffers.
    rewrite (bind_eq _ _ _ _ _ Hs), (bind_eq _ _ _ _ _ (eventAt_Returns p r k b e Hb He)).
    rewrite Hu. cbn [negb]. apply undoEventIndex_plain; auto.
  - apply (redoEventFromBuffers_plain c s i p1 r k b1 (PictureEvent.setUndone true e)); auto.
  - intros c'. unfold search at 2.
    destruct (searchFrom (heap p) (rev (collection c' p)) s i) as [found|] eqn:Hf.
    + apply Hsearch. unfold search. rewrite Hf. reflexivity.
    + unfold search. change (collection c' p1) with (collection c' p). cbn [heap p1 setHeap].
      rewrite (searchFrom_ext (heap p) (<[r := b1]> (heap p))), Hf; [reflexivity|].
      intros r0. destruct (decide (r0 = r)) as [->|Hne].
      * rewrite list_lookup_insert_eq by exact Hlt. rewrite Hb.
        unfold fmap, option_fmap, option_map, b1.
        rewrite (eventIndex_flagged s i k true b e He). reflexivity.
      * rewrite list_lookup_insert_ne by auto. reflexivity.
  - unfold Spec.logOf. rewrite Hb1, Hb. reflexivity.
  - unfold logs. cbn [heap p1 setHeap]. rewrite list_insert_insert_eq.
    apply (logs_insert _ _ b); [exact Hb|].
    unfold flagged, b1, flagged. cbn. rewrite list_insert_insert_eq.
    rewrite (setUndone_back e Hu). apply list_insert_id.
    apply index_Some_nat. exact He.
  - repeat split; reflexivity.
Qed.

End UndoThenRedo.

(** X10: undo followed by redo of an event gives back the event logs.
    For a session identity carried by events that are not undone, do not
    change the buffer stack (no add, remove, move or merge) and are not the
    first event of a log, [undoEventSessionId] returns the event marked
    undone, having marked it in its log, and [redoEventSessionId] on the
    result returns true and leaves every event log, the active stack, the
    merged buffers and the memory counter as they were before the undo. *)
Theorem undo_then_redo_restores_logs (p : Picture.t) (sid sessionEventId : Z)
  (Hrefs : Spec.validRefs p = true)
  (Hsome : existsb (PictureEvent.hasIdentity sid sessionEventId) (Spec.allEvents p) = true)
  (Hplain : forallb (fun e => negb (PictureEvent.hasIdentity sid sessionEventId e)
                              || (negb (PictureEvent.undone e)
                                  && negb (PictureEvent.isBufferStackChange e)))
              (Spec.allEvents p) = true)
  (Hfirst : forallb (fun r => match Spec.logOf (Picture.heap p) r with
                              | e :: _ => negb (PictureEvent.hasIdentity sid sessionEventId e)
                              | [] => true
                              end) (Spec.allBuffers p) = true) :
  exists e p1 p2 r k,
    In e (Spec.allEvents p)
    /\ PictureEvent.hasIdentity sid sessionEventId e = true
    /\ Picture.undoEventSessionId sid sessionEventId p
       = Picture.Returns (Some (PictureEvent.setUndone true e)) p1
    /\ Spec.logOf (Picture.heap p1) r
       = <[k := PictureEvent.setUndone true e]> (Spec.logOf (Picture.heap p) r)
    /\ Spec.logOf (Picture.heap p) r !! k = Some e
    /\ Picture.redoEventSessionId sid sessionEventId p1 = Picture.Returns true p2
    /\ logs p2 = logs p
    /\ Picture.buffers p2 = Picture.buffers p
    /\ Picture.mergedBuffers p2 = Picture.mergedBuffers p
    /\ Picture.memoryUse p2 = Picture.memoryUse p.
Proof.
  rewrite allEvents_matched in Hsome. rewrite forallb_forall in Hplain, Hfirst.
  assert (Hfound : forall c r k b e,
    Picture.search c sid sessionEventId p = Picture.Returns (Some (r, k)) p ->
    r ∈ Picture.collection c p -> Picture.heap p !! r = Some b ->
    JS.index (PictureBuffer.events b) k = Some e ->
    PictureEvent.hasIdentity sid sessionEventId e = true ->
    In e (Spec.allEvents p) /\ PictureEvent.undone e = false
    /\ PictureEvent.isBufferStackChange e = false /\ k <> 0).
  { intros c r k b e Hs Hr Hb He Hid.
    pose proof (allEvents_elem p c r b k e Hr Hb He) as Hin.
    pose proof (Hplain e Hin) as Hp. rewrite Hid in Hp. cbn in Hp.
    apply andb_true_iff in Hp as [Hu Hsc].
    apply negb_true_iff in Hu, Hsc. repeat split; auto.
    intros ->. assert (Hrin : In r (Spec.allBuffers p)).
    { unfold Spec.allBuffers. apply in_or_app. apply list_elem_of_In in Hr.
      destruct c; [left|right]; exact Hr. }
    specialize (Hfirst r Hrin). unfold Spec.logOf in Hfirst. rewrite Hb in Hfirst.
    destruct (PictureBuffer.events b) as [|x evs]; [discriminate|].
    injection He as ->. rewrite Hid in Hfirst. discriminate. }
  assert (Hlog : forall r k b e, Picture.heap p !! r = Some b ->
            JS.index (PictureBuffer.events b) k = Some e ->
            Spec.logOf (Picture.heap p) r !! Z.to_nat k = Some e).
  { intros r k b e Hb He. unfold Spec.logOf. rewrite Hb. apply index_Some_nat. exact He. }
  unfold Picture.undoEventSessionId, Picture.redoEventSessionId.
  destruct (existsb _ (Picture.buffers p)) eqn:Ha.
  - destruct (search_matched p Picture.Active sid sessionEventId Hrefs Ha)
      as (r & k & b & e & Hs & Hr & Hb & He & Hid).
    destruct (Hfound _ _ _ _ _ Hs Hr Hb He Hid) as (Hin & Hu & Hsc & Hk).
    destruct (undo_then_redo_at _ _ _ _ _ _ _ _ Hs Hb He Hu Hsc Hk)
      as (p1 & p2 & Hundo & Hredo & _ & Hl1 & Hl2 & Hbs & Hms & Hmem).
    exists e, p1, p2, r, (Z.to_nat k).
    rewrite (bind_eq _ _ _ _ _ Hundo), (bind_eq _ _ _ _ _ Hredo).
    repeat split; eauto.
  - cbn in Hsome.
    pose proof (search_unmatched p Picture.Active sid sessionEventId Hrefs Ha) as Sa.
    destruct (search_matched p Picture.Merged sid sessionEventId Hrefs Hsome)
      as (r & k & b & e & Hs & Hr & Hb & He & Hid).
    destruct (Hfound _ _ _ _ _ Hs Hr Hb He Hid) as (Hin & Hu & Hsc & Hk).
    destruct (undo_then_redo_at _ _ _ _ _ _ _ _ Hs Hb He Hu Hsc Hk)
      as (p1 & p2 & Hundo & Hredo & Hsame & Hl1 & Hl2 & Hbs & Hms & Hmem).
    exists e, p1, p2, r, (Z.to_nat k).
    rewrite (bind_eq _ _ _ _ _ (undoEventFromBuffers_unmatched _ _ _ _ Sa)).
    assert (Sa1 : Picture.redoEventFromBuffers Picture.Active sid sessionEventId p1
                  = Picture.Returns false p1).
    { unfold Picture.redoEventFromBuffers.
      rewrite (bind_eq _ _ p1 p1 None) by (rewrite Hsame, Sa; reflexivity). reflexivity. }
    rewrite (bind_eq _ _ _ _ _ Sa1).
    repeat split; eauto.
Qed.

Lemma undo_then_redo_restores_logs_witness :
  exists e p1 p2 r k,
    In e (Spec.allEvents Examples.undoneMergeDocument)
    /\ PictureEvent.hasIdentity 1 2 e = true
    /\ Picture.undoEventSessionId 1 2 Examples.undoneMergeDocument
       = Picture.Returns (Some (PictureEvent.setUndone true e)) p1
    /\ Spec.logOf (Picture.heap p1) r
       = <[k := PictureEvent.setUndone true e]>
           (Spec.logOf (Picture.heap Examples.undoneMergeDocument) r)
    /\ Spec.logOf (Picture.heap Examples.undoneMergeDocument) r !! k = Some e
    /\ Picture.redoEventSessionId 1 2 p1 = Picture.Returns true p2
    /\ logs p2 = logs Examples.undoneMergeDocument
    /\ Picture.buffers p2 = Picture.buffers Examples.undoneMergeDocument
    /\ Picture.mergedBuffers p2 = Picture.mergedBuffers Examples.undoneMergeDocument
    /\ Picture.memoryUse p2 = Picture.memoryUse Examples.undoneMergeDocument.
Proof.
  apply (undo_then_redo_restores_logs Examples.undoneMergeDocument 1 2);
    vm_compute; reflexivity.
Defined.

(** ** The header line *)

Section Header.

Open Scope string_scope.

Lemma digitsPrefix_uint (d : Decimal.uint) :
  Text.digitsPrefix (NilEmpty.string_of_uint d) = NilEmpty.string_of_uint d.
Proof. induction d; cbn; rewrite ?IHd; reflexivity. Qed.

Lemma of_uint_to_uint (q : positive) : Z.of_uint (Pos.to_uint q) = Z.pos q.
Proof. unfold Z.of_uint. rewrite DecimalPos.Unsigned.of_to. reflexivity. Qed.

(** The digits of a positive number are read back as that number. *)
Lemma parseDigits (q : positive) (negative : bool) :
  match Text.digitsPrefix (NilEmpty.string_of_uint (Pos.to_uint q)) with
  | EmptyString => None
  | ds =>
    match NilEmpty.uint_of_string ds with
    | Some u => Some (if negative then - Z.of_uint u else Z.of_uint u)
    | None => None
    end
  end = Some (if negative then Z.neg q else Z.pos q).
Proof.
  rewrite digitsPrefix_uint.
  pose proof (DecimalPos.Unsigned.to_uint_nonnil q) as Hnil.
  pose proof (NilEmpty.usu (Pos.to_uint q)) as Husu.
  pose proof (of_uint_to_uint q) as Hof.
  destruct (Pos.to_uint q) as [|d|d|d|d|d|d|d|d|d|d]; [contradiction| ..];
    cbn [NilEmpty.string_of_uint] in *; rewrite Husu, Hof; destruct negative; reflexivity.
Qed.

Lemma parseInt_showZ (z : Z) : Text.parseInt (Some (Text.showZ z)) = Some z.
Proof.
  destruct z as [|q|q]; [reflexivity| |].
  - unfold Text.showZ. cbn [Z.to_int NilZero.string_of_int]. unfold NilZero.string_of_uint.
    pose proof (DecimalPos.Unsigned.to_uint_nonnil q) as Hnil.
    pose proof (parseDigits q false) as Hp.
    destruct (Pos.to_uint q) as [|d|d|d|d|d|d|d|d|d|d]; [contradiction| ..];
      cbn [NilEmpty.string_of_uint] in *; unfold Text.parseInt; exact Hp.
  - unfold Text.showZ. cbn [Z.to_int NilZero.string_of_int]. unfold NilZero.string_of_uint.
    pose proof (DecimalPos.Unsigned.to_uint_nonnil q) as Hnil.
    pose proof (parseDigits q true) as Hp.
    destruct (Pos.to_uint q) as [|d|d|d|d|d|d|d|d|d|d]; [contradiction| ..];
      cbn [NilEmpty.string_of_uint] in *; unfold Text.parseInt; exact Hp.
Qed.

(** Such an integer, and NaN, are read back as they were printed. *)
Lemma parseInt_showNumber (n : option Z) :
  Spec.printedInFull n = true ->
  Text.parseInt (Some (Text.showNumber (JS.parsed n))) = n.
Proof.
  destruct n as [z|]; [|reflexivity]. cbn [Spec.printedInFull JS.parsed].
  intros Hlen. apply Nat.leb_le in Hlen.
  rewrite (showNumber_whole z Hlen). apply parseInt_showZ.
Qed.

End Header.

(** X11: the header line [serialize] writes is read back by the header
    code of [Picture.parse] as the format version 1 and the width and the
    height of the picture, when these are integers of at most 21 digits
    or NaN.  JavaScript prints other numbers with a decimal point or an
    exponent, and [parseInt] stops there: with a width of 10.5 and a
    height of 1e21 the line is "picture version 1 10.5 1e+21", which is
    read back as 10 and 1. *)
Theorem parseHeader_headerLine (p : Picture.t) (w h : option Z)
  (Hwidth : Picture.width p = JS.parsed w)
  (Hheight : Picture.height p = JS.parsed h)
  (Hw : Spec.printedInFull w = true)
  (Hh : Spec.printedInFull h = true) :
  Picture.parseHeader (Picture.headerLine p) = (Some Picture.formatVersion, w, h)
  /\ (forall q : Picture.t,
        Picture.width q = JS.Dec 105 (-1) -> Picture.height q = JS.Dec 1 21 ->
        Picture.headerLine q = "picture version 1 10.5 1e+21"%string
        /\ Picture.parseHeader (Picture.headerLine q)
           = (Some Picture.formatVersion, Some 10, Some 1)).
Proof.
  split.
  - unfold Picture.parseHeader. rewrite split_headerLine. cbn [lookup list_lookup].
    rewrite Hwidth, Hheight, !parseInt_showNumber by assumption. reflexivity.
  - intros q Hqw Hqh.
    assert (Hline : Picture.headerLine q = "picture version 1 10.5 1e+21"%string).
    { unfold Picture.headerLine. rewrite Hqw, Hqh. reflexivity. }
    split; [exact Hline|]. rewrite Hline. reflexivity.
Qed.

Lemma parseHeader_headerLine_witness :
  Picture.parseHeader (Picture.headerLine Examples.small)
  = (Some Picture.formatVersion, Some 10, Some 20)
  /\ (forall q : Picture.t,
        Picture.width q = JS.Dec 105 (-1) -> Picture.height q = JS.Dec 1 21 ->
        Picture.headerLine q = "picture version 1 10.5 1e+21"%string
        /\ Picture.parseHeader (Picture.headerLine q)
           = (Some Picture.formatVersion, Some 10, Some 1)).
Proof.
  apply (parseHeader_headerLine Examples.small (Some 10) (Some 20));
    vm_compute; reflexivity.
Defined.

(** ** Creating and parsing *)

Section CreateAndParse.

Import Picture.

Lemma bind_assoc {A B C : Type} (m : M A) (k : A -> M B) (k' : B -> M C) (p : t) :
  bind (bind m k) k' p = bind m (fun a => bind (k a) k') p.
Proof. unfold bind. destruct (m p); reflexivity. Qed.

Lemma bind_ext {A B : Type} (m : M A) (k k' : A -> M B) (p : t) :
  (forall a p', k a p' = k' a p') -> bind m k p = bind m k' p.
Proof. intros H. unfold bind. destruct (m p); auto. Qed.

(** The loop over the event lines stops at the marker: the lines from the
    marker on are its result, and they are not looked at. *)
Lemma parseEvents_marker (evs rest : list string) :
  forallb (fun l => negb (String.eqb l "metadata")) evs = true ->
  forall currentId p,
    parseEvents (evs ++ "metadata"%string :: rest) currentId p
    = bind (parseEvents evs currentId) (fun _ => ret ("metadata"%string :: rest)) p.
Proof.
  induction evs as [|line evs IH]; intros H currentId p.
  - reflexivity.
  - cbn [forallb] in H. apply andb_true_iff in H as [Hl H]. apply negb_true_iff in Hl.
    cbn [app parseEvents]. rewrite Hl.
    rewrite bind_assoc. apply bind_ext. intros ev p1.
    rewrite bind_assoc. apply bind_ext. intros [] p2.
    rewrite bind_assoc. apply bind_ext. intros p3 p4.
    rewrite bind_assoc. apply bind_ext. intros last p5.
    rewrite bind_assoc. apply bind_ext. intros b p6.
    apply IH. exact H.
Qed.

Lemma usable_new (env : Environment) (w h : JS.decimal) (scale : JS.number) (mode : Mode) :
  (supportsTextureUnits env || isCanvas mode) = true ->
  Spec.usable env mode = bool_decide (is_Some (new env w h scale mode)).
Proof.
  intros Hs. unfold Spec.usable, new. rewrite Hs. cbn [andb].
  destruct mode; try destruct (glWorks env _); symmetry;
    first [apply bool_decide_eq_true; eexists; reflexivity
          |apply bool_decide_eq_false; intros [x Hx]; discriminate].
Qed.

Lemma create_unusable (env : Environment) (w h : JS.decimal) (scale : JS.number)
  (pre rest : list Mode) :
  existsb (Spec.usable env) pre = false ->
  create env w h scale (pre ++ rest) = create env w h scale rest.
Proof.
  induction pre as [|mode pre IH]; intros H; [reflexivity|].
  cbn [existsb] in H. apply orb_false_iff in H as [Hm H].
  cbn [app create]. destruct (supportsTextureUnits env || isCanvas mode) eqn:Hs; [|auto].
  rewrite (usable_new env w h scale mode Hs) in Hm. apply bool_decide_eq_false in Hm.
  destruct (new env w h scale mode) as [pic|]; [|auto].
  exfalso. apply Hm. eauto.
Qed.

End CreateAndParse.

(** X12: the lines from the [metadata] marker on are handed back as they
    are and never reach the picture: a serialization whose event lines are
    followed by the marker and anything else parses to the same picture as
    the serialization without them (or fails in the same way), with the
    marker line and the lines after it as the metadata. *)
Theorem parse_metadata_passthrough (env : Picture.Environment)
  (withMetadata without : string) (scale : JS.number) (modesToTry : list Picture.Mode)
  (evs rest : list string)
  (Hheader : hd EmptyString (Text.lines withMetadata) = hd EmptyString (Text.lines without))
  (Hwithout : tl (Text.lines without) = evs)
  (Hwith : tl (Text.lines withMetadata) = evs ++ "metadata"%string :: rest)
  (Hevs : forallb (fun l => negb (String.eqb l "metadata")) evs = true) :
  Picture.parse env withMetadata scale modesToTry
  = match Picture.parse env without scale modesToTry with
    | Picture.Returns _ pic => Picture.Returns ("metadata"%string :: rest) pic
    | Picture.Throws => Picture.Throws
    | Picture.Diverges => Picture.Diverges
    end.
Proof.
  unfold Picture.parse. rewrite Hheader, Hwith, Hwithout.
  destruct (Picture.parseHeader _) as [[version w] h].
  destruct (Picture.create env (JS.parsed w) (JS.parsed h) scale modesToTry) as [pic|]; [|reflexivity].
  unfold Picture.bind, Picture.modify, Picture.get, Picture.ret.
  rewrite (parseEvents_marker evs rest Hevs). unfold Picture.bind, Picture.ret.
  destruct (Picture.parseEvents evs (-1) _) as [m p1| |]; try reflexivity.
  destruct (Picture.restoreInsertionPoints (Picture.buffers p1) p1) as [[] p2| |];
    try reflexivity.
  destruct (Picture.restoreInsertionPoints (Picture.mergedBuffers p1) p2) as [[] p3| |];
    reflexivity.
Qed.

Lemma parse_metadata_passthrough_witness :
  Picture.parse Examples.canvasOnly
    (Examples.text ["picture version 1 10 20"; "bufferAdd 1 0 0 0 0 0 1 255 255 255 255";
                    "metadata"; "brsh 1 1 0 3"; ""]%string)
    (JS.ofZ 1) [Picture.canvas]
  = match Picture.parse Examples.canvasOnly
            (Examples.text ["picture version 1 10 20";
                            "bufferAdd 1 0 0 0 0 0 1 255 255 255 255"]%string)
            (JS.ofZ 1) [Picture.canvas] with
    | Picture.Returns _ pic => Picture.Returns ["metadata"; "brsh 1 1 0 3"; ""]%string pic
    | Picture.Throws => Picture.Throws
    | Picture.Diverges => Picture.Diverges
    end.
Proof.
  apply (parse_metadata_passthrough Examples.canvasOnly _ _ (JS.ofZ 1) [Picture.canvas]
           ["bufferAdd 1 0 0 0 0 0 1 255 255 255 255"%string] ["brsh 1 1 0 3"; ""]%string);
    vm_compute; reflexivity.
Defined.


(** X14: when no mode of the list can be used, [Picture.parse] throws
    for every serialization: [Picture.create] gives null, and the version
    is then stored into null. *)
Theorem parse_without_usable_mode (env : Picture.Environment) (serialization : string)
  (scale : JS.number) (modesToTry : list Picture.Mode)
  (Hnone : existsb (Spec.usable env) modesToTry = false) :
  Picture.parse env serialization scale modesToTry = Picture.Throws.
Proof.
  unfold Picture.parse. destruct (Picture.parseHeader _) as [[version w] h].
  rewrite <- (app_nil_r modesToTry), (create_unusable env (JS.parsed w) (JS.parsed h) scale _ [] Hnone).
  reflexivity.
Qed.

Lemma parse_without_usable_mode_witness :
  Picture.parse Examples.canvasOnly Examples.undoneMergeText (JS.ofZ 1)
    [Picture.webgl; Picture.noFloatWebgl]
  = Picture.Throws.
Proof.
  apply (parse_without_usable_mode Examples.canvasOnly Examples.undoneMergeText (JS.ofZ 1)
           [Picture.webgl; Picture.noFloatWebgl]).
  reflexivity.
Defined.

(** ** Serializing again *)

Section SerializeAgain.

Import Picture.

Lemma stampedLog_idem (b : PictureBuffer.t) :
  Spec.stampedLog (PictureBuffer.setEvents (Spec.stampedLog b) b) = Spec.stampedLog b.
Proof.
  unfold Spec.stampedLog. cbn. destruct (PictureBuffer.events b) as [|first rest]; reflexivity.
Qed.

Lemma setEvents_same (b : PictureBuffer.t) :
  PictureBuffer.setEvents (PictureBuffer.events b) b = b.
Proof. destruct b; reflexivity. Qed.

(** What serializing one buffer does to the picture: the log of the buffer
    is stamped, and that is all. *)
Lemma serializeBuffer_state (r : nat) (acc x : list string) (p p' : t) :
  serializeBuffer r acc p = Returns x p' ->
  exists b, heap p !! r = Some b
    /\ p' = setHeap (<[r := PictureBuffer.setEvents (Spec.stampedLog b) b]> (heap p)) p.
Proof.
  intros H. unfold serializeBuffer in H.
  bind_inv H. load_inv H0. bind_inv H. apply defined_Returns in H0 as [Hfirst ->].
  bind_inv H. destruct a1. apply update_Returns in H0 as (b0 & Hb0 & ->).
  rewrite Hload in Hb0. injection Hb0 as <-.
  bind_inv H. load_inv H0. bind_inv H. injection H0 as <- <-.
  apply defined_Returns in H as [_ ->].
  exists a. split; [exact Hload|]. f_equal. f_equal. f_equal.
  unfold Spec.stampedLog. unfold JS.index in Hfirst. cbn in Hfirst.
  destruct (PictureBuffer.events a) as [|first rest]; [discriminate|].
  injection Hfirst as ->. reflexivity.
Qed.

Lemma serializeBuffer_stamped (r : nat) (acc x : list string) (p p' : t) :
  serializeBuffer r acc p = Returns x p' ->
  Spec.stamped (heap p') r
  /\ (forall r0, Spec.stamped (heap p) r0 -> Spec.stamped (heap p') r0)
  /\ (Spec.stamped (heap p) r -> p' = p).
Proof.
  intros H. apply serializeBuffer_state in H as (b & Hb & ->).
  assert (Hlt : (r < length (heap p))%nat) by (eapply lookup_lt_Some; eauto).
  assert (Hr : Spec.stamped (<[r := PictureBuffer.setEvents (Spec.stampedLog b) b]> (heap p)) r).
  { eexists. split; [apply list_lookup_insert_eq; exact Hlt|]. apply stampedLog_idem. }
  split; [exact Hr|]. split.
  - intros r0 Hs. destruct (decide (r0 = r)) as [->|Hne]; [exact Hr|].
    destruct Hs as (b0 & Hb0 & Hs). exists b0. split; [|exact Hs].
    cbn [heap setHeap]. rewrite list_lookup_insert_ne by auto. exact Hb0.
  - intros (b0 & Hb0 & Hs). rewrite Hb in Hb0. injection Hb0 as <-.
    rewrite Hs, setEvents_same, list_insert_id by exact Hb. apply setHeap_same.
Qed.

Lemma serializeBuffers_stamped (arr : list nat) :
  forall (acc x : list string) (p p' : t),
  serializeBuffers arr acc p = Returns x p' ->
  Forall (Spec.stamped (heap p')) arr
  /\ (forall r0, Spec.stamped (heap p) r0 -> Spec.stamped (heap p') r0)
  /\ (Forall (Spec.stamped (heap p)) arr -> p' = p).
Proof.
  induction arr as [|r arr IH]; intros acc x p p' H; cbn [serializeBuffers] in H.
  - injection H as _ <-. auto.
  - bind_inv H. destruct (serializeBuffer_stamped _ _ _ _ _ H0) as (Hr & Hkeep & Hfix).
    destruct (IH _ _ _ _ H) as (Harr & Hkeep' & Hfix').
    split; [constructor; auto|]. split; [auto|].
    intros Hall. inversion Hall as [|? ? Hr0 Harr0]; subst.
    specialize (Hfix Hr0). subst p0. auto.
Qed.

End SerializeAgain.

(** X15: [serialize] changes the picture at most once.  For a picture
    whose buffers hold their creation event and whose merge events name
    buffer objects, serializing the picture that a first [serialize]
    leaves behind returns the same text again and changes nothing. *)
Theorem serialize_repeatable (p : Picture.t) (Hser : Spec.serializable p = true) :
  exists text p1,
    Picture.serialize p = Picture.Returns text p1
    /\ Picture.serialize p1 = Picture.Returns text p1.
Proof.
  destruct (serializable_arrays p Hser) as [Hm Ha].
  destruct (serializeBuffers_spec _ _ Hm p [Picture.headerLine p] (stamps_refl _))
    as (h1 & H1 & Hst1).
  set (mergedLines := [Picture.headerLine p]
         ++ concat (map (Spec.linesOfBuffer (Picture.heap p)) (Picture.mergedBuffers p))) in *.
  destruct (serializeBuffers_spec _ _ Ha (Picture.setHeap h1 p) mergedLines Hst1)
    as (h2 & H2 & Hst2).
  set (allLines := mergedLines
         ++ concat (map (Spec.linesOfBuffer (Picture.heap p)) (Picture.buffers p))) in *.
  set (p1 := Picture.setHeap h2 (Picture.setHeap h1 p)) in *.
  destruct (serializeBuffers_stamped _ _ _ _ _ H1) as (Sm1 & _ & _).
  destruct (serializeBuffers_stamped _ _ _ _ _ H2) as (Sa2 & Skeep & _).
  assert (Sm2 : Forall (Spec.stamped (Picture.heap p1)) (Picture.mergedBuffers p)).
  { eapply Forall_impl; [exact Sm1|]. exact Skeep. }
  destruct (serializeBuffers_spec _ _ Hm p1 [Picture.headerLine p] Hst2) as (h3 & H3 & Hst3).
  fold mergedLines in H3.
  destruct (serializeBuffers_stamped _ _ _ _ _ H3) as (_ & _ & Hfix3).
  rewrite (Hfix3 Sm2) in H3.
  destruct (serializeBuffers_spec _ _ Ha p1 mergedLines Hst2) as (h4 & H4 & Hst4).
  fold allLines in H4.
  destruct (serializeBuffers_stamped _ _ _ _ _ H4) as (_ & _ & Hfix4).
  rewrite (Hfix4 Sa2) in H4.
  exists (Text.join (String Text.newline EmptyString) allLines), p1.
  unfold Picture.serialize, Picture.serializationLines, Picture.bind, Picture.get,
    Picture.ret.
  split.
  - rewrite H1. change (Picture.buffers p) with (Picture.buffers (Picture.setHeap h1 p)).
    change (Picture.buffers (Picture.setHeap h1 p)) with (Picture.buffers p) at 1.
    rewrite H2. reflexivity.
  - change (Picture.headerLine p1) with (Picture.headerLine p).
    change (Picture.mergedBuffers p1) with (Picture.mergedBuffers p).
    change (Picture.buffers p1) with (Picture.buffers p).
    rewrite H3, H4. reflexivity.
Qed.

Lemma serialize_repeatable_witness :
  exists text p1,
    Picture.serialize Examples.mergedThenMoved = Picture.Returns text p1
    /\ Picture.serialize p1 = Picture.Returns text p1.
Proof.
  apply (serialize_repeatable Examples.mergedThenMoved). vm_compute. reflexivity.
Defined.

(** ** The operations on the stack *)

Section Stack.

Import Picture.

Lemma findBufferIndexFrom_none (h : list PictureBuffer.t) (arr : list nat) (id i : Z) :
  Forall (fun r => is_Some (h !! r)) arr ->
  Forall (fun r => idAt h r <> Some id) arr ->
  findBufferIndexFrom h arr id i = Some (-1).
Proof.
  intros Harr Hno.
  destruct (findBufferIndexFrom_first h arr id i Harr) as [[H _]|(n & r & _ & Hn & Hid & _)];
    [exact H|].
  exfalso. rewrite Forall_forall in Hno. apply (Hno r); [|exact Hid].
  eapply list_elem_of_lookup_2. exact Hn.
Qed.

Lemma findBufferIndexFrom_at (h : list PictureBuffer.t) (arr : list nat) (id i : Z)
  (n : nat) (r : nat) :
  Forall (fun r => is_Some (h !! r)) arr ->
  arr !! n = Some r -> idAt h r = Some id ->
  Forall (fun r' => idAt h r' <> Some id) (take n arr) ->
  findBufferIndexFrom h arr id i = Some (i + Z.of_nat n).
Proof.
  intros Harr Hn Hid Hbefore.
  destruct (findBufferIndexFrom_first h arr id i Harr)
    as [[_ Hno]|(n' & r' & H & Hn' & Hid' & Hbefore')].
  - exfalso. rewrite Forall_forall in Hno. apply (Hno r); [|exact Hid].
    eapply list_elem_of_lookup_2. exact Hn.
  - rewrite H. f_equal. f_equal. f_equal.
    destruct (Nat.lt_trichotomy n' n) as [Hlt|[Heq|Hgt]]; [|exact Heq|].
    + exfalso. rewrite Forall_forall in Hbefore. apply (Hbefore r'); [|exact Hid'].
      eapply list_elem_of_lookup_2. rewrite lookup_take_lt by exact Hlt. exact Hn'.
    + exfalso. rewrite Forall_forall in Hbefore'. apply (Hbefore' r); [|exact Hid].
      eapply list_elem_of_lookup_2. rewrite lookup_take_lt by exact Hgt. exact Hn.
Qed.

Lemma createEvent_Returns (ip : option Z) (payload : PictureEvent.Payload) (p : t) :
  createEvent ip payload p
  = Returns (PictureEvent.mk (activeSid p) (activeSessionEventId p) false ip payload)
      (setSession (activeSid p) (activeSessionEventId p + 1) p).
Proof. reflexivity. Qed.

Lemma bufferPushEvent_plain (r : nat) (e : PictureEvent.t) (p : t) (b : PictureBuffer.t) :
  heap p !! r = Some b ->
  PictureEvent.isType PictureEvent.bufferMerge e = false ->
  bufferPushEvent r e p
  = Returns tt (setHeap (<[r := PictureBuffer.pushEvent e b]> (heap p)) p).
Proof.
  intros Hb Hm. unfold bufferPushEvent.
  rewrite (bind_eq _ _ p (setHeap (<[r := PictureBuffer.pushEvent e b]> (heap p)) p) tt)
    by (apply update_Returns; eauto).
  rewrite Hm. reflexivity.
Qed.

Lemma events_pushEvent (e : PictureEvent.t) (b : PictureBuffer.t) :
  PictureBuffer.events (PictureBuffer.pushEvent e b) = PictureBuffer.events b ++ [e].
Proof. reflexivity. Qed.

Lemma id_pushEvent (e : PictureEvent.t) (b : PictureBuffer.t) :
  PictureBuffer.id (PictureBuffer.pushEvent e b) = PictureBuffer.id b.
Proof. reflexivity. Qed.

Lemma idAt_insert (h : list PictureBuffer.t) (r : nat) (b b' : PictureBuffer.t) (r0 : nat) :
  h !! r = Some b -> PictureBuffer.id b' = PictureBuffer.id b ->
  idAt (<[r := b']> h) r0 = idAt h r0.
Proof.
  intros Hb Hid. unfold idAt. destruct (decide (r0 = r)) as [->|Hne].
  - rewrite list_lookup_insert_eq by (eapply lookup_lt_Some; eauto). rewrite Hb, Hid.
    reflexivity.
  - rewrite list_lookup_insert_ne by auto. reflexivity.
Qed.

Lemma allocated_insert (h : list PictureBuffer.t) (r : nat) (b' : PictureBuffer.t)
  (arr : list nat) :
  Forall (fun r0 => is_Some (h !! r0)) arr ->
  Forall (fun r0 => is_Some (<[r := b']> h !! r0)) arr.
Proof.
  intros H. eapply Forall_impl; [exact H|]. intros r0 [b0 Hb0]. cbn.
  apply lookup_lt_is_Some. rewrite length_insert. eapply lookup_lt_Some. exact Hb0.
Qed.

(** Taking the element at [n] out and putting it in at [m]. *)
Lemma splice_move {A : Type} (arr : list A) (n m : nat) (x : A) :
  arr !! n = Some x -> (m < length arr)%nat ->
  JS.spliceIn (JS.spliceOut arr (Z.of_nat n)) (Z.of_nat m) x !! m = Some x
  /\ delete m (JS.spliceIn (JS.spliceOut arr (Z.of_nat n)) (Z.of_nat m) x) = delete n arr.
Proof.
  intros Hn Hm. pose proof (lookup_lt_Some _ _ _ Hn) as Hlt.
  unfold JS.spliceOut. rewrite spliceStart_inside by lia.
  assert (Hlen : length (delete n arr) = (length arr - 1)%nat).
  { rewrite length_delete; [reflexivity|]. eauto. }
  unfold JS.spliceIn. rewrite spliceStart_inside by lia.
  assert (Htake : length (take m (delete n arr)) = m) by (rewrite length_take; lia).
  split.
  - rewrite lookup_app_r by lia. rewrite Htake, Nat.sub_diag. reflexivity.
  - rewrite <- Htake at 1. rewrite delete_middle. apply take_drop.
Qed.

End Stack.

(** X16: [moveBuffer] takes the buffer with the given id out of the
    active stack and puts it back at the given index: for an id found at
    index n of the stack and an index below the length of the stack, the
    call returns, the buffer found is at the index asked for, the other
    buffers keep their order, the move event (with the index n as the index
    moved from) is appended to the log of the moved buffer, and the merged
    buffers stay as they are. *)
Theorem moveBuffer_moves (p : Picture.t) (movedId : Z) (n toIndex : nat) (r : nat)
  (b : PictureBuffer.t)
  (Hrefs : Forall (fun r => is_Some (Picture.heap p !! r)) (Picture.buffers p))
  (Hn : Picture.buffers p !! n = Some r)
  (Hb : Picture.heap p !! r = Some b)
  (Hid : PictureBuffer.id b = movedId)
  (Hbefore : Forall (fun r' => Picture.idAt (Picture.heap p) r' <> Some movedId)
               (take n (Picture.buffers p)))
  (Hto : (toIndex < length (Picture.buffers p))%nat)
  (Hshadow : Picture.moveBufferInternalShadowed p = false) :
  exists p',
    Picture.moveBuffer movedId (Z.of_nat toIndex) p = Picture.Returns tt p'
    /\ Picture.buffers p' !! toIndex = Some r
    /\ delete toIndex (Picture.buffers p') = delete n (Picture.buffers p)
    /\ Picture.mergedBuffers p' = Picture.mergedBuffers p
    /\ Spec.logOf (Picture.heap p') r
       = Spec.logOf (Picture.heap p) r
         ++ [PictureEvent.mk (Picture.activeSid p) (Picture.activeSessionEventId p) false None
               (PictureEvent.BufferMove movedId (Z.of_nat n) (Z.of_nat toIndex))]
    /\ (forall r', r' <> r -> Picture.heap p' !! r' = Picture.heap p !! r').
Proof.
  assert (HidAt : Picture.idAt (Picture.heap p) r = Some movedId).
  { unfold Picture.idAt. rewrite Hb, Hid. reflexivity. }
  pose proof (findBufferIndexFrom_at _ _ movedId 0 n r Hrefs Hn HidAt Hbefore) as Hfind.
  rewrite Z.add_0_l in Hfind.
  set (e := PictureEvent.mk (Picture.activeSid p) (Picture.activeSessionEventId p) false None
              (PictureEvent.BufferMove movedId (Z.of_nat n) (Z.of_nat toIndex))).
  set (p1 := Picture.setSession (Picture.activeSid p) (Picture.activeSessionEventId p + 1) p).
  set (p2 := Picture.setHeap (<[r := PictureBuffer.pushEvent e b]> (Picture.heap p1)) p1).
  destruct (splice_move (Picture.buffers p) n toIndex r Hn Hto) as [Hat Hdel].
  exists (Picture.setBuffers
            (JS.spliceIn (JS.spliceOut (Picture.buffers p) (Z.of_nat n)) (Z.of_nat toIndex) r)
            p2).
  split; [|split; [exact Hat|split; [exact Hdel|split; [reflexivity|split]]]].
  - assert (Hcreate : Picture.createBufferMoveEvent movedId (Z.of_nat toIndex) p
                      = Picture.Returns e p1).
    { unfold Picture.createBufferMoveEvent. rewrite (bind_eq _ _ p p p) by reflexivity.
      rewrite (bind_eq _ _ _ _ _ (findBufferIndex_Returns _ _ _ _ Hfind)). reflexivity. }
    assert (Hat_ : forall q, Picture.buffers q = Picture.buffers p ->
              Picture.at_ (Picture.buffers q) (Z.of_nat n) q = Picture.Returns r q).
    { intros q ->. unfold Picture.at_. apply defined_Returns. split; [|reflexivity].
      rewrite index_of_nat_lookup. exact Hn. }
    unfold Picture.moveBuffer. rewrite (bind_eq _ _ _ _ _ Hcreate).
    unfold Picture.pushEvent. change (PictureEvent.isBufferStackChange e) with true.
    cbv iota.
    change (PictureEvent.payload e)
      with (PictureEvent.BufferMove movedId (Z.of_nat n) (Z.of_nat toIndex)).
    cbv iota.
    rewrite (bind_eq _ _ p1 p1 p1) by reflexivity.
    rewrite (bind_eq _ _ p1 p1 (Z.of_nat n)) by (apply findBufferIndex_Returns; exact Hfind).
    rewrite (bind_eq _ _ _ _ _ (Hat_ p1 eq_refl)).
    rewrite (bind_eq _ _ _ _ _ (bufferPushEvent_plain r e p1 b Hb eq_refl)).
    change (negb (PictureEvent.undone e)) with true. cbv iota.
    unfold Picture.moveBufferInternal.
    rewrite (bind_eq _ _ _ _ _ (eq_refl : Picture.get _ = Picture.Returns _ _)).
    change (Picture.moveBufferInternalShadowed
              (Picture.setHeap (<[r:=PictureBuffer.pushEvent e b]> (Picture.heap p1)) p1))
      with (Picture.moveBufferInternalShadowed p).
    rewrite Hshadow.
    fold p2. rewrite (bind_eq _ _ _ _ _ (Hat_ p2 eq_refl)). reflexivity.
  - unfold Spec.logOf. cbn [Picture.heap Picture.setBuffers p2 Picture.setHeap].
    rewrite list_lookup_insert_eq by (eapply lookup_lt_Some; eauto).
    change (Picture.heap p1) with (Picture.heap p). rewrite Hb. reflexivity.
  - intros r' Hne. cbn [Picture.heap Picture.setBuffers p2 Picture.setHeap].
    rewrite list_lookup_insert_ne by auto. reflexivity.
Qed.

Lemma moveBuffer_moves_witness :
  exists p',
    Picture.moveBuffer 2 (Z.of_nat 0) Examples.beforeMerge = Picture.Returns tt p'
    /\ Picture.buffers p' !! 0%nat = Some 2%nat
    /\ delete 0%nat (Picture.buffers p') = delete 2%nat (Picture.buffers Examples.beforeMerge)
    /\ Picture.mergedBuffers p' = Picture.mergedBuffers Examples.beforeMerge
    /\ Spec.logOf (Picture.heap p') 2
       = Spec.logOf (Picture.heap Examples.beforeMerge) 2
         ++ [PictureEvent.mk (Picture.activeSid Examples.beforeMerge)
               (Picture.activeSessionEventId Examples.beforeMerge) false None
               (PictureEvent.BufferMove 2 (Z.of_nat 2) (Z.of_nat 0))]
    /\ (forall r', r' <> 2%nat ->
          Picture.heap p' !! r' = Picture.heap Examples.beforeMerge !! r').
Proof.
  destruct (Picture.heap Examples.beforeMerge !! 2%nat) as [b|] eqn:Hb;
    [|vm_compute in Hb; discriminate].
  assert (Hid : PictureBuffer.id b = 2).
  { vm_compute in Hb. injection Hb as <-. reflexivity. }
  assert (Hbuffers : Picture.buffers Examples.beforeMerge = [0; 1; 2]%nat)
    by (vm_compute; reflexivity).
  apply (moveBuffer_moves Examples.beforeMerge 2 2 0 2 b); try assumption.
  - rewrite Hbuffers. repeat constructor; vm_compute; eauto.
  - rewrite Hbuffers. reflexivity.
  - rewrite Hbuffers. repeat constructor; vm_compute; discriminate.
  - rewrite Hbuffers. cbn. lia.
  - reflexivity.
Defined.

Section AddBuffer.

Import Picture.


Lemma shape_apartFromMemory (p p' : t) :
  Spec.apartFromMemory p' = Spec.apartFromMemory p -> Spec.shape p' = Spec.shape p.
Proof.
  intros H.
  assert (Hh : map Spec.apartFromBudget (heap p') = map Spec.apartFromBudget (heap p)).
  { change (heap (Spec.apartFromMemory p') = heap (Spec.apartFromMemory p)).
    rewrite H. reflexivity. }
  assert (Hproj : forall {X : Type} (f : PictureBuffer.t -> X),
            (forall b, f (Spec.apartFromBudget b) = f b) ->
            map f (heap p') = map f (heap p)).
  { intros X f Hf.
    transitivity (map f (map Spec.apartFromBudget (heap p'))).
    - rewrite map_map. apply map_ext. intros b. symmetry. apply Hf.
    - rewrite Hh, map_map. apply map_ext. exact Hf. }
  pose proof (Hproj _ PictureBuffer.events (fun _ => eq_refl)) as He.
  pose proof (Hproj _ PictureBuffer.id (fun _ => eq_refl)) as Hi.
  unfold Spec.shape. rewrite He, Hi.
  change (buffers p') with (buffers (Spec.apartFromMemory p')).
  change (mergedBuffers p') with (mergedBuffers (Spec.apartFromMemory p')).
  change (activeSid p') with (activeSid (Spec.apartFromMemory p')).
  change (activeSessionEventId p') with (activeSessionEventId (Spec.apartFromMemory p')).
  rewrite H. reflexivity.
Qed.

Lemma shape_stayWithinMemoryBudget (requested : JS.number) :
  preserves Spec.shape (stayWithinMemoryBudget requested).
Proof.
  intros p a p' H. destruct a. apply shape_apartFromMemory.
  eapply apartFromMemory_stayWithinLoop. exact H.
Qed.

End AddBuffer.

Create HintDb shape.

#[export] Hint Resolve preserves_ret preserves_throw preserves_get preserves_defined
  preserves_load preserves_at preserves_state shape_stayWithinMemoryBudget : shape.



Section AddBufferSteps.

Import Picture.



End AddBufferSteps.



(** ** Ids that are not there, and what pushing an event changes *)

Section UnknownIds.

Import Picture.

Lemma findBuffer_none (p : t) (id : Z) :
  Spec.validRefs p = true ->
  Forall (fun r => idAt (heap p) r <> Some id) (Spec.allBuffers p) ->
  findBuffer id p = Returns None p.
Proof.
  intros Hrefs Hno. destruct (validRefs_arrays p Hrefs) as [Ha Hm].
  unfold Spec.allBuffers in Hno. apply Forall_app in Hno as [Hna Hnm].
  unfold findBuffer. rewrite (bind_eq _ _ p p p) by reflexivity.
  rewrite (bind_eq _ _ p p (-1))
    by (apply findBufferIndex_Returns, findBufferIndexFrom_none; assumption).
  change (negb (-1 =? -1)) with false. cbv iota.
  rewrite (bind_eq _ _ p p (-1))
    by (apply findBufferIndex_Returns, findBufferIndexFrom_none; assumption).
  reflexivity.
Qed.

Lemma at_minus_one (arr : list nat) (p : t) : at_ arr (-1) p = Throws.
Proof. reflexivity. Qed.

(** [findBuffer] only reads the ids of the buffers. *)
Lemma findBuffer_insert (p : t) (id : Z) (r : nat) (b b' : PictureBuffer.t)
  (found : option nat) :
  heap p !! r = Some b -> PictureBuffer.id b' = PictureBuffer.id b ->
  findBuffer id p = Returns found p ->
  findBuffer id (setHeap (<[r := b']> (heap p)) p)
  = Returns found (setHeap (<[r := b']> (heap p)) p).
Proof.
  intros Hb Hid H.
  assert (Hids : ids (<[r := b']> (heap p)) = ids (heap p)) by (apply (ids_insert _ _ b); auto).
  unfold findBuffer, bind, get, findBufferIndex, defined in *.
  cbn [heap setHeap buffers mergedBuffers] in *.
  rewrite !(findBufferIndexFrom_ids _ _ _ id 0 Hids).
  destruct (findBufferIndexFrom (heap p) (buffers p) id 0) as [k|]; [|discriminate].
  unfold ret in *.
  destruct (negb (k =? -1)); [injection H as <-; reflexivity|].
  cbn [heap setHeap buffers mergedBuffers] in *.
  rewrite ?(findBufferIndexFrom_ids _ _ _ id 0 Hids).
  destruct (findBufferIndexFrom (heap p) (mergedBuffers p) id 0) as [k'|]; [|discriminate].
  destruct (negb (k' =? -1)); injection H as <-; reflexivity.
Qed.

Lemma getEventCountFrom_spec (h : list PictureBuffer.t) (arr : list nat) (count : Z) :
  Forall (fun r => is_Some (h !! r)) arr ->
  getEventCountFrom h arr count
  = Some (count + Z.of_nat (length (concat (map (Spec.logOf h) arr)))).
Proof.
  intros Harr. revert count. induction Harr as [|r arr [b Hb] _ IH]; intros count;
    cbn [getEventCountFrom map concat].
  - cbn. rewrite Z.add_0_r. reflexivity.
  - rewrite Hb, IH. unfold Spec.logOf at 2. rewrite Hb, length_app. f_equal. lia.
Qed.

Lemma session_moveEvent (target source : Z) (e : PictureEvent.t) (isDraw : bool) :
  preserves session (moveEvent target source e isDraw).
Proof.
  pose proof session_findBuffer. pose proof session_pushEvent.
  unfold moveEvent. session.
Qed.

End UnknownIds.

(** X18: an id that no buffer has makes the operations throw, as a call
    on [undefined] or [null] does: [removeBuffer] and [moveBuffer] for an
    id that is not in the active stack, and [pushEvent] of an event that
    does not change the stack and [moveEvent] from a source for an id that
    is in neither the active stack nor the merged buffers.  None of them
    returns without effect. *)
Theorem unknown_buffer_id_throws (p : Picture.t) (id : Z)
  (Hrefs : Spec.validRefs p = true)
  (Hactive : Forall (fun r => Picture.idAt (Picture.heap p) r <> Some id) (Picture.buffers p)) :
  Picture.removeBuffer id p = Picture.Throws
  /\ (forall toIndex, Picture.moveBuffer id toIndex p = Picture.Throws)
  /\ (Forall (fun r => Picture.idAt (Picture.heap p) r <> Some id) (Picture.mergedBuffers p) ->
      (forall event isDrawEvent, PictureEvent.isBufferStackChange event = false ->
         Picture.pushEvent id event isDrawEvent p = Picture.Throws)
      /\ (forall target event isDrawEvent,
            Picture.moveEvent target id event isDrawEvent p = Picture.Throws)).
Proof.
  destruct (validRefs_arrays p Hrefs) as [Ha Hm].
  assert (Hfind : forall q, Picture.heap q = Picture.heap p ->
            Picture.buffers q = Picture.buffers p ->
            Picture.findBufferIndex (Picture.buffers q) id q = Picture.Returns (-1) q).
  { intros q Hh Hb. apply findBufferIndex_Returns. rewrite Hh, Hb.
    apply findBufferIndexFrom_none; assumption. }
  set (p1 := Picture.setSession (Picture.activeSid p) (Picture.activeSessionEventId p + 1) p).
  split; [|split].
  - unfold Picture.removeBuffer, Picture.createBufferRemoveEvent.
    rewrite (bind_eq _ _ _ _ _ (createEvent_Returns _ _ p)).
    unfold Picture.pushEvent.
    cbn [PictureEvent.isBufferStackChange PictureEvent.eventType PictureEvent.payload].
    fold p1. rewrite (bind_eq _ _ p1 p1 p1) by reflexivity.
    rewrite (bind_eq _ _ _ _ _ (Hfind p1 eq_refl eq_refl)). reflexivity.
  - intros toIndex.
    assert (Hcreate : Picture.createBufferMoveEvent id toIndex p
              = Picture.Returns
                  (PictureEvent.mk (Picture.activeSid p) (Picture.activeSessionEventId p)
                     false None (PictureEvent.BufferMove id (-1) toIndex)) p1).
    { unfold Picture.createBufferMoveEvent. rewrite (bind_eq _ _ p p p) by reflexivity.
      rewrite (bind_eq _ _ _ _ _ (Hfind p eq_refl eq_refl)). reflexivity. }
    unfold Picture.moveBuffer. rewrite (bind_eq _ _ _ _ _ Hcreate).
    unfold Picture.pushEvent.
    cbn [PictureEvent.isBufferStackChange PictureEvent.eventType PictureEvent.payload].
    fold p1. rewrite (bind_eq _ _ p1 p1 p1) by reflexivity.
    rewrite (bind_eq _ _ _ _ _ (Hfind p1 eq_refl eq_refl)). reflexivity.
  - intros Hmerged.
    assert (Hnone : Picture.findBuffer id p = Picture.Returns None p).
    { apply findBuffer_none; [exact Hrefs|]. unfold Spec.allBuffers. apply Forall_app. auto. }
    split.
    + intros event isDrawEvent Hplain. destruct (plain_kinds event Hplain) as (Hmg & _ & _).
      unfold Picture.pushEvent. rewrite Hplain, (bind_eq _ _ _ _ _ Hnone), Hmg.
      destruct isDrawEvent; reflexivity.
    + intros target event isDrawEvent. unfold Picture.moveEvent.
      rewrite (bind_eq _ _ _ _ _ Hnone). reflexivity.
Qed.

Lemma unknown_buffer_id_throws_witness :
  Picture.removeBuffer 99 Examples.twiceMerged = Picture.Throws
  /\ (forall toIndex, Picture.moveBuffer 99 toIndex Examples.twiceMerged = Picture.Throws)
  /\ (forall event isDrawEvent, PictureEvent.isBufferStackChange event = false ->
        Picture.pushEvent 99 event isDrawEvent Examples.twiceMerged = Picture.Throws)
  /\ (forall target event isDrawEvent,
        Picture.moveEvent target 99 event isDrawEvent Examples.twiceMerged
        = Picture.Throws).
Proof.
  assert (Hbuffers : Picture.buffers Examples.twiceMerged = [0%nat])
    by (vm_compute; reflexivity).
  assert (Hmerged : Picture.mergedBuffers Examples.twiceMerged = [2%nat; 1%nat])
    by (vm_compute; reflexivity).
  destruct (unknown_buffer_id_throws Examples.twiceMerged 99)
    as (Hremove & Hmove & Hothers).
  - vm_compute. reflexivity.
  - rewrite Hbuffers. repeat constructor. vm_compute. discriminate.
  - destruct Hothers as [Hpush HmoveEvent].
    + rewrite Hmerged. repeat constructor; vm_compute; discriminate.
    + auto.
Defined.

(** X19: the active session and its counter of session event ids are
    changed by [setActiveSession] and the event-creating operations only:
    [pushEvent], [moveEvent], [undoLatest], [undoEventSessionId],
    [redoEventSessionId], [removeEventSessionId] and
    [stayWithinMemoryBudget] leave both as they are whenever they
    return. *)
Theorem session_left_alone :
  (forall target event isDraw, preserves session (Picture.pushEvent target event isDraw))
  /\ (forall target source event isDraw,
        preserves session (Picture.moveEvent target source event isDraw))
  /\ (forall keepLastBuffer, preserves session (Picture.undoLatest keepLastBuffer))
  /\ (forall sid sessionEventId,
        preserves session (Picture.undoEventSessionId sid sessionEventId)
        /\ preserves session (Picture.redoEventSessionId sid sessionEventId)
        /\ preserves session (Picture.removeEventSessionId sid sessionEventId))
  /\ (forall requested, preserves session (Picture.stayWithinMemoryBudget requested)).
Proof.
  split; [exact session_pushEvent|]. split; [exact session_moveEvent|].
  split; [exact session_undoLatest|]. split; [|exact session_stayWithinMemoryBudget].
  intros sid sessionEventId. split; [apply session_undoEventSessionId|].
  split; [apply session_redoEventSessionId|apply session_removeEventSessionId].
Qed.

(** X20: [getEventCount] counts the events, undone or not, of the logs of
    the active stack only: the events of the merged buffers are left out
    of the count. *)
Theorem getEventCount_active_stack_only (p : Picture.t)
  (Hrefs : Spec.validRefs p = true) :
  exists count,
    Picture.getEventCount p = Picture.Returns count p
    /\ count = Z.of_nat (length (concat (map (Spec.logOf (Picture.heap p))
                                           (Picture.buffers p))))
    /\ Z.of_nat (length (Spec.allEvents p))
       = count + Z.of_nat (length (concat (map (Spec.logOf (Picture.heap p))
                                             (Picture.mergedBuffers p)))).
Proof.
  destruct (validRefs_arrays p Hrefs) as [Ha _].
  eexists. split; [|split; [reflexivity|]].
  - unfold Picture.getEventCount. rewrite (getEventCountFrom_spec _ _ 0 Ha). reflexivity.
  - unfold Spec.allEvents, Spec.allBuffers. rewrite map_app, concat_app, length_app. lia.
Qed.

Lemma getEventCount_active_stack_only_witness :
  exists count,
    Picture.getEventCount Examples.twiceMerged = Picture.Returns count Examples.twiceMerged
    /\ count = Z.of_nat (length (concat (map (Spec.logOf (Picture.heap Examples.twiceMerged))
                                           (Picture.buffers Examples.twiceMerged))))
    /\ Z.of_nat (length (Spec.allEvents Examples.twiceMerged))
       = count + Z.of_nat (length (concat
                                    (map (Spec.logOf (Picture.heap Examples.twiceMerged))
                                         (Picture.mergedBuffers Examples.twiceMerged)))).
Proof.
  apply (getEventCount_active_stack_only Examples.twiceMerged). vm_compute. reflexivity.
Defined.

(** ** Pushing and moving events *)

Section PushPlain.

Import Picture.

(** An event that does not change the stack goes to the log of the buffer
    [findBuffer] gives for the target id, and only there. *)
Lemma pushEvent_plain (p : t) (target : Z) (e : PictureEvent.t) (isDraw : bool)
  (r : nat) (b : PictureBuffer.t) :
  findBuffer target p = Returns (Some r) p -> heap p !! r = Some b ->
  PictureEvent.isBufferStackChange e = false ->
  pushEvent target e isDraw p
  = Returns tt (setHeap (<[r := PictureBuffer.pushEvent e b]> (heap p)) p).
Proof.
  intros Hfind Hb Hplain. destruct (plain_kinds e Hplain) as (Hm & _ & _).
  unfold pushEvent. rewrite Hplain, (bind_eq _ _ _ _ _ Hfind), Hm.
  destruct isDraw; cbv iota;
    rewrite (bind_eq _ _ p p r) by reflexivity; apply bufferPushEvent_plain; auto.
Qed.

Lemma findBuffer_allocated (p : t) (id : Z) (r : nat) :
  Spec.validRefs p = true -> findBuffer id p = Returns (Some r) p ->
  is_Some (heap p !! r).
Proof.
  intros Hrefs H. destruct (validRefs_arrays p Hrefs) as [Ha Hm].
  rewrite Forall_forall in Ha, Hm.
  unfold findBuffer, bind, get, findBufferIndex, defined, ret in H.
  destruct (findBufferIndexFrom (heap p) (buffers p) id 0) as [k|]; [|discriminate].
  destruct (negb (k =? -1)).
  - injection H as H. apply Ha. eapply list_elem_of_lookup_2. apply index_Some_nat. exact H.
  - destruct (findBufferIndexFrom (heap p) (mergedBuffers p) id 0) as [k'|]; [|discriminate].
    destruct (negb (k' =? -1)); [|discriminate].
    injection H as H. apply Hm. eapply list_elem_of_lookup_2. apply index_Some_nat. exact H.
Qed.

End PushPlain.

(** X21: [pushEvent] of an event that does not change the stack (no add,
    remove, move or merge) puts the event on top of the log of the buffer
    that [findBuffer] gives for the target id, in the active stack or
    among the merged buffers, and changes no other log, no id, and neither
    the stack, the merged buffers, the session nor the memory counter. *)
Theorem pushEvent_appends_to_target (p : Picture.t) (target : Z) (event : PictureEvent.t)
  (isDrawEvent : bool) (r : nat)
  (Hfind : Picture.findBuffer target p = Picture.Returns (Some r) p)
  (Hrefs : Spec.validRefs p = true)
  (Hplain : PictureEvent.isBufferStackChange event = false) :
  exists p',
    Picture.pushEvent target event isDrawEvent p = Picture.Returns tt p'
    /\ Spec.logOf (Picture.heap p') r = Spec.logOf (Picture.heap p) r ++ [event]
    /\ (forall r', r' <> r -> Picture.heap p' !! r' = Picture.heap p !! r')
    /\ map PictureBuffer.id (Picture.heap p') = map PictureBuffer.id (Picture.heap p)
    /\ Picture.buffers p' = Picture.buffers p
    /\ Picture.mergedBuffers p' = Picture.mergedBuffers p
    /\ session p' = session p
    /\ Picture.memoryUse p' = Picture.memoryUse p.
Proof.
  assert (Hb : exists b, Picture.heap p !! r = Some b).
  { exact (findBuffer_allocated p target r Hrefs Hfind). }
  destruct Hb as [b Hb].
  exists (Picture.setHeap (<[r := PictureBuffer.pushEvent event b]> (Picture.heap p)) p).
  split; [apply pushEvent_plain; auto|].
  split; [|split; [|split]].
  - unfold Spec.logOf. cbn [Picture.heap Picture.setHeap].
    rewrite list_lookup_insert_eq by (eapply lookup_lt_Some; eauto). rewrite Hb. reflexivity.
  - intros r' Hne. cbn [Picture.heap Picture.setHeap].
    rewrite list_lookup_insert_ne by auto. reflexivity.
  - cbn [Picture.heap Picture.setHeap]. apply (ids_insert _ _ b); auto.
  - repeat split; reflexivity.
Qed.

Lemma pushEvent_appends_to_target_witness :
  exists p',
    Picture.pushEvent 1 (PictureEvent.mk 2 0 false None (PictureEvent.Brush [1; 2; 3])) false
      Examples.twiceMerged = Picture.Returns tt p'
    /\ Spec.logOf (Picture.heap p') 1
       = Spec.logOf (Picture.heap Examples.twiceMerged) 1
         ++ [PictureEvent.mk 2 0 false None (PictureEvent.Brush [1; 2; 3])]
    /\ (forall r', r' <> 1%nat ->
          Picture.heap p' !! r' = Picture.heap Examples.twiceMerged !! r')
    /\ map PictureBuffer.id (Picture.heap p')
       = map PictureBuffer.id (Picture.heap Examples.twiceMerged)
    /\ Picture.buffers p' = Picture.buffers Examples.twiceMerged
    /\ Picture.mergedBuffers p' = Picture.mergedBuffers Examples.twiceMerged
    /\ session p' = session Examples.twiceMerged
    /\ Picture.memoryUse p' = Picture.memoryUse Examples.twiceMerged.
Proof.
  apply (pushEvent_appends_to_target Examples.twiceMerged 1
           (PictureEvent.mk 2 0 false None (PictureEvent.Brush [1; 2; 3])) false 1%nat);
    vm_compute; reflexivity.
Defined.

Section MoveEvent.

Import Picture.

(** The log of the source buffer once the event with the identity of
    [event] has been taken out of it (the first one, if there are more). *)
Definition without (event : PictureEvent.t) (log : list PictureEvent.t)
  : list PictureEvent.t :=
  let k := PictureBuffer.indexFrom (PictureEvent.sid event)
             (PictureEvent.sessionEventId event) log 0 in
  if 0 <=? k then delete (Z.to_nat k) log else log.

Lemma indexFrom_bounds (s i : Z) (evs : list PictureEvent.t) :
  PictureBuffer.indexFrom s i evs 0 = -1
  \/ exists n : nat, PictureBuffer.indexFrom s i evs 0 = Z.of_nat n /\ (n < length evs)%nat.
Proof.
  destruct (existsb (PictureEvent.hasIdentity s i) evs) eqn:Hex.
  - right. destruct (indexFrom_matched _ _ _ 0 Hex) as (n & e & Hn & He & _).
    exists n. split; [rewrite Hn; lia|]. eapply lookup_lt_Some. exact He.
  - left. apply indexFrom_unmatched. exact Hex.
Qed.

Lemma events_removeEventIndex (event : PictureEvent.t) (b : PictureBuffer.t) :
  let k := PictureBuffer.eventIndexBySessionId b (PictureEvent.sid event)
             (PictureEvent.sessionEventId event) in
  (if 0 <=? k then PictureBuffer.events (PictureBuffer.removeEventIndex k b)
   else PictureBuffer.events b)
  = without event (PictureBuffer.events b).
Proof.
  unfold without, PictureBuffer.eventIndexBySessionId. cbv zeta.
  destruct (indexFrom_bounds (PictureEvent.sid event) (PictureEvent.sessionEventId event)
              (PictureBuffer.events b)) as [->|(n & -> & Hn)]; [reflexivity|].
  destruct (Z.leb_spec 0 (Z.of_nat n)); [|lia].
  cbn [PictureBuffer.removeEventIndex PictureBuffer.events PictureBuffer.setUndoStates
       PictureBuffer.setEvents].
  unfold JS.spliceOut. rewrite spliceStart_inside by lia. rewrite Nat2Z.id. reflexivity.
Qed.

End MoveEvent.

(** X22: [moveEvent] takes the event with the identity of the given event
    out of the log of the source buffer, if that log holds one, and puts
    the given event on top of the log of the target buffer.  For an event
    that does not change the stack, and source and target ids that
    [findBuffer] finds, the call returns; the log of the target is then
    its old log (less the event taken out, when source and target are the
    same buffer) followed by the event, the log of a different source is
    its old log less that event, and the stack and the merged buffers are
    as before. *)
Theorem moveEvent_transfers (p : Picture.t) (target source : Z) (event : PictureEvent.t)
  (isDrawEvent : bool) (rs rt : nat)
  (Hrefs : Spec.validRefs p = true)
  (Hsource : Picture.findBuffer source p = Picture.Returns (Some rs) p)
  (Htarget : Picture.findBuffer target p = Picture.Returns (Some rt) p)
  (Hplain : PictureEvent.isBufferStackChange event = false) :
  exists p',
    Picture.moveEvent target source event isDrawEvent p = Picture.Returns tt p'
    /\ Spec.logOf (Picture.heap p') rt
       = (if decide (rt = rs) then without event (Spec.logOf (Picture.heap p) rs)
          else Spec.logOf (Picture.heap p) rt) ++ [event]
    /\ (rs <> rt ->
        Spec.logOf (Picture.heap p') rs = without event (Spec.logOf (Picture.heap p) rs))
    /\ (forall r', r' <> rs -> r' <> rt -> Picture.heap p' !! r' = Picture.heap p !! r')
    /\ Picture.buffers p' = Picture.buffers p
    /\ Picture.mergedBuffers p' = Picture.mergedBuffers p.
Proof.
  destruct (findBuffer_allocated p source rs Hrefs Hsource) as [bs Hbs].
  destruct (findBuffer_allocated p target rt Hrefs Htarget) as [bt Hbt].
  set (k := PictureBuffer.eventIndexBySessionId bs (PictureEvent.sid event)
              (PictureEvent.sessionEventId event)).
  set (bs' := if 0 <=? k then PictureBuffer.removeEventIndex k bs else bs).
  set (p1 := Picture.setHeap (<[rs := bs']> (Picture.heap p)) p).
  assert (Hlt : (rs < length (Picture.heap p))%nat) by (eapply lookup_lt_Some; eauto).
  assert (Hid : PictureBuffer.id bs' = PictureBuffer.id bs).
  { unfold bs'. destruct (0 <=? k); reflexivity. }
  assert (Hev : PictureBuffer.events bs' = without event (Spec.logOf (Picture.heap p) rs)).
  { unfold Spec.logOf. rewrite Hbs.
    rewrite <- (events_removeEventIndex event bs). fold k. unfold bs'.
    destruct (0 <=? k); reflexivity. }
  assert (Hstep : Picture.moveEvent target source event isDrawEvent p
                  = Picture.pushEvent target event isDrawEvent p1).
  { unfold Picture.moveEvent. rewrite (bind_eq _ _ _ _ _ Hsource).
    rewrite (bind_eq _ _ p p rs) by reflexivity.
    rewrite (bind_eq _ _ p p bs) by (apply load_Returns; auto).
    fold k. unfold p1, bs'. destruct (0 <=? k).
    - rewrite (bind_eq _ _ p _ tt) by (apply update_Returns; eauto). reflexivity.
    - rewrite (bind_eq _ _ p p tt) by reflexivity.
      rewrite list_insert_id by exact Hbs. rewrite setHeap_same. reflexivity. }
  assert (Hfind1 : Picture.findBuffer target p1 = Picture.Returns (Some rt) p1).
  { apply (findBuffer_insert p target rs bs bs' (Some rt)); auto. }
  assert (Hbt1 : Picture.heap p1 !! rt = Some (if decide (rt = rs) then bs' else bt)).
  { cbn [Picture.heap p1 Picture.setHeap]. destruct (decide (rt = rs)) as [->|Hne].
    - apply list_lookup_insert_eq. exact Hlt.
    - rewrite list_lookup_insert_ne by auto. exact Hbt. }
  eexists. split; [rewrite Hstep; apply (pushEvent_plain p1 _ _ _ rt _ Hfind1 Hbt1 Hplain)|].
  cbn [Picture.heap Picture.setHeap Picture.buffers Picture.mergedBuffers p1].
  assert (Hlt1 : (rt < length (<[rs := bs']> (Picture.heap p)))%nat).
  { rewrite length_insert. eapply lookup_lt_Some; eauto. }
  split; [|split; [|split; [|split; reflexivity]]].
  - unfold Spec.logOf at 1. rewrite list_lookup_insert_eq by exact Hlt1.
    rewrite events_pushEvent. f_equal.
    destruct (decide (rt = rs)) as [->|Hne]; [exact Hev|].
    unfold Spec.logOf. rewrite Hbt. reflexivity.
  - intros Hne. unfold Spec.logOf at 1. rewrite list_lookup_insert_ne by auto.
    rewrite list_lookup_insert_eq by exact Hlt. exact Hev.
  - intros r' H1 H2. rewrite !list_lookup_insert_ne by auto. reflexivity.
Qed.

Lemma moveEvent_transfers_witness :
  exists p',
    Picture.moveEvent 0 1 (PictureEvent.mk 1 2 false None (PictureEvent.Brush [1; 2; 3])) false
      Examples.undoneMergeDocument = Picture.Returns tt p'
    /\ Spec.logOf (Picture.heap p') 0
       = (if decide (0%nat = 1%nat)
          then without (PictureEvent.mk 1 2 false None (PictureEvent.Brush [1; 2; 3]))
                 (Spec.logOf (Picture.heap Examples.undoneMergeDocument) 1)
          else Spec.logOf (Picture.heap Examples.undoneMergeDocument) 0)
         ++ [PictureEvent.mk 1 2 false None (PictureEvent.Brush [1; 2; 3])]
    /\ (1%nat <> 0%nat ->
        Spec.logOf (Picture.heap p') 1
        = without (PictureEvent.mk 1 2 false None (PictureEvent.Brush [1; 2; 3]))
            (Spec.logOf (Picture.heap Examples.undoneMergeDocument) 1))
    /\ (forall r', r' <> 1%nat -> r' <> 0%nat ->
          Picture.heap p' !! r' = Picture.heap Examples.undoneMergeDocument !! r')
    /\ Picture.buffers p' = Picture.buffers Examples.undoneMergeDocument
    /\ Picture.mergedBuffers p' = Picture.mergedBuffers Examples.undoneMergeDocument.
Proof.
  apply (moveEvent_transfers Examples.undoneMergeDocument 0 1
           (PictureEvent.mk 1 2 false None (PictureEvent.Brush [1; 2; 3])) false 1%nat 0%nat);
    vm_compute; reflexivity.
Defined.

(** ** When the memory budget loop returns *)

Section BudgetLoopReturns.

Import Picture.

(** A candidate that retains no more undo states than its budget has a
    positive priority. *)
Lemma priority_positive (b : PictureBuffer.t) :
  Spec.withinBudget b = true ->
  JS.gt (PictureBuffer.undoStateBudget b) (JS.ofZ 1) = true ->
  exists v, bufferFreeingPriority b = JS.Num v /\ (0 < v)%Q.
Proof.
  intros Hw Hgt. destruct (gt_one _ Hgt) as (q & Hq & Hlt).
  destruct (priority_formula b q Hq) as (v & Hv & Hf). exists v. split; [exact Hv|].
  unfold Spec.withinBudget in Hw. rewrite Hq in Hw.
  assert (Hlen : (inject_Z (Z.of_nat (length (PictureBuffer.undoStates b))) <= q)%Q).
  { apply orb_true_iff in Hw as [Hz|Hle].
    - apply Nat.eqb_eq in Hz. rewrite Hz. change (inject_Z (Z.of_nat 0)) with 0%Q. lra.
    - apply Qle_bool_iff. exact Hle. }
  revert Hf Hlen. generalize (inject_Z (Z.of_nat (length (PictureBuffer.undoStates b)))).
  intros x. destruct (_ && _); intros Hf Hlen; lra.
Qed.

(** What the two loops keep: nothing is selected only while the selected
    priority is still zero, and once a candidate has been seen, a buffer is
    selected. *)
Definition decided (sel : Selection) : Prop :=
  (selectedBuffer sel = None -> exists z, selectedPriority sel = JS.Num z /\ (z <= 0)%Q)
  /\ (freeingPossible sel = true -> selectedBuffer sel <> None).

Lemma decided_consider (r : nat) (b : PictureBuffer.t) (sel : Selection) :
  Spec.withinBudget b = true ->
  JS.gt (PictureBuffer.undoStateBudget b) (JS.ofZ 1) = true ->
  decided sel -> decided (consider r b sel).
Proof.
  intros Hw Hgt [Hnone Hposs]. destruct (priority_positive b Hw Hgt) as (v & Hv & Hpos).
  unfold consider. rewrite Hv.
  destruct (JS.gt (JS.Num v) (selectedPriority sel)) eqn:Hc.
  - split; cbn [selectedBuffer freeingPossible selectedPriority];
      [intros H; discriminate|intros _ H; discriminate].
  - assert (Hsome : selectedBuffer sel <> None).
    { intros Hsel. destruct (Hnone Hsel) as (z & Hz & Hle). rewrite Hz in Hc.
      apply gt_Num_false in Hc. lra. }
    split; cbn [selectedBuffer freeingPossible selectedPriority]; [contradiction|auto].
Qed.

(** A buffer object of the store that is within its budget. *)
Definition sound (h : list PictureBuffer.t) (r : nat) : Prop :=
  exists b, h !! r = Some b /\ Spec.withinBudget b = true.

Lemma scanBuffers_decided (h : list PictureBuffer.t) (arr : list nat) (sel : Selection) :
  Forall (sound h) arr -> decided sel ->
  exists sel', scanBuffers h arr sel = Some sel' /\ decided sel'.
Proof.
  intros Harr. revert sel. induction Harr as [|r arr (b & Hb & Hw) _ IH]; intros sel Hd;
    cbn [scanBuffers]; [eauto|].
  rewrite Hb. destruct (JS.gt _ _) eqn:Hgt; cbn [andb]; [|auto].
  destruct (negb _); [|auto]. apply IH. apply decided_consider; auto.
Qed.

Lemma scanMergedBuffers_decided (h : list PictureBuffer.t) (bufs arr : list nat) (k : nat)
  (sel : Selection) :
  Forall (sound h) arr -> Forall (sound h) bufs ->
  (k + length arr <= length bufs)%nat -> decided sel ->
  exists sel', scanMergedBuffers h bufs arr (Z.of_nat k) sel = Some sel' /\ decided sel'.
Proof.
  intros Harr Hbufs. revert k sel.
  induction Harr as [|r arr (b & Hb & Hw) _ IH]; intros k sel Hk Hd;
    cbn [scanMergedBuffers]; [eauto|].
  cbn [length] in Hk. rewrite Hb.
  replace (Z.of_nat k + 1) with (Z.of_nat (S k)) by lia.
  destruct (JS.gt _ _) eqn:Hgt; [|apply IH; [lia|auto]].
  rewrite index_of_nat_lookup.
  destruct (lookup_lt_is_Some_2 bufs k) as [a Ha]; [lia|]. rewrite Ha.
  rewrite Forall_forall in Hbufs.
  destruct (Hbufs a (list_elem_of_lookup_2 _ _ _ Ha)) as (other & Ho & _). rewrite Ho.
  destruct (negb _); apply IH; try lia; auto. apply decided_consider; auto.
Qed.

(** The state in which the loop always comes to an end. *)
Definition settled (p : t) : Prop :=
  Forall (fun b => Spec.withinBudget b = true) (heap p)
  /\ Forall (fun r => is_Some (heap p !! r)) (buffers p)
  /\ Forall (fun r => is_Some (heap p !! r)) (mergedBuffers p)
  /\ (length (mergedBuffers p) <= length (buffers p))%nat.

Lemma settled_sound (p : t) (arr : list nat) :
  Forall (fun b => Spec.withinBudget b = true) (heap p) ->
  Forall (fun r => is_Some (heap p !! r)) arr -> Forall (sound (heap p)) arr.
Proof.
  intros Hw Harr. eapply Forall_impl; [exact Harr|]. intros r [b Hb]. exists b.
  split; [exact Hb|]. rewrite Forall_forall in Hw. apply Hw.
  eapply list_elem_of_lookup_2. exact Hb.
Qed.

Lemma select_decided (p : t) :
  settled p -> exists sel, select p = Some sel /\ decided sel.
Proof.
  intros (Hw & Ha & Hm & Hlen). unfold select.
  destruct (scanBuffers_decided (heap p) (buffers p) (mkSelection false None (JS.ofZ 0))
              (settled_sound p _ Hw Ha)) as (sel0 & -> & Hd0).
  { split; cbn; [|discriminate]. intros _. exists (inject_Z 0). split; [reflexivity|].
    unfold inject_Z. lra. }
  apply (scanMergedBuffers_decided (heap p) (buffers p) (mergedBuffers p) 0 sel0);
    auto using settled_sound.
Qed.

Lemma length_evict (n : JS.number) (us : list PictureBuffer.UndoState) :
  match n with
  | JS.Num q =>
    PictureBuffer.evict n us = []
    \/ (inject_Z (Z.of_nat (length (PictureBuffer.evict n us))) <= q)%Q
  | JS.NaN => True
  end.
Proof.
  destruct n as [q|]; [|exact I]. induction us as [|u us IH]; [left; reflexivity|].
  cbn [PictureBuffer.evict].
  destruct (JS.gt (JS.ofNat (length (u :: us))) (JS.Num q)) eqn:Hgt; [exact IH|].
  right. unfold JS.ofNat in Hgt. apply gt_Num_false in Hgt. exact Hgt.
Qed.

Lemma withinBudget_setUndoStateBudget (n : JS.number) (b : PictureBuffer.t) :
  Spec.withinBudget (PictureBuffer.setUndoStateBudget n b) = true.
Proof.
  unfold Spec.withinBudget. cbn. pose proof (length_evict n (PictureBuffer.undoStates b)) as H.
  destruct n as [q|]; [|reflexivity]. apply orb_true_iff. destruct H as [->|H].
  - left. reflexivity.
  - right. apply Qle_bool_iff. exact H.
Qed.

Lemma settled_reduceBudget (r : nat) (p : t) (b : PictureBuffer.t) (n : JS.number) :
  settled p -> heap p !! r = Some b ->
  settled (setMemoryUse n
             (setHeap (<[r := PictureBuffer.setUndoStateBudget
                                (JS.sub (PictureBuffer.undoStateBudget b) (JS.ofZ 1)) b]>
                         (heap p)) p)).
Proof.
  intros (Hw & Ha & Hm & Hlen) Hb. unfold settled.
  cbn [heap setHeap setMemoryUse buffers mergedBuffers].
  split; [|split; [|split]]; auto using allocated_insert.
  apply Forall_insert; [exact Hw|]. apply withinBudget_setUndoStateBudget.
Qed.

Lemma stayWithinLoop_impossible (fuel : nat) (available : JS.number) (p : t) :
  stayWithinLoop fuel available false p = Returns tt p.
Proof. destruct fuel; cbn; rewrite andb_false_r; reflexivity. Qed.

Lemma stayWithinLoop_returns (n : nat) :
  forall (available : JS.number) (possible : bool) (p : t),
  settled p -> (steps p <= n)%nat ->
  exists p', stayWithinLoop (S n) available possible p = Returns tt p'.
Proof.
  induction n as [|n IH]; intros available possible p Hs Hn;
    cbn [stayWithinLoop];
    (destruct (JS.gt _ _ && possible); [|eauto]);
    destruct (select_decided p Hs) as (sel & Hsel & Hnone & Hposs); rewrite Hsel;
    (destruct (selectedBuffer sel) as [r|] eqn:Hr).
  - exfalso. destruct (select_overOne p sel r Hsel Hr) as (b & q & Hb & Hq & Hlt).
    assert (Hred : reduceBudget r p = Returns tt
              (setMemoryUse (JS.sub (memoryUse p) (PictureBuffer.getStateMemoryBytes b))
                 (setHeap (<[r := PictureBuffer.setUndoStateBudget
                                    (JS.sub (PictureBuffer.undoStateBudget b) (JS.ofZ 1)) b]>
                             (heap p)) p))) by (apply reduceBudget_spec; exact Hb).
    pose proof (reduceBudget_steps r p _ (ex_intro _ b (ex_intro _ q (conj Hb (conj Hq Hlt))))
                  Hred). lia.
  - unfold bind, ret. destruct (freeingPossible sel) eqn:Hp.
    + exfalso. apply Hposs; reflexivity.
    + exists p. exact (stayWithinLoop_impossible 0 available p).
  - destruct (select_overOne p sel r Hsel Hr) as (b & q & Hb & Hq & Hlt).
    assert (Hred : reduceBudget r p = Returns tt
              (setMemoryUse (JS.sub (memoryUse p) (PictureBuffer.getStateMemoryBytes b))
                 (setHeap (<[r := PictureBuffer.setUndoStateBudget
                                    (JS.sub (PictureBuffer.undoStateBudget b) (JS.ofZ 1)) b]>
                             (heap p)) p))) by (apply reduceBudget_spec; exact Hb).
    pose proof (reduceBudget_steps r p _ (ex_intro _ b (ex_intro _ q (conj Hb (conj Hq Hlt))))
                  Hred) as Hsteps.
    unfold bind at 1. rewrite Hred. apply IH; [|lia].
    apply settled_reduceBudget; assumption.
  - unfold bind, ret. destruct (freeingPossible sel) eqn:Hp.
    + exfalso. apply Hposs; reflexivity.
    + exists p. exact (stayWithinLoop_impossible (S n) available p).
Qed.

Lemma validRefs_settled (p : t) :
  Spec.validRefs p = true ->
  (length (mergedBuffers p) <= length (buffers p))%nat ->
  forallb Spec.withinBudget (heap p) = true -> settled p.
Proof.
  intros Hrefs Hlen Hw. destruct (validRefs_arrays p Hrefs) as [Ha Hm].
  repeat split; auto. apply Forall_forall. intros b Hb.
  rewrite forallb_forall in Hw. apply Hw. apply list_elem_of_In. exact Hb.
Qed.

End BudgetLoopReturns.

(** X23: [stayWithinMemoryBudget] returns, without throwing and without
    looping forever, on every picture that has at most as many merged
    buffers as buffers in the active stack and whose buffers retain no more
    undo states than their budgets allow.  (With more merged buffers than
    active ones the call can throw.) *)
Theorem stayWithinMemoryBudget_returns (requested : JS.number) (p : Picture.t)
  (Hrefs : Spec.validRefs p = true)
  (Hmerged : (length (Picture.mergedBuffers p) <= length (Picture.buffers p))%nat)
  (Hwithin : forallb Spec.withinBudget (Picture.heap p) = true) :
  exists p', Picture.stayWithinMemoryBudget requested p = Picture.Returns tt p'.
Proof.
  unfold Picture.stayWithinMemoryBudget, Picture.iterationBound.
  apply stayWithinLoop_returns; [apply validRefs_settled; assumption|].
  unfold steps. lia.
Qed.

Lemma stayWithinMemoryBudget_returns_witness :
  exists p',
    Picture.stayWithinMemoryBudget (Examples.megabytes 200) Examples.mergedThenMoved
    = Picture.Returns tt p'.
Proof.
  apply (stayWithinMemoryBudget_returns (Examples.megabytes 200) Examples.mergedThenMoved).
  - vm_compute. reflexivity.
  - vm_compute. lia.
  - vm_compute. reflexivity.
Defined.

(** ** Removing an event *)

Section RemoveEvent.

Import Picture.

Lemma delete_insert_same {A : Type} (l : list A) (n : nat) (x : A) :
  delete n (<[n := x]> l) = delete n l.
Proof.
  revert n. induction l as [|y l IH]; intros n; [reflexivity|].
  destruct n as [|n]; [reflexivity|].
  change (y :: delete n (<[n := x]> l) = y :: delete n l). rewrite IH. reflexivity.
Qed.

Lemma spliceOut_inside {A : Type} (arr : list A) (k : Z) (x : A) :
  JS.index arr k = Some x -> JS.spliceOut arr k = delete (Z.to_nat k) arr.
Proof.
  intros H. unfold JS.index in H. destruct (Z.ltb_spec k 0); [discriminate|].
  pose proof (lookup_lt_Some _ _ _ H) as Hlt.
  unfold JS.spliceOut. rewrite <- (Z2Nat.id k) at 1 by lia.
  rewrite spliceStart_inside by lia. reflexivity.
Qed.

(** Removing one located event that does not change the stack and is not
    the first of its log. *)
Lemma removeEventFromBuffers_plain (c : Collection) (s i : Z) (p : t) (r : nat) (k : Z)
  (b : PictureBuffer.t) (e : PictureEvent.t) :
  search c s i p = Returns (Some (r, k)) p ->
  heap p !! r = Some b -> JS.index (PictureBuffer.events b) k = Some e ->
  PictureEvent.isBufferStackChange e = false -> k <> 0 ->
  exists b', removeEventFromBuffers c s i p
             = Returns true (setHeap (<[r := b']> (heap p)) p)
    /\ PictureBuffer.events b' = delete (Z.to_nat k) (PictureBuffer.events b)
    /\ PictureBuffer.id b' = PictureBuffer.id b.
Proof.
  intros Hs Hb He Hsc Hk.
  assert (Hlt : (r < length (heap p))%nat) by (eapply lookup_lt_Some; eauto).
  unfold removeEventFromBuffers.
  rewrite (bind_eq _ _ _ _ _ Hs), (bind_eq _ _ _ _ _ (eventAt_Returns p r k b e Hb He)).
  destruct (PictureEvent.undone e) eqn:Hu; cbn [negb].
  - exists (PictureBuffer.removeEventIndex k b).
    rewrite (bind_eq _ _ p p true) by reflexivity.
    rewrite (bind_eq _ _ p (setHeap (<[r := PictureBuffer.removeEventIndex k b]> (heap p)) p) tt)
      by (apply update_Returns; eauto).
    split; [reflexivity|]. split; [|reflexivity].
    cbn. apply (spliceOut_inside _ _ e He).
  - set (b1 := flagged k true e b).
    set (p1 := setHeap (<[r := b1]> (heap p)) p).
    exists (PictureBuffer.removeEventIndex k b1).
    rewrite (bind_eq _ _ p p1 true).
    2:{ rewrite (bind_eq _ _ _ _ _ (undoEventIndex_plain p r k (isMerged c) b e Hb He Hsc Hk)).
        reflexivity. }
    assert (Hb1 : heap p1 !! r = Some b1) by (apply list_lookup_insert_eq; exact Hlt).
    rewrite (bind_eq _ _ p1 (setHeap (<[r := PictureBuffer.removeEventIndex k b1]> (heap p1)) p1)
               tt) by (apply update_Returns; eauto).
    split; [|split; [|reflexivity]].
    + unfold ret. f_equal. unfold p1. cbn [heap setHeap]. rewrite list_insert_insert_eq.
      destruct p; reflexivity.
    + pose proof (index_Some_nat _ _ _ He) as Hn.
      assert (He1 : JS.index (PictureBuffer.events b1) k
                    = Some (PictureEvent.setUndone true e)).
      { unfold JS.index in *. destruct (k <? 0); [discriminate|]. cbn.
        apply list_lookup_insert_eq. eapply lookup_lt_Some; eauto. }
      cbn [PictureBuffer.removeEventIndex PictureBuffer.events PictureBuffer.setUndoStates
           PictureBuffer.setEvents].
      rewrite (spliceOut_inside _ _ _ He1). cbn. apply delete_insert_same.
Qed.

Lemma removeEventFromBuffers_unmatched (c : Collection) (s i : Z) (p : t) :
  search c s i p = Returns None p -> removeEventFromBuffers c s i p = Returns false p.
Proof. intros Hs. unfold removeEventFromBuffers. rewrite (bind_eq _ _ _ _ _ Hs). reflexivity. Qed.

End RemoveEvent.

(** X24: [removeEventSessionId] deletes the event from its log.  For a
    session identity carried by events that do not change the buffer stack
    and are not the first event of a log, undone or not, the call returns
    true, the log that held the event found is that log without it, and
    no other buffer, the stack and the merged buffers are as before. *)
Theorem removeEventSessionId_deletes (p : Picture.t) (sid sessionEventId : Z)
  (Hrefs : Spec.validRefs p = true)
  (Hsome : existsb (PictureEvent.hasIdentity sid sessionEventId) (Spec.allEvents p) = true)
  (Hplain : forallb (fun e => negb (PictureEvent.hasIdentity sid sessionEventId e)
                              || negb (PictureEvent.isBufferStackChange e))
              (Spec.allEvents p) = true)
  (Hfirst : forallb (fun r => match Spec.logOf (Picture.heap p) r with
                              | e :: _ => negb (PictureEvent.hasIdentity sid sessionEventId e)
                              | [] => true
                              end) (Spec.allBuffers p) = true) :
  exists p' r k e,
    Picture.removeEventSessionId sid sessionEventId p = Picture.Returns true p'
    /\ Spec.logOf (Picture.heap p) r !! k = Some e
    /\ PictureEvent.hasIdentity sid sessionEventId e = true
    /\ Spec.logOf (Picture.heap p') r = delete k (Spec.logOf (Picture.heap p) r)
    /\ (forall r', r' <> r -> Picture.heap p' !! r' = Picture.heap p !! r')
    /\ Picture.buffers p' = Picture.buffers p
    /\ Picture.mergedBuffers p' = Picture.mergedBuffers p.
Proof.
  rewrite allEvents_matched in Hsome. rewrite forallb_forall in Hplain, Hfirst.
  assert (Hfound : forall c r k b e,
    Picture.search c sid sessionEventId p = Picture.Returns (Some (r, k)) p ->
    r ∈ Picture.collection c p -> Picture.heap p !! r = Some b ->
    JS.index (PictureBuffer.events b) k = Some e ->
    PictureEvent.hasIdentity sid sessionEventId e = true ->
    exists p',
      Picture.removeEventFromBuffers c sid sessionEventId p = Picture.Returns true p'
      /\ Spec.logOf (Picture.heap p) r !! Z.to_nat k = Some e
      /\ Spec.logOf (Picture.heap p') r = delete (Z.to_nat k) (Spec.logOf (Picture.heap p) r)
      /\ (forall r', r' <> r -> Picture.heap p' !! r' = Picture.heap p !! r')
      /\ Picture.buffers p' = Picture.buffers p
      /\ Picture.mergedBuffers p' = Picture.mergedBuffers p).
  { intros c r k b e Hs Hr Hb He Hid.
    pose proof (allEvents_elem p c r b k e Hr Hb He) as Hin.
    pose proof (Hplain e Hin) as Hp. rewrite Hid in Hp. cbn in Hp.
    apply negb_true_iff in Hp.
    assert (Hk : k <> 0).
    { intros ->. assert (Hrin : In r (Spec.allBuffers p)).
      { unfold Spec.allBuffers. apply in_or_app. apply list_elem_of_In in Hr.
        destruct c; [left|right]; exact Hr. }
      specialize (Hfirst r Hrin). unfold Spec.logOf in Hfirst. rewrite Hb in Hfirst.
      destruct (PictureBuffer.events b) as [|x evs]; [discriminate|].
      injection He as ->. rewrite Hid in Hfirst. discriminate. }
    destruct (removeEventFromBuffers_plain c _ _ p r k b e Hs Hb He Hp Hk)
      as (b' & Hrem & Hev & _).
    eexists. split; [exact Hrem|].
    assert (Hlt : (r < length (Picture.heap p))%nat) by (eapply lookup_lt_Some; eauto).
    cbn [Picture.heap Picture.setHeap Picture.buffers Picture.mergedBuffers].
    unfold Spec.logOf. rewrite Hb, list_lookup_insert_eq by exact Hlt.
    split; [apply index_Some_nat; exact He|]. split; [exact Hev|].
    split; [|split; reflexivity].
    intros r' Hne. apply list_lookup_insert_ne. auto. }
  unfold Picture.removeEventSessionId.
  destruct (existsb _ (Picture.buffers p)) eqn:Ha.
  - destruct (search_matched p Picture.Active sid sessionEventId Hrefs Ha)
      as (r & k & b & e & Hs & Hr & Hb & He & Hid).
    destruct (Hfound _ _ _ _ _ Hs Hr Hb He Hid) as (p' & Hrem & H1 & H2 & H3 & H4 & H5).
    exists p', r, (Z.to_nat k), e. rewrite (bind_eq _ _ _ _ _ Hrem). auto 10.
  - cbn in Hsome.
    pose proof (search_unmatched p Picture.Active sid sessionEventId Hrefs Ha) as Sa.
    rewrite (bind_eq _ _ _ _ _ (removeEventFromBuffers_unmatched _ _ _ _ Sa)).
    destruct (search_matched p Picture.Merged sid sessionEventId Hrefs Hsome)
      as (r & k & b & e & Hs & Hr & Hb & He & Hid).
    destruct (Hfound _ _ _ _ _ Hs Hr Hb He Hid) as (p' & Hrem & H1 & H2 & H3 & H4 & H5).
    exists p', r, (Z.to_nat k), e. auto 10.
Qed.

Lemma removeEventSessionId_deletes_witness :
  exists p' r k e,
    Picture.removeEventSessionId 1 2 Examples.undoneMergeDocument = Picture.Returns true p'
    /\ Spec.logOf (Picture.heap Examples.undoneMergeDocument) r !! k = Some e
    /\ PictureEvent.hasIdentity 1 2 e = true
    /\ Spec.logOf (Picture.heap p') r
       = delete k (Spec.logOf (Picture.heap Examples.undoneMergeDocument) r)
    /\ (forall r', r' <> r ->
          Picture.heap p' !! r' = Picture.heap Examples.undoneMergeDocument !! r')
    /\ Picture.buffers p' = Picture.buffers Examples.undoneMergeDocument
    /\ Picture.mergedBuffers p' = Picture.mergedBuffers Examples.undoneMergeDocument.
Proof.
  apply (removeEventSessionId_deletes Examples.undoneMergeDocument 1 2);
    vm_compute; reflexivity.
Defined.

(** ** Merging a buffer *)

Section Merge.

Import Picture.

Lemma findBuffer_same_store (p q : t) (id : Z) (found : option nat) :
  heap q = heap p -> buffers q = buffers p -> mergedBuffers q = mergedBuffers p ->
  findBuffer id p = Returns found p -> findBuffer id q = Returns found q.
Proof.
  intros Hh Hb Hm H.
  unfold findBuffer, bind, get, findBufferIndex, defined, ret in *.
  rewrite Hh, Hb, Hm.
  destruct (findBufferIndexFrom (heap p) (buffers p) id 0) as [k|]; [|discriminate].
  destruct (negb (k =? -1)); [injection H as <-; reflexivity|].
  rewrite ?Hh, ?Hb, ?Hm.
  destruct (findBufferIndexFrom (heap p) (mergedBuffers p) id 0) as [k'|]; [|discriminate].
  destruct (negb (k' =? -1)); injection H as <-; reflexivity.
Qed.

(** The merge event the session creates for the buffer [rm], and the
    picture after the event has been pushed to the buffer [rt]. *)
Definition mergeEventFor (p : t) (opacity : Z) (rm : nat) : PictureEvent.t :=
  PictureEvent.mk (activeSid p) (activeSessionEventId p) false None
    (PictureEvent.BufferMerge opacity (PictureEvent.BufferObject rm)).

Definition afterMerge (p : t) (index : nat) (opacity : Z) (rm rt : nat)
  (bm bt : PictureBuffer.t) : t :=
  setMergedBuffers (mergedBuffers p ++ [rm])
    (setBuffers (delete index (buffers p))
       (setHeap (<[rm := PictureBuffer.setMergedTo (Some rt) bm]>
                   (<[rt := PictureBuffer.pushEvent (mergeEventFor p opacity rm) bt]> (heap p)))
          (setSession (activeSid p) (activeSessionEventId p + 1) p))).

Lemma merge_state (p : t) (index : nat) (opacity target : Z) (rm rt : nat)
  (bm bt : PictureBuffer.t) :
  Forall (fun r => is_Some (heap p !! r)) (buffers p) ->
  buffers p !! index = Some rm -> heap p !! rm = Some bm -> heap p !! rt = Some bt ->
  Forall (fun r => idAt (heap p) r <> Some (PictureBuffer.id bm)) (take index (buffers p)) ->
  findBuffer target p = Returns (Some rt) p -> rt <> rm ->
  bind (createMergeEvent (Z.of_nat index) opacity)
    (fun event => pushEvent target event false) p
  = Returns tt (afterMerge p index opacity rm rt bm bt).
Proof.
  intros Ha Hindex Hbm Hbt Hfirst Htarget Hother.
  set (e := mergeEventFor p opacity rm).
  set (p1 := setSession (activeSid p) (activeSessionEventId p + 1) p).
  set (h2 := <[rt := PictureBuffer.pushEvent e bt]> (heap p)).
  set (h3 := <[rm := PictureBuffer.setMergedTo (Some rt) bm]> h2).
  assert (Hbm2 : h2 !! rm = Some bm).
  { unfold h2. rewrite list_lookup_insert_ne by auto. exact Hbm. }
  assert (Hcreate : createMergeEvent (Z.of_nat index) opacity p = Returns e p1).
  { unfold createMergeEvent. rewrite (bind_eq _ _ p p p) by reflexivity.
    rewrite index_of_nat_lookup, Hindex. reflexivity. }
  assert (Hfind : findBufferIndex (buffers p1) (PictureBuffer.id bm) p1
                  = Returns (Z.of_nat index) p1).
  { apply findBufferIndex_Returns.
    change (findBufferIndexFrom (heap p) (buffers p) (PictureBuffer.id bm) 0
            = Some (Z.of_nat index)).
    rewrite (findBufferIndexFrom_at (heap p) (buffers p)
               (PictureBuffer.id bm) 0 index rm Ha Hindex); [reflexivity| |exact Hfirst].
    unfold idAt. rewrite Hbm. reflexivity. }
  assert (Hpush : bufferPushEvent rt e p1 = Returns tt (setHeap h3 p1)).
  { unfold bufferPushEvent.
    rewrite (bind_eq _ _ p1 (setHeap h2 p1) tt) by (apply update_Returns; eauto).
    change (PictureEvent.isType PictureEvent.bufferMerge e && negb (PictureEvent.undone e))
      with true. cbv iota.
    change (PictureEvent.mergedBuffer e) with (PictureEvent.BufferObject rm).
    unfold markMerged. apply update_Returns. exists bm. split; [exact Hbm2|].
    reflexivity. }
  rewrite (bind_eq _ _ _ _ _ Hcreate). unfold pushEvent.
  change (PictureEvent.isBufferStackChange e) with true. cbv iota.
  change (PictureEvent.payload e)
    with (PictureEvent.BufferMerge opacity (PictureEvent.BufferObject rm)).
  cbv iota.
  rewrite (bind_eq _ _ p1 p1 (Some rt))
    by (apply (findBuffer_same_store p p1); auto).
  change (PictureEvent.isType PictureEvent.bufferMerge e) with true. cbv iota.
  unfold pushMergeEvent.
  rewrite (bind_eq _ _ p1 p1 p1) by reflexivity.
  change (PictureEvent.mergedBuffer e) with (PictureEvent.BufferObject rm).
  rewrite (bind_eq _ _ p1 p1 (PictureBuffer.id bm)).
  2:{ unfold idOf. rewrite (bind_eq _ _ p1 p1 bm) by (apply load_Returns; auto).
      reflexivity. }
  rewrite (bind_eq _ _ _ _ _ Hfind). cbv iota.
  rewrite (bind_eq _ _ p1 p1 rt) by reflexivity.
  rewrite (bind_eq _ _ _ _ _ Hpush).
  change (negb (PictureEvent.undone e)) with true. cbv iota.
  change (PictureEvent.mergedBuffer e) with (PictureEvent.BufferObject rm).
  rewrite (bind_eq _ _ (setHeap h3 p1) (setHeap h3 p1) rm) by reflexivity.
  unfold bind, modify, afterMerge.
  cbn [buffers setHeap setBuffers mergedBuffers p1 setSession].
  unfold JS.spliceOut. rewrite spliceStart_inside; [reflexivity|].
  apply Nat.lt_le_incl. eapply lookup_lt_Some. exact Hindex.
Qed.

End Merge.

(** X25: merging moves a buffer from the active stack to the merged
    buffers.  For the buffer at an index of the stack (the first of the
    stack with its id) and a different target buffer that [findBuffer]
    finds, creating the merge event and pushing it to the target returns;
    the buffer is then out of the stack, whose other buffers keep their
    order, and last of the merged buffers, it is marked as merged to the
    target, and the merge event naming it is on top of the log of the
    target. *)
Theorem merge_moves_buffer_to_merged (p : Picture.t) (index : nat) (opacity target : Z)
  (rm rt : nat) (bm : PictureBuffer.t)
  (Hrefs : Spec.validRefs p = true)
  (Hindex : Picture.buffers p !! index = Some rm)
  (Hbm : Picture.heap p !! rm = Some bm)
  (Hfirst : Forall (fun r => Picture.idAt (Picture.heap p) r <> Some (PictureBuffer.id bm))
              (take index (Picture.buffers p)))
  (Htarget : Picture.findBuffer target p = Picture.Returns (Some rt) p)
  (Hother : rt <> rm) :
  exists p',
    Picture.bind (Picture.createMergeEvent (Z.of_nat index) opacity)
      (fun event => Picture.pushEvent target event false) p = Picture.Returns tt p'
    /\ Picture.buffers p' = delete index (Picture.buffers p)
    /\ Picture.mergedBuffers p' = Picture.mergedBuffers p ++ [rm]
    /\ Spec.logOf (Picture.heap p') rt
       = Spec.logOf (Picture.heap p) rt
         ++ [PictureEvent.mk (Picture.activeSid p) (Picture.activeSessionEventId p) false None
               (PictureEvent.BufferMerge opacity (PictureEvent.BufferObject rm))]
    /\ (PictureBuffer.mergedTo <$> Picture.heap p' !! rm) = Some (Some rt)
    /\ Spec.logOf (Picture.heap p') rm = Spec.logOf (Picture.heap p) rm
    /\ (forall r', r' <> rt -> r' <> rm -> Picture.heap p' !! r' = Picture.heap p !! r').
Proof.
  destruct (validRefs_arrays p Hrefs) as [Ha _].
  destruct (findBuffer_allocated p target rt Hrefs Htarget) as [bt Hbt].
  assert (Hlt_t : (rt < length (Picture.heap p))%nat) by (eapply lookup_lt_Some; eauto).
  assert (Hlt_m : (rm < length (Picture.heap p))%nat) by (eapply lookup_lt_Some; eauto).
  exists (afterMerge p index opacity rm rt bm bt).
  split; [apply merge_state; assumption|].
  unfold afterMerge, Spec.logOf.
  cbn [Picture.heap Picture.buffers Picture.mergedBuffers Picture.setMergedBuffers
       Picture.setBuffers Picture.setHeap].
  split; [reflexivity|]. split; [reflexivity|]. split; [|split; [|split]].
  - rewrite list_lookup_insert_ne by auto.
    rewrite list_lookup_insert_eq by exact Hlt_t. rewrite Hbt. reflexivity.
  - rewrite list_lookup_insert_eq; [reflexivity|]. rewrite length_insert. exact Hlt_m.
  - rewrite list_lookup_insert_eq by (rewrite length_insert; exact Hlt_m).
    rewrite Hbm. reflexivity.
  - intros r' H1 H2. rewrite !list_lookup_insert_ne by auto. reflexivity.
Qed.

Lemma merge_moves_buffer_to_merged_witness :
  exists p',
    Picture.bind (Picture.createMergeEvent (Z.of_nat 1) 1)
      (fun event => Picture.pushEvent 0 event false) Examples.beforeMerge
    = Picture.Returns tt p'
    /\ Picture.buffers p' = delete 1%nat (Picture.buffers Examples.beforeMerge)
    /\ Picture.mergedBuffers p' = Picture.mergedBuffers Examples.beforeMerge ++ [1%nat]
    /\ Spec.logOf (Picture.heap p') 0
       = Spec.logOf (Picture.heap Examples.beforeMerge) 0
         ++ [PictureEvent.mk (Picture.activeSid Examples.beforeMerge)
               (Picture.activeSessionEventId Examples.beforeMerge) false None
               (PictureEvent.BufferMerge 1 (PictureEvent.BufferObject 1))]
    /\ (PictureBuffer.mergedTo <$> Picture.heap p' !! 1%nat) = Some (Some 0%nat)
    /\ Spec.logOf (Picture.heap p') 1 = Spec.logOf (Picture.heap Examples.beforeMerge) 1
    /\ (forall r', r' <> 0%nat -> r' <> 1%nat ->
          Picture.heap p' !! r' = Picture.heap Examples.beforeMerge !! r').
Proof.
  destruct (Picture.heap Examples.beforeMerge !! 1%nat) as [bm|] eqn:Hbm;
    [|vm_compute in Hbm; discriminate].
  assert (Hid : PictureBuffer.id bm = 1).
  { vm_compute in Hbm. injection Hbm as <-. reflexivity. }
  assert (Hbuffers : Picture.buffers Examples.beforeMerge = [0; 1; 2]%nat)
    by (vm_compute; reflexivity).
  apply (merge_moves_buffer_to_merged Examples.beforeMerge 1 1 0 1 0 bm); try assumption.
  - vm_compute. reflexivity.
  - rewrite Hbuffers. reflexivity.
  - rewrite Hbuffers, Hid. repeat constructor. vm_compute. discriminate.
  - vm_compute. reflexivity.
  - discriminate.
Defined.

(** ** Removing a buffer *)

Section RemoveBuffer.

Import Picture.

Lemma isRemoved_pushEvent (e : PictureEvent.t) (b : PictureBuffer.t) :
  PictureEvent.isType PictureEvent.bufferRemove e = true ->
  PictureEvent.undone e = false ->
  PictureBuffer.isRemoved (PictureBuffer.pushEvent e b) = true.
Proof.
  intros Hty Hu. unfold PictureBuffer.isRemoved. rewrite events_pushEvent, existsb_app.
  cbn [existsb]. rewrite Hty, Hu. cbn. apply orb_true_r.
Qed.

(** [afterRemove] on a removed buffer: the buffer is freed when its log is
    shorter than two checkpoint intervals, and left as it is otherwise;
    its log and its id stay. *)
Lemma afterRemove_removed (r : nat) (p : t) (b : PictureBuffer.t) :
  heap p !! r = Some b -> PictureBuffer.isRemoved b = true ->
  exists b' m,
    afterRemove r p = Returns tt (setMemoryUse m (setHeap (<[r := b']> (heap p)) p))
    /\ PictureBuffer.events b' = PictureBuffer.events b
    /\ PictureBuffer.id b' = PictureBuffer.id b
    /\ PictureBuffer.freed b'
       = PictureBuffer.freed b
         || (Z.of_nat (length (PictureBuffer.events b))
             <? PictureBuffer.undoStateInterval b * 2).
Proof.
  intros Hb Hrm.
  assert (Hlt : (r < length (heap p))%nat) by (eapply lookup_lt_Some; eauto).
  assert (Hsame : Returns tt p
                  = Returns tt (setMemoryUse (memoryUse p) (setHeap (<[r := b]> (heap p)) p))).
  { rewrite list_insert_id by exact Hb. destruct p; reflexivity. }
  unfold afterRemove. rewrite (bind_eq _ _ p p b) by (apply load_Returns; auto).
  rewrite Hrm, andb_true_r.
  destruct (Z.of_nat (length (PictureBuffer.events b))
            <? PictureBuffer.undoStateInterval b * 2).
  - unfold freeBuffer. rewrite (bind_eq _ _ p p b) by (apply load_Returns; auto).
    destruct (PictureBuffer.freed b) eqn:Hf; cbn [negb].
    + exists b, (memoryUse p). rewrite Hf. repeat split; auto.
    + exists (PictureBuffer.free b). eexists.
      rewrite (bind_eq _ _ p (setHeap (<[r := PictureBuffer.free b]> (heap p)) p) tt)
        by (apply update_Returns; eauto).
      rewrite (bind_eq _ _ _ _ (PictureBuffer.free b))
        by (apply load_Returns; split; [apply list_lookup_insert_eq; exact Hlt|reflexivity]).
      split; [reflexivity|]. repeat split; reflexivity.
  - exists b, (memoryUse p). rewrite orb_false_r. repeat split; auto.
Qed.

End RemoveBuffer.

(** X26: [removeBuffer] marks the buffer with the given id as removed and
    leaves it in the stack.  For an id found in the active stack the call
    returns; the remove event (not undone, with the identity the session
    was at) is then on top of the log of the first buffer of the stack with
    that id, the stack and the merged buffers are as before, and the buffer
    is freed if it was freed before or its log, with the remove event,
    is shorter than two checkpoint intervals. *)
Theorem removeBuffer_keeps_buffer_in_stack (p : Picture.t) (id : Z) (n : nat) (r : nat)
  (b : PictureBuffer.t)
  (Hrefs : Forall (fun r => is_Some (Picture.heap p !! r)) (Picture.buffers p))
  (Hn : Picture.buffers p !! n = Some r)
  (Hb : Picture.heap p !! r = Some b)
  (Hid : PictureBuffer.id b = id)
  (Hbefore : Forall (fun r' => Picture.idAt (Picture.heap p) r' <> Some id)
               (take n (Picture.buffers p))) :
  exists p' b',
    Picture.removeBuffer id p = Picture.Returns tt p'
    /\ Picture.buffers p' = Picture.buffers p
    /\ Picture.mergedBuffers p' = Picture.mergedBuffers p
    /\ Picture.heap p' !! r = Some b'
    /\ PictureBuffer.events b'
       = PictureBuffer.events b
         ++ [PictureEvent.mk (Picture.activeSid p) (Picture.activeSessionEventId p) false None
               (PictureEvent.BufferRemove id)]
    /\ PictureBuffer.id b' = id
    /\ PictureBuffer.isRemoved b' = true
    /\ PictureBuffer.freed b'
       = PictureBuffer.freed b
         || (Z.of_nat (length (PictureBuffer.events b)) + 1
             <? PictureBuffer.undoStateInterval b * 2)
    /\ (forall r', r' <> r -> Picture.heap p' !! r' = Picture.heap p !! r').
Proof.
  assert (HidAt : Picture.idAt (Picture.heap p) r = Some id).
  { unfold Picture.idAt. rewrite Hb, Hid. reflexivity. }
  pose proof (findBufferIndexFrom_at _ _ id 0 n r Hrefs Hn HidAt Hbefore) as Hfind.
  rewrite Z.add_0_l in Hfind.
  set (e := PictureEvent.mk (Picture.activeSid p) (Picture.activeSessionEventId p) false None
              (PictureEvent.BufferRemove id)).
  set (p1 := Picture.setSession (Picture.activeSid p) (Picture.activeSessionEventId p + 1) p).
  set (b2 := PictureBuffer.pushEvent e b).
  set (p2 := Picture.setHeap (<[r := b2]> (Picture.heap p1)) p1).
  assert (Hlt : (r < length (Picture.heap p))%nat) by (eapply lookup_lt_Some; eauto).
  assert (Hb2 : Picture.heap p2 !! r = Some b2) by (apply list_lookup_insert_eq; exact Hlt).
  destruct (afterRemove_removed r p2 b2 Hb2 (isRemoved_pushEvent e b eq_refl eq_refl))
    as (b' & m & Hafter & Hev & Hid' & Hfreed).
  exists (Picture.setMemoryUse m (Picture.setHeap (<[r := b']> (Picture.heap p2)) p2)), b'.
  split; [|split; [reflexivity|split; [reflexivity|split; [|split; [|split; [|split; [|split]]]]]]].
  - unfold Picture.removeBuffer, Picture.createBufferRemoveEvent.
    rewrite (bind_eq _ _ _ _ _ (createEvent_Returns _ _ p)). fold e p1.
    unfold Picture.pushEvent. change (PictureEvent.isBufferStackChange e) with true.
    cbv iota. change (PictureEvent.payload e) with (PictureEvent.BufferRemove id). cbv iota.
    rewrite (bind_eq _ _ p1 p1 p1) by reflexivity.
    rewrite (bind_eq _ _ p1 p1 (Z.of_nat n)) by (apply findBufferIndex_Returns; exact Hfind).
    rewrite (bind_eq _ _ p1 p1 r)
      by (unfold Picture.at_; apply defined_Returns; split; [|reflexivity];
          rewrite index_of_nat_lookup; exact Hn).
    rewrite (bind_eq _ _ _ _ _ (bufferPushEvent_plain r e p1 b Hb eq_refl)).
    exact Hafter.
  - cbn [Picture.heap Picture.setMemoryUse Picture.setHeap].
    apply list_lookup_insert_eq. unfold p2. cbn [Picture.heap Picture.setHeap].
    rewrite length_insert. exact Hlt.
  - rewrite Hev. reflexivity.
  - rewrite Hid'. exact Hid.
  - unfold PictureBuffer.isRemoved. rewrite Hev. fold (PictureBuffer.isRemoved b2).
    apply isRemoved_pushEvent; reflexivity.
  - rewrite Hfreed. unfold b2.
    replace (PictureBuffer.freed (PictureBuffer.pushEvent e b)) with (PictureBuffer.freed b)
      by reflexivity.
    replace (PictureBuffer.undoStateInterval (PictureBuffer.pushEvent e b))
      with (PictureBuffer.undoStateInterval b) by reflexivity.
    rewrite events_pushEvent, length_app. cbn [length].
    replace (Z.of_nat (length (PictureBuffer.events b) + 1))
      with (Z.of_nat (length (PictureBuffer.events b)) + 1) by lia.
    reflexivity.
  - intros r' Hne. cbn [Picture.heap Picture.setMemoryUse Picture.setHeap p2].
    rewrite !list_lookup_insert_ne by auto. reflexivity.
Qed.

Lemma removeBuffer_keeps_buffer_in_stack_witness :
  exists b p' b',
    Picture.heap Examples.beforeMerge !! 1%nat = Some b
    /\ Picture.removeBuffer 1 Examples.beforeMerge = Picture.Returns tt p'
    /\ Picture.buffers p' = Picture.buffers Examples.beforeMerge
    /\ Picture.mergedBuffers p' = Picture.mergedBuffers Examples.beforeMerge
    /\ Picture.heap p' !! 1%nat = Some b'
    /\ PictureBuffer.events b'
       = PictureBuffer.events b
         ++ [PictureEvent.mk (Picture.activeSid Examples.beforeMerge)
               (Picture.activeSessionEventId Examples.beforeMerge) false None
               (PictureEvent.BufferRemove 1)]
    /\ PictureBuffer.id b' = 1
    /\ PictureBuffer.isRemoved b' = true
    /\ PictureBuffer.freed b'
       = PictureBuffer.freed b
         || (Z.of_nat (length (PictureBuffer.events b)) + 1
             <? PictureBuffer.undoStateInterval b * 2)
    /\ (forall r', r' <> 1%nat ->
          Picture.heap p' !! r' = Picture.heap Examples.beforeMerge !! r').
Proof.
  destruct (Picture.heap Examples.beforeMerge !! 1%nat) as [b|] eqn:Hb;
    [|vm_compute in Hb; discriminate].
  assert (Hid : PictureBuffer.id b = 1).
  { vm_compute in Hb. injection Hb as <-. reflexivity. }
  assert (Hbuffers : Picture.buffers Examples.beforeMerge = [0; 1; 2]%nat)
    by (vm_compute; reflexivity).
  exists b. 
  assert (H : exists p' b',
    Picture.removeBuffer 1 Examples.beforeMerge = Picture.Returns tt p'
    /\ Picture.buffers p' = Picture.buffers Examples.beforeMerge
    /\ Picture.mergedBuffers p' = Picture.mergedBuffers Examples.beforeMerge
    /\ Picture.heap p' !! 1%nat = Some b'
    /\ PictureBuffer.events b'
       = PictureBuffer.events b
         ++ [PictureEvent.mk (Picture.activeSid Examples.beforeMerge)
               (Picture.activeSessionEventId Examples.beforeMerge) false None
               (PictureEvent.BufferRemove 1)]
    /\ PictureBuffer.id b' = 1
    /\ PictureBuffer.isRemoved b' = true
    /\ PictureBuffer.freed b'
       = PictureBuffer.freed b
         || (Z.of_nat (length (PictureBuffer.events b)) + 1
             <? PictureBuffer.undoStateInterval b * 2)
    /\ (forall r', r' <> 1%nat ->
          Picture.heap p' !! r' = Picture.heap Examples.beforeMerge !! r')).
  { apply (removeBuffer_keeps_buffer_in_stack Examples.beforeMerge 1 1 1 b); try assumption.
    - rewrite Hbuffers. repeat constructor; vm_compute; eauto.
    - rewrite Hbuffers. reflexivity.
    - rewrite Hbuffers. repeat constructor. vm_compute. discriminate. }
  destruct H as (p' & b' & H). exists p', b'. split; [reflexivity|exact H].
Defined.

(** ** Merging and undoing the merge *)

Section MergeThenUndo.

Import Picture.

Lemma put_back {A : Type} (l : list A) (n : nat) (x : A) :
  l !! n = Some x -> take n (delete n l) ++ x :: drop n (delete n l) = l.
Proof.
  intros H. pose proof (lookup_lt_Some _ _ _ H) as Hlt.
  rewrite delete_take_drop.
  rewrite take_app_length' by (rewrite length_take; lia).
  rewrite drop_app_length' by (rewrite length_take; lia).
  apply take_drop_middle. exact H.
Qed.

Lemma take_delete {A : Type} (l : list A) (n m : nat) :
  (n <= m)%nat -> take n (delete m l) = take n l.
Proof.
  intros H. rewrite delete_take_drop.
  destruct (Nat.le_gt_cases (length l) m) as [Hlen|Hlen].
  - rewrite (take_ge l m) by lia. rewrite (drop_ge l (S m)) by lia.
    rewrite app_nil_r. reflexivity.
  - rewrite take_app_le by (rewrite length_take; lia).
    rewrite take_take. f_equal. lia.
Qed.

End MergeThenUndo.

Section MergeThenUndoLatest.

Import Picture.

Lemma index_elem_of {A : Type} (arr : list A) (i : Z) (x : A) :
  JS.index arr i = Some x -> x ∈ arr.
Proof. intros H. eapply list_elem_of_lookup_2. apply index_Some_nat. exact H. Qed.

Lemma fresh_old (p : t) (e : PictureEvent.t) (r : nat) :
  forallb (fun e => negb (PictureEvent.sid e =? activeSid p)
                    || (PictureEvent.sessionEventId e <? activeSessionEventId p))
    (Spec.allEvents p) = true ->
  In r (Spec.allBuffers p) -> e ∈ Spec.logOf (heap p) r ->
  PictureEvent.sid e = activeSid p ->
  PictureEvent.sessionEventId e < activeSessionEventId p.
Proof.
  intros Hfresh Hr He Hs. rewrite forallb_forall in Hfresh.
  assert (Hin : In e (Spec.allEvents p)).
  { unfold Spec.allEvents. apply in_concat. exists (Spec.logOf (heap p) r).
    split; [apply in_map; exact Hr|apply list_elem_of_In; exact He]. }
  specialize (Hfresh e Hin). rewrite Hs, Z.eqb_refl in Hfresh. cbn in Hfresh. lia.
Qed.

End MergeThenUndoLatest.

(** X27: merging a buffer into the buffer directly below it and then
    undoing the latest event of the session gives the stack back.  For
    buffers with ids of their own, a target whose log is not empty and a
    session counter beyond the ids of the events of the session, the merge
    returns with the merged buffer out of the stack and last of the merged
    buffers, and [undoLatest] then returns the merge event marked undone,
    puts the merged buffer back at its index in the stack and takes it out
    of the merged buffers again; the event stays, undone, on top of the log
    of the target. *)
Theorem merge_then_undoLatest_restores_stack (p : Picture.t) (j : nat) (opacity : Z)
  (rm rt : nat) (bm bt : PictureBuffer.t) (keepLastBuffer : option bool)
  (Hrefs : Spec.validRefs p = true)
  (Hrt : Picture.buffers p !! j = Some rt)
  (Hrm : Picture.buffers p !! S j = Some rm)
  (Hbt : Picture.heap p !! rt = Some bt)
  (Hbm : Picture.heap p !! rm = Some bm)
  (Hother : rt <> rm)
  (Hlog : PictureBuffer.events bt <> [])
  (Hids_t : Forall (fun r => Picture.idAt (Picture.heap p) r <> Some (PictureBuffer.id bt))
              (take j (Picture.buffers p)))
  (Hids_m : Forall (fun r => Picture.idAt (Picture.heap p) r <> Some (PictureBuffer.id bm))
              (take (S j) (Picture.buffers p)))
  (Hids_merged : Forall (fun r => Picture.idAt (Picture.heap p) r
                                  <> Some (PictureBuffer.id bm))
                   (Picture.mergedBuffers p))
  (Hnot_merged : forallb (fun r => negb (r =? rt)%nat) (Picture.mergedBuffers p) = true)
  (Hcounter : 0 <= Picture.activeSessionEventId p)
  (Hfresh : forallb (fun e => negb (PictureEvent.sid e =? Picture.activeSid p)
                              || (PictureEvent.sessionEventId e
                                  <? Picture.activeSessionEventId p))
              (Spec.allEvents p) = true) :
  exists p1 p2,
    Picture.bind (Picture.createMergeEvent (Z.of_nat (S j)) opacity)
      (fun event => Picture.pushEvent (PictureBuffer.id bt) event false) p
    = Picture.Returns tt p1
    /\ Picture.buffers p1 = delete (S j) (Picture.buffers p)
    /\ Picture.mergedBuffers p1 = Picture.mergedBuffers p ++ [rm]
    /\ Picture.undoLatest keepLastBuffer p1
       = Picture.Returns
           (Some (PictureEvent.mk (Picture.activeSid p) (Picture.activeSessionEventId p)
                    true None
                    (PictureEvent.BufferMerge opacity (PictureEvent.BufferObject rm)))) p2
    /\ Picture.buffers p2 = Picture.buffers p
    /\ Picture.mergedBuffers p2 = Picture.mergedBuffers p
    /\ Spec.logOf (Picture.heap p2) rt
       = Spec.logOf (Picture.heap p) rt
         ++ [PictureEvent.mk (Picture.activeSid p) (Picture.activeSessionEventId p)
               true None
               (PictureEvent.BufferMerge opacity (PictureEvent.BufferObject rm))].
Proof.
  destruct (validRefs_arrays p Hrefs) as [Ha Hm].
  set (e := mergeEventFor p opacity rm).
  set (b1 := PictureBuffer.pushEvent e bt).
  set (m1 := PictureBuffer.setMergedTo (Some rt) bm).
  set (p1 := afterMerge p (S j) opacity rm rt bm bt).
  set (k := length (PictureBuffer.events bt)).
  assert (Hlt_t : (rt < length (Picture.heap p))%nat) by (eapply lookup_lt_Some; eauto).
  assert (Hlt_m : (rm < length (Picture.heap p))%nat) by (eapply lookup_lt_Some; eauto).
  assert (HidAt_t : Picture.idAt (Picture.heap p) rt = Some (PictureBuffer.id bt)).
  { unfold Picture.idAt. rewrite Hbt. reflexivity. }
  assert (HidAt_m : Picture.idAt (Picture.heap p) rm = Some (PictureBuffer.id bm)).
  { unfold Picture.idAt. rewrite Hbm. reflexivity. }
  (* the target is found *)
  assert (Htarget : Picture.findBuffer (PictureBuffer.id bt) p = Picture.Returns (Some rt) p).
  { unfold Picture.findBuffer. rewrite (bind_eq _ _ p p p) by reflexivity.
    rewrite (bind_eq _ _ p p (Z.of_nat j)).
    2:{ apply findBufferIndex_Returns.
        rewrite (findBufferIndexFrom_at _ _ _ 0 j rt Ha Hrt HidAt_t Hids_t). reflexivity. }
    destruct (Z.eqb_spec (Z.of_nat j) (-1)); [lia|]. cbn [negb].
    rewrite index_of_nat_lookup, Hrt. reflexivity. }
  (* the picture after the merge *)
  assert (Hmerge : Picture.bind (Picture.createMergeEvent (Z.of_nat (S j)) opacity)
                     (fun event => Picture.pushEvent (PictureBuffer.id bt) event false) p
                   = Picture.Returns tt p1).
  { apply merge_state; assumption. }
  assert (Hb1 : Picture.heap p1 !! rt = Some b1).
  { cbn [p1 afterMerge Picture.heap Picture.setMergedBuffers Picture.setBuffers
         Picture.setHeap].
    rewrite list_lookup_insert_ne by auto. apply list_lookup_insert_eq. exact Hlt_t. }
  assert (Hm1 : Picture.heap p1 !! rm = Some m1).
  { cbn [p1 afterMerge Picture.heap Picture.setMergedBuffers Picture.setBuffers
         Picture.setHeap].
    apply list_lookup_insert_eq. rewrite length_insert. exact Hlt_m. }
  assert (Hids1 : ids (Picture.heap p1) = ids (Picture.heap p)).
  { cbn [p1 afterMerge Picture.heap Picture.setMergedBuffers Picture.setBuffers
         Picture.setHeap].
    rewrite (ids_insert _ rm bm); [apply (ids_insert _ rt bt); auto| |reflexivity].
    rewrite list_lookup_insert_ne by auto. exact Hbm. }
  assert (Hold : forall r, r <> rt ->
            Spec.logOf (Picture.heap p1) r = Spec.logOf (Picture.heap p) r).
  { intros r Hne. unfold Spec.logOf.
    cbn [p1 afterMerge Picture.heap Picture.setMergedBuffers Picture.setBuffers
         Picture.setHeap].
    destruct (decide (r = rm)) as [->|Hne2].
    - rewrite list_lookup_insert_eq by (rewrite length_insert; exact Hlt_m).
      rewrite Hbm. reflexivity.
    - rewrite !list_lookup_insert_ne by auto. reflexivity. }
  assert (Hin_old : forall r, r ∈ Picture.buffers p1 \/ r ∈ Picture.mergedBuffers p1 ->
            In r (Spec.allBuffers p)).
  { intros r [Hr|Hr]; unfold Spec.allBuffers; apply in_or_app.
    - left. apply list_elem_of_In. eapply list_elem_of_delete_inv. exact Hr.
    - cbn [p1 afterMerge Picture.mergedBuffers Picture.setMergedBuffers] in Hr.
      apply elem_of_app in Hr as [Hr|Hr]; [right; apply list_elem_of_In; exact Hr|].
      apply list_elem_of_singleton in Hr as ->. left. apply list_elem_of_In.
      eapply list_elem_of_lookup_2. exact Hrm. }
  assert (Hrefs1 : Spec.validRefs p1 = true).
  { unfold Spec.validRefs. apply forallb_forall. intros r Hr. apply bool_decide_eq_true.
    assert (Hr' : In r (Spec.allBuffers p)).
    { apply Hin_old. unfold Spec.allBuffers in Hr. apply in_app_or in Hr.
      destruct Hr as [Hr|Hr]; [left|right]; apply list_elem_of_In; exact Hr. }
    unfold Spec.validRefs in Hrefs. rewrite forallb_forall in Hrefs.
    specialize (Hrefs r Hr'). apply bool_decide_eq_true in Hrefs.
    apply lookup_lt_is_Some. apply lookup_lt_is_Some in Hrefs.
    cbn [p1 afterMerge Picture.heap Picture.setMergedBuffers Picture.setBuffers
         Picture.setHeap].
    rewrite !length_insert. exact Hrefs. }
  assert (Hj1 : Picture.buffers p1 !! j = Some rt).
  { cbn [p1 afterMerge Picture.buffers Picture.setMergedBuffers Picture.setBuffers].
    rewrite list_lookup_delete_lt by lia. exact Hrt. }
  assert (Hk : JS.index (PictureBuffer.events b1) (Z.of_nat k) = Some e).
  { rewrite index_of_nat_lookup. unfold b1. rewrite events_pushEvent.
    apply list_lookup_middle. reflexivity. }
  assert (Hk0 : Z.of_nat k <> 0).
  { unfold k. destruct (PictureBuffer.events bt); [contradiction|]. cbn [length]. lia. }
  (* the latest event is the merge event *)
  destruct (findLatest_spec (Picture.activeSid p1) false p1 Hrefs1) as (res & Hres & Hspec).
  assert (Hin : In e (Spec.allEvents p1)).
  { apply (allEvents_elem p1 Picture.Active rt b1 (Z.of_nat k) e); auto.
    eapply list_elem_of_lookup_2. exact Hj1. }
  assert (Hcand : PictureBuffer.isCandidate (Picture.activeSid p1) false e = true).
  { unfold PictureBuffer.isCandidate. cbn. rewrite Z.eqb_refl. reflexivity. }
  destruct res as [l|]; [|specialize (Hspec e Hin Hcand); cbn in Hspec; lia].
  destruct Hspec as (_ & Hbound & r & b & e' & Hr & Hb & He' & Hc' & Hid').
  specialize (Hbound e Hin Hcand). cbn [e mergeEventFor PictureEvent.sessionEventId] in Hbound.
  assert (Hsid' : PictureEvent.sid e' = Picture.activeSid p).
  { unfold PictureBuffer.isCandidate in Hc'. apply andb_true_iff in Hc' as [Hs _].
    apply Z.eqb_eq in Hs. exact Hs. }
  assert (Hr_in : r ∈ Picture.buffers p1 \/ r ∈ Picture.mergedBuffers p1).
  { destruct (Picture.inRemovedBuffer l); [right|left]; eapply index_elem_of; exact Hr. }
  assert (He'_in : e' ∈ Spec.logOf (Picture.heap p1) r).
  { unfold Spec.logOf. rewrite Hb. eapply index_elem_of. exact He'. }
  assert (Hrt' : r = rt).
  { destruct (decide (r = rt)) as [Heq|Hne]; [exact Heq|]. exfalso.
    rewrite (Hold r Hne) in He'_in.
    pose proof (fresh_old p e' r Hfresh (Hin_old r Hr_in) He'_in Hsid'). lia. }
  subst r. rewrite Hb1 in Hb. injection Hb as <-.
  assert (Hidx : Picture.eventIndex l = Z.of_nat k /\ e' = e).
  { pose proof (index_Some_nat _ _ _ He') as Hn.
    assert (Hnn : 0 <= Picture.eventIndex l).
    { unfold JS.index in He'. destruct (Z.ltb_spec (Picture.eventIndex l) 0); [discriminate|lia]. }
    unfold b1 in Hn. rewrite events_pushEvent in Hn.
    destruct (Nat.lt_ge_cases (Z.to_nat (Picture.eventIndex l)) k) as [Hlt|Hge].
    - exfalso. rewrite lookup_app_l in Hn by exact Hlt.
      assert (Hold_e : e' ∈ Spec.logOf (Picture.heap p) rt).
      { unfold Spec.logOf. rewrite Hbt. eapply list_elem_of_lookup_2. exact Hn. }
      assert (Hrt_in : In rt (Spec.allBuffers p)).
      { unfold Spec.allBuffers. apply in_or_app. left. apply list_elem_of_In.
        eapply list_elem_of_lookup_2. exact Hrt. }
      pose proof (fresh_old p e' rt Hfresh Hrt_in Hold_e Hsid'). lia.
    - rewrite lookup_app_r in Hn by exact Hge. fold k in Hn.
      destruct (Z.to_nat (Picture.eventIndex l) - k)%nat as [|d] eqn:Hd;
        [|cbn in Hn; discriminate].
      cbn in Hn. injection Hn as <-. split; [lia|reflexivity]. }
  destruct Hidx as [Hidx ->].
  assert (Hactive : Picture.inRemovedBuffer l = false).
  { destruct (Picture.inRemovedBuffer l); [|reflexivity]. exfalso.
    apply index_elem_of in Hr.
    cbn [p1 afterMerge Picture.mergedBuffers Picture.setMergedBuffers] in Hr.
    apply elem_of_app in Hr as [Hr|Hr].
    - rewrite forallb_forall in Hnot_merged. apply list_elem_of_In in Hr.
      specialize (Hnot_merged rt Hr). rewrite Nat.eqb_refl in Hnot_merged. discriminate.
    - apply list_elem_of_singleton in Hr. contradiction. }
  rewrite Hactive in Hr.
  (* undoing it *)
  destruct (undoEventIndex_merge p1 rt rm j (length (Picture.mergedBuffers p))
              (Z.of_nat k) opacity b1 m1 e Hb1 Hm1 Hk Hk0 eq_refl)
    as (p2 & Hundo & Hbuffers & Hmerged & Hlog2).
  { rewrite (findBufferIndexFrom_ids _ _ _ _ _ Hids1).
    cbn [p1 afterMerge Picture.buffers Picture.setMergedBuffers Picture.setBuffers].
    change (PictureBuffer.id b1) with (PictureBuffer.id bt).
    rewrite (findBufferIndexFrom_at (Picture.heap p) _ (PictureBuffer.id bt) 0 j rt);
      [reflexivity| | | |].
    - apply Forall_delete. exact Ha.
    - rewrite list_lookup_delete_lt by lia. exact Hrt.
    - exact HidAt_t.
    - rewrite take_delete by lia. exact Hids_t. }
  { rewrite (findBufferIndexFrom_ids _ _ _ _ _ Hids1).
    cbn [p1 afterMerge Picture.mergedBuffers Picture.setMergedBuffers].
    change (PictureBuffer.id m1) with (PictureBuffer.id bm).
    rewrite (findBufferIndexFrom_at (Picture.heap p) _ (PictureBuffer.id bm) 0
               (length (Picture.mergedBuffers p)) rm); [reflexivity| | | |].
    - apply Forall_app. split; [exact Hm|]. repeat constructor. eauto.
    - apply list_lookup_middle. reflexivity.
    - exact HidAt_m.
    - rewrite take_app_length. exact Hids_merged. }
  exists p1, p2. split; [exact Hmerge|]. split; [reflexivity|]. split; [reflexivity|].
  split; [|split; [|split]].
  - unfold Picture.undoLatest. rewrite (bind_eq _ _ p1 p1 p1) by reflexivity.
    rewrite (bind_eq _ _ _ _ _ Hres). rewrite Hactive.
    rewrite (bind_eq _ _ p1 p1 rt) by (apply defined_Returns; auto).
    rewrite Hidx. destruct (Z.eqb_spec (Z.of_nat k) 0); [contradiction|].
    rewrite andb_false_r. exact Hundo.
  - rewrite Hbuffers.
    cbn [p1 afterMerge Picture.buffers Picture.setMergedBuffers Picture.setBuffers].
    apply put_back. exact Hrm.
  - rewrite Hmerged. cbn [p1 afterMerge Picture.mergedBuffers Picture.setMergedBuffers].
    rewrite delete_middle. apply app_nil_r.
  - rewrite Hlog2. unfold Spec.logOf. rewrite Hbt. unfold b1.
    rewrite events_pushEvent, Nat2Z.id. unfold k.
    rewrite insert_app_r_alt by lia. rewrite Nat.sub_diag. reflexivity.
Qed.

Lemma merge_then_undoLatest_restores_stack_witness :
  exists p1 p2,
    Picture.bind (Picture.createMergeEvent (Z.of_nat 1) 1)
      (fun event => Picture.pushEvent 0 event false) Examples.beforeMerge
    = Picture.Returns tt p1
    /\ Picture.buffers p1 = delete 1%nat (Picture.buffers Examples.beforeMerge)
    /\ Picture.mergedBuffers p1 = Picture.mergedBuffers Examples.beforeMerge ++ [1%nat]
    /\ Picture.undoLatest None p1
       = Picture.Returns
           (Some (PictureEvent.mk (Picture.activeSid Examples.beforeMerge)
                    (Picture.activeSessionEventId Examples.beforeMerge) true None
                    (PictureEvent.BufferMerge 1 (PictureEvent.BufferObject 1)))) p2
    /\ Picture.buffers p2 = Picture.buffers Examples.beforeMerge
    /\ Picture.mergedBuffers p2 = Picture.mergedBuffers Examples.beforeMerge
    /\ Spec.logOf (Picture.heap p2) 0
       = Spec.logOf (Picture.heap Examples.beforeMerge) 0
         ++ [PictureEvent.mk (Picture.activeSid Examples.beforeMerge)
               (Picture.activeSessionEventId Examples.beforeMerge) true None
               (PictureEvent.BufferMerge 1 (PictureEvent.BufferObject 1))].
Proof.
  destruct (Picture.heap Examples.beforeMerge !! 0%nat) as [bt|] eqn:Hbt;
    [|vm_compute in Hbt; discriminate].
  destruct (Picture.heap Examples.beforeMerge !! 1%nat) as [bm|] eqn:Hbm;
    [|vm_compute in Hbm; discriminate].
  assert (Hidt : PictureBuffer.id bt = 0).
  { vm_compute in Hbt. injection Hbt as <-. reflexivity. }
  assert (Hidm : PictureBuffer.id bm = 1).
  { vm_compute in Hbm. injection Hbm as <-. reflexivity. }
  assert (Hlog : PictureBuffer.events bt <> []).
  { vm_compute in Hbt. injection Hbt as <-. discriminate. }
  assert (Hbuffers : Picture.buffers Examples.beforeMerge = [0; 1; 2]%nat)
    by (vm_compute; reflexivity).
  assert (Hmerged : Picture.mergedBuffers Examples.beforeMerge = [])
    by (vm_compute; reflexivity).
  rewrite <- Hidt.
  apply (merge_then_undoLatest_restores_stack Examples.beforeMerge 0 1 1 0 bm bt None);
    try assumption.
  - vm_compute. reflexivity.
  - rewrite Hbuffers. reflexivity.
  - rewrite Hbuffers. reflexivity.
  - discriminate.
  - rewrite Hbuffers. constructor.
  - rewrite Hbuffers, Hidm. repeat constructor. vm_compute. discriminate.
  - rewrite Hmerged. constructor.
  - vm_compute. reflexivity.
  - vm_compute. discriminate.
  - vm_compute. reflexivity.
Defined.
